(* ===== verification/_CoqProject ===== *)
-Q . S2P
Prelude.v
GoStrings.v
GoJson.v
GoFloat.v
GoTime.v
GoSha.v
GoFmt.v
GoJsonText.v
Api.v
Model.v
Normalize.v
Graph.v
Checks.v
Policy.v
Attack.v
Risk.v
Compliance.v
Frameworks.v
Waiver.v
Analyzer.v
History.v
HistoryBackends.v
Offline.v
Live.v
Reports.v
Html.v
Asff.v
ReportJson.v
Server.v
Harden.v
Webhook.v
Lifecycle.v
MemStore.v
Auth.v
PgStore.v
PgSim.v
ScanIds.v
DashStore.v
Broker.v
Stream.v
FindingQuery.v
Sources.v
ScanCmd.v
ServeCmd.v
Handlers.v
Service.v
Triage.v
Workers.v
Metrics.v
Http.v
DashboardCmd.v
DashboardRun.v
Commands.v
