(* ===== verification/Prelude.v ===== *)
(** * KubeGuard: a verification library

    KubeGuard scans Kubernetes resources for misconfigurations, chains what it finds into attack
    paths, and reports compliance posture.  It runs as a scanner on the command line, a small REST
    service, an admission webhook, and a multi-tenant dashboard.  This library models that code
    function by function and proves what it promises.

    ** The program and the files

    A scan is a pipeline: a loader reads resources, [Build] normalises them into a graph, the checks
    produce findings, the attack engine chains them, the risk engine ranks them, and the framework
    packs are evaluated against them; the result is one [Report], which the writers print, the
    services cache and the dashboard stores.

    Go and its standard library, as far as the program uses them:
    - GoStrings (strings, strconv, the fmt verbs), GoFmt (padding, fixed-point verbs, UTF-8,
      encoding/csv), GoJson (decoding into [any] and into structs), GoJsonText (the text
      encoding/json writes, and a reader of it), GoFloat (binary64 on SpecFloat), GoTime (RFC 3339
      and instants in nanoseconds), GoSha (SHA-256, executable).
    The pipeline:
    - Api (pkg/api/types.go), Model (internal/model), Normalize and Graph (internal/graph), Checks
      (internal/checks), Policy (internal/policy), Attack (internal/attack), Risk (internal/risk),
      Compliance (internal/compliance), Frameworks (frameworks/*.yaml), Waiver (internal/waiver),
      Analyzer (internal/analyzer and the gate of internal/cli).
    Input and output:
    - Offline and Live (internal/loader); History and HistoryBackends (internal/history: the JSONL
      and the SQLite store behind one interface); Reports, Asff, Html and ReportJson
      (internal/report, internal/dashboard/export.go: console, annotations, CSV, ASFF, HTML, JSON);
      Harden (internal/harden).
    The services:
    - Server (internal/server), Webhook (internal/webhook), and the dashboard (internal/dashboard):
      Lifecycle, Auth, Broker, FindingQuery, Handlers (every route), Service (the states it reaches
      and what holds in them), Triage (the triage lane), Stream (the event stream), Workers (the
      queue and the scheduler), ScanIds, Metrics, Http (the layers around the routes).
    - The stores: MemStore, PgStore (the tables and statements of pg/pg.go), PgSim (the two agree),
      DashStore (the [Store] interface with its laws, which both implement).
    The processes:
    - ScanCmd (internal/cli/scan.go with the file side of policies and waivers), ServeCmd (serve.go
      and the server's [Start]), Sources, DashboardCmd and DashboardRun (clustersource.go and
      dashboard.go), Commands (the command tree, the flags, the logger, the exit codes, and the
      small commands).
    This file holds the notations, the hint databases and the lemmas on lists, strings, maps and
    stable sorting that the others share.

    ** How code becomes definitions

    Definitions keep the names of the source and are executable.  A struct is a record, a Go map a
    finite map, a slice a list; [error] results are [res], and [None] in an [option] result is a
    panic.  A loop is a fold or a structural Fixpoint; nothing needs fuel except the blocks of
    a hash, whose number is the fuel, and the retry loop, which has the three attempts of the
    source.  [int] is [Z]: where a
    result can leave 64 bits on an input a caller chooses (the pages of FindingQuery and MemStore)
    the wrap-around is written out, [wrap64]; counters and lengths are not bounded.  [float64] is the
    specification of IEEE binary64, so rates and rounding are exact.  Strings are bytes; case mapping
    covers ASCII and the code points that fold to it.  Years run from 0 to 9999 in GoTime, as in RFC
    3339; the ASFF limits are the 256 and 1024 bytes and 32 entries of the source; a broker channel
    holds the 16 events of the source.

    State is passed explicitly.  The store, the broker and the queue of the dashboard are values that
    operations transform; the reachable states are inductive predicates ([MemStore.reachable],
    [Broker.brun], [Service.served], [DashStore.logged]).  Concurrency is interleaving: MemStore and
    Broker for any order of their operations, Server for any interleaving of the single updates two
    scans make, Workers for any interleaving of the steps of its goroutines.

    ** What the theorems show

    - Detection: the scan reports exactly the violations (Checks), a ServiceAccount's capabilities
      are exactly its grants (Graph), attack paths are exactly the chains and each hop rests on a
      finding (Attack), a report is one consistent picture (Analyzer), custom policies report exactly
      their matches and packs that load are sound (Policy).
    - Honest numbers: denominators and rates of compliance, agreement of evidence and report, bounds
      for the shipped packs (Compliance, Frameworks), fleet sums (MemStore), metrics that describe
      the scans recorded (Metrics).
    - Waivers: never a silent suppression, expiry only re-blocks, sound files (Waiver), enforcement
      and triage (Triage, Service).
    - Commands: exit codes tell what happened (ScanCmd, Commands), erasing a tenant erases all of it
      (Commands), the hardened bundle scans clean (Harden), the dashboard starts ready and runs on
      (DashboardCmd, DashboardRun).
    - Input and output: the loader keeps exactly the manifests (Offline), a live scan and a scan of
      its snapshot agree (Live); annotations, CSV, the two histories and the JSON of reports read
      back as written (Reports, HistoryBackends, ReportJson); no text of a report adds markup to a
      page (Html); the ASFF bounds (Asff).
    - Services: the REST service refines a list of reports, down to the text of its answers (Server,
      ServeCmd), and is safe under concurrent scans (Server); admission is exact (Webhook); the
      dashboard isolates tenants, fails closed, audits, answers every request, keeps triage rows
      consistent and scans atomically (Service, FindingQuery); its events reach the subscribers in
      order (Broker, Stream), its queue drains (Workers), its layers guard every route (Http).
    - Stores: each implementation answers from the log of its calls alone (DashStore), the schema of
      the Postgres store holds whatever fails (PgStore), and it agrees with the in-memory store
      (PgSim).

    Some theorems and lemmas establish what the code does against what it says: [Graph.role_capture],
    [Checks.shadowed_role_unseen], [Graph.coverage_counts_undecodable],
    [Attack.node_hop_misattributed], [MemStore.erasure_undone], [Service.sources_shared],
    [Service.triage_drops_waiver], [Server.metrics_can_be_stale],
    [Reports.annotation_id_unescaped], [Asff.asffTruncate_splits_rune], [Asff.technique_shape],
    [Harden.bundle_implicit_registry], [History.torn_write_unreadable],
    [DashboardCmd.flag_id_not_validated], [DashboardRun.certificate_without_key],
    [HistoryBackends.null_rate_unreadable], [ReportJson.no_findings_null], [Metrics.gauges_shared],
    [PgStore.unstored_scan_succeeds], [PgStore.absent_cluster_loses_triage],
    [PgSim.fleet_report_differs], [Workers.enqueue_after_close].

    ** Parameters

    What is not under src/ is an argument: YAML decoding, CEL, token verification and key sets,
    client-go, the SARIF and PDF libraries, cobra's parser, cron's parser and clock, the token
    bucket, the file system, which statements of a database succeed and how it orders ties, and the
    clock.  The language and its standard library are defined: strings, numbers, times, SHA-256,
    encoding/json, encoding/csv, and the escapers of html/template for the contexts the templates
    use.  A theorem that relies on a parameter says so in its hypotheses, and its witness
    instantiates them.

    ** Not modelled

    - The dashboard process over Postgres: the start of the process with a DSN is a parameter of
      Commands.  Its store is modelled (PgStore, DashStore) and so is opening it (DashboardRun), but
      the handlers are those over the in-memory store, whose interface is the same.
    - What the SARIF, PDF, Prometheus, OpenTelemetry, goose and client-go libraries do with the
      calls they get; the schema is that of the migrations, not the migrations themselves.
    - The refill of the rate limiter's buckets, the time at which the entries of cron come round, TLS,
      and the byte stream of a connection.
    - The usage texts of the flags, and the web client. *)

From Stdlib Require Export ZArith Lia.
From stdpp Require Export prelude gmap strings list pretty sorting.

(** * Notations

    Go compares strings bytewise; [==] on strings is [String.eqb] and [<] is
    [String.ltb].  The notations live in a scope of their own. *)

Declare Scope kg_scope.
Delimit Scope kg_scope with kg.

Notation "s =s t" := (String.eqb s t) (at level 35, no associativity) : kg_scope.
Notation "s <>s t" := (negb (String.eqb s t)) (at level 35, no associativity) : kg_scope.
Notation "s <s t" := (String.ltb s t) (at level 35, no associativity) : kg_scope.
Open Scope kg_scope.

(** * Hint databases of the development

    [kg] holds the membership and preservation lemmas that close routine goals;
    [kgrw] holds the rewriting rules that turn the loops of the code into
    statements on lists. *)

Create HintDb kg.
Create Rewrite HintDb kgrw.

(** * Generic definitions *)

(** A Go loop [for _, x := range l { if y, ok := f x; ok { return y } }]. *)
Fixpoint first_some {A B} (f : A → option B) (l : list A) : option B :=
  match l with
  | [] => None
  | x :: l' => match f x with Some y => Some y | None => first_some f l' end
  end.

(** [m[k]] for a Go [map[string]bool] written as a literal whose values are all
    [true]: membership of the key. *)
Definition mem_str (k : string) (keys : list string) : bool :=
  existsb (String.eqb k) keys.
#[global] Arguments mem_str : simpl never.

(** [m[k]] for a Go map with zero value [d]. *)
Definition map_get {V} (d : V) (m : gmap string V) (k : string) : V :=
  default d (m !! k).

(** [m[k]++] on a [map[string]int], the tally of a list of keys, and the sum of
    the entries of a tally. *)
Definition tally_add (m : gmap string Z) (k : string) : gmap string Z :=
  <[k := (map_get 0 m k + 1)%Z]> m.

Definition tally (ks : list string) : gmap string Z := foldl tally_add ∅ ks.

Definition map_sum (m : gmap string Z) : Z := map_fold (λ _ v acc, (v + acc)%Z) 0%Z m.

(** The number of elements of a list that satisfy a test. *)
Definition count {A} (p : A → bool) (l : list A) : Z := Z.of_nat (length (List.filter p l)).

(** The sum of a field over a list. *)
Definition sum_of {A} (f : A → Z) (l : list A) : Z := foldr (λ x acc, (f x + acc)%Z) 0%Z l.

(** [sort.SliceStable(l, less)]: the stable sort by a [less] function.  The result
    of a stable sort by a strict weak order is unique ([slice_stable_unique]), so
    an insertion sort is the reference for the library's routine. *)
Fixpoint insert_stable {A} (less : A → A → bool) (x : A) (l : list A) : list A :=
  match l with
  | [] => [x]
  | y :: l' => if less y x then y :: insert_stable less x l' else x :: y :: l'
  end.

Definition slice_stable {A} (less : A → A → bool) (l : list A) : list A :=
  foldr (insert_stable less) [] l.

(** [sort.Strings(l)]: equal strings are indistinguishable, so stability is moot. *)
Definition sort_strings (l : list string) : list string :=
  slice_stable String.ltb l.

(** A value or an error: Go's [(T, error)] with exactly one of the two meaningful. *)
Inductive res (A : Type) : Type :=
| Ok (a : A)
| Err (msg : string).
Arguments Ok {A} a.
Arguments Err {A} msg.

#[export] Instance res_ret : MRet res := λ A a, Ok a.
#[export] Instance res_bind : MBind res := λ A B k r,
  match r with Ok a => k a | Err e => Err e end.

(** [fmt.Errorf("pre: %w", err)] *)
Definition wrap_err {A} (pre : string) (r : res A) : res A :=
  match r with Ok a => Ok a | Err e => Err (pre +:+ e) end.

Definition is_ok {A} (r : res A) : bool := match r with Ok _ => true | Err _ => false end.

(** A loop that stops at the first error. *)
Fixpoint map_res {A B} (f : A → res B) (l : list A) : res (list B) :=
  match l with
  | [] => Ok []
  | x :: l' => match f x with
               | Ok y => match map_res f l' with Ok ys => Ok (y :: ys) | Err e => Err e end
               | Err e => Err e
               end
  end.

(** Strict weak orders: what [sort.SliceStable] asks of its [less] argument. *)
Class StrictWeak {A} (less : A → A → bool) : Prop := {
  sw_irrefl x : less x x = false;
  sw_trans x y z : less x y = true → less y z = true → less x z = true;
  sw_negtrans x y z : less x z = true → less x y = true ∨ less y z = true
}.

(** Strict total orders, for the keys of a comparison chain. *)
Class StrictTotal {K} (lt : K → K → bool) : Prop := {
  st_irrefl x : lt x x = false;
  st_trans x y z : lt x y = true → lt y z = true → lt x z = true;
  st_total x y : x ≠ y → lt x y = true ∨ lt y x = true
}.

(** Two elements the order does not separate. *)
Definition tied {A} (less : A → A → bool) (x y : A) : bool :=
  negb (less x y) && negb (less y x).

(** The order of a list sorted by [less]: no later element is less than an
    earlier one. *)
Definition sorted_by {A} (less : A → A → bool) : list A → Prop :=
  StronglySorted (λ x y, less y x = false).

(** * Tactics *)

(** Case analysis on a string comparison of the goal or of a hypothesis. *)
Ltac case_str :=
  match goal with
  | |- context [String.eqb ?a ?b] => destruct (String.eqb_spec a b)
  | H : context [String.eqb ?a ?b] |- _ => destruct (String.eqb_spec a b)
  end.

(** Case analysis on the scrutinee of the first [if] or [match]. *)
Ltac case_scrut :=
  match goal with
  | |- context [match ?x with _ => _ end] => destruct x eqn:?
  | H : context [match ?x with _ => _ end] |- _ => destruct x eqn:?
  end.

(** Turn boolean hypotheses into propositions. *)
Ltac boolify :=
  repeat match goal with
  | H : _ && _ = true |- _ => apply andb_true_iff in H as [? ?]
  | H : _ || _ = false |- _ => apply orb_false_iff in H as [? ?]
  | H : _ || _ = true |- _ => apply orb_true_iff in H
  | H : _ && _ = false |- _ => apply andb_false_iff in H
  | H : negb _ = true |- _ => apply negb_true_iff in H
  | H : negb _ = false |- _ => apply negb_false_iff in H
  | H : (_ =s _) = true |- _ => apply String.eqb_eq in H
  | H : (_ =s _) = false |- _ => apply String.eqb_neq in H
  | H : (_ <? _)%Z = true |- _ => apply Z.ltb_lt in H
  | H : (_ <? _)%Z = false |- _ => apply Z.ltb_ge in H
  | H : (_ <=? _)%Z = true |- _ => apply Z.leb_le in H
  | H : (_ <=? _)%Z = false |- _ => apply Z.leb_gt in H
  | H : (_ =? _)%Z = true |- _ => apply Z.eqb_eq in H
  | H : (_ =? _)%Z = false |- _ => apply Z.eqb_neq in H
  end.

(** * Lists: loops with an early return *)

Lemma mem_str_spec k keys : mem_str k keys = true ↔ k ∈ keys.
Proof.
  unfold mem_str. rewrite existsb_exists. setoid_rewrite String.eqb_eq.
  setoid_rewrite <-list_elem_of_In. naive_solver.
Qed.

Lemma existsb_elem {A} (p : A → bool) l :
  existsb p l = true ↔ ∃ x, x ∈ l ∧ p x = true.
Proof. rewrite existsb_exists. by setoid_rewrite <-list_elem_of_In. Qed.

Lemma existsb_none {A} (p : A → bool) l :
  existsb p l = false ↔ ∀ x, x ∈ l → p x = false.
Proof.
  rewrite <-not_true_iff_false, existsb_elem. split.
  - intros H x Hx. apply not_true_is_false. eauto.
  - intros H (x & Hx & Hp). by rewrite (H x Hx) in Hp.
Qed.

Lemma forallb_elem {A} (p : A → bool) l :
  forallb p l = true ↔ ∀ x, x ∈ l → p x = true.
Proof. rewrite forallb_forall. by setoid_rewrite <-list_elem_of_In. Qed.

Lemma first_some_Some {A B} (f : A → option B) l y :
  first_some f l = Some y →
  ∃ l1 x l2, l = l1 ++ x :: l2 ∧ f x = Some y ∧ ∀ z, z ∈ l1 → f z = None.
Proof.
  induction l as [|x l IH]; [done|]. simpl. destruct (f x) eqn:E.
  - intros [= ->]. exists [], x, l. set_solver.
  - intros (l1 & x' & l2 & -> & ? & ?)%IH. exists (x :: l1), x', l2. set_solver.
Qed.

Lemma first_some_elem {A B} (f : A → option B) l y :
  first_some f l = Some y → ∃ x, x ∈ l ∧ f x = Some y.
Proof. intros (l1 & x & l2 & -> & ? & _)%first_some_Some. exists x. set_solver. Qed.

Lemma first_some_None {A B} (f : A → option B) l :
  first_some f l = None ↔ ∀ x, x ∈ l → f x = None.
Proof.
  induction l as [|x l IH]; simpl; [set_solver|].
  destruct (f x) eqn:E; [|rewrite IH; set_solver].
  split; [done|]. intros H. specialize (H x). rewrite H in E; set_solver.
Qed.

Lemma find_elem {A} (p : A → bool) l x : List.find p l = Some x → x ∈ l ∧ p x = true.
Proof. intros [H1 H2]%List.find_some. by apply list_elem_of_In in H1. Qed.

Lemma find_is_Some {A} (p : A → bool) l :
  is_Some (List.find p l) ↔ ∃ x, x ∈ l ∧ p x = true.
Proof.
  split.
  - intros [x H%find_elem]. by exists x.
  - intros (x & Hx & Hp). destruct (List.find p l) eqn:E; [done|].
    eapply List.find_none in E; [|by apply list_elem_of_In]. congruence.
Qed.

Lemma elem_of_flat_map {A B} (f : A → list B) l y :
  y ∈ flat_map f l ↔ ∃ x, x ∈ l ∧ y ∈ f x.
Proof.
  rewrite list_elem_of_In, in_flat_map. by setoid_rewrite list_elem_of_In.
Qed.

Lemma elem_of_list_filter {A} (p : A → bool) l x :
  x ∈ List.filter p l ↔ x ∈ l ∧ p x = true.
Proof. by rewrite !list_elem_of_In, filter_In. Qed.

Lemma list_lookup_map {A B} (f : A → B) l i : map f l !! i = f <$> l !! i.
Proof. revert i. induction l as [|x l IH]; intros [|i]; simpl; auto. Qed.

Lemma map_res_Ok {A B} (f : A → res B) l ys :
  map_res f l = Ok ys ↔ Forall2 (λ x y, f x = Ok y) l ys.
Proof.
  revert ys. induction l as [|x l IH]; intros ys; simpl.
  - split; [intros [= <-]; constructor|by inversion 1].
  - destruct (f x) as [y|e] eqn:E; [|split; [done|inversion 1; congruence]].
    destruct (map_res f l) as [ys'|e].
    + split.
      * intros [= <-]. constructor; [done|]. by apply IH.
      * inversion 1; simplify_eq. do 2 f_equal; [congruence|].
        match goal with H : Forall2 _ l _ |- _ => apply IH in H; congruence end.
    + split; [done|]. inversion 1; simplify_eq.
      match goal with H : Forall2 _ l _ |- _ => apply IH in H; congruence end.
Qed.

#[export] Hint Resolve first_some_elem find_elem : kg.

(** * Counting and tallies *)

Lemma count_nil {A} (p : A → bool) : count p [] = 0%Z.
Proof. done. Qed.

Lemma count_cons {A} (p : A → bool) x l :
  count p (x :: l) = ((if p x then 1 else 0) + count p l)%Z.
Proof. unfold count. simpl. destruct (p x); simpl; lia. Qed.

Lemma count_app {A} (p : A → bool) l1 l2 : count p (l1 ++ l2) = (count p l1 + count p l2)%Z.
Proof. unfold count. rewrite List.filter_app, length_app. lia. Qed.

Lemma count_nonneg {A} (p : A → bool) l : (0 <= count p l)%Z.
Proof. unfold count. lia. Qed.

Lemma count_pos {A} (p : A → bool) l : (0 < count p l)%Z ↔ ∃ x, x ∈ l ∧ p x = true.
Proof.
  unfold count. split.
  - destruct (List.filter p l) as [|x l'] eqn:E; simpl; [lia|]. intros _. exists x.
    apply elem_of_list_filter. rewrite E. left.
  - intros (x & Hx). apply elem_of_list_filter in Hx.
    destruct (List.filter p l); [by apply not_elem_of_nil in Hx|simpl; lia].
Qed.

Lemma count_le {A} (p : A → bool) l : (count p l <= Z.of_nat (length l))%Z.
Proof. unfold count. pose proof (List.filter_length_le p l). lia. Qed.

Lemma count_negb {A} (p : A → bool) l :
  (count p l + count (λ x, negb (p x)) l = Z.of_nat (length l))%Z.
Proof.
  induction l as [|x l IH]; [done|]. rewrite !count_cons. simpl length.
  destruct (p x); simpl; lia.
Qed.

Lemma count_mono {A} (p q : A → bool) l :
  (∀ x, x ∈ l → p x = true → q x = true) → (count p l <= count q l)%Z.
Proof.
  induction l as [|x l IH]; intros H; [unfold count; simpl; lia|]. rewrite !count_cons.
  assert (count p l <= count q l)%Z by (apply IH; set_solver).
  pose proof (H x ltac:(left)). destruct (p x), (q x); lia || naive_solver.
Qed.

#[export] Hint Resolve count_nonneg count_le : kg.

Lemma sum_of_app {A} (f : A → Z) l1 l2 : sum_of f (l1 ++ l2) = (sum_of f l1 + sum_of f l2)%Z.
Proof. induction l1 as [|x l1 IH]; simpl; [done|]. rewrite IH. lia. Qed.

Lemma sum_of_filter_cons {A} (f : A → Z) (q : A → bool) x l :
  sum_of f (List.filter q (x :: l)) = ((if q x then f x else 0) + sum_of f (List.filter q l))%Z.
Proof. simpl. by destruct (q x). Qed.

#[export] Hint Rewrite @sum_of_app @sum_of_filter_cons : kgrw.

Lemma map_sum_empty : map_sum ∅ = 0%Z.
Proof. apply map_fold_empty. Qed.

Lemma map_sum_insert_None m k v :
  m !! k = None → map_sum (<[k := v]> m) = (v + map_sum m)%Z.
Proof.
  intros H. unfold map_sum.
  rewrite (map_fold_insert_L (λ (_ : string) v acc, (v + acc)%Z)); [done|lia|done].
Qed.

Lemma map_sum_insert m k v :
  map_sum (<[k := v]> m) = (map_sum m - map_get 0%Z m k + v)%Z.
Proof.
  unfold map_get. destruct (m !! k) as [v'|] eqn:E; simpl.
  - rewrite <-insert_delete_eq, map_sum_insert_None by apply lookup_delete_eq.
    rewrite <-(insert_delete_id m k v' E) at 2.
    rewrite (map_sum_insert_None (delete k m)) by apply lookup_delete_eq. lia.
  - rewrite map_sum_insert_None by done. lia.
Qed.

Lemma map_get_insert {V} (d v : V) m k k' :
  map_get d (<[k := v]> m) k' = if k =s k' then v else map_get d m k'.
Proof.
  unfold map_get. rewrite lookup_insert.
  destruct (String.eqb_spec k k'); case_decide; done.
Qed.

Lemma tally_fold_get ks m k :
  map_get 0%Z (foldl tally_add m ks) k = (map_get 0 m k + count (λ k', k' =s k) ks)%Z.
Proof.
  revert m. induction ks as [|k' ks IH]; intros m; simpl.
  - rewrite count_nil. lia.
  - rewrite IH, count_cons. unfold tally_add. rewrite map_get_insert.
    case_str; subst; lia.
Qed.

Lemma tally_get ks k : map_get 0%Z (tally ks) k = count (λ k', k' =s k) ks.
Proof. unfold tally. rewrite tally_fold_get. unfold map_get. rewrite lookup_empty. done. Qed.

Lemma tally_fold_sum ks m :
  map_sum (foldl tally_add m ks) = (map_sum m + Z.of_nat (length ks))%Z.
Proof.
  revert m. induction ks as [|k ks IH]; intros m; simpl; [lia|].
  rewrite IH. unfold tally_add. rewrite map_sum_insert. lia.
Qed.

Lemma tally_sum ks : map_sum (tally ks) = Z.of_nat (length ks).
Proof. unfold tally. by rewrite tally_fold_sum, map_sum_empty. Qed.

(** Copying a map entry by entry gives the map. *)
Lemma copy_map {V} (d : V) (m : gmap string V) ks :
  (∀ k, k ∈ ks ↔ is_Some (m !! k)) →
  foldl (λ m' k, <[k := map_get d m k]> m') ∅ ks = m.
Proof.
  intros Hks. apply map_eq. intros k.
  assert (∀ m', foldl (λ m' k, <[k := map_get d m k]> m') m' ks !! k
                = if bool_decide (k ∈ ks) then Some (map_get d m k) else m' !! k) as ->.
  { clear Hks. induction ks as [|k' ks IH]; intros m'; simpl; [done|].
    rewrite IH. repeat case_bool_decide; try set_solver.
    - rewrite lookup_insert. case_decide; [by subst|set_solver].
    - rewrite lookup_insert_ne; set_solver. }
  unfold map_get. case_bool_decide as Hk.
  - apply Hks in Hk as [v ->]. done.
  - rewrite lookup_empty. destruct (m !! k) eqn:E; [|done]. destruct Hk. apply Hks. by rewrite E.
Qed.

(** * Orders on strings and integers *)

Lemma str_compare_trans a b c o :
  String.compare a b = o → String.compare b c = o → String.compare a c = o.
Proof.
  revert b c. induction a as [|x a IH]; intros [|y b] [|z c]; simpl; try congruence.
  unfold Ascii.compare.
  destruct (N.compare_spec (Ascii.N_of_ascii x) (Ascii.N_of_ascii y)) as [E1|E1|E1],
    (N.compare_spec (Ascii.N_of_ascii y) (Ascii.N_of_ascii z)) as [E2|E2|E2];
    intros H1 H2; subst; try congruence;
    destruct (N.compare_spec (Ascii.N_of_ascii x) (Ascii.N_of_ascii z)); try lia; eauto.
Qed.

#[export] Instance str_ltb_total : StrictTotal String.ltb.
Proof.
  unfold String.ltb. split.
  - intros x. pose proof (String.compare_antisym x x) as H.
    destruct (String.compare x x); done.
  - intros x y z. destruct (String.compare x y) eqn:E1; try done.
    destruct (String.compare y z) eqn:E2; try done.
    by rewrite (str_compare_trans _ _ _ _ E1 E2).
  - intros x y Hne. rewrite (String.compare_antisym y x).
    destruct (String.compare x y) eqn:E; simpl; [|tauto|tauto].
    by apply String.compare_eq_iff in E.
Qed.

#[export] Instance Z_ltb_total : StrictTotal Z.ltb.
Proof. split; lia. Qed.

#[export] Instance nat_ltb_total : StrictTotal Nat.ltb.
Proof. split; intros *; rewrite ?Nat.ltb_lt, ?Nat.ltb_ge; lia. Qed.

(** The reversed order, for descending keys. *)
#[export] Instance flip_total {K} (lt : K → K → bool) `{!StrictTotal lt} :
  StrictTotal (λ x y, lt y x).
Proof.
  split; [apply st_irrefl|eauto using st_trans|].
  intros x y Hne. destruct (st_total x y Hne); auto.
Qed.

Lemma total_strict_weak {K} (lt : K → K → bool) `{!StrictTotal lt, !EqDecision K} :
  StrictWeak lt.
Proof.
  split; [apply st_irrefl|apply st_trans|].
  intros x y z Hxz. destruct (decide (x = y)) as [->|Hne]; [auto|].
  destruct (st_total x y Hne) as [?|Hyx]; [auto|]. right. by eapply st_trans.
Qed.

(** One link of a comparison chain: [if key a != key b { return key a < key b }]
    followed by the rest of the chain is again a strict weak order. *)
Lemma chain_strict_weak {A K} (key : A → K) (eqk ltk : K → K → bool) (rest : A → A → bool)
    `{!StrictTotal ltk, !StrictWeak rest} :
  (∀ x y, eqk x y = true ↔ x = y) →
  StrictWeak (λ a b, if negb (eqk (key a) (key b)) then ltk (key a) (key b) else rest a b).
Proof.
  intros Heq.
  assert (Hr : ∀ x, eqk x x = true) by (intros; by apply Heq).
  assert (Hn : ∀ x y, eqk x y = false → x ≠ y).
  { intros x y E ->. by rewrite Hr in E. }
  split.
  - intros x. rewrite Hr. simpl. apply sw_irrefl.
  - intros x y z. destruct (eqk (key x) (key y)) eqn:E1, (eqk (key y) (key z)) eqn:E2; simpl;
      repeat match goal with H : eqk _ _ = true |- _ => apply Heq in H; rewrite H in * end;
      rewrite ?Hr, ?E1, ?E2; simpl; eauto using sw_trans.
    intros H1 H2. pose proof (st_trans _ _ _ H1 H2) as H3.
    destruct (eqk (key x) (key z)) eqn:E3; [|done].
    apply Heq in E3. rewrite E3, st_irrefl in H3. done.
  - intros x y z. destruct (eqk (key x) (key y)) eqn:E1, (eqk (key y) (key z)) eqn:E2; simpl;
      repeat match goal with H : eqk _ _ = true |- _ => apply Heq in H; rewrite H in * end;
      rewrite ?Hr, ?E1, ?E2; simpl; eauto using sw_negtrans.
    destruct (st_total _ _ (Hn _ _ E1)) as [?|Hyx]; [by left|].
    destruct (st_total _ _ (Hn _ _ E2)) as [?|Hzy]; [by right|].
    intros H. pose proof (st_trans _ _ _ Hzy Hyx) as Hzx.
    destruct (eqk (key x) (key z)) eqn:E3; simpl in H.
    + apply Heq in E3. rewrite E3, st_irrefl in Hzx. done.
    + pose proof (st_trans _ _ _ H Hzx) as Hxx. by rewrite st_irrefl in Hxx.
Qed.

(** One link of a comparison chain, as a tactic: the goal becomes the rest. *)
Ltac chain_link key eqk ltk Heq :=
  notypeclasses refine (@chain_strict_weak _ _ key eqk ltk _ _ _ Heq); [apply _|].

(** * The stable sort *)

Section slice_stable.
Context {A : Type} (less : A → A → bool).

Lemma insert_stable_perm x l : insert_stable less x l ≡ₚ x :: l.
Proof.
  induction l as [|y l IH]; simpl; [done|].
  destruct (less y x); [|done]. rewrite IH. apply Permutation_swap.
Qed.

Lemma slice_stable_perm l : slice_stable less l ≡ₚ l.
Proof.
  induction l as [|x l IH]; simpl; [done|]. by rewrite insert_stable_perm, IH.
Qed.

Lemma elem_of_slice_stable x l : x ∈ slice_stable less l ↔ x ∈ l.
Proof. by rewrite slice_stable_perm. Qed.

Lemma length_slice_stable l : length (slice_stable less l) = length l.
Proof. by rewrite slice_stable_perm. Qed.

Context `{!StrictWeak less}.

Lemma insert_stable_sorted x l : sorted_by less l → sorted_by less (insert_stable less x l).
Proof.
  induction 1 as [|y l Hl IH Hy]; simpl; [by repeat constructor|].
  destruct (less y x) eqn:E.
  - constructor; [done|]. rewrite insert_stable_perm. constructor; [|done].
    destruct (less x y) eqn:E2; [|done].
    pose proof (sw_irrefl y) as Hy0. by rewrite (sw_trans _ _ _ E E2) in Hy0.
  - constructor; [by constructor|]. constructor; [done|].
    eapply Forall_impl; [exact Hy|]. intros z Hz. simpl in *.
    destruct (less z x) eqn:E2; [|done].
    destruct (sw_negtrans z y x E2); congruence.
Qed.

Lemma slice_stable_sorted l : sorted_by less (slice_stable less l).
Proof. induction l; simpl; [constructor|by apply insert_stable_sorted]. Qed.

Lemma tied_refl x : tied less x x = true.
Proof. unfold tied. by rewrite (sw_irrefl (less:=less)). Qed.

Lemma insert_stable_filter x y l :
  filter (λ z, tied less x z = true) (insert_stable less y l) =
  filter (λ z, tied less x z = true) (y :: l).
Proof.
  induction l as [|z l IH]; [done|]. simpl insert_stable.
  destruct (less z y) eqn:E; [|done].
  rewrite filter_cons, IH, !filter_cons.
  destruct (decide (tied less x z = true)) as [Hz|]; [|done].
  destruct (decide (tied less x y = true)) as [Hy|]; [|done].
  unfold tied in *. boolify. destruct (sw_negtrans z x y E); congruence.
Qed.

(** Stability: the elements tied with [x] keep their original order. *)
Lemma slice_stable_stable x l :
  filter (λ z, tied less x z = true) (slice_stable less l) =
  filter (λ z, tied less x z = true) l.
Proof.
  induction l as [|y l IH]; simpl; [done|].
  rewrite insert_stable_filter, !filter_cons, IH. done.
Qed.

Lemma sorted_by_head x y l :
  sorted_by less (x :: l) → y ∈ x :: l → less y x = false.
Proof.
  intros [_ H]%StronglySorted_inv [->|Hy]%elem_of_cons; [apply sw_irrefl|].
  rewrite Forall_forall in H. eauto.
Qed.

(** A stable sort has one result: two sorted lists that agree on every tie class
    are equal. *)
Lemma slice_stable_unique l1 l2 :
  sorted_by less l1 → sorted_by less l2 →
  (∀ x, filter (λ z, tied less x z = true) l1 = filter (λ z, tied less x z = true) l2) →
  l1 = l2.
Proof.
  revert l2. induction l1 as [|x l1 IH]; intros [|y l2] H1 H2 Hf; [done|..].
  - specialize (Hf y). rewrite filter_cons_True in Hf by apply tied_refl. done.
  - specialize (Hf x). rewrite filter_cons_True in Hf by apply tied_refl. done.
  - assert (x ∈ y :: l2) as Hx.
    { pose proof (Hf x) as E. rewrite filter_cons_True in E by apply tied_refl.
      assert (x ∈ filter (λ z, tied less x z = true) (y :: l2)) as Hin
        by (rewrite <-E; left).
      by apply list_elem_of_filter in Hin as [_ ?]. }
    assert (y ∈ x :: l1) as Hy.
    { pose proof (Hf y) as E. rewrite (filter_cons_True _ y) in E by apply tied_refl.
      assert (y ∈ filter (λ z, tied less y z = true) (x :: l1)) as Hin
        by (rewrite E; left).
      by apply list_elem_of_filter in Hin as [_ ?]. }
    assert (tied less x y = true) as Ht.
    { unfold tied. by rewrite (sorted_by_head _ _ _ H2 Hx), (sorted_by_head _ _ _ H1 Hy). }
    assert (x = y) as <-.
    { pose proof (Hf x) as E. rewrite !filter_cons_True in E by (done || apply tied_refl).
      by injection E. }
    f_equal. apply IH; [by apply StronglySorted_inv in H1 as []|
      by apply StronglySorted_inv in H2 as []|].
    intros z. specialize (Hf z). rewrite !filter_cons in Hf.
    destruct (decide _); [by injection Hf|done].
Qed.

Lemma slice_stable_id l : sorted_by less l → slice_stable less l = l.
Proof.
  intros. apply slice_stable_unique;
    auto using slice_stable_sorted, slice_stable_stable.
Qed.

Lemma sorted_by_filter (q : A → bool) l : sorted_by less l → sorted_by less (List.filter q l).
Proof.
  induction 1 as [|x l Hl IH Hx]; simpl; [constructor|]. destruct (q x); [|done].
  constructor; [done|]. rewrite Forall_forall in *. intros y Hy. apply Hx.
  by apply elem_of_list_filter in Hy as [? _].
Qed.

(** Filtering commutes with a stable sort. *)
Lemma slice_stable_filter (q : A → bool) l :
  slice_stable less (List.filter q l) = List.filter q (slice_stable less l).
Proof.
  assert (∀ (P : A → Prop) `{!∀ x, Decision (P x)} l, filter P (List.filter q l) = List.filter q (filter P l))
    as Hcomm.
  { clear. intros P ? l. induction l as [|x l IH]; [done|]. simpl. rewrite filter_cons.
    destruct (q x) eqn:E; [rewrite filter_cons|]; destruct (decide (P x)); simpl; rewrite ?E, IH; done. }
  apply slice_stable_unique; [apply slice_stable_sorted|apply sorted_by_filter, slice_stable_sorted|].
  intros x. by rewrite slice_stable_stable, !Hcomm, slice_stable_stable.
Qed.

(** When ties have the same key and keys are unique, the order of the input is moot. *)
Lemma slice_stable_perm_key {K} (key : A → K) l1 l2 :
  (∀ x y, tied less x y = true → key x = key y) →
  l1 ≡ₚ l2 → NoDup (map key l1) → slice_stable less l1 = slice_stable less l2.
Proof.
  intros Hkey Hp Hnd. apply slice_stable_unique; [apply slice_stable_sorted..|].
  intros x. rewrite !slice_stable_stable.
  assert (∀ l, NoDup (map key l) → length (filter (λ z, tied less x z = true) l) ≤ 1) as Hone.
  { clear -Hkey. intros l Hnd. induction l as [|y l IH]; simpl in *; [lia|].
    apply NoDup_cons in Hnd as [Hy Hnd]. rewrite filter_cons. case_decide as Ht; [|auto]. simpl.
    destruct (filter _ l) as [|z l'] eqn:E; [done|]. destruct Hy.
    assert (z ∈ filter (λ z, tied less x z = true) l) as [Hz Hl]%list_elem_of_filter by (rewrite E; left).
    apply list_elem_of_fmap. exists z. split; [|done]. by rewrite <-(Hkey x y Ht), (Hkey x z Hz). }
  assert (filter (λ z, tied less x z = true) l1 ≡ₚ filter (λ z, tied less x z = true) l2) as Hf by by rewrite Hp.
  pose proof (Hone l1 Hnd). destruct (filter _ l1) as [|a [|]]; [|by apply Permutation_singleton_l in Hf|simpl in *; lia].
  by apply Permutation_nil_l in Hf.
Qed.

Lemma slice_stable_idemp l : slice_stable less (slice_stable less l) = slice_stable less l.
Proof. apply slice_stable_id, slice_stable_sorted. Qed.
End slice_stable.

#[export] Instance str_ltb_strict_weak : StrictWeak String.ltb.
Proof. apply (total_strict_weak String.ltb). Qed.

Lemma sort_strings_perm l : sort_strings l ≡ₚ l.
Proof. apply slice_stable_perm. Qed.

Lemma elem_of_sort_strings x l : x ∈ sort_strings l ↔ x ∈ l.
Proof. apply elem_of_slice_stable. Qed.

#[export] Hint Rewrite @elem_of_slice_stable elem_of_sort_strings @elem_of_flat_map : kgrw.

#[export] Instance str_gtb_total : StrictTotal (λ a b, b <s a).
Proof.
  split; [apply sw_irrefl| |].
  - intros x y z H1 H2. by eapply (sw_trans (less := String.ltb)).
  - intros x y Hne. destruct (st_total (lt := String.ltb) x y Hne); auto.
Qed.

(** * Filters by boolean predicates *)

Lemma list_filter_map {A B} (f : A → B) p l : List.filter p (map f l) = map f (List.filter (λ x, p (f x)) l).
Proof. induction l as [|x l IH]; [done|]. simpl. rewrite IH. by destruct (p (f x)). Qed.

Lemma list_filter_filter {A} (p q : A → bool) l : List.filter p (List.filter q l) = List.filter (λ x, q x && p x) l.
Proof. induction l as [|x l IH]; [done|]. simpl. destruct (q x); simpl; [|done]. destruct (p x); by rewrite IH. Qed.

Lemma list_filter_ext {A} (p q : A → bool) l : (∀ x, x ∈ l → p x = q x) → List.filter p l = List.filter q l.
Proof.
  induction l as [|x l IH]; intros H; [done|]. simpl. rewrite (H x) by left. rewrite IH; [done|].
  intros y Hy. apply H. by right.
Qed.

Lemma list_filter_none {A} (p : A → bool) l : (∀ x, x ∈ l → p x = false) → List.filter p l = [].
Proof. intros H. rewrite (list_filter_ext p (λ _, false)) by done. clear. by induction l. Qed.

Lemma list_filter_disjoint {A} (p q : A → bool) l :
  (∀ x, x ∈ l → p x = true → q x = true → False) → List.filter (λ x, p x || q x) l ≡ₚ List.filter p l ++ List.filter q l.
Proof.
  induction l as [|x l IH]; intros H; [done|]. simpl. specialize (IH (λ y Hy, H y (list_elem_of_further _ _ _ Hy))).
  destruct (p x) eqn:Ep, (q x) eqn:Eq; simpl; [|by constructor| |done].
  - exfalso. by apply (H x); [left|..].
  - rewrite <-Permutation_middle. by constructor.
Qed.

(** The elements with a key of the list [ids], gathered key by key. *)
Lemma filter_by_key {A} (p : A → bool) (key : A → string) ids l :
  NoDup ids → (∀ x, x ∈ l → p x = true → key x ∈ ids) →
  List.filter p l ≡ₚ concat (map (λ id, List.filter (λ x, p x && (key x =s id)) l) ids).
Proof.
  intros Hnd Hin. transitivity (List.filter (λ x, p x && bool_decide (key x ∈ ids)) l).
  { rewrite (list_filter_ext p (λ x, p x && bool_decide (key x ∈ ids))); [done|]. intros x Hx.
    destruct (p x) eqn:E; [|done]. by rewrite bool_decide_true by auto. }
  clear Hin. induction Hnd as [|id ids Hid Hnd IH]; cbn [map concat].
  - rewrite list_filter_none; [done|]. intros x _. rewrite bool_decide_false by apply not_elem_of_nil. apply andb_false_r.
  - rewrite <-IH, <-list_filter_disjoint.
    + rewrite (list_filter_ext _ (λ x, (p x && (key x =s id)) || (p x && bool_decide (key x ∈ ids)))); [done|].
      intros x _. rewrite <-andb_orb_distrib_r. f_equal. apply eq_true_iff_eq.
      rewrite orb_true_iff, !bool_decide_eq_true, elem_of_cons, String.eqb_eq. done.
    + intros x _ [_ ->%String.eqb_eq]%andb_true_iff [_ ?%bool_decide_eq_true]%andb_true_iff. done.
Qed.

(** Two sorted arrangements of the same elements list the keys alike. *)
Lemma sorted_keys_unique {A K} (key : A → K) (lt : K → K → bool) `{!StrictTotal lt, !EqDecision K} l1 l2 :
  sorted_by (λ a b, lt (key a) (key b)) l1 → sorted_by (λ a b, lt (key a) (key b)) l2 → l1 ≡ₚ l2 →
  map key l1 = map key l2.
Proof.
  assert (∀ l, sorted_by (λ a b, lt (key a) (key b)) l → StronglySorted (λ x y, lt y x = false) (map key l)) as Hs.
  { intros l. induction 1 as [|x l Hl IH Hx]; simpl; constructor; [done|]. by rewrite Forall_map. }
  intros H1%Hs H2%Hs Hp%(Permutation_map key).
  apply (StronglySorted_unique_strong (λ x y, lt y x = false)); [|done..]. intros x y _ _ Hxy Hyx.
  destruct (decide (x = y)) as [|Hne]; [done|]. destruct (st_total x y Hne); congruence.
Qed.
