(* ===== verification/GoStrings.v ===== *)
(** The parts of Go's [strings], [fmt] and [strconv] packages the program uses, on
    byte strings.

    Case mapping covers ASCII and the four non-ASCII code points whose case
    variants are ASCII letters (U+017F, U+0131, U+212A, U+0130), so a comparison
    with an ASCII word has Go's answer; other bytes are left as they are.
    [TrimSpace] trims ASCII white space, and [%q] quotes ASCII exactly and passes
    the bytes of printable non-ASCII text through. *)

From Stdlib Require Import Ascii.
From S2P Require Import Prelude.

Notation "a ::: s" := (String a s) (at level 60, right associativity) : kg_scope.

(** * Bytes *)

Definition byte_of (c : ascii) : N := N_of_ascii c.
Definition in_range (lo hi : N) (c : ascii) : bool :=
  ((lo <=? byte_of c) && (byte_of c <=? hi))%N.

Definition is_lower (c : ascii) : bool := in_range 97 122 c.
Definition is_upper (c : ascii) : bool := in_range 65 90 c.
Definition is_digit (c : ascii) : bool := in_range 48 57 c.

Definition upper_byte (c : ascii) : ascii :=
  if is_lower c then ascii_of_N (byte_of c - 32) else c.
Definition lower_byte (c : ascii) : ascii :=
  if is_upper c then ascii_of_N (byte_of c + 32) else c.

(** * Case mapping: [strings.ToUpper], [strings.ToLower], [strings.EqualFold] *)

(** U+017F (long s) is C5 BF and U+0131 (dotless i) is C4 B1. *)
Fixpoint to_upper (s : string) : string :=
  match s with
  | EmptyString => EmptyString
  | String c rest =>
      match rest with
      | String d rest' =>
          if (byte_of c =? 197)%N && (byte_of d =? 191)%N then "S" ::: to_upper rest'
          else if (byte_of c =? 196)%N && (byte_of d =? 177)%N then "I" ::: to_upper rest'
          else upper_byte c ::: to_upper rest
      | EmptyString => upper_byte c ::: EmptyString
      end
  end.

(** U+212A (Kelvin sign) is E2 84 AA and U+0130 (dotted I) is C4 B0. *)
Fixpoint to_lower (s : string) : string :=
  match s with
  | EmptyString => EmptyString
  | String c rest =>
      match rest with
      | String d ((String e rest') as rest2) =>
          if (byte_of c =? 226)%N && (byte_of d =? 132)%N && (byte_of e =? 170)%N
          then "k" ::: to_lower rest'
          else if (byte_of c =? 196)%N && (byte_of d =? 176)%N
          then "i" ::: to_lower rest2
          else lower_byte c ::: to_lower rest
      | String d EmptyString =>
          if (byte_of c =? 196)%N && (byte_of d =? 176)%N then "i" ::: EmptyString
          else lower_byte c ::: to_lower rest
      | EmptyString => lower_byte c ::: EmptyString
      end
  end.

(** Simple folding maps both the Kelvin sign and the long s to ASCII letters; the
    dotted and dotless i fold to themselves only. *)
Fixpoint fold_name (s : string) : string :=
  match s with
  | EmptyString => EmptyString
  | String c rest =>
      match rest with
      | String d rest' =>
          match rest' with
          | String e rest'' =>
              if (byte_of c =? 226)%N && (byte_of d =? 132)%N && (byte_of e =? 170)%N
              then "K" ::: fold_name rest''
              else if (byte_of c =? 197)%N && (byte_of d =? 191)%N
              then "S" ::: fold_name rest'
              else upper_byte c ::: fold_name rest
          | EmptyString =>
              if (byte_of c =? 197)%N && (byte_of d =? 191)%N then "S" ::: EmptyString
              else upper_byte c ::: fold_name rest
          end
      | EmptyString => upper_byte c ::: EmptyString
      end
  end.

Definition equal_fold (s t : string) : bool := fold_name s =s fold_name t.

(** * Searching and slicing *)

Definition str_len (s : string) : nat := String.length s.

(** [s[i:]] and [s[:i]] for [0 <= i <= len(s)]. *)
Definition str_from (i : nat) (s : string) : string :=
  String.substring i (str_len s - i) s.
Definition str_to (i : nat) (s : string) : string := String.substring 0 i s.

(** [strings.Index] ([None] for -1), [strings.Contains], [strings.HasPrefix]. *)
Definition str_index (s sub : string) : option nat := String.index 0 sub s.
Definition contains (s sub : string) : bool :=
  match str_index s sub with Some _ => true | None => false end.
Definition has_prefix (s pre : string) : bool := String.prefix pre s.

(** [strings.LastIndex] for a one-byte needle. *)
Fixpoint last_index_from (i : nat) (c : ascii) (s : string) : option nat :=
  match s with
  | EmptyString => None
  | String d s' =>
      match last_index_from (S i) c s' with
      | Some j => Some j
      | None => if Ascii.eqb c d then Some i else None
      end
  end.
Definition last_index (s : string) (c : ascii) : option nat := last_index_from 0 c s.

(** [strings.Join]. *)
Definition join (sep : string) (l : list string) : string := String.concat sep l.

(** [strings.Split] by a one-byte separator. *)
Fixpoint split_on (c : ascii) (s : string) : list string :=
  match s with
  | EmptyString => [EmptyString]
  | String d s' =>
      if Ascii.eqb c d then EmptyString :: split_on c s'
      else match split_on c s' with
           | [] => [String d EmptyString]
           | w :: ws => String d w :: ws
           end
  end.

(** [strings.TrimSpace] and [strings.TrimRight(s, cutset)] with a one-byte cutset. *)
Definition is_space (c : ascii) : bool := in_range 9 13 c || (byte_of c =? 32)%N.

Fixpoint trim_left (s : string) : string :=
  match s with
  | String c s' => if is_space c then trim_left s' else s
  | EmptyString => EmptyString
  end.

Fixpoint trim_right_by (p : ascii → bool) (s : string) : string :=
  match s with
  | EmptyString => EmptyString
  | String c s' =>
      match trim_right_by p s' with
      | EmptyString => if p c then EmptyString else String c EmptyString
      | t => String c t
      end
  end.

Definition trim_space (s : string) : string := trim_right_by is_space (trim_left s).

(** A [strings.NewReplacer] whose old strings are single bytes. *)
Definition replace_bytes (f : ascii → option string) : string → string :=
  fix go s := match s with
    | EmptyString => EmptyString
    | String c s' =>
        (match f c with Some r => r | None => String c EmptyString end) +:+ go s'
    end.

(** * Formatting: [%d], [%03d], [%q] *)

Definition fmt_int (z : Z) : string := pretty z.

Fixpoint repeat_char (c : ascii) (n : nat) : string :=
  match n with 0 => EmptyString | S n' => String c (repeat_char c n') end.

(** [%0wd] for a non-negative integer. *)
Definition fmt_nat_pad (w n : nat) : string :=
  let s := pretty n in repeat_char "0" (w - str_len s) +:+ s.

Definition hex_digit (n : N) : ascii :=
  if (n <? 10)%N then ascii_of_N (48 + n) else ascii_of_N (87 + n).

Definition quote_byte (c : ascii) : string :=
  let b := byte_of c in
  if (b =? 34)%N then String (ascii_of_N 92) (String (ascii_of_N 34) EmptyString)
  else if (b =? 92)%N then String (ascii_of_N 92) (String (ascii_of_N 92) EmptyString)
  else if (b =? 7)%N then "\a"
  else if (b =? 8)%N then "\b"
  else if (b =? 9)%N then "\t"
  else if (b =? 10)%N then "\n"
  else if (b =? 11)%N then "\v"
  else if (b =? 12)%N then "\f"
  else if (b =? 13)%N then "\r"
  else if (b <? 32)%N || (b =? 127)%N then
    "\x" +:+ String (hex_digit (b / 16)) (String (hex_digit (b mod 16)) EmptyString)
  else String c EmptyString.

(** The byte of the double quote. *)
Definition dquote : string := String (ascii_of_N 34) EmptyString.

Definition fmt_quote (s : string) : string :=
  dquote +:+ replace_bytes (λ c, Some (quote_byte c)) s +:+ dquote.

(** * Lemmas *)

Lemma str_app_cons c s t : (c ::: s) +:+ t = c ::: (s +:+ t).
Proof. done. Qed.

Lemma str_app_length s t : str_len (s +:+ t) = str_len s + str_len t.
Proof.
  unfold str_len. induction s as [|c s IH]; [done|].
  rewrite str_app_cons. simpl. by rewrite IH.
Qed.

Lemma str_app_nil_r s : s +:+ EmptyString = s.
Proof. induction s as [|c s IH]; [done|]. by rewrite str_app_cons, IH. Qed.

Lemma str_app_assoc s t u : s +:+ (t +:+ u) = (s +:+ t) +:+ u.
Proof. induction s as [|c s IH]; [done|]. by rewrite !str_app_cons, IH. Qed.

Lemma str_app_inj_l s t u : s +:+ t = s +:+ u → t = u.
Proof. induction s as [|c s IH]; [done|]. rewrite !str_app_cons. intros [=]. auto. Qed.

Lemma length_repeat_char c n : str_len (repeat_char c n) = n.
Proof. induction n; simpl; auto. Qed.

(** A byte test on every byte of a string. *)
Fixpoint str_all (p : ascii → bool) (s : string) : bool :=
  match s with EmptyString => true | String c s' => p c && str_all p s' end.

Lemma str_all_app p s t : str_all p (s +:+ t) = str_all p s && str_all p t.
Proof.
  induction s as [|c s IH]; [done|]. rewrite str_app_cons. simpl. by rewrite IH, andb_assoc.
Qed.

(** What a separator byte that does not occur in either head separates. *)
Lemma split_at_inj p c s1 s2 t1 t2 :
  p c = false → str_all p s1 = true → str_all p s2 = true →
  s1 +:+ (c ::: t1) = s2 +:+ (c ::: t2) → s1 = s2 ∧ t1 = t2.
Proof.
  intros Hc. revert s2. induction s1 as [|a s1 IH]; intros [|b s2] H1 H2;
    rewrite ?str_app_cons; simpl in *.
  - by intros [= ->].
  - intros [= -> _]. boolify. congruence.
  - intros [= -> _]. boolify. congruence.
  - intros [= -> He]. boolify. destruct (IH s2) as [-> ->]; auto.
Qed.

Example to_upper_ex : to_upper "sys_Admin" = "SYS_ADMIN".
Proof. reflexivity. Qed.

Example fmt_nat_pad_ex : fmt_nat_pad 3 7 = "007" ∧ fmt_nat_pad 3 1234 = "1234".
Proof. split; vm_compute; reflexivity. Qed.
