(* ===== verification/GoJson.v ===== *)
(** Go's [encoding/json] as the program uses it: a document decoded into [any],
    and [json.Unmarshal] into structs.

    A [map[string]any] is a list of members with distinct keys.  [json.Marshal]
    writes the members of a map in key order, so decoding visits them in that
    order.  A decoder takes the current contents of the target, as [Unmarshal]
    does, and returns the new contents with a flag that is [true] when a type
    error was recorded: decoding goes on after a type error, and the error is
    reported at the end.

    A number is a [float64]: [JInt z] is an integral value that [json.Marshal]
    prints in plain decimal notation, [JFloat] any other one.  Slices are decoded
    over the elements already present; spare capacity left by an earlier, longer
    value of the same field is not modelled (it takes three members whose names
    differ only in case). *)

From S2P Require Import Prelude GoStrings.

(** * Documents *)

Inductive json : Type :=
| JNull
| JBool (b : bool)
| JInt (z : Z)
| JFloat (text : string)
| JStr (s : string)
| JArr (l : list json)
| JObj (m : list (string * json)).

Definition json_members : Type := list (string * json).

(** [m[k]] on a [map[string]any]: [None] when the key is absent. *)
Definition member (k : string) (m : json_members) : option json :=
  option_map snd (List.find (λ kv, k =s kv.1) m).

(** [s, _ := v.(string)] *)
Definition as_string (v : option json) : string :=
  match v with Some (JStr s) => s | _ => "" end.

(** [m, _ := v.(map[string]any)]: a nil map has no members. *)
Definition as_map (v : option json) : json_members :=
  match v with Some (JObj m) => m | _ => [] end.

(** [raw[k] = v] *)
Definition set_member (k : string) (v : json) (m : json_members) : json_members :=
  (k, v) :: List.filter (λ kv, negb (k =s kv.1)) m.

(** * [json.Unmarshal] *)

Definition decoder (A : Type) : Type := A → json → A * bool.

Definition int64_min : Z := - 2 ^ 63.
Definition int64_max : Z := 2 ^ 63 - 1.
Definition in_int64 (z : Z) : bool := ((int64_min <=? z) && (z <=? int64_max))%Z.

Definition dec_bool : decoder bool := λ old j,
  match j with JNull => (old, false) | JBool b => (b, false) | _ => (old, true) end.

Definition dec_string : decoder string := λ old j,
  match j with JNull => (old, false) | JStr s => (s, false) | _ => (old, true) end.

(** [int] and [int64]: the literal must be an integer in range. *)
Definition dec_int : decoder Z := λ old j,
  match j with
  | JNull => (old, false)
  | JInt z => if in_int64 z then (z, false) else (old, true)
  | _ => (old, true)
  end.

Definition dec_any : decoder json := λ _ j, (j, false).

(** A pointer: [null] clears it; otherwise the pointee is allocated when nil and
    decoded into, also when its decoding records a type error. *)
Definition dec_ptr {A} (zero : A) (d : decoder A) : decoder (option A) := λ old j,
  match j with
  | JNull => (None, false)
  | _ => let '(v, e) := d (default zero old) j in (Some v, e)
  end.

Fixpoint dec_elems {A} (zero : A) (d : decoder A) (old : list A) (js : list json)
    : list A * bool :=
  match js with
  | [] => ([], false)
  | j :: js' =>
      let '(v, e) := d (hd zero old) j in
      let '(vs, es) := dec_elems zero d (tl old) js' in
      (v :: vs, e || es)
  end.

Definition dec_slice {A} (zero : A) (d : decoder A) : decoder (list A) := λ old j,
  match j with
  | JNull => ([], false)
  | JArr js => dec_elems zero d old js
  | _ => (old, true)
  end.

(** The members of a map in the order [json.Marshal] writes them. *)
Definition by_key (m : json_members) : json_members :=
  slice_stable (λ a b, a.1 <s b.1) m.

(** [map[string]string]: an element that is not a string is stored as the zero
    value, with a type error. *)
Definition dec_string_map : decoder (gmap string string) := λ old j,
  match j with
  | JNull => (∅, false)
  | JObj m =>
      foldl (λ acc kv, let '(v, e) := dec_string "" kv.2 in
                       (<[kv.1 := v]> acc.1, acc.2 || e))
            (old, false) (by_key m)
  | _ => (old, true)
  end.

(** A struct field: its JSON name and how a member's value updates the struct. *)
Definition field (S : Type) : Type := string * (S → json → S * bool).

(** A member goes to the field of that name, else to the first field whose name is
    equal under case folding, else nowhere. *)
Definition find_field {S} (fields : list (field S)) (k : string) : option (field S) :=
  match List.find (λ f, k =s f.1) fields with
  | Some f => Some f
  | None => List.find (λ f, equal_fold k f.1) fields
  end.

Definition dec_member {S} (fields : list (field S)) (acc : S * bool) (kv : string * json)
    : S * bool :=
  match find_field fields kv.1 with
  | Some f => let '(s, e) := f.2 acc.1 kv.2 in (s, acc.2 || e)
  | None => acc
  end.

Definition dec_struct {S} (fields : list (field S)) : decoder S := λ old j,
  match j with
  | JNull => (old, false)
  | JObj m => foldl (dec_member fields) (old, false) (by_key m)
  | _ => (old, true)
  end.

(** A field given by a getter, a setter and the decoder of its type. *)
Definition fld {S A} (name : string) (get : S → A) (set : S → A → S) (d : decoder A)
    : field S :=
  (name, λ s j, let '(v, e) := d (get s) j in (set s v, e)).

(** * Lemmas *)

Lemma member_set_eq k v m : member k (set_member k v m) = Some v.
Proof. unfold member, set_member. simpl. by rewrite String.eqb_refl. Qed.

Lemma member_set_ne k k' v m : k ≠ k' → member k' (set_member k v m) = member k' m.
Proof.
  intros Hne. unfold member, set_member. simpl.
  destruct (String.eqb_spec k' k) as [->|_]; [done|]. f_equal.
  induction m as [|[a j] m IH]; [done|]. simpl.
  destruct (String.eqb_spec k a) as [->|Hka]; simpl.
  - destruct (String.eqb_spec k' a) as [->|]; [done|]. apply IH.
  - destruct (String.eqb_spec k' a); [done|]. apply IH.
Qed.

Lemma dec_struct_null {S} (fs : list (field S)) s : dec_struct fs s JNull = (s, false).
Proof. done. Qed.
