(* ===== verification/GoFloat.v ===== *)
(** Go's [float64] as IEEE 754 binary64: the arithmetic the program uses for pass
    rates, coverage rates and mean times, on the executable specification of the
    Standard Library ([SpecFloat], 53 bits of precision, exponents below 1024). *)

From Stdlib Require Import SpecFloat.
From S2P Require Import Prelude.
Local Open Scope Z_scope.

Definition float64 : Type := spec_float.

(** [float64(n)]: round to nearest even. *)
Definition float_of_int (n : Z) : float64 := binary_normalize 53 1024 n 0 false.

Definition fdiv (x y : float64) : float64 := SFdiv 53 1024 x y.
Definition fmul (x y : float64) : float64 := SFmul 53 1024 x y.
Definition fadd (x y : float64) : float64 := SFadd 53 1024 x y.
Definition fsub (x y : float64) : float64 := SFsub 53 1024 x y.

Definition fzero : float64 := S754_zero false.
Definition fone : float64 := float_of_int 1.

(** [math.Round]: the nearest integer, half away from zero. *)
Definition fround (x : float64) : float64 :=
  match x with
  | S754_finite s m e =>
      if 0 <=? e then x
      else
        let q := (Zpos m + 2 ^ (- e - 1)) / 2 ^ (- e) in
        if q =? 0 then S754_zero s
        else binary_normalize 53 1024 (if s then - q else q) 0 s
  | _ => x
  end.

Definition fle (x y : float64) : bool := SFleb x y.
Definition flt (x y : float64) : bool := SFltb x y.
Definition feq (x y : float64) : bool := SFeqb x y.

Example fdiv_third : fdiv (float_of_int 1) (float_of_int 3)
  = S754_finite false 6004799503160661 (-54).
Proof. vm_compute. reflexivity. Qed.

Example fround_half : fround (fdiv (float_of_int 5) (float_of_int 2)) = float_of_int 3.
Proof. vm_compute. reflexivity. Qed.
