(* ===== verification/GoTime.v ===== *)
(** Go's [time.Time] as far as the program uses it: instants as integer nanoseconds since
    the Unix epoch, [time.Parse] and [Format] for the layout [time.RFC3339], the ordering of
    instants, and durations. *)

From Stdlib Require Import Ascii.
From S2P Require Import Prelude GoStrings.
Local Open Scope Z_scope.

(** An instant, and a [time.Duration], in nanoseconds. *)
Definition instant : Type := Z.
Definition second : Z := 1000000000.
Definition hour : Z := 3600 * second.
Definition day : Z := 24 * hour.

Definition Before (t u : instant) : bool := t <? u.
Definition After (t u : instant) : bool := u <? t.

(** * The proleptic Gregorian calendar

    Years run from March, so that the leap day is the last day of a year; an era is 400
    years, 146097 days. *)

Definition days_of_civil (y m d : Z) : Z :=
  let y' := if m <=? 2 then y - 1 else y in
  let era := y' / 400 in
  let yoe := y' mod 400 in
  let mp := if 2 <? m then m - 3 else m + 9 in
  let doy := (153 * mp + 2) / 5 + d - 1 in
  let doe := yoe * 365 + yoe / 4 - yoe / 100 + doy in
  era * 146097 + doe - 719468.

(** The year of a day of an era, counted from the era's first, and the day of that year:
    centuries, four-year cycles and years are cut off in turn. *)
Definition year_of_doe (doe : Z) : Z * Z :=
  let n100 := doe / 36524 in
  let n100 := n100 - n100 / 4 in
  let d := doe - 36524 * n100 in
  let n4 := d / 1461 in
  let d := d - 1461 * n4 in
  let n1 := d / 365 in
  let n1 := n1 - n1 / 4 in
  (100 * n100 + 4 * n4 + n1, d - 365 * n1).

(** The month, counted from March, and the day of the month of a day of the year. *)
Definition month_of_doy (doy : Z) : Z * Z :=
  let mp := (5 * doy + 2) / 153 in
  (mp, doy - (153 * mp + 2) / 5 + 1).

Definition civil_of_doe (doe : Z) : Z * Z * Z :=
  let '(yoe, doy) := year_of_doe doe in
  let '(mp, d) := month_of_doy doy in
  let m := if mp <? 10 then mp + 3 else mp - 9 in
  (if m <=? 2 then yoe + 1 else yoe, m, d).

Definition civil_of_days (z : Z) : Z * Z * Z :=
  let z' := z + 719468 in
  let '(y, m, d) := civil_of_doe (z' mod 146097) in
  (y + z' / 146097 * 400, m, d).

Definition leap (y : Z) : bool :=
  (y mod 4 =? 0) && (negb (y mod 100 =? 0) || (y mod 400 =? 0)).

Definition days_in (y m : Z) : Z :=
  if m =? 2 then (if leap y then 29 else 28)
  else if (m =? 4) || (m =? 6) || (m =? 9) || (m =? 11) then 30 else 31.

(** * Parsing *)

Definition digit_of (c : Ascii.ascii) : option Z :=
  if is_digit c then Some (Z.of_N (byte_of c) - 48) else None.

(** [getnum]: one or two digits, exactly two when [fixed]. *)
Definition getnum (fixed : bool) (s : string) : option (Z * string) :=
  match s with
  | String c1 s1 =>
      match digit_of c1 with
      | Some d1 =>
          match s1 with
          | String c2 s2 =>
              match digit_of c2 with
              | Some d2 => Some (10 * d1 + d2, s2)
              | None => if fixed then None else Some (d1, s1)
              end
          | EmptyString => if fixed then None else Some (d1, s1)
          end
      | None => None
      end
  | EmptyString => None
  end.

(** The four digits of the year. *)
Definition getyear (s : string) : option (Z * string) :=
  '(a, s) ← getnum true s;
  '(b, s) ← getnum true s;
  Some (100 * a + b, s).

(** A literal byte of the layout. *)
Definition skip (c : Ascii.ascii) (s : string) : option string :=
  match s with
  | String c' s' => if Ascii.eqb c c' then Some s' else None
  | EmptyString => None
  end.

(** A two-digit field with its range check. *)
Definition field2 (fixed : bool) (lo hi : Z) (s : string) : option (Z * string) :=
  '(n, s) ← getnum fixed s;
  if (lo <=? n) && (n <=? hi) then Some (n, s) else None.

(** The fraction that may follow the seconds: the digits after the first nine are dropped. *)
Fixpoint frac_digits (s : string) (scale acc : Z) : Z * string :=
  match s with
  | String c s' =>
      match digit_of c with
      | Some d => frac_digits s' (scale / 10) (acc + d * scale)
      | None => (acc, s)
      end
  | EmptyString => (acc, s)
  end.

Definition fraction (s : string) : Z * string :=
  match s with
  | String c (String c' s') =>
      if (Ascii.eqb c "." || Ascii.eqb c ",") && is_digit c'
      then frac_digits (String c' s') 100000000 0 else (0, s)
  | _ => (0, s)
  end.

(** [Z07:00]: the offset in seconds east of UTC. *)
Definition zone (s : string) : option (Z * string) :=
  match s with
  | String c s' =>
      if Ascii.eqb c "Z" then Some (0, s')
      else
        '(hh, s') ← getnum true s';
        s' ← skip ":" s';
        '(mm, s') ← getnum true s';
        if (24 <? hh) || (60 <? mm) then None
        else if Ascii.eqb c "+" then Some ((hh * 60 + mm) * 60, s')
        else if Ascii.eqb c "-" then Some (- ((hh * 60 + mm) * 60), s')
        else None
  | EmptyString => None
  end.

(** [time.Parse(time.RFC3339, s)]; [None] is an error. *)
Definition parse_rfc3339 (s : string) : option instant :=
  '(y, s) ← getyear s;
  s ← skip "-" s;
  '(m, s) ← field2 true 1 12 s;
  s ← skip "-" s;
  '(d, s) ← getnum true s;
  s ← skip "T" s;
  '(hh, s) ← field2 false 0 23 s;
  s ← skip ":" s;
  '(mi, s) ← field2 true 0 59 s;
  s ← skip ":" s;
  '(ss, s) ← field2 true 0 59 s;
  let '(ns, s) := fraction s in
  '(off, s) ← zone s;
  if negb (s =s "") || (d <? 1) || (days_in y m <? d) then None
  else Some ((days_of_civil y m d * 86400 + hh * 3600 + mi * 60 + ss - off) * second + ns).

(** * Formatting *)

(** A number of at least two digits, and a year of at least four. *)
Definition pad2 (n : Z) : string := fmt_nat_pad 2 (Z.to_nat n).
Definition pad4 (n : Z) : string := pad2 (n / 100) +:+ pad2 (n mod 100).

(** [t.UTC().Format(time.RFC3339)] *)
Definition format_rfc3339 (t : instant) : string :=
  let secs := t / second in
  let '(y, m, d) := civil_of_days (secs / 86400) in
  let sod := secs mod 86400 in
  pad4 y +:+ "-" +:+ pad2 m +:+ "-" +:+ pad2 d +:+ "T"
  +:+ pad2 (sod / 3600) +:+ ":" +:+ pad2 (sod / 60 mod 60) +:+ ":" +:+ pad2 (sod mod 60) +:+ "Z".

(** The year of an instant, in UTC. *)
Definition year_of (t : instant) : Z := (civil_of_days (t / second / 86400)).1.1.

Example parse_epoch : parse_rfc3339 "1970-01-01T00:00:00Z" = Some 0.
Proof. vm_compute. reflexivity. Qed.

Example parse_offset :
  parse_rfc3339 "2026-03-01T01:30:00.25+05:30" = Some (1772308800 * second + 250000000).
Proof. vm_compute. reflexivity. Qed.

Example parse_bad_day : parse_rfc3339 "2025-02-29T00:00:00Z" = None.
Proof. vm_compute. reflexivity. Qed.

Example format_ex : format_rfc3339 (1772308800 * second + 999) = "2026-02-28T20:00:00Z".
Proof. vm_compute. reflexivity. Qed.

(** * Lemmas: the calendar *)

(** The year of a day, and the leap day. *)
Lemma year_of_doe_spec doe :
  0 <= doe < 146097 →
  let '(yoe, doy) := year_of_doe doe in
  0 <= yoe < 400 ∧ 0 <= doy <= 365 ∧ doe = yoe * 365 + yoe / 4 - yoe / 100 + doy ∧
  (doy = 365 → leap (yoe + 1) = true).
Proof.
  intros H. unfold year_of_doe. set (n100 := doe / 36524 - doe / 36524 / 4).
  set (d1 := doe - 36524 * n100). set (n4 := d1 / 1461). set (d2 := d1 - 1461 * n4).
  set (n1 := d2 / 365 - d2 / 365 / 4).
  assert (0 <= n100 <= 3 ∧ 0 <= n4 <= 24 ∧ 0 <= n1 <= 3 ∧ 0 <= d2 - 365 * n1 <= 365 ∧
          (d2 - 365 * n1 = 365 → n1 = 3 ∧ (n4 < 24 ∨ n100 = 3))) as (H1 & H2 & H3 & H4 & H5).
  { subst n100 d1 n4 d2 n1. Z.to_euclidean_division_equations. lia. }
  assert (doe = 36524 * n100 + 1461 * n4 + d2) by lia.
  clearbody n100 n4 n1 d2. split; [lia|]. split; [lia|]. split.
  - rewrite <-(Z.div_unique (100 * n100 + 4 * n4 + n1) 4 (25 * n100 + n4) n1) by lia.
    rewrite <-(Z.div_unique (100 * n100 + 4 * n4 + n1) 100 n100 (4 * n4 + n1)) by lia. lia.
  - intros [-> Hl]%H5. unfold leap.
    rewrite <-(Z.mod_unique (100 * n100 + 4 * n4 + 3 + 1) 4 (25 * n100 + n4 + 1) 0) by lia. simpl.
    destruct (Z.eqb_spec ((100 * n100 + 4 * n4 + 3 + 1) mod 100) 0) as [E|E]; [|done].
    destruct Hl as [Hl|Hl].
    + rewrite <-(Z.mod_unique (100 * n100 + 4 * n4 + 3 + 1) 100 n100 (4 * n4 + 4)) in E by lia. lia.
    + assert (n4 = 24) as -> by (destruct (decide (n4 = 24)); [done|];
        rewrite <-(Z.mod_unique (100 * n100 + 4 * n4 + 3 + 1) 100 n100 (4 * n4 + 4)) in E by lia; lia).
      by rewrite Hl.
Qed.

(** The days of a year, checked one by one. *)
Definition doy_ok (doy : Z) : bool :=
  let '(mp, d) := month_of_doy doy in
  let m := if mp <? 10 then mp + 3 else mp - 9 in
  (0 <=? mp) && (mp <? 12) && (1 <=? d)
  && (d <=? days_in (if doy =? 365 then 4 else 1) m) && ((153 * mp + 2) / 5 + d - 1 =? doy)
  && (negb (doy =? 365) || (mp =? 11)).

Lemma doys_checked : forallb (λ n, doy_ok (Z.of_nat n)) (seq 0 366) = true.
Proof. vm_compute. reflexivity. Qed.

Lemma month_of_doy_spec doy :
  0 <= doy <= 365 →
  let '(mp, d) := month_of_doy doy in
  let m := if mp <? 10 then mp + 3 else mp - 9 in
  0 <= mp < 12 ∧ 1 <= d <= days_in (if doy =? 365 then 4 else 1) m ∧
  (153 * mp + 2) / 5 + d - 1 = doy ∧ (doy = 365 → mp = 11).
Proof.
  intros H. pose proof (proj1 (forallb_elem _ _) doys_checked (Z.to_nat doy)) as Hc.
  rewrite elem_of_seq in Hc. specialize (Hc ltac:(lia)). cbv beta in Hc.
  rewrite Z2Nat.id in Hc by lia. unfold doy_ok in Hc.
  destruct (month_of_doy doy) as [mp d]. cbv zeta. revert Hc. generalize (days_in (if doy =? 365 then 4 else 1)
    (if mp <? 10 then mp + 3 else mp - 9)). intros n. boolify. intros. boolify. lia.
Qed.

Lemma days_in_mono y m : days_in 1 m <= days_in y m ∧ (leap y = true → days_in 4 m = days_in y m).
Proof.
  unfold days_in. change (leap 1) with false. change (leap 4) with true.
  split; [repeat case_match; lia|]. by intros ->.
Qed.

(** The date of a day of an era is valid, and gives the day back. *)
Lemma civil_of_doe_spec doe :
  0 <= doe < 146097 →
  let '(y, m, d) := civil_of_doe doe in
  1 <= m <= 12 ∧ 1 <= d <= days_in y m ∧ days_of_civil y m d = doe - 719468.
Proof.
  intros H. unfold civil_of_doe. pose proof (year_of_doe_spec doe H) as Hy.
  destruct (year_of_doe doe) as [yoe doy]. destruct Hy as (Hyoe & Hdoy & Hdoe & Hleap).
  pose proof (month_of_doy_spec doy Hdoy) as Hm.
  destruct (month_of_doy doy) as [mp d]. destruct Hm as (Hmp & Hd & Hdd & H11).
  set (m := if mp <? 10 then mp + 3 else mp - 9) in *.
  set (y := if m <=? 2 then yoe + 1 else yoe).
  assert (1 <= m <= 12) by (subst m; destruct (Z.ltb_spec mp 10); lia).
  split; [done|]. split.
  - destruct (days_in_mono y m) as [Hm1 Hm2]. destruct (Z.eqb_spec doy 365) as [E|E]; [|lia].
    assert (m = 2 ∧ y = yoe + 1) as [Hm2' Hy'].
    { unfold y, m. by rewrite (H11 E). }
    rewrite <-Hm2; [lia|]. rewrite Hy'. auto.
  - unfold days_of_civil. replace (if m <=? 2 then y - 1 else y) with yoe
      by (unfold y; destruct (m <=? 2); lia).
    replace (if 2 <? m then m - 3 else m + 9) with mp
      by (unfold m; destruct (Z.ltb_spec mp 10), (Z.ltb_spec 2 (mp + 3)), (Z.ltb_spec 2 (mp - 9)); lia).
    rewrite Z.div_small, Z.mod_small by lia. lia.
Qed.

Lemma leap_era y k : leap (y + k * 400) = leap y.
Proof.
  unfold leap.
  replace ((y + k * 400) mod 4) with (y mod 4) by (rewrite (Z.add_mod _ (k * 400)) by lia;
    replace (k * 400) with ((k * 100) * 4) by lia; rewrite Z.mod_mul, Z.add_0_r, Z.mod_mod by lia; done).
  replace ((y + k * 400) mod 100) with (y mod 100) by (rewrite (Z.add_mod _ (k * 400)) by lia;
    replace (k * 400) with ((k * 4) * 100) by lia; rewrite Z.mod_mul, Z.add_0_r, Z.mod_mod by lia; done).
  by rewrite Z.mod_add by lia.
Qed.

Lemma days_in_era y m k : days_in (y + k * 400) m = days_in y m.
Proof. unfold days_in. by rewrite leap_era. Qed.

Lemma days_of_civil_era y m d k : days_of_civil (y + k * 400) m d = days_of_civil y m d + k * 146097.
Proof.
  unfold days_of_civil. set (b := if m <=? 2 then _ else _).
  set (b' := if m <=? 2 then y - 1 else y).
  assert (b = b' + k * 400) as -> by (subst b b'; destruct (m <=? 2); lia).
  rewrite Z.div_add, Z.mod_add by lia. lia.
Qed.

(** Every day number has a valid date, and the date gives the day number back. *)
Lemma civil_of_days_spec z :
  let '(y, m, d) := civil_of_days z in
  1 <= m <= 12 ∧ 1 <= d <= days_in y m ∧ days_of_civil y m d = z.
Proof.
  unfold civil_of_days. set (k := (z + 719468) / 146097).
  pose proof (Z.mod_pos_bound (z + 719468) 146097 ltac:(lia)) as Hb.
  pose proof (civil_of_doe_spec _ Hb) as H.
  pose proof (Z.div_mod (z + 719468) 146097 ltac:(lia)) as Hz. fold k in Hz.
  destruct (civil_of_doe _) as [[y m] d]. rewrite days_in_era, days_of_civil_era. lia.
Qed.

(** * Lemmas: the fields *)

Definition two_digits_ok (n : nat) : bool :=
  match fmt_nat_pad 2 n with
  | String c1 (String c2 EmptyString) =>
      match digit_of c1, digit_of c2 with
      | Some d1, Some d2 => 10 * d1 + d2 =? Z.of_nat n
      | _, _ => false
      end
  | _ => false
  end.

Lemma two_digits_checked : forallb two_digits_ok (seq 0 100) = true.
Proof. vm_compute. reflexivity. Qed.

Lemma getnum_pad fixed n s : 0 <= n < 100 → getnum fixed (pad2 n +:+ s) = Some (n, s).
Proof.
  intros Hn. pose proof (proj1 (forallb_elem _ _) two_digits_checked (Z.to_nat n)) as H.
  rewrite elem_of_seq in H. specialize (H ltac:(lia)). unfold two_digits_ok in H. unfold pad2.
  destruct (fmt_nat_pad 2 (Z.to_nat n)) as [|c1 [|c2 []]]; try done.
  rewrite !str_app_cons. cbn [getnum]. destruct (digit_of c1), (digit_of c2); try done.
  apply Z.eqb_eq in H. do 2 f_equal. lia.
Qed.

Lemma getyear_pad n s : 0 <= n < 10000 → getyear (pad4 n +:+ s) = Some (n, s).
Proof.
  intros Hn. unfold getyear, pad4. rewrite <-str_app_assoc.
  pose proof (Z.mod_pos_bound n 100 ltac:(lia)).
  assert (0 <= n / 100 < 100) by (Z.to_euclidean_division_equations; lia).
  rewrite getnum_pad by done. cbn [mbind option_bind]. rewrite getnum_pad by done.
  cbn [mbind option_bind]. do 2 f_equal. rewrite (Z.div_mod n 100) at 3 by lia. done.
Qed.

Lemma field2_pad fixed lo hi n s :
  0 <= n < 100 → lo <= n <= hi → field2 fixed lo hi (pad2 n +:+ s) = Some (n, s).
Proof.
  intros Hn Hr. unfold field2. rewrite getnum_pad by done. simpl.
  destruct (Z.leb_spec lo n), (Z.leb_spec n hi); simpl; try done; lia.
Qed.

Lemma skip_lit c s : skip c (String c EmptyString +:+ s) = Some s.
Proof. rewrite str_app_cons. unfold skip. by rewrite Ascii.eqb_refl. Qed.

(** Formatting and parsing again truncates to the second. *)
Lemma parse_format t :
  0 <= year_of t <= 9999 → parse_rfc3339 (format_rfc3339 t) = Some (t / second * second).
Proof.
  unfold year_of, format_rfc3339. set (secs := t / second).
  pose proof (civil_of_days_spec (secs / 86400)) as Hd.
  destruct (civil_of_days (secs / 86400)) as [[y m] d]. destruct Hd as (Hm & Hdd & Hdays).
  simpl fst. intros Hy. unfold parse_rfc3339.
  pose proof (Z.mod_pos_bound secs 86400 ltac:(lia)) as Hs. set (sod := secs mod 86400) in *.
  assert (days_in y m <= 31) by (unfold days_in; repeat case_match; lia).
  assert (0 <= sod / 3600 <= 23) by (Z.to_euclidean_division_equations; lia).
  assert (0 <= sod / 60 mod 60 <= 59) by (Z.to_euclidean_division_equations; lia).
  assert (0 <= sod mod 60 <= 59) by (Z.to_euclidean_division_equations; lia).
  rewrite getyear_pad by lia. cbn [mbind option_bind]. rewrite skip_lit. cbn [mbind option_bind].
  rewrite field2_pad by lia. cbn [mbind option_bind]. rewrite skip_lit. cbn [mbind option_bind].
  rewrite getnum_pad by lia. cbn [mbind option_bind]. rewrite skip_lit. cbn [mbind option_bind].
  rewrite field2_pad by lia. cbn [mbind option_bind]. rewrite skip_lit. cbn [mbind option_bind].
  rewrite field2_pad by lia. cbn [mbind option_bind]. rewrite skip_lit. cbn [mbind option_bind].
  rewrite field2_pad by lia. cbn [mbind option_bind].
  assert ((d <? 1) = false) as E1 by lia. assert ((days_in y m <? d) = false) as E2 by lia.
  cbn [fraction zone Ascii.eqb Bool.eqb mbind option_bind String.eqb negb orb]. rewrite E1, E2. cbn [orb].
  f_equal. rewrite Hdays.
  assert (secs = secs / 86400 * 86400 + sod / 3600 * 3600 + sod / 60 mod 60 * 60 + sod mod 60) as E.
  { subst sod. Z.to_euclidean_division_equations. lia. }
  lia.
Qed.

(** The formatted instant is not later than the instant, by less than a second. *)
Lemma truncated t : t / second * second <= t < t / second * second + second.
Proof. unfold second. Z.to_euclidean_division_equations. lia. Qed.
