(* ===== verification/GoSha.v ===== *)
(** SHA-256 and hexadecimal encoding (crypto/sha256, encoding/hex), executable, for the
    lifecycle keys. *)

From Stdlib Require Import Ascii.
From S2P Require Import Prelude GoStrings.
Local Open Scope Z_scope.

(** * Words of 32 bits *)

Definition w32 (x : Z) : Z := Z.land x 4294967295.
Definition add32 (x y : Z) : Z := w32 (x + y).
Definition rotr (n x : Z) : Z := Z.lor (Z.shiftr x n) (w32 (Z.shiftl x (32 - n))).
Definition not32 (x : Z) : Z := Z.lxor x 4294967295.

Definition ch (x y z : Z) : Z := Z.lxor (Z.land x y) (Z.land (not32 x) z).
Definition maj (x y z : Z) : Z := Z.lxor (Z.lxor (Z.land x y) (Z.land x z)) (Z.land y z).
Definition big_sigma0 (x : Z) : Z := Z.lxor (Z.lxor (rotr 2 x) (rotr 13 x)) (rotr 22 x).
Definition big_sigma1 (x : Z) : Z := Z.lxor (Z.lxor (rotr 6 x) (rotr 11 x)) (rotr 25 x).
Definition small_sigma0 (x : Z) : Z := Z.lxor (Z.lxor (rotr 7 x) (rotr 18 x)) (Z.shiftr x 3).
Definition small_sigma1 (x : Z) : Z := Z.lxor (Z.lxor (rotr 17 x) (rotr 19 x)) (Z.shiftr x 10).

Definition round_constants : list Z :=
  [1116352408; 1899447441; 3049323471; 3921009573; 961987163; 1508970993; 2453635748; 2870763221;
   3624381080; 310598401; 607225278; 1426881987; 1925078388; 2162078206; 2614888103; 3248222580;
   3835390401; 4022224774; 264347078; 604807628; 770255983; 1249150122; 1555081692; 1996064986;
   2554220882; 2821834349; 2952996808; 3210313671; 3336571891; 3584528711; 113926993; 338241895;
   666307205; 773529912; 1294757372; 1396182291; 1695183700; 1986661051; 2177026350; 2456956037;
   2730485921; 2820302411; 3259730800; 3345764771; 3516065817; 3600352804; 4094571909; 275423344;
   430227734; 506948616; 659060556; 883997877; 958139571; 1322822218; 1537002063; 1747873779;
   1955562222; 2024104815; 2227730452; 2361852424; 2428436474; 2756734187; 3204031479; 3329325298].

Definition initial_hash : list Z :=
  [1779033703; 3144134277; 1013904242; 2773480762; 1359893119; 2600822924; 528734635; 1541459225].

(** * The compression function *)

(** The message schedule; [ws] holds the last sixteen words, oldest first. *)
Fixpoint schedule (n : nat) (ws : list Z) : list Z :=
  match n with
  | O => []
  | S n' =>
      match ws with
      | w0 :: w1 :: w2 :: w3 :: w4 :: w5 :: w6 :: w7 :: w8 :: w9 :: w10 :: w11 :: w12 :: w13
        :: w14 :: w15 :: _ =>
          let w := w32 (small_sigma1 w14 + w9 + small_sigma0 w1 + w0) in
          w0 :: schedule n' [w1; w2; w3; w4; w5; w6; w7; w8; w9; w10; w11; w12; w13; w14; w15; w]
      | _ => []
      end
  end.

Definition round_step (st : list Z) (kw : Z * Z) : list Z :=
  match st with
  | [a; b; c; d; e; f; g; h] =>
      let t1 := w32 (h + big_sigma1 e + ch e f g + kw.1 + kw.2) in
      let t2 := add32 (big_sigma0 a) (maj a b c) in
      [add32 t1 t2; a; b; c; add32 d t1; e; f; g]
  | _ => st
  end.

Definition compress (st block : list Z) : list Z :=
  zip_with add32 st (foldl round_step st (zip round_constants (schedule 64 block))).

(** * Padding and blocks *)

Fixpoint bytes_of (s : string) : list Z :=
  match s with EmptyString => [] | String c s' => Z.of_N (byte_of c) :: bytes_of s' end.

(** The big-endian bytes of the length in bits. *)
Definition length_bytes (n : Z) : list Z :=
  map (λ i, Z.land (Z.shiftr (8 * n) (8 * i)) 255) [7; 6; 5; 4; 3; 2; 1; 0].

Definition padded (bs : list Z) : list Z :=
  let n := Z.of_nat (length bs) in
  bs ++ [128] ++ repeat 0 (Z.to_nat ((55 - n) mod 64)) ++ length_bytes n.

(** Groups of four bytes, big-endian; the padded length is a multiple of 64. *)
Fixpoint words (bs : list Z) : list Z :=
  match bs with
  | a :: b :: c :: d :: bs' => (((a * 256 + b) * 256 + c) * 256 + d) :: words bs'
  | _ => []
  end.

(** Fold over blocks of sixteen words, with the number of blocks as fuel. *)
Fixpoint digest_blocks (n : nat) (st ws : list Z) : list Z :=
  match n with
  | O => st
  | S n' => digest_blocks n' (compress st (take 16 ws)) (drop 16 ws)
  end.

(** The digest, as eight words. *)
Definition sha256_words (s : string) : list Z :=
  let ws := words (padded (bytes_of s)) in
  digest_blocks (Nat.div (length ws) 16) initial_hash ws.

(** * Hexadecimal *)

Definition hex_of_word (w : Z) : string :=
  foldr (λ i s, String (hex_digit (Z.to_N (Z.land (Z.shiftr w (4 * i)) 15))) s) EmptyString
    [7; 6; 5; 4; 3; 2; 1; 0].

(** [hex.EncodeToString(h.Sum(nil))] *)
Definition sha256_hex (s : string) : string :=
  foldr (λ w acc, hex_of_word w +:+ acc) EmptyString (sha256_words s).

Example sha256_abc :
  sha256_hex "abc" = "ba7816bf8f01cfea414140de5dae2223b00361a396177a9cb410ff61f20015ad".
Proof. vm_compute. reflexivity. Qed.

Example sha256_empty :
  sha256_hex "" = "e3b0c44298fc1c149afbf4c8996fb92427ae41e4649b934ca495991b7852b855".
Proof. vm_compute. reflexivity. Qed.

Example sha256_two_blocks :
  sha256_hex "abcdbcdecdefdefgefghfghighijhijkijkljklmklmnlmnomnopnopq"
  = "248d6a61d20638b8e5c026930c3e6039a33ce45964ff2167f6ecedd419db06c1".
Proof. vm_compute. reflexivity. Qed.
