(* ===== verification/GoFmt.v ===== *)
(** The parts of Go's [fmt], [unicode/utf8] and [encoding/csv] packages the report writers use:
    UTF-8 decoding, padding verbs, fixed-point floats, and the CSV writer with a reader of the
    format (RFC 4180) as its reference. *)

From Stdlib Require Import Ascii SpecFloat.
From S2P Require Import Prelude GoStrings GoFloat.

(** * UTF-8 *)

(** The number of bytes of the first rune of a string, as [utf8.DecodeRuneInString]: 1 when the
    bytes are no valid encoding (each such byte counts as one rune U+FFFD). *)
Definition rune_size (s : string) : nat :=
  match s with
  | String a (String b rest) =>
      let cont c := in_range 128 191 c in
      if in_range 194 223 a then if cont b then 2 else 1
      else
        let second :=
          if in_range 224 224 a then in_range 160 191 b
          else if in_range 237 237 a then in_range 128 159 b
          else if in_range 240 240 a then in_range 144 191 b
          else if in_range 244 244 a then in_range 128 143 b
          else cont b in
        match rest with
        | String c rest' =>
            if in_range 224 239 a then if second && cont c then 3 else 1
            else if in_range 240 244 a then
              match rest' with
              | String d _ => if second && cont c && cont d then 4 else 1
              | EmptyString => 1
              end
            else 1
        | EmptyString => 1
        end
  | _ => 1
  end.

(** The first rune is a valid encoding. *)
Definition rune_ok (s : string) : bool :=
  match s with
  | EmptyString => true
  | String a _ => (byte_of a <? 128)%N || Nat.ltb 1 (rune_size s)
  end.

(** [utf8.RuneCountInString], and [utf8.ValidString]; the first argument counts the bytes of the
    current rune still to be passed over. *)
Fixpoint rune_count_from (skip : nat) (s : string) : nat :=
  match s with
  | EmptyString => 0
  | String _ s' =>
      match skip with
      | S k => rune_count_from k s'
      | 0 => S (rune_count_from (pred (rune_size s)) s')
      end
  end.
Definition rune_count (s : string) : nat := rune_count_from 0 s.

Fixpoint utf8_valid_from (skip : nat) (s : string) : bool :=
  match s with
  | EmptyString => true
  | String _ s' =>
      match skip with
      | S k => utf8_valid_from k s'
      | 0 => rune_ok s && utf8_valid_from (pred (rune_size s)) s'
      end
  end.
Definition utf8_valid (s : string) : bool := utf8_valid_from 0 s.

Example rune_count_ex : rune_count "a—b→é" = 5 ∧ utf8_valid "a—b→é" = true
  ∧ utf8_valid (str_to 2 "a—b") = false ∧ rune_count (str_to 3 "a—b") = 3.
Proof. repeat split; reflexivity. Qed.

(** * Verbs *)

(** [%-ws] and [%wd]: padding counts runes. *)
Definition pad_right (w : nat) (s : string) : string := s +:+ repeat_char " " (w - rune_count s).
Definition pad_left (w : nat) (s : string) : string := repeat_char " " (w - rune_count s) +:+ s.

(** [n / d] rounded to the nearest integer, halves to even. *)
Definition div_half_even (n d : Z) : Z :=
  let q := (n / d)%Z in
  let r := (n mod d)%Z in
  if (2 * r <? d)%Z then q
  else if (d <? 2 * r)%Z then (q + 1)%Z
  else if Z.even q then q else (q + 1)%Z.

(** [%.<prec>f]: the exact value of the float, correctly rounded. *)
Definition fmt_scaled (prec : nat) (n : Z) : string :=
  let p := (10 ^ Z.of_nat prec)%Z in
  match prec with
  | 0 => fmt_int n
  | _ => fmt_int (n / p) +:+ "." +:+ fmt_nat_pad prec (Z.to_nat (n mod p))
  end.

Definition fmt_fixed (prec : nat) (x : float64) : string :=
  let sign (s : bool) := if s then "-" else "" in
  match x with
  | S754_nan => "NaN"
  | S754_infinity s => if s then "-Inf" else "+Inf"
  | S754_zero s => sign s +:+ fmt_scaled prec 0
  | S754_finite s m e =>
      sign s +:+ fmt_scaled prec
        (div_half_even (Zpos m * 10 ^ Z.of_nat prec * 2 ^ Z.max e 0) (2 ^ Z.max (- e) 0))
  end.

Example fmt_fixed_ex : fmt_fixed 0 (fdiv (float_of_int 5) (float_of_int 2)) = "2"
  ∧ fmt_fixed 1 (fdiv (float_of_int 1) (float_of_int 3)) = "0.3"
  ∧ fmt_fixed 0 (float_of_int 100) = "100".
Proof. repeat split; vm_compute; reflexivity. Qed.

(** * The shortest decimal: [%v] of a [float64] *)

(** The largest [k] with [10^k <= n / d], for [n] and [d] positive: found from an estimate. *)
Fixpoint log10_up (fuel : nat) (k : Z) (n d : Z) : Z :=
  match fuel with
  | O => k
  | S f => if (10 ^ Z.max (k + 1) 0 * d <=? n * 10 ^ Z.max (- (k + 1)) 0)%Z then log10_up f (k + 1) n d else k
  end.

Definition log10_floor (n d : Z) : Z :=
  let k := ((Z.log2 n - Z.log2 d - 1) * 30103 / 100000 - 1)%Z in log10_up 4 k n d.

(** The float a decimal [q * 10^k] reads as: its value correctly rounded. *)
Definition float_of_decimal (q : Z) (k : Z) : float64 :=
  if (0 <=? k)%Z then float_of_int (q * 10 ^ k)
  else match q with
       | Zpos n => SFdiv 53 1024 (S754_finite false n 0) (S754_finite false (Z.to_pos (10 ^ (- k))) 0)
       | _ => fzero
       end.

Definition float_same (x y : float64) : bool :=
  match x, y with
  | S754_finite s m e, S754_finite s' m' e' => Bool.eqb s s' && Pos.eqb m m' && Z.eqb e e'
  | S754_zero s, S754_zero s' | S754_infinity s, S754_infinity s' => Bool.eqb s s'
  | S754_nan, S754_nan => true
  | _, _ => false
  end.

Fixpoint trim_zeros (fuel : nat) (q : Z) : Z :=
  match fuel with
  | O => q
  | S f => if (q mod 10 =? 0)%Z && negb (q =? 0)%Z then trim_zeros f (q / 10)%Z else q
  end.

(** The fewest digits that read as the float [x] of value [n / d], from [p] digits on, as the
    digits without trailing zeros and the exponent of the last one.  Of the two candidates next to
    the value the one that reads as [x] is taken, and the nearer one if both do. *)
Fixpoint shortest_from (fuel p : nat) (x : float64) (n d : Z) : Z * Z :=
  let k := (log10_floor n d - Z.of_nat p + 1)%Z in
  let num := (n * 10 ^ Z.max (- k) 0)%Z in
  let den := (d * 10 ^ Z.max k 0)%Z in
  let near := div_half_even num den in
  let ok q := float_same (float_of_decimal q k) x in
  let canon q := let q' := trim_zeros 20 q in (q', (k + (Z.of_nat (str_len (fmt_int q)) - Z.of_nat (str_len (fmt_int q'))))%Z) in
  match fuel with
  | O => canon near
  | S f =>
      let down := (num / den)%Z in
      match ok down, ok (down + 1)%Z with
      | true, true => canon near
      | true, false => canon down
      | false, true => canon (down + 1)%Z
      | false, false => shortest_from f (S p) x n d
      end
  end.

Definition shortest (m e : Z) : Z * Z :=
  shortest_from 16 1 (binary_normalize 53 1024 m e false) (m * 2 ^ Z.max e 0) (2 ^ Z.max (- e) 0).

(** [strconv]'s [%e] form: one digit, the others behind a point, and an exponent of at least
    [width] digits. *)
Definition exp_form (width : nat) (ds : string) (k : Z) : string :=
  str_to 1 ds +:+ (if Nat.eqb (str_len ds) 1 then "" else "." +:+ str_from 1 ds) +:+ "e" +:+
  (if (k <? 0)%Z then "-" else "+") +:+ fmt_nat_pad width (Z.to_nat (Z.abs k)).

(** The plain form of [q * 10^k]. *)
Definition plain_form (q k : Z) : string :=
  if (0 <=? k)%Z then fmt_int (q * 10 ^ k)
  else let f := fmt_int (q mod 10 ^ (- k)) in
       fmt_int (q / 10 ^ (- k)) +:+ "." +:+ repeat_char "0" (Z.to_nat (- k) - str_len f) +:+ f.

(** [strconv.FormatFloat(x, 'g', -1, 64)]: the exponent of the first digit decides; below -4,
    or from 6 on for the shortest form, it is written out. *)
Definition fmt_v (x : float64) : string :=
  let sign (s : bool) := if s then "-" else "" in
  match x with
  | S754_nan => "NaN"
  | S754_infinity s => if s then "-Inf" else "+Inf"
  | S754_zero s => sign s +:+ "0"
  | S754_finite s m e =>
      let '(q, k) := shortest (Zpos m) e in
      let ds := fmt_int q in
      let first := (k + Z.of_nat (str_len ds) - 1)%Z in
      sign s +:+ (if (first <? -4)%Z || (6 <=? first)%Z then exp_form 2 ds first else plain_form q k)
  end.

Example fmt_v_ex :
  map fmt_v [float_of_int 570; fdiv fone (float_of_int 10); fadd (float_of_int 30) (fdiv (float_of_int 540) (float_of_int 7));
             float_of_int 1000000; fdiv fone (float_of_int 100000); S754_finite false 1 (-1074); fsub fzero fone] =
  ["570"; "0.1"; "107.14285714285714"; "1e+06"; "1e-05"; "5e-324"; "-1"]
  ∧ map fmt_v [S754_finite false 4503599627370496 (-52); S754_finite true 6004799503160661 (-54); float_of_int 123456789;
               S754_finite false 4503599627370496 (-96); S754_finite false 9007199254740991 971] =
  ["1"; "-0.3333333333333333"; "1.23456789e+08"; "5.684341886080802e-14"; "1.7976931348623157e+308"].
Proof. vm_compute. split; reflexivity. Qed.

(** * Cutting at a byte *)

(** [strings.Cut] by a one-byte separator; [None] when it does not occur. *)
Fixpoint cut (c : ascii) (s : string) : option (string * string) :=
  match s with
  | EmptyString => None
  | String d s' =>
      if Ascii.eqb c d then Some (EmptyString, s')
      else match cut c s' with Some (a, b) => Some (String d a, b) | None => None end
  end.

Definition lacks (c : ascii) (s : string) : bool := str_all (λ d, negb (Ascii.eqb c d)) s.

Lemma lacks_app c s t : lacks c (s +:+ t) = lacks c s && lacks c t.
Proof. apply str_all_app. Qed.

Lemma cut_app c s t : lacks c s = true → cut c (s +:+ c ::: t) = Some (s, t).
Proof.
  unfold lacks. induction s as [|d s IH]; simpl.
  - intros _. by rewrite Ascii.eqb_refl.
  - intros H. boolify. by rewrite H, IH.
Qed.

Lemma cut_sound c s a b : cut c s = Some (a, b) → s = a +:+ c ::: b ∧ lacks c a = true.
Proof.
  revert a b. induction s as [|d s IH]; intros a b; simpl; [done|].
  destruct (Ascii.eqb_spec c d) as [->|Hne]; [by intros [= <- <-]|].
  destruct (cut c s) as [[a' b']|]; [|done]. intros [= <- <-].
  destruct (IH a' b' eq_refl) as [-> Ha]. split; [done|]. unfold lacks in *. simpl.
  apply Ascii.eqb_neq in Hne. by rewrite Hne, Ha.
Qed.

(** * Decimal digits *)

Lemma pretty_N_char_digit x : is_digit (pretty_N_char x) = true.
Proof. unfold pretty_N_char. by repeat case_match. Qed.

Lemma pretty_N_go_digits x s : str_all is_digit s = true → str_all is_digit (pretty_N_go x s) = true.
Proof.
  revert s. induction (N.lt_wf_0 x) as [x _ IH]; intros s Hs.
  destruct (decide (x = 0)%N) as [->|Hx]; [by rewrite pretty_N_go_0|].
  rewrite pretty_N_go_step by lia. apply IH; [apply N.div_lt; lia|].
  simpl. by rewrite pretty_N_char_digit.
Qed.

Lemma pretty_nat_digits (n : nat) : str_all is_digit (pretty n) = true.
Proof.
  unfold pretty, pretty_nat, pretty, pretty_N. case_decide; [done|]. by apply pretty_N_go_digits.
Qed.

Lemma str_all_weaken (p q : ascii → bool) s :
  (∀ c, p c = true → q c = true) → str_all p s = true → str_all q s = true.
Proof. intros Hpq. induction s as [|c s IH]; simpl; [done|]. intros H. boolify. rewrite Hpq; auto. Qed.

Lemma is_digit_ne c d : is_digit d = false → is_digit c = true → Ascii.eqb d c = false.
Proof. intros Hd Hc. apply Ascii.eqb_neq. intros ->. congruence. Qed.

Lemma lacks_pretty_nat c (n : nat) : is_digit c = false → lacks c (pretty n) = true.
Proof.
  intros Hc. eapply str_all_weaken; [|apply pretty_nat_digits].
  intros d Hd. by rewrite is_digit_ne.
Qed.

Lemma str_app_inj_tail c s1 s2 t1 t2 :
  lacks c t1 = true → lacks c t2 = true →
  s1 +:+ (c ::: t1) = s2 +:+ (c ::: t2) → s1 = s2 ∧ t1 = t2.
Proof.
  intros H1 H2. revert s2.
  assert (∀ s t u, lacks c u = true → s +:+ (c ::: t) ≠ u) as Hno.
  { clear. intros s t u Hu <-. rewrite lacks_app in Hu. boolify.
    unfold lacks in H0. simpl in H0. by rewrite Ascii.eqb_refl in H0. }
  induction s1 as [|a s1 IH]; intros [|b s2]; rewrite ?str_app_cons.
  - by intros [= ->].
  - intros [= _ He]. by destruct (Hno s2 t2 t1).
  - intros [= _ He]. by destruct (Hno s1 t1 t2).
  - intros [= -> He]. by destruct (IH s2 He) as [-> ->].
Qed.

(** * Substrings *)

Lemma substring_length n s : n <= str_len s → str_len (str_to n s) = n.
Proof.
  unfold str_to, str_len. revert s. induction n as [|n IH]; intros [|c s]; simpl; try lia.
  intros H. rewrite IH; lia.
Qed.

Lemma str_to_le n s : str_len (str_to n s) <= n.
Proof.
  unfold str_to, str_len. revert s. induction n as [|n IH]; intros [|c s]; simpl; try lia.
  specialize (IH s). lia.
Qed.

(** * CSV: [csv.Writer] with its default settings *)

Definition comma : ascii := ascii_of_N 44.
Definition newline : ascii := ascii_of_N 10.
Definition creturn : ascii := ascii_of_N 13.
Definition quote : ascii := ascii_of_N 34.

(** [unicode.IsSpace] of the first rune. *)
Definition first_rune_space (s : string) : bool :=
  let b2 x y a b := (byte_of a =? x)%N && (byte_of b =? y)%N in
  match s with
  | String a (String b (String c _)) =>
      is_space a || b2 194%N 133%N a b || b2 194%N 160%N a b
      || (b2 225%N 154%N a b && (byte_of c =? 128)%N)
      || (b2 226%N 128%N a b && (in_range 128 138 c || in_range 168 169 c || in_range 175 175 c))
      || (b2 226%N 129%N a b && (byte_of c =? 159)%N)
      || (b2 227%N 128%N a b && (byte_of c =? 128)%N)
  | String a (String b EmptyString) => is_space a || b2 194%N 133%N a b || b2 194%N 160%N a b
  | String a EmptyString => is_space a
  | EmptyString => false
  end.

Definition csv_special (c : ascii) : bool :=
  Ascii.eqb c newline || Ascii.eqb c creturn || Ascii.eqb c quote || Ascii.eqb c comma.

Fixpoint str_any (p : ascii → bool) (s : string) : bool :=
  match s with EmptyString => false | String c s' => p c || str_any p s' end.

Definition fieldNeedsQuotes (f : string) : bool :=
  if f =s "" then false
  else if f =s "\." then true
  else str_any csv_special f || first_rune_space f.

Definition csv_escape (c : ascii) : option string :=
  if Ascii.eqb c quote then Some (quote ::: quote ::: EmptyString) else None.

Definition csv_field (f : string) : string :=
  if fieldNeedsQuotes f then quote ::: replace_bytes csv_escape f +:+ quote ::: EmptyString else f.

Definition csv_row (fields : list string) : string := join "," (map csv_field fields) +:+ newline ::: EmptyString.

(** * The reference reader *)

Inductive csv_state := FieldStart | Plain | Quoted | QuoteSeen.

(** [cur] is the field read so far, [row] the fields before it. *)
Fixpoint csv_read (st : csv_state) (cur : string) (row : list string) (s : string)
    : option (list (list string)) :=
  match s with
  | EmptyString => match st, row with FieldStart, [] => Some [] | _, _ => None end
  | String c s' =>
      let more st' := csv_read st' (cur +:+ c ::: EmptyString) row s' in
      let sep :=
        if Ascii.eqb c comma then csv_read FieldStart EmptyString (row ++ [cur]) s'
        else if Ascii.eqb c newline
        then option_map (cons (row ++ [cur])) (csv_read FieldStart EmptyString [] s')
        else None in
      match st with
      | FieldStart => if Ascii.eqb c quote then csv_read Quoted EmptyString row s'
                      else if csv_special c then sep else more Plain
      | Plain => if csv_special c then sep else more Plain
      | Quoted => if Ascii.eqb c quote then csv_read QuoteSeen cur row s' else more Quoted
      | QuoteSeen => if Ascii.eqb c quote then more Quoted else sep
      end
  end.

(** What the reader does at the separator after a field. *)
Definition csv_sep (c : ascii) (cur : string) (row : list string) (s : string)
    : option (list (list string)) :=
  if Ascii.eqb c comma then csv_read FieldStart EmptyString (row ++ [cur]) s
  else if Ascii.eqb c newline
  then option_map (cons (row ++ [cur])) (csv_read FieldStart EmptyString [] s)
  else None.

Lemma str_any_all p s : str_any p s = false → str_all (λ c, negb (p c)) s = true.
Proof. induction s as [|c s IH]; simpl; [done|]. intros H. boolify. rewrite H, IH; auto. Qed.

Lemma csv_read_plain st cur row f c s :
  st = FieldStart ∨ st = Plain → str_all (λ c, negb (csv_special c)) f = true →
  c = comma ∨ c = newline →
  csv_read st cur row (f +:+ c ::: s) = csv_sep c (cur +:+ f) row s.
Proof.
  intros Hst Hf Hc. revert st cur Hst. induction f as [|d f IH]; intros st cur Hst; cbn [str_all] in Hf.
  - rewrite str_app_nil_r. unfold csv_sep. destruct Hst as [-> | ->], Hc as [-> | ->]; reflexivity.
  - boolify. rewrite str_app_cons. cbn [csv_read].
    assert (Ascii.eqb d quote = false) as Hq by (unfold csv_special in H; boolify; done).
    rewrite H, Hq. assert (cur +:+ d ::: f = (cur +:+ d ::: EmptyString) +:+ f) as ->
      by (by rewrite <-str_app_assoc).
    destruct Hst as [-> | ->]; apply IH; auto.
Qed.

Lemma csv_read_quoted cur row f c s :
  c = comma ∨ c = newline →
  csv_read Quoted cur row (replace_bytes csv_escape f +:+ quote ::: c ::: s)
  = csv_sep c (cur +:+ f) row s.
Proof.
  intros Hc. revert cur. induction f as [|d f IH]; intros cur.
  - rewrite str_app_nil_r. unfold csv_sep. destruct Hc as [-> | ->]; reflexivity.
  - change (replace_bytes csv_escape (d ::: f))
      with ((match csv_escape d with Some r => r | None => d ::: EmptyString end)
            +:+ replace_bytes csv_escape f).
    assert (cur +:+ d ::: f = (cur +:+ d ::: EmptyString) +:+ f) as -> by (by rewrite <-str_app_assoc).
    unfold csv_escape at 1. destruct (Ascii.eqb_spec d quote) as [->|Hd].
    + rewrite !str_app_cons. cbn [csv_read Ascii.eqb]. rewrite <-IH. reflexivity.
    + apply Ascii.eqb_neq in Hd. rewrite !str_app_cons. cbn [csv_read]. rewrite Hd. apply IH.
Qed.

Lemma csv_read_field row f c s :
  c = comma ∨ c = newline →
  csv_read FieldStart EmptyString row (csv_field f +:+ c ::: s) = csv_sep c f row s.
Proof.
  intros Hc. unfold csv_field. destruct (fieldNeedsQuotes f) eqn:E.
  - rewrite str_app_cons, <-str_app_assoc. cbn [csv_read]. rewrite Ascii.eqb_refl.
    rewrite str_app_cons. apply (csv_read_quoted EmptyString _ _ _ _ Hc).
  - apply (csv_read_plain FieldStart EmptyString); [by left| |done].
    unfold fieldNeedsQuotes in E. destruct (String.eqb_spec f "") as [->|]; [done|].
    destruct (f =s "\."); [done|]. boolify. by apply str_any_all.
Qed.

Lemma csv_read_row row f fs s :
  csv_read FieldStart EmptyString row (csv_row (f :: fs) +:+ s)
  = option_map (cons (row ++ f :: fs)) (csv_read FieldStart EmptyString [] s).
Proof.
  unfold csv_row, join. revert row f. induction fs as [|g fs IH]; intros row f.
  - simpl map. cbn [String.concat]. rewrite <-str_app_assoc, str_app_cons.
    rewrite csv_read_field by auto. reflexivity.
  - change (String.concat "," (map csv_field (f :: g :: fs)))
      with (csv_field f +:+ comma ::: String.concat "," (map csv_field (g :: fs))).
    rewrite <-!str_app_assoc, str_app_cons.
    rewrite csv_read_field by auto. unfold csv_sep. cbn [Ascii.eqb].
    change (Ascii.eqb comma comma) with true. cbn iota.
    rewrite str_app_assoc. rewrite IH. by rewrite <-app_assoc.
Qed.

(** The reader inverts the writer, on rows with at least one field. *)
Lemma csv_read_rows rows :
  (∀ r, r ∈ rows → r ≠ []) →
  csv_read FieldStart EmptyString [] (String.concat "" (map csv_row rows)) = Some rows.
Proof.
  induction rows as [|r rows IH]; intros Hne; [reflexivity|].
  assert (String.concat "" (map csv_row (r :: rows)) = csv_row r +:+ String.concat "" (map csv_row rows))
    as ->.
  { simpl map. destruct rows; [by rewrite str_app_nil_r|done]. }
  destruct r as [|f fs]; [by destruct (Hne [] ltac:(left))|].
  rewrite csv_read_row, IH; [done|]. intros r Hr. apply Hne. by right.
Qed.

(** * Splitting into lines *)

Lemma split_on_cons c s t : lacks c s = true → split_on c (s +:+ c ::: t) = s :: split_on c t.
Proof.
  unfold lacks. induction s as [|d s IH]; simpl; [by rewrite Ascii.eqb_refl|].
  intros H. boolify. by rewrite H, IH.
Qed.

Lemma split_on_lines c ls :
  (∀ l, l ∈ ls → lacks c l = true) →
  split_on c (String.concat "" (map (λ l, l +:+ c ::: EmptyString) ls)) = ls ++ [EmptyString].
Proof.
  induction ls as [|l ls IH]; intros Hl; [reflexivity|].
  assert (String.concat "" (map (λ l, l +:+ c ::: EmptyString) (l :: ls))
          = l +:+ c ::: String.concat "" (map (λ l, l +:+ c ::: EmptyString) ls)) as ->.
  { simpl map. destruct ls; [done|]. cbn [map String.concat]. by rewrite <-str_app_assoc. }
  rewrite split_on_cons by (apply Hl; left). simpl. f_equal. apply IH. set_solver.
Qed.

Lemma lacks_pretty_Z c (z : Z) : is_digit c = false → Ascii.eqb c "-" = false → lacks c (pretty z) = true.
Proof.
  intros Hc Hm.
  assert (∀ p, lacks c (pretty (N.pos p)) = true) as Hp.
  { intros p. eapply str_all_weaken; [|by apply (pretty_N_go_digits (N.pos p) "")].
    intros d Hd. by rewrite is_digit_ne. }
  destruct z as [|p|p]; [|apply Hp|].
  - unfold lacks. simpl. by rewrite is_digit_ne.
  - unfold lacks. simpl. rewrite Hm. apply Hp.
Qed.

(** A prefix taken off. *)
Fixpoint strip (pre s : string) : option string :=
  match pre, s with
  | EmptyString, _ => Some s
  | String c pre', String d s' => if Ascii.eqb c d then strip pre' s' else None
  | _, _ => None
  end.

Lemma strip_app pre s : strip pre (pre +:+ s) = Some s.
Proof. induction pre as [|c pre IH]; [done|]. simpl. by rewrite Ascii.eqb_refl. Qed.

(** A byte that no replacement contains and that is itself replaced. *)
Lemma lacks_replace c f s :
  f c ≠ None → (∀ d r, f d = Some r → lacks c r = true) → lacks c (replace_bytes f s) = true.
Proof.
  intros Hc Hr. induction s as [|d s IH]; [done|].
  change (lacks c ((match f d with Some r => r | None => d ::: EmptyString end) +:+ replace_bytes f s) = true).
  rewrite lacks_app, IH, andb_true_r. destruct (f d) eqn:E; [by eapply Hr|].
  unfold lacks. simpl. rewrite andb_true_r. destruct (Ascii.eqb_spec c d) as [->|]; done.
Qed.
