(* ===== verification/GoJsonText.v ===== *)
(** The text of Go's [encoding/json]: what [Marshal], [Encoder] and [Indent] write, and a reader
    of the format (RFC 8259) as its reference; [read_enc] is the round trip.

    A struct is the list of its members in the order of its fields; a Go map is one in key order. *)

From Stdlib Require Import Ascii SpecFloat.
From S2P Require Import Prelude GoStrings GoFloat GoFmt GoJson.

(** * Strings *)

Definition backslash : ascii := ascii_of_N 92.

Definition u_escape (c : ascii) : string :=
  backslash ::: "u00" +:+ String (hex_digit (byte_of c / 16)) (String (hex_digit (byte_of c mod 16)) EmptyString).

(** One byte below 128; [html] is [SetEscapeHTML], on unless switched off. *)
Definition json_byte (html : bool) (c : ascii) : string :=
  match byte_of c with
  | 34%N | 92%N => backslash ::: c ::: EmptyString
  | 8%N => backslash ::: "b"
  | 9%N => backslash ::: "t"
  | 10%N => backslash ::: "n"
  | 12%N => backslash ::: "f"
  | 13%N => backslash ::: "r"
  | 38%N | 60%N | 62%N => if html then u_escape c else c ::: EmptyString
  | b => if (b <? 32)%N then u_escape c else c ::: EmptyString
  end.

(** U+2028 and U+2029 start with these bytes. *)
Definition line_sep (a b c : ascii) : bool :=
  (byte_of a =? 226)%N && (byte_of b =? 128)%N && ((byte_of c =? 168)%N || (byte_of c =? 169)%N).

(** The bytes of a string; the second argument counts the bytes of the current rune still to be
    copied. *)
Fixpoint json_bytes (html : bool) (skip : nat) (s : string) : string :=
  match s with
  | EmptyString => EmptyString
  | String a s' =>
      match skip with
      | S k => a ::: json_bytes html k s'
      | 0 =>
          if (byte_of a <? 128)%N then json_byte html a +:+ json_bytes html 0 s'
          else if negb (rune_ok s) then (backslash ::: "ufffd") +:+ json_bytes html 0 s'
          else match s' with
               | String b (String c s2) =>
                   if line_sep a b c
                   then (backslash ::: "u202") +:+ (hex_digit (byte_of c mod 16) ::: json_bytes html 0 s2)
                   else a ::: json_bytes html (pred (rune_size s)) s'
               | _ => a ::: json_bytes html (pred (rune_size s)) s'
               end
      end
  end.

Definition json_string (html : bool) (s : string) : string := dquote +:+ json_bytes html 0 s +:+ dquote.

(** * Numbers *)

(** A [float64]: [None] for a value that is not supported. *)
Definition json_float (x : float64) : option json :=
  match x with
  | S754_nan | S754_infinity _ => None
  | S754_zero s => Some (if s then JFloat "-0" else JInt 0)
  | S754_finite s m e =>
      let '(q, k) := shortest (Zpos m) e in
      let ds := fmt_int q in
      let first := (k + Z.of_nat (str_len ds) - 1)%Z in
      let sign : string := if s then "-" else "" in
      Some (if (first <? -6)%Z || (21 <=? first)%Z then JFloat (sign +:+ exp_form 1 ds first)
            else if (0 <=? k)%Z then JInt (if s then - (q * 10 ^ k) else q * 10 ^ k)
            else JFloat (sign +:+ plain_form q k))
  end.

(** * Documents *)

Section layout.
Variable html : bool.
(** What starts a line at a depth, and what follows the name of a member. *)
Variable nl : nat → string.
Variable colon : string.

Fixpoint enc (depth : nat) (j : json) : string :=
  let group (left right : string) (items : list string) :=
    match items with
    | [] => left +:+ right
    | _ => left +:+ nl (S depth) +:+ String.concat ("," +:+ nl (S depth)) items +:+ nl depth +:+ right
    end in
  match j with
  | JNull => "null"
  | JBool b => if b then "true" else "false"
  | JInt z => fmt_int z
  | JFloat t => t
  | JStr s => json_string html s
  | JArr l => group "[" "]" (map (enc (S depth)) l)
  | JObj m => group "{" "}" (map (λ kv, json_string html kv.1 +:+ colon +:+ enc (S depth) kv.2) m)
  end.
End layout.

(** [json.Marshal], and [Encoder.Encode] with [SetIndent("", indent)]. *)
Definition Marshal (j : json) : string := enc true (λ _, "") ":" 0 j.

Fixpoint repeat_text (n : nat) (s : string) : string :=
  match n with 0 => EmptyString | S n' => s +:+ repeat_text n' s end.

Definition Encode (html : bool) (indent : string) (j : json) : string :=
  enc html (λ d, newline ::: repeat_text d indent) ": " 0 j +:+ newline ::: EmptyString.

Example Marshal_ex :
  Marshal (JObj [("a", JArr [JInt 1; JFloat "0.5"; JNull]); ("b", JObj []); ("c<", JStr ("é" +:+ newline ::: ascii_of_N 226 ::: ascii_of_N 128 ::: ascii_of_N 168 ::: EmptyString))])
  = replace_bytes (λ c, if Ascii.eqb c "'" then Some dquote else if Ascii.eqb c "|" then Some (backslash ::: EmptyString) else None)
      "{'a':[1,0.5,null],'b':{},'c|u003c':'é|n|u2028'}".
Proof. vm_compute. reflexivity. Qed.

Example Encode_ex :
  Encode false "  " (JObj [("a", JArr [JInt 1; JBool true]); ("b", JArr [])])
  = replace_bytes (λ c, if Ascii.eqb c "'" then Some dquote else None)
"{
  'a': [
    1,
    true
  ],
  'b': []
}
".
Proof. vm_compute. reflexivity. Qed.

Example json_float_ex :
  map json_float [fone; fdiv fone (float_of_int 3); fdiv fone (float_of_int 10000000); S754_zero true; S754_nan;
                  float_of_decimal 25 20; float_of_decimal (25) 19]
  = [Some (JInt 1); Some (JFloat "0.3333333333333333"); Some (JFloat "1e-7"); Some (JFloat "-0"); None;
     Some (JFloat "2.5e+21"); Some (JInt 250000000000000000000)].
Proof. vm_compute. reflexivity. Qed.

(** * The reader

    It agrees with [json.Unmarshal] on the texts the writer writes; it takes some more texts (a
    number may have leading zeros) and does not join surrogate pairs. *)

Definition is_byte (n : N) (c : ascii) : bool := (byte_of c =? n)%N.

Definition is_ws (c : ascii) : bool := is_byte 32 c || is_byte 10 c || is_byte 9 c || is_byte 13 c.

Fixpoint skip_ws (s : string) : string :=
  match s with String c s' => if is_ws c then skip_ws s' else s | EmptyString => EmptyString end.

Fixpoint span (p : ascii → bool) (s : string) : string * string :=
  match s with
  | String c s' => if p c then let '(a, b) := span p s' in (c ::: a, b) else ("", s)
  | EmptyString => ("", "")
  end.

Definition hex_value (c : ascii) : option N :=
  if is_digit c then Some (byte_of c - 48)%N
  else if in_range 97 102 c then Some (byte_of c - 87)%N
  else if in_range 65 70 c then Some (byte_of c - 55)%N
  else None.

Definition hex4 (a b c d : ascii) : option N :=
  a ← hex_value a; b ← hex_value b; c ← hex_value c; d ← hex_value d;
  Some (((a * 16 + b) * 16 + c) * 16 + d)%N.

(** A code point below 65536 as UTF-8; a surrogate is U+FFFD. *)
Definition utf8_encode (n : N) : string :=
  let byte n := ascii_of_N n in
  let n := if (55296 <=? n)%N && (n <=? 57343)%N then 65533%N else n in
  if (n <? 128)%N then byte n ::: EmptyString
  else if (n <? 2048)%N then byte (192 + n / 64)%N ::: byte (128 + n mod 64)%N ::: EmptyString
  else byte (224 + n / 4096)%N ::: byte (128 + n / 64 mod 64)%N ::: byte (128 + n mod 64)%N ::: EmptyString.

Definition simple_escape (c : ascii) : option ascii :=
  match byte_of c with
  | 34%N | 92%N | 47%N => Some c
  | 98%N => Some (ascii_of_N 8)
  | 116%N => Some (ascii_of_N 9)
  | 110%N => Some (ascii_of_N 10)
  | 102%N => Some (ascii_of_N 12)
  | 114%N => Some (ascii_of_N 13)
  | _ => None
  end.

(** After the opening quote. *)
Fixpoint read_string (s : string) : option (string * string) :=
  match s with
  | EmptyString => None
  | String c s' =>
      if is_byte 34 c then Some ("", s')
      else if is_byte 92 c then
        match s' with
        | String d s2 =>
            if is_byte 117 d then
              match s2 with
              | String h1 (String h2 (String h3 (String h4 s3))) =>
                  n ← hex4 h1 h2 h3 h4; '(t, r) ← read_string s3; Some (utf8_encode n +:+ t, r)
              | _ => None
              end
            else e ← simple_escape d; '(t, r) ← read_string s2; Some (e ::: t, r)
        | EmptyString => None
        end
      else if (byte_of c <? 32)%N then None
      else '(t, r) ← read_string s'; Some (c ::: t, r)
  end.

Fixpoint digits_value (acc : Z) (s : string) : Z :=
  match s with
  | EmptyString => acc
  | String c s' => digits_value (acc * 10 + (Z.of_N (byte_of c) - 48)) s'
  end.

Definition read_sign (s : string) : bool * string :=
  match s with
  | String c s' => if is_byte 45 c then (true, s') else (false, s)
  | EmptyString => (false, s)
  end.

Definition read_exponent (s : string) : option Z :=
  match s with
  | EmptyString => Some 0%Z
  | String c s' =>
      if is_byte 101 c || is_byte 69 c then
        let '(neg, ds) :=
          match s' with
          | String d s2 => if is_byte 45 d then (true, s2) else if is_byte 43 d then (false, s2) else (false, s')
          | EmptyString => (false, s')
          end in
        if (ds <>s "") && str_all is_digit ds then Some (if neg then - digits_value 0 ds else digits_value 0 ds)%Z
        else None
      else None
  end.

(** The sign, the digits and the exponent of the last one. *)
Definition read_decimal (t : string) : option (bool * Z * Z) :=
  let '(neg, s) := read_sign t in
  let '(i, r) := span is_digit s in
  let '(f, r) := match r with
                 | String c r' => if is_byte 46 c then span is_digit r' else ("", r)
                 | EmptyString => ("", r)
                 end in
  if i =s "" then None
  else e ← read_exponent r; Some (neg, digits_value 0 (i +:+ f), e - Z.of_nat (str_len f))%Z.

Definition num_char (c : ascii) : bool :=
  is_digit c || is_byte 45 c || is_byte 43 c || is_byte 46 c || is_byte 101 c || is_byte 69 c.

Definition read_number (t : string) : option json :=
  '(neg, q, k) ← read_decimal t;
  let '(_, s) := read_sign t in
  Some (if str_all is_digit s && (t <>s "-0") then JInt (if neg : bool then - q else q)%Z else JFloat t).

(** [strconv.ParseFloat]; [None] when the value is out of range. *)
Definition ParseFloat (t : string) : option float64 :=
  '(neg, q, k) ← read_decimal t;
  match (if (q =? 0)%Z then fzero else float_of_decimal q k) with
  | S754_infinity _ | S754_nan => None
  | x => Some (if neg : bool then SFopp x else x)
  end.

Fixpoint read_value (fuel : nat) (s : string) : option (json * string) :=
  match fuel with
  | O => None
  | S f =>
      match skip_ws s with
      | EmptyString => None
      | String c r =>
          if is_byte 123 c then
            match skip_ws r with
            | String d r' => if is_byte 125 d then Some (JObj [], r')
                             else '(m, r2) ← read_members f r; Some (JObj m, r2)
            | EmptyString => None
            end
          else if is_byte 91 c then
            match skip_ws r with
            | String d r' => if is_byte 93 d then Some (JArr [], r')
                             else '(l, r2) ← read_elems f r; Some (JArr l, r2)
            | EmptyString => None
            end
          else if is_byte 34 c then '(t, r') ← read_string r; Some (JStr t, r')
          else if is_byte 110 c then if has_prefix (c ::: r) "null" then Some (JNull, str_from 3 r) else None
          else if is_byte 116 c then if has_prefix (c ::: r) "true" then Some (JBool true, str_from 3 r) else None
          else if is_byte 102 c then if has_prefix (c ::: r) "false" then Some (JBool false, str_from 4 r) else None
          else let '(t, r') := span num_char (c ::: r) in j ← read_number t; Some (j, r')
      end
  end
with read_elems (fuel : nat) (s : string) : option (list json * string) :=
  match fuel with
  | O => None
  | S f =>
      '(j, r) ← read_value f s;
      match skip_ws r with
      | String d r' => if is_byte 44 d then '(l, r2) ← read_elems f r'; Some (j :: l, r2)
                       else if is_byte 93 d then Some ([j], r') else None
      | EmptyString => None
      end
  end
with read_members (fuel : nat) (s : string) : option (list (string * json) * string) :=
  match fuel with
  | O => None
  | S f =>
      match skip_ws s with
      | String c r =>
          if is_byte 34 c then
            '(k, r1) ← read_string r;
            match skip_ws r1 with
            | String d r2 =>
                if is_byte 58 d then
                  '(v, r3) ← read_value f r2;
                  match skip_ws r3 with
                  | String d r' => if is_byte 44 d then '(m, r4) ← read_members f r'; Some ((k, v) :: m, r4)
                                   else if is_byte 125 d then Some ([(k, v)], r') else None
                  | EmptyString => None
                  end
                else None
            | EmptyString => None
            end
          else None
      | EmptyString => None
      end
  end.

(** A whole text: a value and space. *)
Definition Unmarshal (s : string) : option json :=
  '(j, r) ← read_value (S (str_len s)) s; if skip_ws r =s "" then Some j else None.

Example Unmarshal_ex :
  let j := JObj [("a", JArr [JInt 1; JFloat "-0.5"; JNull; JObj []]); ("b<", JArr []); ("c", JInt (-7)); ("d", JBool false)] in
  Unmarshal (Marshal j) = Some j ∧ Unmarshal (Encode false "  " j) = Some j ∧ Unmarshal "1 2" = None.
Proof. vm_compute. repeat split. Qed.

(** * Lemmas: strings *)

Lemma byte_of_lt a : (byte_of a < 256)%N.
Proof. apply N_ascii_bounded. Qed.

(** The first [k] bytes exist and are not ASCII. *)
Fixpoint high (k : nat) (s : string) : bool :=
  match k, s with
  | 0, _ => true
  | S k', String c s' => (128 <=? byte_of c)%N && high k' s'
  | S _, EmptyString => false
  end.

Lemma in_range_high lo hi c : in_range lo hi c = true → (128 <=? lo)%N = true → (128 <=? byte_of c)%N = true.
Proof. unfold in_range. rewrite andb_true_iff, !N.leb_le. lia. Qed.

Lemma in_range_low lo hi c : (128 <=? lo)%N = true → (byte_of c <? 128)%N = true → in_range lo hi c = false.
Proof. unfold in_range. rewrite N.ltb_lt, andb_false_iff, !N.leb_gt, N.leb_le. lia. Qed.

(** The bytes of a rune after its first are not ASCII. *)
Lemma rune_high a s : high (pred (rune_size (a ::: s))) s = true.
Proof.
  destruct s as [|b rest]; [done|]. unfold rune_size.
  assert (∀ lo hi c, in_range lo hi c = true → (128 <=? lo)%N = true → (128 <=? byte_of c)%N = true) as H
    by (intros; by eapply in_range_high).
  destruct (in_range 194 223 a).
  { destruct (in_range 128 191 b) eqn:E; [|done]. cbn. by rewrite (H _ _ _ E eq_refl). }
  set (second := if in_range 224 224 a then _ else _).
  assert (second = true → (128 <=? byte_of b)%N = true) as Hs.
  { subst second. repeat case_match; intros E; by rewrite (H _ _ _ E eq_refl). }
  destruct rest as [|c rest]; [done|]. destruct (in_range 224 239 a).
  { destruct (second && in_range 128 191 c) eqn:E; [|done]. apply andb_true_iff in E as [E1 E2].
    cbn. by rewrite Hs, (H _ _ _ E2 eq_refl). }
  destruct (in_range 240 244 a); [|done]. destruct rest as [|d rest]; [done|].
  destruct (second && in_range 128 191 c && in_range 128 191 d) eqn:E; [|done].
  rewrite !andb_true_iff in E. destruct E as [[E1 E2] E3].
  cbn. by rewrite Hs, (H _ _ _ E2 eq_refl), (H _ _ _ E3 eq_refl).
Qed.

Lemma rune_size_ascii a s : (byte_of a <? 128)%N = true → rune_size (a ::: s) = 1.
Proof.
  intros Ha. destruct s as [|b [|c rest]]; try done; unfold rune_size; by rewrite !(in_range_low _ _ a).
Qed.

Lemma line_sep_size a b c s : line_sep a b c = true → rune_size (a ::: b ::: c ::: s) = 3.
Proof.
  unfold line_sep. rewrite !andb_true_iff, orb_true_iff, !N.eqb_eq. intros [[Ha Hb] Hc].
  unfold rune_size, in_range. rewrite Ha, Hb. by destruct Hc as [-> | ->].
Qed.

Lemma line_sep_bytes a b c : line_sep a b c = true →
  a = ascii_of_N 226 ∧ b = ascii_of_N 128 ∧ (c = ascii_of_N 168 ∨ c = ascii_of_N 169).
Proof.
  unfold line_sep, byte_of. rewrite !andb_true_iff, orb_true_iff, !N.eqb_eq. intros [[Ha Hb] Hc].
  rewrite <-Ha, <-Hb, !ascii_N_embedding. split_and!; [done..|]. destruct Hc as [Hc|Hc]; [left|right]; by rewrite <-Hc, ascii_N_embedding.
Qed.

Lemma read_json_byte html a X : (byte_of a <? 128)%N = true →
  read_string (json_byte html a +:+ X) = ('(t, r) ← read_string X; Some (a ::: t, r)).
Proof.
  destruct html, a as [[] [] [] [] [] [] [] []]; intros H; first [discriminate H | reflexivity].
Qed.

Lemma read_raw a X : (128 <=? byte_of a)%N = true →
  read_string (a ::: X) = ('(t, r) ← read_string X; Some (a ::: t, r)).
Proof.
  rewrite N.leb_le. intros H. cbn [read_string]. unfold is_byte.
  rewrite (proj2 (N.eqb_neq (byte_of a) 34)), (proj2 (N.eqb_neq (byte_of a) 92)), (proj2 (N.ltb_ge (byte_of a) 32)); [done|lia..].
Qed.

Lemma json_bytes_high html k a s :
  json_bytes html (S k) (a ::: s) = a ::: json_bytes html k s.
Proof. done. Qed.

(** The string after the opening quote is read back, with what follows the closing one. *)
Lemma read_json_bytes html rest s k :
  high k s = true → utf8_valid_from k s = true →
  read_string (json_bytes html k s +:+ (dquote +:+ rest)) = Some (s, rest).
Proof.
  remember (str_len s) as n eqn:Hn. revert s k Hn. induction (lt_wf n) as [n _ IH]. intros [|a s] k Hn Hh Hv.
  { by destruct k. }
  assert (∀ k', high k' s = true → utf8_valid_from k' s = true →
    read_string (json_bytes html k' s +:+ (dquote +:+ rest)) = Some (s, rest)) as IHs
    by (intros k'; apply (IH (str_len s)); [rewrite Hn; unfold str_len; cbn; lia|done]).
  destruct k as [|k].
  2: { cbn [high] in Hh. boolify. rewrite json_bytes_high, str_app_cons, read_raw by done.
       by rewrite IHs by done. }
  assert (rune_ok (a ::: s) = true ∧ utf8_valid_from (pred (rune_size (a ::: s))) s = true) as [Ho Ht]
    by (cbn [utf8_valid_from] in Hv; by apply andb_true_iff in Hv).
  destruct (byte_of a <? 128)%N eqn:Ea.
  { cbn [json_bytes]. rewrite Ea. rewrite rune_size_ascii in Ht by done.
    by rewrite <-str_app_assoc, read_json_byte, IHs by done. }
  apply N.ltb_ge in Ea. pose proof (proj2 (N.leb_le 128 (byte_of a)) Ea) as Ha.
  assert (read_string ((a ::: json_bytes html (pred (rune_size (a ::: s))) s) +:+ (dquote +:+ rest)) = Some (a ::: s, rest)) as Hcopy.
  { rewrite str_app_cons, read_raw by done. by rewrite IHs by (done || apply rune_high). }
  cbn [json_bytes]. rewrite (proj2 (N.ltb_ge _ _) Ea), Ho. cbn [negb].
  destruct s as [|b [|c s2]]; [exact Hcopy..|].
  destruct (line_sep a b c) eqn:El; [|exact Hcopy].
  rewrite (line_sep_size _ _ _ _ El) in Ht. cbn [utf8_valid_from pred] in Ht.
  pose proof (IH (str_len s2) ltac:(rewrite Hn; unfold str_len; cbn; lia) s2 0 eq_refl eq_refl Ht) as IH2.
  destruct (line_sep_bytes _ _ _ El) as (-> & -> & Hc). destruct Hc as [-> | ->].
  - transitivity ('(t, r) ← read_string (json_bytes html 0 s2 +:+ (dquote +:+ rest)); Some (utf8_encode 8232 +:+ t, r));
      [reflexivity|by rewrite IH2].
  - transitivity ('(t, r) ← read_string (json_bytes html 0 s2 +:+ (dquote +:+ rest)); Some (utf8_encode 8233 +:+ t, r));
      [reflexivity|by rewrite IH2].
Qed.

Lemma read_json_string html s rest : utf8_valid s = true →
  read_string (json_bytes html 0 s +:+ (dquote +:+ rest)) = Some (s, rest).
Proof. intros H. by apply read_json_bytes. Qed.

(** * Lemmas: numbers *)

Lemma span_app p t r : str_all p t = true → match r with String c _ => p c = false | EmptyString => True end →
  span p (t +:+ r) = (t, r).
Proof.
  induction t as [|c t IH]; intros Ht Hr.
  - change ("" +:+ r) with r. destruct r as [|c r]; [done|]. cbn [span]. by rewrite Hr.
  - cbn [str_all] in Ht. boolify. rewrite str_app_cons. cbn [span]. by rewrite H, IH.
Qed.

Lemma span_all p t : str_all p t = true → span p t = (t, "").
Proof. intros H. rewrite <-(str_app_nil_r t) at 1. by apply span_app. Qed.

Lemma digits_value_app acc s t : digits_value acc (s +:+ t) = digits_value (digits_value acc s) t.
Proof. revert acc. induction s as [|c s IH]; intros acc; [done|]. rewrite str_app_cons. cbn [digits_value]. apply IH. Qed.

Lemma pretty_N_char_value x : (x < 10)%N → (Z.of_N (byte_of (pretty_N_char x)) - 48 = Z.of_N x)%Z.
Proof.
  intros H. assert (x ∈ [0;1;2;3;4;5;6;7;8;9]%N) as Hx.
  { rewrite !elem_of_cons. lia. }
  repeat (apply elem_of_cons in Hx as [->|Hx]; [reflexivity|]). by apply elem_of_nil in Hx.
Qed.

Lemma digits_value_pretty_go x s : digits_value 0 (pretty_N_go x s) = digits_value (Z.of_N x) s.
Proof.
  revert s. induction (N.lt_wf_0 x) as [x _ IH]; intros s.
  destruct (decide (x = 0)%N) as [->|Hx]; [by rewrite pretty_N_go_0|].
  rewrite pretty_N_go_step by lia. rewrite IH by (apply N.div_lt; lia). cbn [digits_value].
  rewrite pretty_N_char_value by (apply N.mod_lt; lia). f_equal. pose proof (N.div_mod x 10). lia.
Qed.

Lemma digits_value_pretty (n : N) : digits_value 0 (pretty n) = Z.of_N n.
Proof. unfold pretty, pretty_N. case_decide; [by subst|]. by rewrite digits_value_pretty_go. Qed.

Lemma pretty_N_digits (n : N) : str_all is_digit (pretty n) = true.
Proof. unfold pretty, pretty_N. case_decide; [done|]. by apply pretty_N_go_digits. Qed.

Lemma pretty_N_nonempty (n : N) : pretty n ≠ "".
Proof.
  unfold pretty, pretty_N. case_decide; [done|].
  assert (∀ x s, s ≠ "" → pretty_N_go x s ≠ "") as Hgo.
  { intros x. induction (N.lt_wf_0 x) as [x _ IH]; intros s Hs.
    destruct (decide (x = 0)%N) as [->|Hx]; [by rewrite pretty_N_go_0|].
    rewrite pretty_N_go_step by lia. by apply IH; [apply N.div_lt; lia|]. }
  rewrite pretty_N_go_step by lia. by apply Hgo.
Qed.

(** The digits of a number below [10^k] are at most [k]. *)
Lemma pretty_N_go_length k x s : (x < 10 ^ N.of_nat k)%N → str_len (pretty_N_go x s) ≤ k + str_len s.
Proof.
  revert x s. induction k as [|k IH]; intros x s Hx.
  - assert (x = 0%N) as -> by (cbn in Hx; lia). by rewrite pretty_N_go_0.
  - destruct (decide (x = 0)%N) as [->|Hne]; [rewrite pretty_N_go_0; lia|]. rewrite pretty_N_go_step by lia.
    etransitivity; [apply IH|unfold str_len; cbn; lia].
    rewrite Nat2N.inj_succ, N.pow_succ_r' in Hx. apply N.Div0.div_lt_upper_bound. lia.
Qed.

Lemma fmt_int_nonneg z : (0 <= z)%Z → fmt_int z = pretty (Z.to_N z).
Proof. unfold fmt_int. by destruct z. Qed.

Lemma fmt_int_length k z : (0 <= z < 10 ^ Z.of_nat k)%Z → 0 < k → str_len (fmt_int z) ≤ k.
Proof.
  intros Hz Hk. rewrite fmt_int_nonneg by lia. unfold pretty, pretty_N. case_decide; [cbn; lia|].
  etransitivity; [apply (pretty_N_go_length k)|cbn; lia].
  apply N2Z.inj_lt. rewrite N2Z.inj_pow, nat_N_Z, Z2N.id by lia. lia.
Qed.

Definition no_digit_first (r : string) : Prop := match r with String c _ => is_digit c = false | EmptyString => True end.

Lemma digit_not n c : is_digit c = true → (n <? 48)%N || (57 <? n)%N = true → is_byte n c = false.
Proof.
  unfold is_digit, in_range, is_byte. rewrite andb_true_iff, orb_true_iff, !N.leb_le, !N.ltb_lt, N.eqb_neq. lia.
Qed.

Lemma read_sign_digits t : str_all is_digit t = true → read_sign t = (false, t).
Proof. destruct t as [|c t]; [done|]. cbn [str_all read_sign]. intros H. boolify. by rewrite (digit_not 45). Qed.

Definition sign_text (neg : bool) : string := if neg then "-" else "".
Definition point (f : string) : string := match f with EmptyString => "" | _ => "." +:+ f end.

Lemma read_sign_text neg t : str_all is_digit t = true → t ≠ "" → ∀ r, read_sign (sign_text neg +:+ t +:+ r) = (neg, t +:+ r).
Proof.
  intros Ht Hne r. destruct neg; [done|]. destruct t as [|c t]; [done|]. cbn [str_all] in Ht. boolify.
  change (sign_text false +:+ (c ::: t) +:+ r) with (c ::: (t +:+ r)). cbn [read_sign]. by rewrite (digit_not 45).
Qed.

(** A sign, digits, digits behind a point, and an exponent. *)
Lemma read_decimal_parts neg i f r e :
  str_all is_digit i = true → i ≠ "" → str_all is_digit f = true → read_exponent r = Some e → no_digit_first r →
  (match r with String c _ => is_byte 46 c = false | EmptyString => True end) →
  read_decimal (sign_text neg +:+ i +:+ point f +:+ r) = Some (neg, digits_value 0 (i +:+ f), e - Z.of_nat (str_len f))%Z.
Proof.
  intros Hi Hne Hf Hr Hd Hp. unfold read_decimal. rewrite read_sign_text by done.
  destruct f as [|c f].
  - cbn [point]. change ("" +:+ r) with r. rewrite span_app by done.
    assert (match r with String c r' => if is_byte 46 c then span is_digit r' else ("", r) | "" => ("", r) end = ("", r)) as ->
      by (destruct r; [done|by rewrite Hp]).
    rewrite (proj2 (String.eqb_neq _ _) Hne), Hr. cbn. by rewrite str_app_nil_r.
  - rewrite span_app by done. change (point (c ::: f) +:+ r) with ("."%char ::: ((c ::: f) +:+ r)).
    cbn [is_byte]. change (is_byte 46 ".") with true. cbn iota. rewrite span_app by done.
    rewrite (proj2 (String.eqb_neq _ _) Hne), Hr. done.
Qed.

Lemma num_digits t : str_all is_digit t = true → str_all num_char t = true.
Proof. apply str_all_weaken. intros c H. unfold num_char. by rewrite H. Qed.

Lemma read_decimal_int neg t : str_all is_digit t = true → t ≠ "" →
  read_decimal (sign_text neg +:+ t) = Some (neg, digits_value 0 t, 0%Z).
Proof.
  intros Ht Hne. pose proof (read_decimal_parts neg t "" "" 0 Ht Hne eq_refl eq_refl I I) as H.
  cbn [point] in H. by rewrite !str_app_nil_r in H.
Qed.

Lemma fmt_int_text z : ∃ t, fmt_int z = sign_text (z <? 0)%Z +:+ t ∧ str_all is_digit t = true ∧ t ≠ "" ∧
  digits_value 0 t = Z.abs z.
Proof.
  unfold fmt_int. destruct z as [|p|p].
  - by exists "0".
  - exists (pretty (N.pos p)). by rewrite pretty_N_digits, digits_value_pretty; split_and!; [| |apply pretty_N_nonempty|].
  - exists (pretty (N.pos p)). by rewrite pretty_N_digits, digits_value_pretty; split_and!; [| |apply pretty_N_nonempty|].
Qed.

(** The text of an [int] is read back. *)
Lemma read_number_int z : read_number (fmt_int z) = Some (JInt z) ∧ str_all num_char (fmt_int z) = true.
Proof.
  destruct (fmt_int_text z) as (t & -> & Hd & Hne & Hv). split.
  2: { rewrite str_all_app, (num_digits t) by done. destruct (z <? 0)%Z; reflexivity. }
  unfold read_number. rewrite read_decimal_int by done. cbn [mbind option_bind].
  rewrite <-(str_app_nil_r t) at 1. rewrite read_sign_text by done. rewrite str_app_nil_r, Hd, Hv. cbn [andb].
  assert (((sign_text (z <? 0)%Z +:+ t) =s "-0") = false) as ->.
  { apply String.eqb_neq. intros E. destruct (z <? 0)%Z eqn:Ez.
    - change (sign_text true +:+ t) with ("-"%char ::: t) in E. injection E as E. subst t. cbn in Hv. apply Z.ltb_lt in Ez. lia.
    - change (sign_text false +:+ t) with t in E. subst t. done. }
  cbn [negb]. do 2 f_equal. destruct (Z.ltb_spec z 0); lia.
Qed.

(** ** Floats *)

Definition quotient_text (q k : Z) : string := fmt_int (q / 10 ^ (- k)).
Definition fraction_text (q k : Z) : string :=
  let f := fmt_int (q mod 10 ^ (- k)) in repeat_char "0" (Z.to_nat (- k) - str_len f) +:+ f.

Lemma fmt_int_digits z : (0 <= z)%Z → str_all is_digit (fmt_int z) = true ∧ fmt_int z ≠ "" ∧ digits_value 0 (fmt_int z) = z.
Proof.
  intros Hz. destruct (fmt_int_text z) as (t & -> & Hd & Hne & Hv). rewrite (proj2 (Z.ltb_ge _ _) Hz).
  change (sign_text false +:+ t) with t. split_and!; [done..|lia].
Qed.

Lemma digits_value_zeros acc n : digits_value acc (repeat_char "0" n) = (acc * 10 ^ Z.of_nat n)%Z.
Proof.
  revert acc. induction n as [|n IH]; intros acc; [cbn; lia|]. cbn [repeat_char digits_value]. rewrite IH.
  rewrite Nat2Z.inj_succ, Z.pow_succ_r by lia. cbn. lia.
Qed.

Lemma digits_value_acc acc t : digits_value acc t = (acc * 10 ^ Z.of_nat (str_len t) + digits_value 0 t)%Z.
Proof.
  revert acc. induction t as [|c t IH]; intros acc; [cbn; lia|]. cbn [digits_value]. rewrite IH, (IH (0 * 10 + _)%Z).
  change (str_len (c ::: t)) with (S (str_len t)). rewrite Nat2Z.inj_succ, Z.pow_succ_r by lia. lia.
Qed.

Lemma repeat_zero_digits n : str_all is_digit (repeat_char "0" n) = true.
Proof. induction n; [done|]. cbn. by rewrite IHn. Qed.

(** The two digit strings of the plain form. *)
Lemma plain_parts q k : (0 <= q)%Z → (k < 0)%Z →
  str_all is_digit (quotient_text q k) = true ∧ quotient_text q k ≠ "" ∧
  str_all is_digit (fraction_text q k) = true ∧ fraction_text q k ≠ "" ∧
  str_len (fraction_text q k) = Z.to_nat (- k) ∧ digits_value 0 (quotient_text q k +:+ fraction_text q k) = q.
Proof.
  intros Hq Hk. assert (0 < 10 ^ (- k))%Z as Hp by (apply Z.pow_pos_nonneg; lia).
  pose proof (Z.mod_pos_bound q (10 ^ (- k)) Hp) as Hm. pose proof (Z.div_pos q _ Hq Hp) as Hdiv.
  unfold quotient_text, fraction_text. destruct (fmt_int_digits _ Hdiv) as (Hd & Hne & Hv).
  destruct (fmt_int_digits (q mod 10 ^ (- k)) ltac:(lia)) as (Hd' & Hne' & Hv').
  assert (str_len (fmt_int (q mod 10 ^ (- k))) ≤ Z.to_nat (- k)) as Hl
    by (apply fmt_int_length; [rewrite Z2Nat.id by lia; done|lia]).
  assert (str_len (repeat_char "0" (Z.to_nat (- k) - str_len (fmt_int (q mod 10 ^ (- k)))) +:+ fmt_int (q mod 10 ^ (- k)))
    = Z.to_nat (- k)) as Hlen by (rewrite str_app_length, length_repeat_char; lia).
  split_and!; [done|done| | |done|].
  - by rewrite str_all_app, repeat_zero_digits.
  - intros E. rewrite E in Hlen. cbn in Hlen. lia.
  - rewrite digits_value_app, Hv, digits_value_acc, Hlen, Z2Nat.id by lia.
    rewrite digits_value_app, digits_value_zeros, Z.mul_0_l, Hv'.
    pose proof (Z.div_mod q (10 ^ (- k)) ltac:(lia)). lia.
Qed.

Lemma fmt_nat_pad_1 n : fmt_nat_pad 1 n = pretty (N.of_nat n).
Proof.
  unfold fmt_nat_pad. change (pretty n) with (pretty (N.of_nat n)). pose proof (pretty_N_nonempty (N.of_nat n)) as H.
  destruct (pretty (N.of_nat n)); [done|]. reflexivity.
Qed.

Lemma read_exponent_form k :
  read_exponent ("e" +:+ (if (k <? 0)%Z then "-" else "+") +:+ fmt_nat_pad 1 (Z.to_nat (Z.abs k))) = Some k.
Proof.
  rewrite fmt_nat_pad_1. set (t := pretty (N.of_nat _)).
  assert (str_all is_digit t = true ∧ t ≠ "" ∧ digits_value 0 t = Z.abs k) as (Hd & Hne & Hv).
  { subst t. rewrite pretty_N_digits, digits_value_pretty. split_and!; [done|apply pretty_N_nonempty|lia]. }
  assert (t <>s "" && str_all is_digit t = true) as Ht by (by rewrite Hd, (proj2 (String.eqb_neq _ _) Hne)).
  destruct (k <? 0)%Z eqn:Ek.
  - transitivity (if (t <>s "") && str_all is_digit t then Some (- digits_value 0 t)%Z else None); [reflexivity|].
    rewrite Ht, Hv. f_equal. lia.
  - transitivity (if (t <>s "") && str_all is_digit t then Some (digits_value 0 t)%Z else None); [reflexivity|].
    rewrite Ht, Hv. f_equal. lia.
Qed.

Lemma substring_all s : String.substring 0 (str_len s) s = s.
Proof. induction s as [|c s IH]; [done|]. cbn. f_equal. exact IH. Qed.

(** The exponent form is a digit, the other digits behind a point, and the exponent. *)
Lemma exp_form_parts ds k : ds ≠ "" → ∃ c t, ds = c ::: t ∧
  exp_form 1 ds k = (c ::: "") +:+ point t +:+
    ("e" +:+ (if (k <? 0)%Z then "-" else "+") +:+ fmt_nat_pad 1 (Z.to_nat (Z.abs k))).
Proof.
  intros Hne. destruct ds as [|c t]; [done|]. exists c, t. split; [done|]. unfold exp_form, str_to, str_from.
  change (String.substring 0 1 (c ::: t)) with (c ::: String.substring 0 0 t).
  assert (String.substring 0 0 t = "") as -> by (by destruct t).
  change (String.substring 1 (str_len (c ::: t) - 1) (c ::: t)) with (String.substring 0 (str_len t - 0) t).
  rewrite Nat.sub_0_r, substring_all. destruct t as [|d t]; [reflexivity|].
  change (Nat.eqb (str_len (c ::: d ::: t)) 1) with false. cbn iota. by rewrite str_app_assoc.
Qed.

Lemma float_same_eq x y : float_same x y = true → x = y.
Proof.
  destruct x as [s|s| |s m e], y as [s'|s'| |s' m' e']; try done; cbn.
  - by intros ->%eqb_prop.
  - by intros ->%eqb_prop.
  - rewrite !andb_true_iff. by intros [[->%eqb_prop ->%Pos.eqb_eq] ->%Z.eqb_eq].
Qed.

(** The decimal [json_float] writes reads as the float: it does whenever the search of [shortest]
    ends with digits that do, so for every finite float by the theory of binary64 (17 digits
    suffice), which is not developed here. *)
Definition float_prints (x : float64) : bool :=
  match x with
  | S754_zero _ => true
  | S754_finite _ m e =>
      let '(q, k) := shortest (Zpos m) e in (0 <? q)%Z && float_same (float_of_decimal q k) (S754_finite false m e)
  | _ => false
  end.

(** [json.Unmarshal] into a [float64]. *)
Definition dec_float : decoder float64 := λ old j,
  match j with
  | JNull => (old, false)
  | JInt z => match float_of_int z with S754_infinity _ => (old, true) | x => (x, false) end
  | JFloat t => match ParseFloat t with Some x => (x, false) | None => (old, true) end
  | _ => (old, true)
  end.

(** What the reader gets back from a document: numbers in the writer's form, valid UTF-8. *)
Definition float_text (t : string) : bool :=
  str_all num_char t && match read_number t with Some (JFloat t') => t' =s t | _ => false end
  && match t with String c _ => is_digit c || is_byte 45 c | EmptyString => false end.

Fixpoint json_ok (j : json) : bool :=
  match j with
  | JNull | JBool _ | JInt _ => true
  | JFloat t => float_text t
  | JStr s => utf8_valid s
  | JArr l => forallb json_ok l
  | JObj m => forallb (λ kv, utf8_valid kv.1 && json_ok kv.2) m
  end.

Lemma float_of_int_opp z : (0 < z)%Z → float_of_int (- z) = SFopp (float_of_int z).
Proof.
  intros Hz. destruct z as [|p|p]; [lia| |lia]. change (- Z.pos p)%Z with (Z.neg p). unfold float_of_int, binary_normalize.
  unfold binary_round. destruct (shl_align p 0 _) as [mz ez]. unfold binary_round_aux.
  destruct (shr_fexp 53 1024 (Z.pos mz) ez loc_Exact) as [mrs e].
  destruct (shr_fexp 53 1024 _ e loc_Exact) as [mrs' e']. destruct (shr_m mrs'); try reflexivity.
  destruct (e' <=? 1024 - 53)%Z; reflexivity.
Qed.

(** A text with a sign, digits, digits behind a point and an exponent, one of the last two there. *)
Lemma float_text_parts neg i f r e :
  str_all is_digit i = true → i ≠ "" → str_all is_digit f = true → read_exponent r = Some e → no_digit_first r →
  (match r with String c _ => is_byte 46 c = false | EmptyString => f ≠ "" end) → str_all num_char r = true →
  let t := sign_text neg +:+ i +:+ point f +:+ r in
  float_text t = true ∧
  ParseFloat t = match (if (digits_value 0 (i +:+ f) =? 0)%Z then fzero
                        else float_of_decimal (digits_value 0 (i +:+ f)) (e - Z.of_nat (str_len f))) with
                 | S754_infinity _ | S754_nan => None
                 | x => Some (if neg then SFopp x else x)
                 end.
Proof.
  intros Hi Hne Hf Hr Hd Hp Hn t.
  assert (read_decimal t = Some (neg, digits_value 0 (i +:+ f), e - Z.of_nat (str_len f))%Z) as Ht
    by (apply read_decimal_parts; try done; by destruct r).
  split; [|unfold ParseFloat; by rewrite Ht].
  assert (str_all is_digit (point f +:+ r) = false) as Hnd.
  { destruct f as [|c f]; [|reflexivity]. change (point "" +:+ r) with r. destruct r as [|c r]; [done|].
    cbn in Hd |- *. by rewrite Hd. }
  unfold float_text, read_number. rewrite Ht. cbn [mbind option_bind].
  assert (read_sign t = (neg, i +:+ point f +:+ r)) as -> by (by apply read_sign_text). rewrite str_all_app, Hi, Hnd. cbn [andb]. rewrite String.eqb_refl.
  assert (str_all num_char (point f) = true) as Hpf.
  { destruct f as [|c f]; [done|]. change (str_all num_char (point (c ::: f))) with (true && str_all num_char (c ::: f)).
    by rewrite num_digits. }
  rewrite andb_true_r. apply andb_true_iff. split.
  - unfold t. rewrite !str_all_app, Hpf, Hn, (num_digits i) by done. destruct neg; reflexivity.
  - unfold t. destruct neg; [reflexivity|]. destruct i as [|c i]; [done|].
    change (sign_text false +:+ (c ::: i) +:+ point f +:+ r) with (c ::: (i +:+ point f +:+ r)).
    cbn [str_all] in Hi. by apply andb_true_iff in Hi as [-> _].
Qed.

(** The document of a float is read back as that float. *)
Lemma json_float_reads x :
  float_prints x = true → ∃ j, json_float x = Some j ∧ json_ok j = true ∧ ∀ old, dec_float old j = (x, false).
Proof.
  destruct x as [s| | |s m e]; try done.
  { intros _. exists (if s then JFloat "-0" else JInt 0). by destruct s. }
  unfold float_prints, json_float. destruct (shortest (Z.pos m) e) as [q k]. rewrite andb_true_iff, Z.ltb_lt.
  intros [Hq Hx%float_same_eq]. destruct (fmt_int_digits q ltac:(lia)) as (Hd & Hne & Hv).
  set (ds := fmt_int q) in *. set (first := (k + Z.of_nat (str_len ds) - 1)%Z).
  assert ((q =? 0)%Z = false) as Hq0 by (apply Z.eqb_neq; lia).
  assert (∀ i f r e', str_all is_digit i = true → i ≠ "" → str_all is_digit f = true →
    read_exponent r = Some e' → no_digit_first r →
    (match r with String c _ => is_byte 46 c = false | EmptyString => f ≠ "" end) → str_all num_char r = true →
    digits_value 0 (i +:+ f) = q → (e' - Z.of_nat (str_len f) = k)%Z →
    let t := sign_text s +:+ i +:+ point f +:+ r in
    json_ok (JFloat t) = true ∧ ∀ old, dec_float old (JFloat t) = (S754_finite s m e, false)) as H.
  { intros i f r e' H1 H2 H3 H4 H5 H6 H7 H8 H9 t. destruct (float_text_parts s i f r e' H1 H2 H3 H4 H5 H6 H7) as [Hft Hp].
    split; [done|]. intros old. cbn [dec_float]. fold t in Hp. rewrite Hp, H8, H9, Hq0, Hx. by destruct s. }
  destruct (_ || _).
  - destruct (exp_form_parts ds first Hne) as (c & t & Et & ->). rewrite Et in Hd. cbn [str_all] in Hd.
    apply andb_true_iff in Hd as [Hc Ht].
    eexists. split; [reflexivity|]. apply (H (c ::: "") t _ first); [cbn; by rewrite Hc|done..| | | | | |].
    + apply read_exponent_form.
    + reflexivity.
    + reflexivity.
    + rewrite fmt_nat_pad_1, !str_all_app, (num_digits (pretty _)) by apply pretty_N_digits.
      destruct (first <? 0)%Z; reflexivity.
    + change ((c ::: "") +:+ t) with (c ::: t). by rewrite <-Et.
    + unfold first. rewrite Et. change (str_len (c ::: t)) with (S (str_len t)). lia.
  - destruct (Z.leb_spec 0 k) as [Hk|Hk].
    + eexists. split; [reflexivity|]. split; [done|]. intros old. cbn [dec_float].
      unfold float_of_decimal in Hx. rewrite (proj2 (Z.leb_le _ _) Hk) in Hx.
      assert (0 < q * 10 ^ k)%Z by (apply Z.mul_pos_pos; [done|apply Z.pow_pos_nonneg; lia]).
      destruct s; [rewrite float_of_int_opp by done|]; by rewrite Hx.
    + destruct (plain_parts q k ltac:(lia) Hk) as (H1 & H2 & H3 & H4 & H5 & H6).
      eexists. split; [reflexivity|]. unfold plain_form. rewrite (proj2 (Z.leb_gt _ _) Hk).
      specialize (H (quotient_text q k) (fraction_text q k) "" 0%Z H1 H2 H3 eq_refl I H4 eq_refl H6 ltac:(lia)).
      rewrite str_app_nil_r in H. destruct (fraction_text q k) eqn:Ef; [done|]. cbn [point] in H. rewrite <-Ef in H. exact H.
Qed.

(** * Lemmas: documents *)

Lemma json_nested_ind (P : json → Prop) :
  P JNull → (∀ b, P (JBool b)) → (∀ z, P (JInt z)) → (∀ t, P (JFloat t)) → (∀ s, P (JStr s)) →
  (∀ l, Forall P l → P (JArr l)) → (∀ m, Forall (λ kv, P kv.2) m → P (JObj m)) → ∀ j, P j.
Proof.
  intros H1 H2 H3 H4 H5 H6 H7. fix IH 1. intros [|b|z|t|s|l|m]; [exact H1|apply H2|apply H3|apply H4|apply H5| |].
  - apply H6. induction l as [|j l IHl]; constructor; [apply IH|exact IHl].
  - apply H7. induction m as [|[k j] m IHm]; constructor; [apply IH|exact IHm].
Qed.

(** The fuel a document takes. *)
Fixpoint need (j : json) : nat :=
  match j with
  | JArr l => S (list_sum (map (λ j, S (need j)) l))
  | JObj m => S (list_sum (map (λ kv, S (need kv.2)) m))
  | _ => 1
  end.

Definition stops (r : string) : Prop := match r with String c _ => num_char c = false | EmptyString => True end.

Lemma skip_ws_app w s : str_all is_ws w = true → skip_ws (w +:+ s) = skip_ws s.
Proof.
  induction w as [|c w IH]; [done|]. cbn [str_all]. intros H. boolify. rewrite str_app_cons. cbn [skip_ws].
  rewrite H. by apply IH.
Qed.

Lemma read_value_ws f w s : str_all is_ws w = true → read_value f (w +:+ s) = read_value f s.
Proof. intros H. destruct f; [done|]. cbn [read_value]. by rewrite skip_ws_app. Qed.

Lemma read_elems_ws f w s : str_all is_ws w = true → read_elems f (w +:+ s) = read_elems f s.
Proof. intros H. destruct f; [done|]. cbn [read_elems]. by rewrite read_value_ws. Qed.

Lemma read_members_ws f w s : str_all is_ws w = true → read_members f (w +:+ s) = read_members f s.
Proof. intros H. destruct f; [done|]. cbn [read_members]. by rewrite skip_ws_app. Qed.

Lemma ws_not_num c : is_ws c = true → num_char c = false.
Proof. destruct c as [[] [] [] [] [] [] [] []]; done. Qed.

Lemma stops_ws w c s : str_all is_ws w = true → num_char c = false → stops (w +:+ (c ::: s)).
Proof.
  intros Hw Hc. destruct w as [|d w]; [done|]. cbn in Hw. boolify. by apply ws_not_num.
Qed.

Lemma read_str_value f s rest : utf8_valid s = true → ∀ html,
  read_value (S f) (json_string html s +:+ rest) = Some (JStr s, rest).
Proof.
  intros H html. unfold json_string. cbn [read_value].
  change (skip_ws ((dquote +:+ json_bytes html 0 s +:+ dquote) +:+ rest))
    with (ascii_of_N 34 ::: ((json_bytes html 0 s +:+ dquote) +:+ rest)).
  cbn iota. change (is_byte 123 (ascii_of_N 34)) with false. change (is_byte 91 (ascii_of_N 34)) with false.
  change (is_byte 34 (ascii_of_N 34)) with true. cbn iota.
  by rewrite <-str_app_assoc, read_json_string.
Qed.

Lemma has_prefix_app w r : has_prefix (w +:+ r) w = true.
Proof.
  unfold has_prefix. induction w as [|c w IH]; [by destruct r|]. rewrite str_app_cons. cbn [String.prefix].
  by destruct (ascii_dec c c).
Qed.

Lemma str_from_app a b : str_from (str_len a) (a +:+ b) = b.
Proof.
  unfold str_from. rewrite str_app_length, Nat.add_comm, Nat.add_sub. induction a as [|c a IH]; [apply substring_all|exact IH].
Qed.

(** A number starts with none of the bytes that decide between the forms. *)
Definition number_first (c : ascii) : bool := is_digit c || is_byte 45 c.

Lemma number_first_ne c : number_first c = true →
  is_ws c = false ∧ is_byte 123 c = false ∧ is_byte 91 c = false ∧ is_byte 34 c = false ∧ is_byte 110 c = false ∧
  is_byte 116 c = false ∧ is_byte 102 c = false ∧ is_byte 93 c = false ∧ is_byte 125 c = false.
Proof. destruct c as [[] [] [] [] [] [] [] []]; try discriminate; intros _; by split_and!. Qed.

Lemma read_num_value f c t j rest :
  number_first c = true → str_all num_char (c ::: t) = true → read_number (c ::: t) = Some j → stops rest →
  read_value (S f) ((c ::: t) +:+ rest) = Some (j, rest).
Proof.
  intros Hc Ht Hj Hr. cbn [read_value]. destruct (number_first_ne c Hc) as (H1 & H2 & H3 & H4 & H5 & H6 & H7 & _).
  rewrite str_app_cons. cbn [skip_ws]. rewrite H1, H2, H3, H4, H5, H6, H7, <-str_app_cons, span_app by done.
  by rewrite Hj.
Qed.

Lemma fmt_int_first z : ∃ c t, fmt_int z = c ::: t ∧ number_first c = true.
Proof.
  destruct (fmt_int_text z) as (t & -> & Hd & Hne & _). destruct (z <? 0)%Z.
  - by exists "-"%char, t.
  - destruct t as [|c t]; [done|]. exists c, t. split; [done|]. cbn [str_all] in Hd. unfold number_first.
    by apply andb_true_iff in Hd as [-> _].
Qed.

Section documents.
Variable html : bool.
Variable nl : nat → string.
Variable space : string.
Hypothesis Hnl : ∀ d, str_all is_ws (nl d) = true.
Hypothesis Hspace : str_all is_ws space = true.

Notation encode := (enc html nl (":" +:+ space)).

(** The first byte of a document. *)
Lemma enc_first d j : json_ok j = true →
  ∃ c t, encode d j = c ::: t ∧ is_ws c = false ∧ is_byte 93 c = false.
Proof.
  destruct j as [|b|z|t|s|l|m]; cbn [json_ok enc]; intros H.
  - by eexists _, _.
  - by destruct b; eexists _, _.
  - destruct (fmt_int_first z) as (c & t & -> & Hc). exists c, t. by destruct (number_first_ne c Hc) as (? & ? & ? & ? & ? & ? & ? & ? & ?).
  - unfold float_text in H. destruct t as [|c t]; [by rewrite andb_false_r in H|]. apply andb_true_iff in H as [_ Hc].
    exists c, t. by destruct (number_first_ne c Hc) as (? & ? & ? & ? & ? & ? & ? & ? & ?).
  - by eexists _, _.
  - by destruct (map _ l); eexists _, _.
  - by destruct (map _ m); eexists _, _.
Qed.

Definition reads (j : json) : Prop := ∀ d rest fuel,
  need j ≤ fuel → stops rest → read_value fuel (encode d j +:+ rest) = Some (j, rest).

Lemma read_elems_enc l d rest : l ≠ [] → Forall (λ j, json_ok j = true ∧ reads j) l → ∀ fuel,
  list_sum (map (λ j, S (need j)) l) ≤ fuel →
  read_elems fuel (String.concat ("," +:+ nl (S d)) (map (encode (S d)) l) +:+ (nl d +:+ "]" +:+ rest)) = Some (l, rest).
Proof.
  induction l as [|x l IH]; [done|]. intros _ [[Hx Hr] Hl]%Forall_cons fuel Hf. cbn [map] in Hf.
  change (list_sum (S (need x) :: map (λ j, S (need j)) l)) with (S (need x) + list_sum (map (λ j, S (need j)) l)) in Hf.
  destruct fuel as [|fuel]; [lia|]. destruct l as [|y l].
  - cbn [map String.concat read_elems]. rewrite Hr by (lia || by apply stops_ws). cbn [mbind option_bind].
    by rewrite skip_ws_app.
  - change (String.concat ("," +:+ nl (S d)) (map (encode (S d)) (x :: y :: l)))
      with (encode (S d) x +:+ ("," +:+ nl (S d)) +:+ String.concat ("," +:+ nl (S d)) (map (encode (S d)) (y :: l))).
    set (r := String.concat _ (map _ (y :: l))) in *. rewrite <-!str_app_assoc. cbn [read_elems].
    rewrite Hr by (lia || done). cbn [mbind option_bind].
    change (skip_ws ("," +:+ nl (S d) +:+ r +:+ nl d +:+ "]" +:+ rest))
      with (","%char ::: (nl (S d) +:+ r +:+ nl d +:+ "]" +:+ rest)). cbn iota.
    change (is_byte 44 ",") with true. cbn iota. rewrite read_elems_ws by done. subst r. by rewrite IH by (done || lia).
Qed.

Lemma read_members_enc m d rest : m ≠ [] →
  Forall (λ kv, (utf8_valid kv.1 = true ∧ json_ok kv.2 = true) ∧ reads kv.2) m → ∀ fuel,
  list_sum (map (λ kv, S (need kv.2)) m) ≤ fuel →
  read_members fuel (String.concat ("," +:+ nl (S d))
    (map (λ kv, json_string html kv.1 +:+ (":" +:+ space) +:+ encode (S d) kv.2) m) +:+ (nl d +:+ "}" +:+ rest)) = Some (m, rest).
Proof.
  induction m as [|[k v] m IH]; [done|]. intros _ [[[Hk Hv] Hr] Hm]%Forall_cons fuel Hf. cbn [map fst snd] in Hf, Hk, Hv, Hr.
  change (list_sum (S (need v) :: map (λ kv, S (need kv.2)) m)) with (S (need v) + list_sum (map (λ kv, S (need kv.2)) m)) in Hf.
  destruct fuel as [|fuel]; [lia|].
  assert (∀ tail, read_members (S fuel) ((json_string html k +:+ (":" +:+ space) +:+ encode (S d) v) +:+ tail) =
    ('(v', r3) ← read_value fuel (encode (S d) v +:+ tail);
     match skip_ws r3 with
     | String d r' => if is_byte 44 d then '(m, r4) ← read_members fuel r'; Some ((k, v') :: m, r4)
                      else if is_byte 125 d then Some ([(k, v')], r') else None
     | EmptyString => None
     end)) as Hstep.
  { intros tail. unfold json_string. rewrite <-!str_app_assoc. cbn [read_members].
    match goal with |- context [skip_ws (dquote +:+ ?x)] => change (skip_ws (dquote +:+ x)) with (ascii_of_N 34 ::: x) end.
    cbn iota. change (is_byte 34 (ascii_of_N 34)) with true. cbn iota. rewrite read_json_string by done.
    cbn [mbind option_bind].
    match goal with |- context [skip_ws (":" +:+ ?x)] => change (skip_ws (":" +:+ x)) with (":"%char ::: x) end.
    cbn iota. change (is_byte 58 ":") with true. cbn iota. by rewrite read_value_ws. }
  destruct m as [|[k' v'] m].
  - cbn [map String.concat fst snd]. rewrite Hstep, Hr by (lia || by apply stops_ws). cbn [mbind option_bind].
    by rewrite skip_ws_app.
  - match goal with |- context [String.concat ?sep (map ?f ((k, v) :: ?tl))] =>
      change (String.concat sep (map f ((k, v) :: tl))) with (f (k, v) +:+ sep +:+ String.concat sep (map f tl));
      set (r := String.concat sep (map f tl)) in * end.
    cbn [fst snd]. rewrite <-str_app_assoc, Hstep. rewrite <-!str_app_assoc, Hr by (lia || done). cbn [mbind option_bind].
    match goal with |- context [skip_ws ("," +:+ ?x)] => change (skip_ws ("," +:+ x)) with (","%char ::: x) end.
    cbn iota. change (is_byte 44 ",") with true. cbn iota. rewrite read_members_ws by done. subst r. by rewrite IH by (done || lia).
Qed.

(** Every document is read back from its text. *)
Lemma read_enc j : json_ok j = true → reads j.
Proof.
  induction j as [|b|z|t|s|l Hl|m Hm] using json_nested_ind; intros Hok d rest [|fuel] Hf Hr; try (cbn in Hf; lia).
  - transitivity (if has_prefix ("null" +:+ rest) "null" then Some (JNull, str_from 3 ("ull" +:+ rest)) else None); [done|].
    by rewrite has_prefix_app, (str_from_app "ull").
  - destruct b.
    + transitivity (if has_prefix ("true" +:+ rest) "true" then Some (JBool true, str_from 3 ("rue" +:+ rest)) else None); [done|].
      by rewrite has_prefix_app, (str_from_app "rue").
    + transitivity (if has_prefix ("false" +:+ rest) "false" then Some (JBool false, str_from 4 ("alse" +:+ rest)) else None); [done|].
      by rewrite has_prefix_app, (str_from_app "alse").
  - cbn [enc]. destruct (read_number_int z) as [Hn Hc]. destruct (fmt_int_first z) as (c & t & E & Hfirst).
    rewrite E in *. by apply read_num_value.
  - cbn [enc json_ok] in *. unfold float_text in Hok. rewrite !andb_true_iff in Hok. destruct Hok as [[Hc Hn] Hfirst].
    destruct t as [|c t]; [done|]. apply read_num_value; try done.
    destruct (read_number (c ::: t)) as [[| | |t'| | |]|]; try done. by apply String.eqb_eq in Hn as ->.
  - by apply read_str_value.
  - cbn [json_ok] in Hok. rewrite forallb_forall in Hok. destruct l as [|x l]; [done|].
    assert (Forall (λ j, json_ok j = true ∧ reads j) (x :: l)) as H.
    { rewrite Forall_forall in Hl |- *. intros j Hj.
      assert (json_ok j = true) as Hj' by by apply Hok, list_elem_of_In. split; [done|by apply Hl]. }
    change (encode d (JArr (x :: l)))
      with ("[" +:+ nl (S d) +:+ String.concat ("," +:+ nl (S d)) (map (encode (S d)) (x :: l)) +:+ nl d +:+ "]").
    rewrite <-!str_app_assoc. set (r := nl (S d) +:+ _).
    assert (∃ c t, skip_ws r = c ::: t ∧ is_byte 93 c = false) as (c & t & Hc & Hc').
    { apply Forall_cons in H as [[Hx _] _]. destruct (enc_first (S d) x Hx) as (c & t & E & Hw & Hc).
      subst r. rewrite skip_ws_app by done. destruct l as [|y l].
      - cbn [map String.concat]. rewrite E. exists c. eexists. rewrite str_app_cons. cbn [skip_ws]. by rewrite Hw.
      - cbn [map]. change (String.concat ?s (?a :: ?b :: ?tl)) with (a +:+ s +:+ String.concat s (b :: tl)).
        rewrite E. exists c. eexists. rewrite !str_app_cons. cbn [skip_ws]. by rewrite Hw. }
    transitivity (match skip_ws r with
      | String d r' => if is_byte 93 d then Some (JArr [], r') else '(l, r2) ← read_elems fuel r; Some (JArr l, r2)
      | EmptyString => None end); [done|].
    rewrite Hc, Hc'. subst r. rewrite read_elems_ws, read_elems_enc by (done || (cbn [need] in Hf; lia)). done.
  - cbn [json_ok] in Hok. rewrite forallb_forall in Hok. destruct m as [|kv m]; [done|].
    assert (Forall (λ kv, (utf8_valid kv.1 = true ∧ json_ok kv.2 = true) ∧ reads kv.2) (kv :: m)) as H.
    { rewrite Forall_forall in Hm |- *. intros kv' Hj.
      assert (utf8_valid kv'.1 && json_ok kv'.2 = true) as Hkv by by apply (Hok kv'), list_elem_of_In.
      apply andb_true_iff in Hkv as [? ?]. split; [done|by apply Hm]. }
    change (encode d (JObj (kv :: m)))
      with ("{" +:+ nl (S d) +:+ String.concat ("," +:+ nl (S d))
        (map (λ kv, json_string html kv.1 +:+ (":" +:+ space) +:+ encode (S d) kv.2) (kv :: m)) +:+ nl d +:+ "}").
    rewrite <-!str_app_assoc. set (r := nl (S d) +:+ _).
    assert (∃ c t, skip_ws r = c ::: t ∧ is_byte 125 c = false) as (c & t & Hc & Hc').
    { subst r. rewrite skip_ws_app by done. destruct m as [|y m]; by eexists _, _. }
    transitivity (match skip_ws r with
      | String d r' => if is_byte 125 d then Some (JObj [], r') else '(m, r2) ← read_members fuel r; Some (JObj m, r2)
      | EmptyString => None end); [done|].
    rewrite Hc, Hc'. subst r. rewrite read_members_ws, read_members_enc by (done || (cbn [need] in Hf; lia)). done.
Qed.

Lemma concat_length sep l : l ≠ [] → 1 ≤ str_len sep →
  list_sum (map (λ s, S (str_len s)) l) ≤ S (str_len (String.concat sep l)).
Proof.
  intros Hl Hs. induction l as [|x l IH]; [done|]. destruct l as [|y l]; [unfold str_len; cbn; lia|].
  change (String.concat sep (x :: y :: l)) with (x +:+ sep +:+ String.concat sep (y :: l)).
  rewrite !str_app_length. specialize (IH ltac:(done)).
  change (list_sum (map (λ s, S (str_len s)) (x :: y :: l))) with (S (str_len x) + list_sum (map (λ s, S (str_len s)) (y :: l))). lia.
Qed.

Lemma group_length {A} (f : A → string) (w : A → nat) l sep left right :
  l ≠ [] → 1 ≤ str_len sep → Forall (λ x, w x ≤ str_len (f x)) l → 1 ≤ str_len left → 1 ≤ str_len right → ∀ a b,
  S (list_sum (map (λ x, S (w x)) l)) ≤ str_len (left +:+ a +:+ String.concat sep (map f l) +:+ b +:+ right).
Proof.
  intros Hl Hs Hw Hleft Hright a b. rewrite !str_app_length.
  pose proof (concat_length sep (map f l) ltac:(by destruct l) Hs) as H. rewrite map_map in H.
  assert (list_sum (map (λ x, S (w x)) l) ≤ list_sum (map (λ x, S (str_len (f x))) l)); [|lia].
  clear -Hw. induction Hw; [done|]. cbn [map]. change (list_sum (?n :: ?ns)) with (n + list_sum ns). lia.
Qed.

(** The fuel of [Unmarshal] is enough. *)
Lemma need_length j d : json_ok j = true → need j ≤ str_len (encode d j).
Proof.
  revert d. induction j as [|b|z|t|s|l Hl|m Hm] using json_nested_ind; intros d Hok.
  - cbn. lia.
  - destruct b; cbn; lia.
  - cbn [enc need]. destruct (fmt_int_first z) as (c & t & -> & _). unfold str_len. cbn. lia.
  - cbn [enc need json_ok] in *. unfold float_text in Hok. destruct t as [|c t]; [by rewrite andb_false_r in Hok|]. unfold str_len. cbn. lia.
  - cbn [enc need]. unfold json_string. rewrite !str_app_length. cbn. lia.
  - destruct l as [|x l]; [change (1 ≤ 2); lia|]. cbn [json_ok] in Hok. rewrite forallb_forall in Hok.
    change (encode d (JArr (x :: l)))
      with ("[" +:+ nl (S d) +:+ String.concat ("," +:+ nl (S d)) (map (encode (S d)) (x :: l)) +:+ nl d +:+ "]").
    apply (group_length (encode (S d)) need); try done; try (rewrite str_app_length; cbn; lia); try (cbn; lia).
    rewrite Forall_forall in Hl |- *. intros j Hj. apply Hl; [done|]. by apply Hok, list_elem_of_In.
  - destruct m as [|x m]; [change (1 ≤ 2); lia|]. cbn [json_ok] in Hok. rewrite forallb_forall in Hok.
    change (encode d (JObj (x :: m)))
      with ("{" +:+ nl (S d) +:+ String.concat ("," +:+ nl (S d))
        (map (λ kv, json_string html kv.1 +:+ (":" +:+ space) +:+ encode (S d) kv.2) (x :: m)) +:+ nl d +:+ "}").
    apply (group_length _ (λ kv, need kv.2)); try done; try (rewrite str_app_length; cbn; lia); try (cbn; lia).
    rewrite Forall_forall in Hm |- *. intros kv Hj. rewrite !str_app_length.
    assert (utf8_valid kv.1 && json_ok kv.2 = true) as Hkv by by apply (Hok kv), list_elem_of_In.
    apply andb_true_iff in Hkv as [_ Hv]. pose proof (Hm kv Hj (S d) Hv). lia.
Qed.

Lemma Unmarshal_enc d j w : json_ok j = true → str_all is_ws w = true → Unmarshal (encode d j +:+ w) = Some j.
Proof.
  intros Hok Hw. unfold Unmarshal. rewrite (read_enc j Hok).
  - cbn [mbind option_bind]. rewrite <-(str_app_nil_r w), skip_ws_app by done. done.
  - rewrite str_app_length. pose proof (need_length j d Hok). lia.
  - destruct w as [|c w]; [done|]. cbn in Hw. boolify. by apply ws_not_num.
Qed.
End documents.

(** The round trips: what [json.Marshal] and an indenting encoder write is read back. *)
Lemma Unmarshal_Marshal j : json_ok j = true → Unmarshal (Marshal j) = Some j.
Proof.
  intros H. unfold Marshal. rewrite <-(str_app_nil_r (enc _ _ _ _ _)). by apply (Unmarshal_enc true (λ _, "") "").
Qed.

Lemma repeat_text_ws n s : str_all is_ws s = true → str_all is_ws (repeat_text n s) = true.
Proof. intros H. induction n; [done|]. cbn [repeat_text]. by rewrite str_all_app, H. Qed.

Lemma Unmarshal_Encode html indent j :
  str_all is_ws indent = true → json_ok j = true → Unmarshal (Encode html indent j) = Some j.
Proof.
  intros Hi H. unfold Encode. apply (Unmarshal_enc html _ " "); [|done..]. intros d. cbn [str_all]. by rewrite repeat_text_ws.
Qed.

(** ** The texts of [Marshal] are one line *)

Definition printable (c : ascii) : bool := (32 <=? byte_of c)%N.

Lemma json_byte_printable html a : (byte_of a <? 128)%N = true → str_all printable (json_byte html a) = true.
Proof. destruct html, a as [[] [] [] [] [] [] [] []]; intros H; first [discriminate H | reflexivity]. Qed.

Lemma high_printable c : (128 <=? byte_of c)%N = true → printable c = true.
Proof. unfold printable. rewrite !N.leb_le. lia. Qed.

Lemma json_bytes_printable html k s : high k s = true → str_all printable (json_bytes html k s) = true.
Proof.
  remember (str_len s) as n eqn:Hn. revert s k Hn. induction (lt_wf n) as [n _ IH]. intros [|a s] k Hn Hh; [by destruct k|].
  assert (∀ k', high k' s = true → str_all printable (json_bytes html k' s) = true) as IHs
    by (intros k'; apply (IH (str_len s)); [rewrite Hn; unfold str_len; cbn; lia|done]).
  destruct k as [|k].
  2: { cbn [high] in Hh. apply andb_true_iff in Hh as [Ha Hh]. cbn [json_bytes str_all]. by rewrite high_printable, IHs. }
  cbn [json_bytes]. destruct (byte_of a <? 128)%N eqn:Ea.
  { by rewrite str_all_app, json_byte_printable, IHs by done. }
  apply N.ltb_ge in Ea. pose proof (proj2 (N.leb_le 128 (byte_of a)) Ea) as Ha.
  destruct (negb (rune_ok (a ::: s))); [by rewrite str_all_app, IHs by done|].
  assert (str_all printable (a ::: json_bytes html (pred (rune_size (a ::: s))) s) = true) as Hcopy.
  { cbn [str_all]. by rewrite high_printable, IHs by (done || apply rune_high). }
  destruct s as [|b [|c s2]]; [exact Hcopy..|]. destruct (line_sep a b c) eqn:El; [|exact Hcopy].
  rewrite str_all_app. cbn [str_all].
  rewrite (IH (str_len s2)) with (k := 0) by (done || (rewrite Hn; unfold str_len; cbn; lia)).
  by destruct (line_sep_bytes _ _ _ El) as (_ & _ & [-> | ->]).
Qed.

Lemma json_string_printable html s : str_all printable (json_string html s) = true.
Proof. unfold json_string. rewrite !str_all_app, (json_bytes_printable html 0 s) by done. reflexivity. Qed.

Lemma num_printable t : str_all num_char t = true → str_all printable t = true.
Proof. apply str_all_weaken. intros c. destruct c as [[] [] [] [] [] [] [] []]; intros H; first [discriminate H|reflexivity]. Qed.

Lemma concat_printable sep l :
  str_all printable sep = true → Forall (λ s, str_all printable s = true) l → str_all printable (String.concat sep l) = true.
Proof.
  intros Hs Hl. induction Hl as [|x l Hx Hl IH]; [done|]. destruct l as [|y l]; [done|].
  change (String.concat sep (x :: y :: l)) with (x +:+ sep +:+ String.concat sep (y :: l)).
  by rewrite !str_all_app, Hx, Hs, IH.
Qed.

Lemma Marshal_printable j : json_ok j = true → str_all printable (Marshal j) = true.
Proof.
  unfold Marshal. generalize 0. induction j as [|b|z|t|s|l Hl|m Hm] using json_nested_ind; intros d Hok.
  - done.
  - by destruct b.
  - cbn [enc]. apply num_printable, read_number_int.
  - cbn [enc json_ok] in *. unfold float_text in Hok. rewrite !andb_true_iff in Hok. destruct Hok as [[Hn _] _]. by apply num_printable.
  - apply json_string_printable.
  - cbn [json_ok] in Hok. rewrite forallb_forall in Hok. destruct l as [|x l]; [done|].
    change (enc true (λ _, "") ":" d (JArr (x :: l)))
      with ("[" +:+ "" +:+ String.concat "," (map (enc true (λ _, "") ":" (S d)) (x :: l)) +:+ "" +:+ "]").
    rewrite !str_all_app, concat_printable; [done..|]. rewrite Forall_map. rewrite Forall_forall in Hl |- *.
    intros j Hj. apply Hl; [done|]. by apply Hok, list_elem_of_In.
  - cbn [json_ok] in Hok. rewrite forallb_forall in Hok. destruct m as [|x m]; [done|].
    change (enc true (λ _, "") ":" d (JObj (x :: m)))
      with ("{" +:+ "" +:+ String.concat "," (map (λ kv, json_string true kv.1 +:+ ":" +:+ enc true (λ _, "") ":" (S d) kv.2) (x :: m)) +:+ "" +:+ "}").
    rewrite !str_all_app, concat_printable; [done..|]. rewrite Forall_map. rewrite Forall_forall in Hm |- *.
    intros kv Hj. assert (utf8_valid kv.1 && json_ok kv.2 = true) as Hkv by by apply (Hok kv), list_elem_of_In.
    apply andb_true_iff in Hkv as [_ Hv]. by rewrite !str_all_app, json_string_printable, (Hm kv Hj (S d) Hv).
Qed.

(** * Values that JSON does not have *)

(** A float that has no JSON form is kept by its [%v] text, which [Marshal] refuses. *)
Definition float_member (x : float64) : json := default (JFloat (fmt_v x)) (json_float x).

Fixpoint unsupported (j : json) : option string :=
  match j with
  | JFloat t => match read_number t with None => Some t | Some _ => None end
  | JArr l => first_some unsupported l
  | JObj m => first_some (λ kv, unsupported kv.2) m
  | _ => None
  end.

(** [json.Marshal] and [Encoder.Encode] with their error. *)
Definition supported (j : json) (text : string) : res string :=
  match unsupported j with
  | Some t => Err ("json: unsupported value: " +:+ t)
  | None => Ok text
  end.
Definition go_marshal (j : json) : res string := supported j (Marshal j).
Definition go_encode (html : bool) (indent : string) (j : json) : res string := supported j (Encode html indent j).

Lemma json_ok_supported j : json_ok j = true → unsupported j = None.
Proof.
  induction j as [|b|z|t|s|l Hl|m Hm] using json_nested_ind; intros H; try done.
  - cbn [json_ok unsupported] in *. unfold float_text in H. rewrite !andb_true_iff in H. destruct H as [[_ H] _].
    by destruct (read_number t).
  - cbn [json_ok unsupported] in *. rewrite forallb_forall in H. induction Hl as [|x l Hx Hl IH]; [done|].
    cbn [first_some]. rewrite Hx by (apply H; by left). apply IH. intros y Hy. apply H. by right.
  - cbn [json_ok unsupported] in *. rewrite forallb_forall in H. induction Hm as [|x m Hx Hm IH]; [done|].
    cbn [first_some]. pose proof (H x ltac:(by left)) as Hkv. apply andb_true_iff in Hkv as [_ Hv].
    rewrite Hx by done. apply IH. intros y Hy. apply H. by right.
Qed.

Lemma printable_lacks c s : (byte_of c <? 32)%N = true → str_all printable s = true → lacks c s = true.
Proof.
  intros Hc. apply str_all_weaken. intros d Hd. apply negb_true_iff, Ascii.eqb_neq. intros ->.
  unfold printable in Hd. rewrite N.leb_le in Hd. rewrite N.ltb_lt in Hc. lia.
Qed.
