(* ===== verification/Api.v ===== *)
(** The public report types (pkg/api/types.go).

    [Severity] and [Capability] are Go string types: a value outside the declared
    constants is possible, so they stay strings here.  Slices and maps are lists
    and finite maps; a nil slice and an empty one are the same list, except
    [TopRisks] and [Coverage], where the code tests for nil. *)

From S2P Require Import Prelude GoFloat.

(** * Severity *)

Abbreviation Severity := string (only parsing).

Definition SeverityCritical : Severity := "critical".
Definition SeverityHigh : Severity := "high".
Definition SeverityMedium : Severity := "medium".
Definition SeverityLow : Severity := "low".
Definition SeverityInfo : Severity := "info".

Definition Rank (s : Severity) : Z :=
  if s =s SeverityCritical then 5
  else if s =s SeverityHigh then 4
  else if s =s SeverityMedium then 3
  else if s =s SeverityLow then 2
  else if s =s SeverityInfo then 1
  else 0.

(** * Capability *)

Abbreviation Capability := string (only parsing).

Definition CapInternetIngress : Capability := "InternetIngress".
Definition CapNetworkReachable : Capability := "NetworkReachable".
Definition CapContainerEscape : Capability := "ContainerEscape".
Definition CapNodeAccess : Capability := "NodeAccess".
Definition CapHostFilesystemAccess : Capability := "HostFilesystemAccess".
Definition CapHostNetworkAccess : Capability := "HostNetworkAccess".
Definition CapHostProcessAccess : Capability := "HostProcessAccess".
Definition CapHostIPCAccess : Capability := "HostIPCAccess".
Definition CapServiceAccountToken : Capability := "ServiceAccountToken".
Definition CapSecretRead : Capability := "SecretRead".
Definition CapPodCreate : Capability := "PodCreate".
Definition CapBroadAPIAccess : Capability := "BroadAPIAccess".
Definition CapClusterAdmin : Capability := "ClusterAdmin".
Definition CapLateralMovement : Capability := "LateralMovement".
Definition CapResourceExhaustion : Capability := "ResourceExhaustion".
Definition CapRootInContainer : Capability := "RootInContainer".
Definition CapPrivEsc : Capability := "PrivEscWithinContainer".

(** * Findings *)

Record ResourceRef := mkResourceRef {
  rr_Kind : string;
  rr_Namespace : string;
  rr_Name : string
}.

Record Evidence := mkEvidence {
  ev_Path : string;
  ev_Value : string
}.

Record Remediation := mkRemediation {
  rem_Summary : string;
  rem_Snippet : string
}.

Record ControlRef := mkControlRef {
  cr_Framework : string;
  cr_ID : string;
  cr_Title : string
}.

Record Finding := mkFinding {
  f_ID : string;
  f_Title : string;
  f_Severity : Severity;
  f_Category : string;
  f_Resource : ResourceRef;
  f_Evidence : list Evidence;
  f_Remediation : Remediation;
  f_Grants : list Capability;
  f_Refs : list ControlRef
}.

(** [f.Severity = s] *)
Definition set_Severity (s : Severity) (f : Finding) : Finding :=
  mkFinding (f_ID f) (f_Title f) s (f_Category f) (f_Resource f) (f_Evidence f)
    (f_Remediation f) (f_Grants f) (f_Refs f).

(** * Attack paths *)

Record PathHop := mkPathHop {
  h_Order : Z;
  h_From : Capability;
  h_To : Capability;
  h_EnabledBy : string;
  h_Technique : list string;
  h_Narrative : string
}.

Record AttackPath := mkAttackPath {
  p_ID : string;
  p_Title : string;
  p_Severity : Severity;
  p_Entry : ResourceRef;
  p_Hops : list PathHop;
  p_Summary : string
}.

(** [p.ID = id] *)
Definition set_path_ID (id : string) (p : AttackPath) : AttackPath :=
  mkAttackPath id (p_Title p) (p_Severity p) (p_Entry p) (p_Hops p) (p_Summary p).

(** * Compliance and posture *)

Record ControlBreach := mkControlBreach {
  cb_ControlID : string;
  cb_Title : string;
  cb_Findings : list string
}.

Record FrameworkResult := mkFrameworkResult {
  fr_Framework : string;
  fr_Version : string;
  fr_Assessed : Z;
  fr_Breached : Z;
  fr_Passed : Z;
  fr_PassRate : float64;
  fr_Breaches : list ControlBreach;
  fr_Disclaimer : string
}.

Record PostureSummary := mkPostureSummary {
  ps_TotalFindings : Z;
  ps_BySeverity : gmap Severity Z;
  ps_CriticalPaths : Z;
  ps_ControlsAssessed : Z;
  ps_ControlsBreached : Z;
  ps_OverallPassRate : float64
}.

Record EvidenceControl := mkEvidenceControl {
  ec_ControlID : string;
  ec_Title : string;
  ec_MapsTo : list string;
  ec_Breached : bool;
  ec_Findings : list Finding
}.

Record EvidencePack := mkEvidencePack {
  ep_GeneratedAt : string;
  ep_Source : string;
  ep_Profile : string;
  ep_ID : string;
  ep_Framework : string;
  ep_Version : string;
  ep_Assessed : Z;
  ep_Breached : Z;
  ep_Passed : Z;
  ep_PassRate : float64;
  ep_Controls : list EvidenceControl;
  ep_Disclaimer : string
}.

Record CoverageBreakdown := mkCoverage {
  cov_Discovered : Z;
  cov_Assessable : Z;
  cov_Skipped : Z;
  cov_Rate : float64;
  cov_SkippedByKind : gmap string Z
}.

(** * Risk scores *)

Record RiskFactor := mkRiskFactor {
  rf_Name : string;
  rf_Points : Z;
  rf_Detail : string
}.

Record RiskScore := mkRiskScore {
  rs_FindingID : string;
  rs_Title : string;
  rs_Severity : Severity;
  rs_Resource : ResourceRef;
  rs_Score : Z;
  rs_Factors : list RiskFactor
}.

(** * The report *)

Record Report := mkReport {
  rep_GeneratedAt : string;
  rep_Source : string;
  rep_Profile : string;
  rep_Findings : list Finding;
  rep_Paths : list AttackPath;
  rep_Posture : PostureSummary;
  rep_Compliance : list FrameworkResult;
  rep_Coverage : option CoverageBreakdown;
  rep_TopRisks : option (list RiskScore)
}.

(** The zero values [api.PostureSummary{}] and [api.Report{}]. *)
Definition zero_posture : PostureSummary := mkPostureSummary 0 ∅ 0 0 0 fzero.
Definition zero_report : Report := mkReport "" "" "" [] [] zero_posture [] None None.

(** [rep.GeneratedAt = at; rep.Source = src] *)
Definition stamp_report (at_ src : string) (r : Report) : Report :=
  mkReport at_ src (rep_Profile r) (rep_Findings r) (rep_Paths r) (rep_Posture r)
    (rep_Compliance r) (rep_Coverage r) (rep_TopRisks r).

#[export] Instance ResourceRef_eq_dec : EqDecision ResourceRef.
Proof. solve_decision. Defined.
#[export] Instance Evidence_eq_dec : EqDecision Evidence.
Proof. solve_decision. Defined.
#[export] Instance Remediation_eq_dec : EqDecision Remediation.
Proof. solve_decision. Defined.
#[export] Instance ControlRef_eq_dec : EqDecision ControlRef.
Proof. solve_decision. Defined.
#[export] Instance Finding_eq_dec : EqDecision Finding.
Proof. solve_decision. Defined.
#[export] Instance PathHop_eq_dec : EqDecision PathHop.
Proof. solve_decision. Defined.

(** * Lemmas *)

(** The declared severities, most severe first. *)
Definition severities : list Severity :=
  [SeverityCritical; SeverityHigh; SeverityMedium; SeverityLow; SeverityInfo].

Ltac unfold_severities :=
  unfold SeverityCritical, SeverityHigh, SeverityMedium, SeverityLow, SeverityInfo in *.

Lemma Rank_bounds s : (0 <= Rank s <= 5)%Z.
Proof. unfold Rank. repeat case_str; lia. Qed.

Lemma Rank_positive s : (0 < Rank s)%Z ↔ s ∈ severities.
Proof.
  unfold Rank, severities. repeat case_str; subst; split; intros; try lia;
    try set_solver; exfalso; set_solver.
Qed.

(** On the declared severities the rank is injective. *)
Lemma Rank_inj s t : s ∈ severities → Rank s = Rank t → s = t.
Proof.
  intros Hs%Rank_positive. unfold Rank in *. repeat case_str; subst; try done; lia.
Qed.
