(* ===== verification/Model.v ===== *)
(** The normalized resource model (internal/model/types.go). *)

From S2P Require Import Prelude GoStrings GoJson.

(** * Resources *)

Record Resource := mkResource {
  APIVersion : string;
  Kind : string;
  Namespace : string;
  Name : string;
  UID : string;
  Labels : gmap string string;
  Annotations : gmap string string;
  Raw : json_members
}.

Definition Ref (r : Resource) : string :=
  let ns := if Namespace r =s "" then "_cluster_" else Namespace r in
  ns +:+ "/" +:+ Kind r +:+ "/" +:+ Name r.

(** * Workloads *)

Record VolumeView := mkVolumeView {
  v_Name : string;
  v_HostPath : string;
  v_HostPathType : string
}.

Record ResourceLimitsView := mkLimits {
  lim_CPU : string;
  lim_Memory : string
}.

Definition HasLimits (l : ResourceLimitsView) : bool :=
  lim_CPU l <>s "" && lim_Memory l <>s "".

Record ContainerView := mkContainerView {
  c_Name : string;
  c_Image : string;
  c_Role : string;
  c_Privileged : bool;
  c_AllowPrivEsc : option bool;
  c_RunAsUser : option Z;
  c_RunAsNonRoot : option bool;
  c_ReadOnlyRootFS : option bool;
  c_CapsAdd : list string;
  c_CapsDrop : list string;
  c_SeccompProfile : string;
  c_EnvSecretKeys : list string;
  c_Limits : ResourceLimitsView
}.

Record SecurityContextView := mkSecurityContextView {
  sc_RunAsUser : option Z;
  sc_RunAsNonRoot : option bool;
  sc_SeccompProfile : string
}.

Record PodSpecView := mkPodSpecView {
  HostNetwork : bool;
  HostPID : bool;
  HostIPC : bool;
  AutomountSAToken : option bool;
  Volumes : list VolumeView;
  Containers : list ContainerView;
  SecurityContext : SecurityContextView
}.

Record Workload := mkWorkload {
  w_Resource : Resource;
  w_Replicas : Z;
  w_ServiceAccountName : string;
  w_PodLabels : gmap string string;
  w_PodSpec : PodSpecView
}.

(** Promoted fields of the embedded [Resource]. *)
Definition w_Kind (w : Workload) : string := Kind (w_Resource w).
Definition w_Namespace (w : Workload) : string := Namespace (w_Resource w).
Definition w_Name (w : Workload) : string := Name (w_Resource w).

(** * RBAC *)

Record ServiceAccount := mkServiceAccount {
  sa_Resource : Resource;
  sa_AutomountToken : option bool
}.

Record PolicyRule := mkPolicyRule {
  APIGroups : list string;
  Resources : list string;
  Verbs : list string;
  ResourceNames : list string
}.

Record Role := mkRole {
  r_Resource : Resource;
  r_Rules : list PolicyRule
}.

Record ClusterRole := mkClusterRole {
  cro_Resource : Resource;
  cro_Rules : list PolicyRule
}.

Record RoleRef := mkRoleRef {
  rref_Kind : string;
  rref_Name : string;
  rref_APIGroup : string
}.

Record Subject := mkSubject {
  sub_Kind : string;
  sub_Name : string;
  sub_Namespace : string
}.

Record RoleBinding := mkRoleBinding {
  rb_Resource : Resource;
  rb_RoleRef : RoleRef;
  rb_Subjects : list Subject
}.

Record ClusterRoleBinding := mkClusterRoleBinding {
  crb_Resource : Resource;
  crb_RoleRef : RoleRef;
  crb_Subjects : list Subject
}.

(** * Services and network policies *)

Record ServicePort := mkServicePort {
  sp_Port : Z;
  sp_TargetPort : string;
  sp_Protocol : string;
  sp_NodePort : Z
}.

Record Service := mkService {
  svc_Resource : Resource;
  svc_Type : string;
  svc_Selector : gmap string string;
  svc_Ports : list ServicePort
}.

Record NetworkPolicy := mkNetworkPolicy {
  np_Resource : Resource;
  np_PodSelector : gmap string string;
  np_PolicyTypes : list string;
  np_IngressRuleCount : Z;
  np_EgressRuleCount : Z
}.

(** The loop sets [denies] and never clears it. *)
Definition IsDefaultDeny (n : NetworkPolicy) : bool :=
  if negb (Nat.eqb (size (np_PodSelector n)) 0) then false
  else
    foldl (λ denies t,
        let denies := if (t =s "Ingress") && (np_IngressRuleCount n =? 0)%Z then true else denies in
        if (t =s "Egress") && (np_EgressRuleCount n =? 0)%Z then true else denies)
      false (np_PolicyTypes n).

(** * Lemmas *)

Lemma foldl_or {A} (p q : A → bool) l b :
  foldl (λ d t, let d' := if p t then true else d in if q t then true else d') b l
  = b || existsb (λ t, p t || q t) l.
Proof.
  revert b. induction l as [|x l IH]; intros b; simpl; [by destruct b|].
  rewrite IH. destruct b, (p x), (q x); done.
Qed.

Lemma IsDefaultDeny_spec n :
  IsDefaultDeny n = true ↔
    np_PodSelector n = ∅ ∧
    (("Ingress" ∈ np_PolicyTypes n ∧ np_IngressRuleCount n = 0%Z) ∨
     ("Egress" ∈ np_PolicyTypes n ∧ np_EgressRuleCount n = 0%Z)).
Proof.
  unfold IsDefaultDeny. rewrite foldl_or.
  destruct (Nat.eqb_spec (size (np_PodSelector n)) 0) as [E|E]; simpl.
  - apply map_size_empty_iff in E. rewrite existsb_elem, E. split.
    + intros (t & Ht & Hp). boolify. split; [done|].
      destruct Hp as [Hp|Hp]; boolify; subst; auto.
    + intros [_ [[Ht Hc]|[Ht Hc]]]; [exists "Ingress"|exists "Egress"];
        rewrite Hc; split; auto.
  - split; [done|]. intros [E' _]. rewrite E' in E. by rewrite map_size_empty in E.
Qed.
