(* ===== verification/Normalize.v ===== *)
(** Normalization of raw documents into the typed model
    (internal/graph/normalize.go).

    Each Kubernetes-shaped decode struct of the source is a record [raw...] with a
    zero value [zero_...] and a decoder [dec_...] that lists its JSON fields.
    [json.Marshal] of a decoded document cannot fail, so [toWorkload] fails only on
    a kind that is not a workload or on a type error while decoding. *)

From S2P Require Import Prelude GoStrings GoJson Model.

(** * Decode structs *)

Record rawMeta := mkRawMeta { rm_labels : gmap string string }.
Definition zero_meta : rawMeta := mkRawMeta ∅.
Definition dec_meta : decoder rawMeta := dec_struct
  [fld "labels" rm_labels (λ _ v, mkRawMeta v) dec_string_map].

Record rawCaps := mkRawCaps { rc_add : list string; rc_drop : list string }.
Definition zero_caps : rawCaps := mkRawCaps [] [].
Definition dec_strings : decoder (list string) := dec_slice "" dec_string.
Definition dec_caps : decoder rawCaps := dec_struct
  [fld "add" rc_add (λ s v, mkRawCaps v (rc_drop s)) dec_strings;
   fld "drop" rc_drop (λ s v, mkRawCaps (rc_add s) v) dec_strings].

Record rawSeccomp := mkRawSeccomp { rsc_type : string }.
Definition zero_seccomp : rawSeccomp := mkRawSeccomp "".
Definition dec_seccomp : decoder rawSeccomp := dec_struct
  [fld "type" rsc_type (λ _ v, mkRawSeccomp v) dec_string].

Record rawSecCtx := mkRawSecCtx {
  rs_privileged : option bool;
  rs_allowPrivilegeEscalation : option bool;
  rs_runAsUser : option Z;
  rs_runAsNonRoot : option bool;
  rs_readOnlyRootFilesystem : option bool;
  rs_capabilities : option rawCaps;
  rs_seccompProfile : option rawSeccomp
}.
Definition zero_secctx : rawSecCtx := mkRawSecCtx None None None None None None None.
Definition dec_secctx : decoder rawSecCtx := dec_struct
  [fld "privileged" rs_privileged
     (λ s v, mkRawSecCtx v (rs_allowPrivilegeEscalation s) (rs_runAsUser s) (rs_runAsNonRoot s)
        (rs_readOnlyRootFilesystem s) (rs_capabilities s) (rs_seccompProfile s))
     (dec_ptr false dec_bool);
   fld "allowPrivilegeEscalation" rs_allowPrivilegeEscalation
     (λ s v, mkRawSecCtx (rs_privileged s) v (rs_runAsUser s) (rs_runAsNonRoot s)
        (rs_readOnlyRootFilesystem s) (rs_capabilities s) (rs_seccompProfile s))
     (dec_ptr false dec_bool);
   fld "runAsUser" rs_runAsUser
     (λ s v, mkRawSecCtx (rs_privileged s) (rs_allowPrivilegeEscalation s) v (rs_runAsNonRoot s)
        (rs_readOnlyRootFilesystem s) (rs_capabilities s) (rs_seccompProfile s))
     (dec_ptr 0%Z dec_int);
   fld "runAsNonRoot" rs_runAsNonRoot
     (λ s v, mkRawSecCtx (rs_privileged s) (rs_allowPrivilegeEscalation s) (rs_runAsUser s) v
        (rs_readOnlyRootFilesystem s) (rs_capabilities s) (rs_seccompProfile s))
     (dec_ptr false dec_bool);
   fld "readOnlyRootFilesystem" rs_readOnlyRootFilesystem
     (λ s v, mkRawSecCtx (rs_privileged s) (rs_allowPrivilegeEscalation s) (rs_runAsUser s)
        (rs_runAsNonRoot s) v (rs_capabilities s) (rs_seccompProfile s))
     (dec_ptr false dec_bool);
   fld "capabilities" rs_capabilities
     (λ s v, mkRawSecCtx (rs_privileged s) (rs_allowPrivilegeEscalation s) (rs_runAsUser s)
        (rs_runAsNonRoot s) (rs_readOnlyRootFilesystem s) v (rs_seccompProfile s))
     (dec_ptr zero_caps dec_caps);
   fld "seccompProfile" rs_seccompProfile
     (λ s v, mkRawSecCtx (rs_privileged s) (rs_allowPrivilegeEscalation s) (rs_runAsUser s)
        (rs_runAsNonRoot s) (rs_readOnlyRootFilesystem s) (rs_capabilities s) v)
     (dec_ptr zero_seccomp dec_seccomp)].

Record rawPodSecCtx := mkRawPodSecCtx {
  rps_runAsUser : option Z;
  rps_runAsNonRoot : option bool;
  rps_seccompProfile : option rawSeccomp
}.
Definition zero_podsecctx : rawPodSecCtx := mkRawPodSecCtx None None None.
Definition dec_podsecctx : decoder rawPodSecCtx := dec_struct
  [fld "runAsUser" rps_runAsUser
     (λ s v, mkRawPodSecCtx v (rps_runAsNonRoot s) (rps_seccompProfile s)) (dec_ptr 0%Z dec_int);
   fld "runAsNonRoot" rps_runAsNonRoot
     (λ s v, mkRawPodSecCtx (rps_runAsUser s) v (rps_seccompProfile s)) (dec_ptr false dec_bool);
   fld "seccompProfile" rps_seccompProfile
     (λ s v, mkRawPodSecCtx (rps_runAsUser s) (rps_runAsNonRoot s) v)
     (dec_ptr zero_seccomp dec_seccomp)].

(** [rawResources] and its anonymous [Limits] struct. *)
Record rawLimits := mkRawLimits { rl_cpu : string; rl_memory : string }.
Definition zero_limits : rawLimits := mkRawLimits "" "".
Definition dec_limits : decoder rawLimits := dec_struct
  [fld "cpu" rl_cpu (λ s v, mkRawLimits v (rl_memory s)) dec_string;
   fld "memory" rl_memory (λ s v, mkRawLimits (rl_cpu s) v) dec_string].

Record rawResources := mkRawResources { rr_limits : rawLimits }.
Definition zero_resources : rawResources := mkRawResources zero_limits.
Definition dec_resources : decoder rawResources := dec_struct
  [fld "limits" rr_limits (λ _ v, mkRawResources v) dec_limits].

(** [rawEnvVar] with its anonymous [ValueFrom] and [SecretKeyRef] structs. *)
Record rawSecretKeyRef := mkRawSecretKeyRef { rk_name : string; rk_key : string }.
Definition zero_secret_key_ref : rawSecretKeyRef := mkRawSecretKeyRef "" "".
Definition dec_secret_key_ref : decoder rawSecretKeyRef := dec_struct
  [fld "name" rk_name (λ s v, mkRawSecretKeyRef v (rk_key s)) dec_string;
   fld "key" rk_key (λ s v, mkRawSecretKeyRef (rk_name s) v) dec_string].

Record rawValueFrom := mkRawValueFrom { rvf_secretKeyRef : option rawSecretKeyRef }.
Definition zero_value_from : rawValueFrom := mkRawValueFrom None.
Definition dec_value_from : decoder rawValueFrom := dec_struct
  [fld "secretKeyRef" rvf_secretKeyRef (λ _ v, mkRawValueFrom v)
     (dec_ptr zero_secret_key_ref dec_secret_key_ref)].

Record rawEnvVar := mkRawEnvVar { re_name : string; re_valueFrom : option rawValueFrom }.
Definition zero_env : rawEnvVar := mkRawEnvVar "" None.
Definition dec_env : decoder rawEnvVar := dec_struct
  [fld "name" re_name (λ s v, mkRawEnvVar v (re_valueFrom s)) dec_string;
   fld "valueFrom" re_valueFrom (λ s v, mkRawEnvVar (re_name s) v)
     (dec_ptr zero_value_from dec_value_from)].

Record rawContainer := mkRawContainer {
  rco_name : string;
  rco_image : string;
  rco_securityContext : option rawSecCtx;
  rco_resources : option rawResources;
  rco_env : list rawEnvVar
}.
Definition zero_container : rawContainer := mkRawContainer "" "" None None [].
Definition dec_container : decoder rawContainer := dec_struct
  [fld "name" rco_name (λ s v, mkRawContainer v (rco_image s) (rco_securityContext s)
     (rco_resources s) (rco_env s)) dec_string;
   fld "image" rco_image (λ s v, mkRawContainer (rco_name s) v (rco_securityContext s)
     (rco_resources s) (rco_env s)) dec_string;
   fld "securityContext" rco_securityContext (λ s v, mkRawContainer (rco_name s) (rco_image s) v
     (rco_resources s) (rco_env s)) (dec_ptr zero_secctx dec_secctx);
   fld "resources" rco_resources (λ s v, mkRawContainer (rco_name s) (rco_image s)
     (rco_securityContext s) v (rco_env s)) (dec_ptr zero_resources dec_resources);
   fld "env" rco_env (λ s v, mkRawContainer (rco_name s) (rco_image s) (rco_securityContext s)
     (rco_resources s) v) (dec_slice zero_env dec_env)].

(** [rawVolume] and its anonymous [HostPath] struct. *)
Record rawHostPath := mkRawHostPath { rh_path : string; rh_type : string }.
Definition zero_hostpath : rawHostPath := mkRawHostPath "" "".
Definition dec_hostpath : decoder rawHostPath := dec_struct
  [fld "path" rh_path (λ s v, mkRawHostPath v (rh_type s)) dec_string;
   fld "type" rh_type (λ s v, mkRawHostPath (rh_path s) v) dec_string].

Record rawVolume := mkRawVolume { rv_name : string; rv_hostPath : option rawHostPath }.
Definition zero_volume : rawVolume := mkRawVolume "" None.
Definition dec_volume : decoder rawVolume := dec_struct
  [fld "name" rv_name (λ s v, mkRawVolume v (rv_hostPath s)) dec_string;
   fld "hostPath" rv_hostPath (λ s v, mkRawVolume (rv_name s) v)
     (dec_ptr zero_hostpath dec_hostpath)].

Record rawPodSpec := mkRawPodSpec {
  rp_serviceAccountName : string;
  rp_automount : option bool;
  rp_hostNetwork : bool;
  rp_hostPID : bool;
  rp_hostIPC : bool;
  rp_securityContext : option rawPodSecCtx;
  rp_volumes : list rawVolume;
  rp_containers : list rawContainer;
  rp_initContainers : list rawContainer;
  rp_ephemeralContainers : list rawContainer
}.
Definition zero_podspec : rawPodSpec := mkRawPodSpec "" None false false false None [] [] [] [].

Definition dec_containers : decoder (list rawContainer) := dec_slice zero_container dec_container.

Definition dec_podspec : decoder rawPodSpec := dec_struct
  [fld "serviceAccountName" rp_serviceAccountName
     (λ s v, mkRawPodSpec v (rp_automount s) (rp_hostNetwork s) (rp_hostPID s) (rp_hostIPC s)
        (rp_securityContext s) (rp_volumes s) (rp_containers s) (rp_initContainers s)
        (rp_ephemeralContainers s)) dec_string;
   fld "automountServiceAccountToken" rp_automount
     (λ s v, mkRawPodSpec (rp_serviceAccountName s) v (rp_hostNetwork s) (rp_hostPID s)
        (rp_hostIPC s) (rp_securityContext s) (rp_volumes s) (rp_containers s)
        (rp_initContainers s) (rp_ephemeralContainers s)) (dec_ptr false dec_bool);
   fld "hostNetwork" rp_hostNetwork
     (λ s v, mkRawPodSpec (rp_serviceAccountName s) (rp_automount s) v (rp_hostPID s)
        (rp_hostIPC s) (rp_securityContext s) (rp_volumes s) (rp_containers s)
        (rp_initContainers s) (rp_ephemeralContainers s)) dec_bool;
   fld "hostPID" rp_hostPID
     (λ s v, mkRawPodSpec (rp_serviceAccountName s) (rp_automount s) (rp_hostNetwork s) v
        (rp_hostIPC s) (rp_securityContext s) (rp_volumes s) (rp_containers s)
        (rp_initContainers s) (rp_ephemeralContainers s)) dec_bool;
   fld "hostIPC" rp_hostIPC
     (λ s v, mkRawPodSpec (rp_serviceAccountName s) (rp_automount s) (rp_hostNetwork s)
        (rp_hostPID s) v (rp_securityContext s) (rp_volumes s) (rp_containers s)
        (rp_initContainers s) (rp_ephemeralContainers s)) dec_bool;
   fld "securityContext" rp_securityContext
     (λ s v, mkRawPodSpec (rp_serviceAccountName s) (rp_automount s) (rp_hostNetwork s)
        (rp_hostPID s) (rp_hostIPC s) v (rp_volumes s) (rp_containers s)
        (rp_initContainers s) (rp_ephemeralContainers s)) (dec_ptr zero_podsecctx dec_podsecctx);
   fld "volumes" rp_volumes
     (λ s v, mkRawPodSpec (rp_serviceAccountName s) (rp_automount s) (rp_hostNetwork s)
        (rp_hostPID s) (rp_hostIPC s) (rp_securityContext s) v (rp_containers s)
        (rp_initContainers s) (rp_ephemeralContainers s)) (dec_slice zero_volume dec_volume);
   fld "containers" rp_containers
     (λ s v, mkRawPodSpec (rp_serviceAccountName s) (rp_automount s) (rp_hostNetwork s)
        (rp_hostPID s) (rp_hostIPC s) (rp_securityContext s) (rp_volumes s) v
        (rp_initContainers s) (rp_ephemeralContainers s)) dec_containers;
   fld "initContainers" rp_initContainers
     (λ s v, mkRawPodSpec (rp_serviceAccountName s) (rp_automount s) (rp_hostNetwork s)
        (rp_hostPID s) (rp_hostIPC s) (rp_securityContext s) (rp_volumes s) (rp_containers s) v
        (rp_ephemeralContainers s)) dec_containers;
   fld "ephemeralContainers" rp_ephemeralContainers
     (λ s v, mkRawPodSpec (rp_serviceAccountName s) (rp_automount s) (rp_hostNetwork s)
        (rp_hostPID s) (rp_hostIPC s) (rp_securityContext s) (rp_volumes s) (rp_containers s)
        (rp_initContainers s) v) dec_containers].

Record rawTemplate := mkRawTemplate { rt_metadata : rawMeta; rt_spec : rawPodSpec }.
Definition zero_template : rawTemplate := mkRawTemplate zero_meta zero_podspec.
Definition dec_template : decoder rawTemplate := dec_struct
  [fld "metadata" rt_metadata (λ s v, mkRawTemplate v (rt_spec s)) dec_meta;
   fld "spec" rt_spec (λ s v, mkRawTemplate (rt_metadata s) v) dec_podspec].

(** * Pod specs *)

Definition workloadKinds : list string :=
  ["Pod"; "Deployment"; "StatefulSet"; "DaemonSet"; "Job"; "CronJob"].

Definition isWorkloadKind (kind : string) : bool := mem_str kind workloadKinds.

Definition seccompType (p : option rawSeccomp) : string :=
  match p with None => "" | Some p => rsc_type p end.

Definition env_is_secret (e : rawEnvVar) : bool :=
  match re_valueFrom e with
  | Some vf => match rvf_secretKeyRef vf with Some _ => true | None => false end
  | None => false
  end.

Definition buildContainer (role : string) (c : rawContainer) : ContainerView :=
  let sc := rco_securityContext c in
  let from {A} (d : A) (g : rawSecCtx → A) : A := match sc with Some s => g s | None => d end in
  {| c_Name := rco_name c;
     c_Image := rco_image c;
     c_Role := role;
     c_Privileged := from false (λ s, match rs_privileged s with Some b => b | None => false end);
     c_AllowPrivEsc := from None rs_allowPrivilegeEscalation;
     c_RunAsUser := from None rs_runAsUser;
     c_RunAsNonRoot := from None rs_runAsNonRoot;
     c_ReadOnlyRootFS := from None rs_readOnlyRootFilesystem;
     c_CapsAdd := from [] (λ s, match rs_capabilities s with Some cs => rc_add cs | None => [] end);
     c_CapsDrop := from [] (λ s, match rs_capabilities s with Some cs => rc_drop cs | None => [] end);
     c_SeccompProfile := from "" (λ s, seccompType (rs_seccompProfile s));
     c_EnvSecretKeys := map re_name (List.filter env_is_secret (rco_env c));
     c_Limits := match rco_resources c with
                 | Some r => mkLimits (rl_cpu (rr_limits r)) (rl_memory (rr_limits r))
                 | None => mkLimits "" ""
                 end |}.

Definition buildContainers (cs : list rawContainer) (role : string) : list ContainerView :=
  map (buildContainer role) cs.

Definition buildVolume (v : rawVolume) : VolumeView :=
  match rv_hostPath v with
  | Some hp => mkVolumeView (rv_name v) (rh_path hp) (rh_type hp)
  | None => mkVolumeView (rv_name v) "" ""
  end.

Definition buildPodSpec (s : rawPodSpec) : PodSpecView :=
  {| HostNetwork := rp_hostNetwork s;
     HostPID := rp_hostPID s;
     HostIPC := rp_hostIPC s;
     AutomountSAToken := rp_automount s;
     Volumes := map buildVolume (rp_volumes s);
     Containers := buildContainers (rp_initContainers s) "init"
                   ++ buildContainers (rp_containers s) "container"
                   ++ buildContainers (rp_ephemeralContainers s) "ephemeral";
     SecurityContext :=
       match rp_securityContext s with
       | Some sc => mkSecurityContextView (rps_runAsUser sc) (rps_runAsNonRoot sc)
                      (seccompType (rps_seccompProfile sc))
       | None => mkSecurityContextView None None ""
       end |}.

(** * Workloads *)

(** [json.Unmarshal] of the whole document into a struct: [None] on a type error. *)
Definition unmarshal {S} (d : decoder S) (zero : S) (raw : json_members) : option S :=
  let '(s, e) := d zero (JObj raw) in if e : bool then None else Some s.

(** The anonymous struct of the [Pod] case. *)
Definition dec_pod : decoder rawPodSpec := dec_struct
  [fld "spec" id (λ _ v, v) dec_podspec].

(** The anonymous structs of the [CronJob] case: spec.jobTemplate.spec.template. *)
Definition dec_cronjob : decoder rawTemplate := dec_struct
  [fld "spec" id (λ _ v, v) (dec_struct
    [fld "jobTemplate" id (λ _ v, v) (dec_struct
      [fld "spec" id (λ _ v, v) (dec_struct
        [fld "template" id (λ _ v, v) dec_template])])])].

(** The anonymous struct of the default case: spec.replicas and spec.template. *)
Definition dec_controller_spec : decoder (option Z * rawTemplate) := dec_struct
  [fld "replicas" fst (λ s v, (v, s.2)) (dec_ptr 0%Z dec_int);
   fld "template" snd (λ s v, (s.1, v)) dec_template].
Definition dec_controller : decoder (option Z * rawTemplate) := dec_struct
  [fld "spec" id (λ _ v, v) dec_controller_spec].

Definition mk_workload (r : Resource) (replicas : Z) (podLabels : gmap string string)
    (spec : rawPodSpec) : Workload :=
  let saName := if rp_serviceAccountName spec =s "" then "default"
                else rp_serviceAccountName spec in
  mkWorkload r replicas saName podLabels (buildPodSpec spec).

Definition toWorkload (r : Resource) : option Workload :=
  if negb (isWorkloadKind (Kind r)) then None
  else if Kind r =s "Pod" then
    spec ← unmarshal dec_pod zero_podspec (Raw r);
    Some (mk_workload r 1 (Labels r) spec)
  else if Kind r =s "CronJob" then
    tmpl ← unmarshal dec_cronjob zero_template (Raw r);
    Some (mk_workload r 1 (rm_labels (rt_metadata tmpl)) (rt_spec tmpl))
  else
    st ← unmarshal dec_controller (None, zero_template) (Raw r);
    Some (mk_workload r (default 1%Z st.1) (rm_labels (rt_metadata st.2)) (rt_spec st.2)).

(** * RBAC, services and network policies *)

(** [decodeInto]: errors are ignored and the partial result is kept. *)
Definition decodeInto {S} (d : decoder S) (zero : S) (raw : json_members) : S :=
  (d zero (JObj raw)).1.

Definition toServiceAccount (r : Resource) : ServiceAccount :=
  let automount := decodeInto (dec_struct
    [fld "automountServiceAccountToken" id (λ _ v, v) (dec_ptr false dec_bool)]) None (Raw r) in
  mkServiceAccount r automount.

Definition zero_rule : PolicyRule := mkPolicyRule [] [] [] [].
Definition dec_rule : decoder PolicyRule := dec_struct
  [fld "apiGroups" APIGroups
     (λ s v, mkPolicyRule v (Resources s) (Verbs s) (ResourceNames s)) dec_strings;
   fld "resources" Resources
     (λ s v, mkPolicyRule (APIGroups s) v (Verbs s) (ResourceNames s)) dec_strings;
   fld "verbs" Verbs
     (λ s v, mkPolicyRule (APIGroups s) (Resources s) v (ResourceNames s)) dec_strings;
   fld "resourceNames" ResourceNames
     (λ s v, mkPolicyRule (APIGroups s) (Resources s) (Verbs s) v) dec_strings].

Definition toRules (r : Resource) : list PolicyRule :=
  decodeInto (dec_struct [fld "rules" id (λ _ v, v) (dec_slice zero_rule dec_rule)]) [] (Raw r).

Definition zero_roleref : RoleRef := mkRoleRef "" "" "".
Definition dec_roleref : decoder RoleRef := dec_struct
  [fld "kind" rref_Kind (λ s v, mkRoleRef v (rref_Name s) (rref_APIGroup s)) dec_string;
   fld "name" rref_Name (λ s v, mkRoleRef (rref_Kind s) v (rref_APIGroup s)) dec_string;
   fld "apiGroup" rref_APIGroup (λ s v, mkRoleRef (rref_Kind s) (rref_Name s) v) dec_string].

Definition zero_subject : Subject := mkSubject "" "" "".
Definition dec_subject : decoder Subject := dec_struct
  [fld "kind" sub_Kind (λ s v, mkSubject v (sub_Name s) (sub_Namespace s)) dec_string;
   fld "name" sub_Name (λ s v, mkSubject (sub_Kind s) v (sub_Namespace s)) dec_string;
   fld "namespace" sub_Namespace (λ s v, mkSubject (sub_Kind s) (sub_Name s) v) dec_string].

Definition toBinding (r : Resource) : RoleRef * list Subject :=
  decodeInto (dec_struct
    [fld "roleRef" fst (λ s v, (v, s.2)) dec_roleref;
     fld "subjects" snd (λ s v, (s.1, v)) (dec_slice zero_subject dec_subject)])
    (zero_roleref, []) (Raw r).

(** [int64(t)] of an integral [float64] outside the range is the least integer on
    amd64, which the test then refuses. *)
Definition stringifyPort (v : json) : string :=
  match v with
  | JStr t => t
  | JInt z => if in_int64 z then fmt_int z else ""
  | _ => ""
  end.

Record rawPort := mkRawPort {
  rpo_port : Z; rpo_targetPort : json; rpo_protocol : string; rpo_nodePort : Z
}.
Definition zero_port : rawPort := mkRawPort 0 JNull "" 0.
Definition dec_port : decoder rawPort := dec_struct
  [fld "port" rpo_port
     (λ s v, mkRawPort v (rpo_targetPort s) (rpo_protocol s) (rpo_nodePort s)) dec_int;
   fld "targetPort" rpo_targetPort
     (λ s v, mkRawPort (rpo_port s) v (rpo_protocol s) (rpo_nodePort s)) dec_any;
   fld "protocol" rpo_protocol
     (λ s v, mkRawPort (rpo_port s) (rpo_targetPort s) v (rpo_nodePort s)) dec_string;
   fld "nodePort" rpo_nodePort
     (λ s v, mkRawPort (rpo_port s) (rpo_targetPort s) (rpo_protocol s) v) dec_int].

Record rawServiceSpec := mkRawServiceSpec {
  rsv_type : string; rsv_selector : gmap string string; rsv_ports : list rawPort
}.
Definition zero_service_spec : rawServiceSpec := mkRawServiceSpec "" ∅ [].
Definition dec_service : decoder rawServiceSpec := dec_struct
  [fld "spec" id (λ _ v, v) (dec_struct
    [fld "type" rsv_type (λ s v, mkRawServiceSpec v (rsv_selector s) (rsv_ports s)) dec_string;
     fld "selector" rsv_selector
       (λ s v, mkRawServiceSpec (rsv_type s) v (rsv_ports s)) dec_string_map;
     fld "ports" rsv_ports
       (λ s v, mkRawServiceSpec (rsv_type s) (rsv_selector s) v) (dec_slice zero_port dec_port)])].

Definition toService (r : Resource) : Service :=
  let m := decodeInto dec_service zero_service_spec (Raw r) in
  {| svc_Resource := r;
     svc_Type := if rsv_type m =s "" then "ClusterIP" else rsv_type m;
     svc_Selector := rsv_selector m;
     svc_Ports := map (λ p, mkServicePort (rpo_port p) (stringifyPort (rpo_targetPort p))
                              (rpo_protocol p) (rpo_nodePort p)) (rsv_ports m) |}.

Record rawNetPolSpec := mkRawNetPolSpec {
  rnp_matchLabels : gmap string string; rnp_policyTypes : list string;
  rnp_ingress : list json; rnp_egress : list json
}.
Definition zero_netpol : rawNetPolSpec := mkRawNetPolSpec ∅ [] [] [].
Definition dec_netpol : decoder rawNetPolSpec := dec_struct
  [fld "spec" id (λ _ v, v) (dec_struct
    [fld "podSelector" id (λ _ v, v) (dec_struct
       [fld "matchLabels" rnp_matchLabels
          (λ s v, mkRawNetPolSpec v (rnp_policyTypes s) (rnp_ingress s) (rnp_egress s))
          dec_string_map]);
     fld "policyTypes" rnp_policyTypes
       (λ s v, mkRawNetPolSpec (rnp_matchLabels s) v (rnp_ingress s) (rnp_egress s)) dec_strings;
     fld "ingress" rnp_ingress
       (λ s v, mkRawNetPolSpec (rnp_matchLabels s) (rnp_policyTypes s) v (rnp_egress s))
       (dec_slice JNull dec_any);
     fld "egress" rnp_egress
       (λ s v, mkRawNetPolSpec (rnp_matchLabels s) (rnp_policyTypes s) (rnp_ingress s) v)
       (dec_slice JNull dec_any)])].

Definition toNetworkPolicy (r : Resource) : NetworkPolicy :=
  let m := decodeInto dec_netpol zero_netpol (Raw r) in
  mkNetworkPolicy r (rnp_matchLabels m) (rnp_policyTypes m)
    (Z.of_nat (length (rnp_ingress m))) (Z.of_nat (length (rnp_egress m))).

(** * Lemmas *)

(** A workload carries the resource it was built from, which has a workload kind. *)
Lemma toWorkload_resource r w :
  toWorkload r = Some w → w_Resource w = r ∧ isWorkloadKind (Kind r) = true.
Proof.
  unfold toWorkload. destruct (isWorkloadKind (Kind r)); [|done]. simpl.
  repeat case_str; intros H; apply bind_Some in H as (? & _ & [= <-]); done.
Qed.

(** A resolved service account name is never empty. *)
Lemma toWorkload_sa r w : toWorkload r = Some w → w_ServiceAccountName w ≠ "".
Proof.
  unfold toWorkload. destruct (isWorkloadKind (Kind r)); [|done]. simpl.
  repeat case_str; intros H; apply bind_Some in H as (? & _ & [= <-]);
    unfold mk_workload; simpl; case_str; done.
Qed.

Lemma toWorkload_kind r : isWorkloadKind (Kind r) = false → toWorkload r = None.
Proof. unfold toWorkload. by intros ->. Qed.

(** Every container of a pod spec carries its role. *)
Lemma buildPodSpec_roles s c :
  c ∈ Containers (buildPodSpec s) → c_Role c ∈ ["init"; "container"; "ephemeral"].
Proof.
  unfold buildPodSpec, buildContainers. simpl.
  rewrite !elem_of_app, !list_elem_of_fmap.
  intros [(c' & -> & _)|[(c' & -> & _)|(c' & -> & _)]]; simpl; set_solver.
Qed.

Example toWorkload_ex :
  toWorkload (mkResource "v1" "Pod" "" "p" "" ∅ ∅
    [("spec", JObj [("hostPID", JBool true);
       ("containers", JArr [JObj [("name", JStr "c");
          ("securityContext", JObj [("privileged", JBool true); ("runAsUser", JInt 0)])]])])])
  ≠ None.
Proof. vm_compute. done. Qed.
