(* ===== verification/Graph.v ===== *)
(** The resource graph (internal/graph): the typed inventory built once from the
    loaded resources, the relationship queries, the RBAC rule predicates and the
    assessment coverage. *)

From S2P Require Import Prelude GoStrings GoJson GoFloat Api Model Normalize.

(** * The inventory: graph.go *)

Record Graph := mkGraph {
  g_Resources : list Resource;
  g_Workloads : list Workload;
  g_ServiceAccounts : list ServiceAccount;
  g_Roles : list Role;
  g_ClusterRoles : list ClusterRole;
  g_RoleBindings : list RoleBinding;
  g_ClusterRoleBindings : list ClusterRoleBinding;
  g_Services : list Service;
  g_NetworkPolicies : list NetworkPolicy;
  g_Namespaces : list string
}.

(** The graph under construction and the namespace set, after one resource. *)
Definition build_step (st : Graph * gset string) (r : Resource) : Graph * gset string :=
  let '(g, nsSet) := st in
  let nsSet := if Namespace r <>s "" then {[Namespace r]} ∪ nsSet else nsSet in
  let 'mkGraph rs ws sas ros cros rbs crbs svcs nps nss := g in
  if isWorkloadKind (Kind r) then
    match toWorkload r with
    | Some w => (mkGraph rs (ws ++ [w]) sas ros cros rbs crbs svcs nps nss, nsSet)
    | None => (g, nsSet)
    end
  else if Kind r =s "ServiceAccount" then
    (mkGraph rs ws (sas ++ [toServiceAccount r]) ros cros rbs crbs svcs nps nss, nsSet)
  else if Kind r =s "Role" then
    (mkGraph rs ws sas (ros ++ [mkRole r (toRules r)]) cros rbs crbs svcs nps nss, nsSet)
  else if Kind r =s "ClusterRole" then
    (mkGraph rs ws sas ros (cros ++ [mkClusterRole r (toRules r)]) rbs crbs svcs nps nss, nsSet)
  else if Kind r =s "RoleBinding" then
    let '(ref, subs) := toBinding r in
    (mkGraph rs ws sas ros cros (rbs ++ [mkRoleBinding r ref subs]) crbs svcs nps nss, nsSet)
  else if Kind r =s "ClusterRoleBinding" then
    let '(ref, subs) := toBinding r in
    (mkGraph rs ws sas ros cros rbs (crbs ++ [mkClusterRoleBinding r ref subs]) svcs nps nss, nsSet)
  else if Kind r =s "Service" then
    (mkGraph rs ws sas ros cros rbs crbs (svcs ++ [toService r]) nps nss, nsSet)
  else if Kind r =s "NetworkPolicy" then
    (mkGraph rs ws sas ros cros rbs crbs svcs (nps ++ [toNetworkPolicy r]) nss, nsSet)
  else if Kind r =s "Namespace" then
    (g, {[Name r]} ∪ nsSet)
  else (g, nsSet).

Definition Build (resources : list Resource) : Graph :=
  let '(mkGraph rs ws sas ros cros rbs crbs svcs nps _, nsSet) :=
    foldl build_step (mkGraph resources [] [] [] [] [] [] [] [] [], ∅) resources in
  mkGraph rs ws sas ros cros rbs crbs svcs nps (sort_strings (elements nsSet)).

(** * Relationship queries: resolve.go *)

Record GrantedRole := mkGrantedRole {
  gr_RoleRef : RoleRef;
  gr_BindingName : string;
  gr_Resolved : bool;
  gr_Rules : list PolicyRule
}.

Definition subjectsInclude (subjects : list Subject) (ns name bindingNS : string) : bool :=
  existsb (λ s,
    if (sub_Kind s <>s "ServiceAccount") || (sub_Name s <>s name) then false
    else
      let subNS := if sub_Namespace s =s "" then bindingNS else sub_Namespace s in
      subNS =s ns) subjects.

Definition resolveRef (g : Graph) (ref : RoleRef) (bindingName : string) : GrantedRole :=
  let unresolved := mkGrantedRole ref bindingName false [] in
  if rref_Kind ref =s "ClusterRole" then
    match List.find (λ cr, Name (cro_Resource cr) =s rref_Name ref) (g_ClusterRoles g) with
    | Some cr => mkGrantedRole ref bindingName true (cro_Rules cr)
    | None => unresolved
    end
  else if rref_Kind ref =s "Role" then
    match List.find (λ r, Name (r_Resource r) =s rref_Name ref) (g_Roles g) with
    | Some r => mkGrantedRole ref bindingName true (r_Rules r)
    | None => unresolved
    end
  else unresolved.

Definition GrantedRolesForSA (g : Graph) (namespace name : string) : list GrantedRole :=
  flat_map (λ b, if subjectsInclude (crb_Subjects b) namespace name ""
                 then [resolveRef g (crb_RoleRef b) (Name (crb_Resource b))] else [])
    (g_ClusterRoleBindings g)
  ++
  flat_map (λ b, if subjectsInclude (rb_Subjects b) namespace name (Namespace (rb_Resource b))
                 then [resolveRef g (rb_RoleRef b) (Name (rb_Resource b))] else [])
    (g_RoleBindings g).

Definition selectorMatches (selector labels : gmap string string) : bool :=
  forallb (λ kv, map_get "" labels kv.1 =s kv.2) (map_to_list selector).

Definition WorkloadsForService (g : Graph) (svc : Service) : list Workload :=
  if Nat.eqb (size (svc_Selector svc)) 0 then []
  else List.filter (λ w, (w_Namespace w =s Namespace (svc_Resource svc))
                         && selectorMatches (svc_Selector svc) (w_PodLabels w))
         (g_Workloads g).

Definition ServiceAccountByName (g : Graph) (namespace name : string) : option ServiceAccount :=
  List.find (λ sa, (Namespace (sa_Resource sa) =s namespace) && (Name (sa_Resource sa) =s name))
    (g_ServiceAccounts g).

Definition NetworkPoliciesInNamespace (g : Graph) (namespace : string) : list NetworkPolicy :=
  List.filter (λ np, Namespace (np_Resource np) =s namespace) (g_NetworkPolicies g).

Definition HasDefaultDeny (g : Graph) (namespace : string) : bool :=
  existsb IsDefaultDeny (NetworkPoliciesInNamespace g namespace).

(** * Rule predicates and ServiceAccount capabilities: rbac.go *)

Definition has (ss : list string) (want : string) : bool := existsb (λ s, s =s want) ss.
Definition hasAny (ss wants : list string) : bool := existsb (has ss) wants.
Definition wildcard (ss : list string) : bool := has ss "*".

Definition RuleFullWildcard (r : PolicyRule) : bool :=
  wildcard (APIGroups r) && wildcard (Resources r) && wildcard (Verbs r).

Definition RuleAnyWildcard (r : PolicyRule) : bool :=
  wildcard (APIGroups r) || wildcard (Resources r) || wildcard (Verbs r).

Definition RuleGrantsSecrets (r : PolicyRule) : bool :=
  let resOK := has (Resources r) "secrets" || wildcard (Resources r) in
  let verbOK := hasAny (Verbs r) ["get"; "list"; "watch"] || wildcard (Verbs r) in
  resOK && verbOK.

Definition RuleGrantsPodCreate (r : PolicyRule) : bool :=
  if (has (Resources r) "pods" || wildcard (Resources r))
     && (has (Verbs r) "create" || wildcard (Verbs r))
  then true
  else has (Resources r) "pods/exec" || has (Resources r) "pods/attach".

Definition isClusterAdminRef (ref : RoleRef) : bool :=
  (rref_Kind ref =s "ClusterRole") && (rref_Name ref =s "cluster-admin").

(** The rule cluster-admin implies even when its object is absent. *)
Definition clusterAdminRule : PolicyRule := mkPolicyRule ["*"] ["*"] ["*"] [].

Definition saRules (g : Graph) (namespace name : string) : list PolicyRule :=
  flat_map (λ gr, (if isClusterAdminRef (gr_RoleRef gr) then [clusterAdminRule] else [])
                  ++ gr_Rules gr)
    (GrantedRolesForSA g namespace name).

Definition SAIsClusterAdmin (g : Graph) (namespace name : string) : bool :=
  existsb (λ gr, if isClusterAdminRef (gr_RoleRef gr) then true
                 else existsb RuleFullWildcard (gr_Rules gr))
    (GrantedRolesForSA g namespace name).

Definition SACanReadSecrets (g : Graph) (namespace name : string) : bool :=
  existsb RuleGrantsSecrets (saRules g namespace name).

Definition SACanCreatePods (g : Graph) (namespace name : string) : bool :=
  existsb RuleGrantsPodCreate (saRules g namespace name).

(** * Assessment coverage: coverage.go *)

Definition assessedKinds : list string :=
  ["Pod"; "Deployment"; "StatefulSet"; "DaemonSet"; "Job"; "CronJob"; "ServiceAccount"; "Role";
   "ClusterRole"; "RoleBinding"; "ClusterRoleBinding"; "Service"; "NetworkPolicy"; "Namespace"].

Definition skipped_kind (r : Resource) : string :=
  if Kind r =s "" then "(unknown)" else Kind r.

(** One iteration: the assessable count and the skipped-by-kind tally. *)
Definition coverage_step (acc : Z * gmap string Z) (r : Resource) : Z * gmap string Z :=
  let '(assessable, skipped) := acc in
  if mem_str (Kind r) assessedKinds then ((assessable + 1)%Z, skipped)
  else (assessable, tally_add skipped (skipped_kind r)).

Definition Coverage (g : Graph) : CoverageBreakdown :=
  let discovered := Z.of_nat (length (g_Resources g)) in
  let '(assessable, skipped) := foldl coverage_step (0%Z, ∅) (g_Resources g) in
  {| cov_Discovered := discovered;
     cov_Assessable := assessable;
     cov_Skipped := discovered - assessable;
     cov_Rate := if (discovered >? 0)%Z
                 then fdiv (float_of_int assessable) (float_of_int discovered) else fzero;
     cov_SkippedByKind :=
       foldl (λ m k, <[k := map_get 0%Z skipped k]> m) ∅
         (sort_strings (map fst (map_to_list skipped))) |}.

(** * Helper lemmas: construction *)

(** The components of a graph that [Build] fills in, as functions of the input. *)
Definition of_kind {A} (k : string) (f : Resource → A) (r : Resource) : option A :=
  if Kind r =s k then Some (f r) else None.

Definition binding_of {A} (mk : Resource → RoleRef → list Subject → A) (r : Resource) : A :=
  mk r (toBinding r).1 (toBinding r).2.

Definition namespaces_of (r : Resource) : list string :=
  (if Namespace r <>s "" then [Namespace r] else [])
  ++ (if Kind r =s "Namespace" then [Name r] else []).

Definition build_result (all rs : list Resource) (g0 : Graph) : Graph :=
  mkGraph all
    (g_Workloads g0 ++ omap toWorkload rs)
    (g_ServiceAccounts g0 ++ omap (of_kind "ServiceAccount" toServiceAccount) rs)
    (g_Roles g0 ++ omap (of_kind "Role" (λ r, mkRole r (toRules r))) rs)
    (g_ClusterRoles g0 ++ omap (of_kind "ClusterRole" (λ r, mkClusterRole r (toRules r))) rs)
    (g_RoleBindings g0 ++ omap (of_kind "RoleBinding" (binding_of mkRoleBinding)) rs)
    (g_ClusterRoleBindings g0
       ++ omap (of_kind "ClusterRoleBinding" (binding_of mkClusterRoleBinding)) rs)
    (g_Services g0 ++ omap (of_kind "Service" toService) rs)
    (g_NetworkPolicies g0 ++ omap (of_kind "NetworkPolicy" toNetworkPolicy) rs)
    (g_Namespaces g0).

Lemma workload_kind_excl k r :
  isWorkloadKind (Kind r) = true → isWorkloadKind k = false → (Kind r =s k) = false.
Proof. intros H1 H2. case_str; [|done]. subst. congruence. Qed.

Lemma build_step_result all g0 ns r rs :
  g_Resources g0 = all →
  build_result all rs (build_step (g0, ns) r).1 = build_result all (r :: rs) g0 ∧
  g_Resources (build_step (g0, ns) r).1 = all ∧
  (build_step (g0, ns) r).2 ≡ list_to_set (namespaces_of r) ∪ ns.
Proof.
  intros <-. destruct g0 as [a ws sas ros cros rbs crbs svcs nps nss].
  unfold build_step, build_result, namespaces_of, of_kind, binding_of. simpl.
  destruct (isWorkloadKind (Kind r)) eqn:Ew.
  - rewrite !(workload_kind_excl _ r Ew) by reflexivity.
    destruct (toWorkload r) as [w|] eqn:E; simpl; rewrite <-?(assoc_L (++)); simpl;
      (split; [done|split; [done|]]); destruct (Namespace r <>s ""); set_solver.
  - rewrite (toWorkload_kind r Ew).
    repeat (case_str; [repeat match goal with H : Kind r = _ |- _ => rewrite ?H in * end; simpl;
      try destruct (toBinding r) eqn:E; simpl; rewrite <-?(assoc_L (++)); simpl;
      (split; [done|split; [done|]]); destruct (Namespace r <>s ""); set_solver|]).
    simpl. split; [done|split; [done|]]. destruct (Namespace r <>s ""); set_solver.
Qed.

#[local] Arguments build_step : simpl never.

Lemma build_fold_result all rs g0 ns :
  g_Resources g0 = all →
  (foldl build_step (g0, ns) rs).1 = build_result all rs g0 ∧
  (foldl build_step (g0, ns) rs).2 ≡ list_to_set (flat_map namespaces_of rs) ∪ ns.
Proof.
  revert g0 ns. induction rs as [|r rs IH]; intros g0 ns Hall; simpl.
  - split; [|set_solver]. destruct g0; simpl in *; subst.
    unfold build_result. simpl. by rewrite !app_nil_r.
  - destruct (build_step_result all g0 ns r rs Hall) as (H1 & H2 & H3).
    rewrite (surjective_pairing (build_step (g0, ns) r)).
    destruct (IH _ (build_step (g0, ns) r).2 H2) as [H4 H5].
    rewrite H4, H5, H1, H3. split; [done|]. set_solver.
Qed.

(** What [Build] computes, in closed form. *)
Lemma Build_closed rs :
  ∃ nsSet : gset string, nsSet ≡ list_to_set (flat_map namespaces_of rs) ∧
  Build rs =
    mkGraph rs (omap toWorkload rs)
      (omap (of_kind "ServiceAccount" toServiceAccount) rs)
      (omap (of_kind "Role" (λ r, mkRole r (toRules r))) rs)
      (omap (of_kind "ClusterRole" (λ r, mkClusterRole r (toRules r))) rs)
      (omap (of_kind "RoleBinding" (binding_of mkRoleBinding)) rs)
      (omap (of_kind "ClusterRoleBinding" (binding_of mkClusterRoleBinding)) rs)
      (omap (of_kind "Service" toService) rs)
      (omap (of_kind "NetworkPolicy" toNetworkPolicy) rs)
      (sort_strings (elements nsSet)).
Proof.
  set (g0 := mkGraph rs [] [] [] [] [] [] [] [] []).
  destruct (build_fold_result rs rs g0 ∅ eq_refl) as [H1 H2].
  exists (foldl build_step (g0, ∅) rs).2. split; [rewrite H2; set_solver|].
  unfold Build. fold g0. destruct (foldl build_step (g0, ∅) rs) as [g ns].
  simpl in *. subst g. done.
Qed.

(** * Well-formed graphs

    What every graph that [Build] returns satisfies; the checks and the attack
    engine are verified against this interface. *)

Class graph_wf (g : Graph) : Prop := {
  wf_roles r : r ∈ g_Roles g → Kind (r_Resource r) = "Role";
  wf_cluster_roles r : r ∈ g_ClusterRoles g → Kind (cro_Resource r) = "ClusterRole";
  wf_workloads w : w ∈ g_Workloads g → isWorkloadKind (w_Kind w) = true;
  wf_workload_sa w : w ∈ g_Workloads g → w_ServiceAccountName w ≠ ""
}.

Lemma of_kind_Some {A} k (f : Resource → A) r y :
  of_kind k f r = Some y → Kind r = k ∧ y = f r.
Proof. unfold of_kind. case_str; [|done]. by intros [= <-]. Qed.

#[export] Instance Build_wf rs : graph_wf (Build rs).
Proof.
  destruct (Build_closed rs) as (ns & _ & ->). split; simpl.
  - intros r (x & Hx & Hr)%list_elem_of_omap. by apply of_kind_Some in Hr as [? ->].
  - intros r (x & Hx & Hr)%list_elem_of_omap. by apply of_kind_Some in Hr as [? ->].
  - intros w (x & Hx & Hw)%list_elem_of_omap.
    unfold w_Kind. by destruct (toWorkload_resource _ _ Hw) as [-> ?].
  - intros w (x & Hx & Hw)%list_elem_of_omap. by eapply toWorkload_sa.
Qed.

(** * RBAC: the grants of a ServiceAccount *)

(** The abstract relation: a binding of the graph names the ServiceAccount.  In a
    RoleBinding a subject without namespace lives in the binding's namespace. *)
Inductive sa_granted (g : Graph) (ns name : string) : RoleRef → Prop :=
| granted_cluster b s :
    b ∈ g_ClusterRoleBindings g → s ∈ crb_Subjects b →
    sub_Kind s = "ServiceAccount" → sub_Name s = name → sub_Namespace s = ns →
    sa_granted g ns name (crb_RoleRef b)
| granted_namespaced b s :
    b ∈ g_RoleBindings g → s ∈ rb_Subjects b →
    sub_Kind s = "ServiceAccount" → sub_Name s = name →
    (sub_Namespace s = ns ∧ ns ≠ "" ∨ sub_Namespace s = "" ∧ Namespace (rb_Resource b) = ns) →
    sa_granted g ns name (rb_RoleRef b).

(** The rules a role reference resolves to. *)
Definition ref_rules (g : Graph) (ref : RoleRef) : list PolicyRule := gr_Rules (resolveRef g ref "").

Lemma resolveRef_name g ref b : gr_Rules (resolveRef g ref b) = ref_rules g ref ∧
  gr_RoleRef (resolveRef g ref b) = ref.
Proof. unfold ref_rules, resolveRef. repeat case_scrut; done. Qed.

Lemma subjectsInclude_spec subs ns name bns :
  subjectsInclude subs ns name bns = true ↔
  ∃ s, s ∈ subs ∧ sub_Kind s = "ServiceAccount" ∧ sub_Name s = name ∧
       (sub_Namespace s = ns ∧ ns ≠ "" ∨ sub_Namespace s = "" ∧ bns = ns).
Proof.
  unfold subjectsInclude. rewrite existsb_elem. split.
  - intros (s & Hs & H). exists s. split; [done|].
    destruct (_ || _) eqn:E; [done|]. boolify.
    destruct (String.eqb_spec (sub_Namespace s) ""); boolify; subst; tauto.
  - intros (s & Hs & Hk & Hn & H). exists s. split; [done|]. rewrite Hk, Hn, !String.eqb_refl.
    simpl. destruct H as [[-> Hne]|[-> ->]]; simpl.
    + apply String.eqb_neq in Hne. by rewrite Hne, String.eqb_refl.
    + by rewrite String.eqb_refl.
Qed.

Lemma elem_of_GrantedRolesForSA g ns name gr :
  gr ∈ GrantedRolesForSA g ns name →
  sa_granted g ns name (gr_RoleRef gr) ∧ gr_Rules gr = ref_rules g (gr_RoleRef gr).
Proof.
  unfold GrantedRolesForSA. rewrite elem_of_app, !elem_of_flat_map.
  intros [(b & Hb & H)|(b & Hb & H)]; case_scrut; try set_solver;
    apply subjectsInclude_spec in Heqb0 as (s & Hs & Hk & Hn & Hns);
    apply list_elem_of_singleton in H as ->;
    destruct (resolveRef_name g (crb_RoleRef b) (Name (crb_Resource b))) as [-> ->] ||
    destruct (resolveRef_name g (rb_RoleRef b) (Name (rb_Resource b))) as [-> ->];
    (split; [|done]).
  - eapply granted_cluster; eauto. destruct Hns as [[? ?]|[-> ->]]; done.
  - eapply granted_namespaced; eauto.
Qed.

Lemma sa_granted_elem g ns name ref :
  sa_granted g ns name ref →
  ∃ gr, gr ∈ GrantedRolesForSA g ns name ∧ gr_RoleRef gr = ref ∧ gr_Rules gr = ref_rules g ref.
Proof.
  intros H. unfold GrantedRolesForSA. setoid_rewrite elem_of_app.
  setoid_rewrite elem_of_flat_map. destruct H as [b s Hb Hs Hk Hn Hns|b s Hb Hs Hk Hn Hns].
  - destruct (resolveRef_name g (crb_RoleRef b) (Name (crb_Resource b))) as [E1 E2].
    exists (resolveRef g (crb_RoleRef b) (Name (crb_Resource b))). split; [|done].
    left. exists b. split; [done|]. rewrite (proj2 (subjectsInclude_spec _ _ _ _)); [left|].
    exists s. repeat split; auto. destruct (decide (ns = "")); subst; auto.
  - destruct (resolveRef_name g (rb_RoleRef b) (Name (rb_Resource b))) as [E1 E2].
    exists (resolveRef g (rb_RoleRef b) (Name (rb_Resource b))). split; [|done].
    right. exists b. split; [done|]. rewrite (proj2 (subjectsInclude_spec _ _ _ _)); [left|].
    exists s. repeat split; auto.
Qed.

Lemma SAIsClusterAdmin_iff g ns name :
  SAIsClusterAdmin g ns name = true ↔
  ∃ ref, sa_granted g ns name ref ∧
    (isClusterAdminRef ref = true ∨
     ∃ rule, rule ∈ ref_rules g ref ∧ RuleFullWildcard rule = true).
Proof.
  unfold SAIsClusterAdmin. rewrite existsb_elem. split.
  - intros (gr & [Hg Hr]%elem_of_GrantedRolesForSA & H). exists (gr_RoleRef gr). split; [done|].
    destruct (isClusterAdminRef (gr_RoleRef gr)); [by left|right].
    rewrite Hr in H. by apply existsb_elem in H.
  - intros (ref & (gr & Hgr & Href & Hrules)%sa_granted_elem & H). exists gr. split; [done|].
    rewrite Href, Hrules. destruct (isClusterAdminRef ref); [done|].
    destruct H as [|H]; [done|]. by apply existsb_elem.
Qed.

Lemma elem_of_saRules g ns name rule :
  rule ∈ saRules g ns name ↔
  ∃ ref, sa_granted g ns name ref ∧
    (isClusterAdminRef ref = true ∧ rule = clusterAdminRule ∨ rule ∈ ref_rules g ref).
Proof.
  unfold saRules. rewrite elem_of_flat_map. split.
  - intros (gr & [Hg Hr]%elem_of_GrantedRolesForSA & H). exists (gr_RoleRef gr). split; [done|].
    rewrite elem_of_app, Hr in H. destruct (isClusterAdminRef (gr_RoleRef gr)); set_solver.
  - intros (ref & (gr & Hgr & Href & Hrules)%sa_granted_elem & H). exists gr. split; [done|].
    rewrite elem_of_app, Href, Hrules. destruct H as [[-> ->]|H]; [left|right]; set_solver.
Qed.

Lemma has_spec ss w : has ss w = true ↔ w ∈ ss.
Proof.
  unfold has. rewrite existsb_elem. setoid_rewrite String.eqb_eq. naive_solver.
Qed.

Lemma full_wildcard_grants rule :
  RuleFullWildcard rule = true →
  RuleGrantsSecrets rule = true ∧ RuleGrantsPodCreate rule = true.
Proof.
  unfold RuleFullWildcard, RuleGrantsSecrets, RuleGrantsPodCreate. intros H. boolify.
  destruct (wildcard (Resources rule)); [|done]. destruct (wildcard (Verbs rule)); [|done].
  by rewrite !orb_true_r.
Qed.

Lemma find_cons_first {A} (p : A → bool) l1 x l2 :
  (∀ y, y ∈ l1 → p y = false) → p x = true → List.find p (l1 ++ x :: l2) = Some x.
Proof.
  intros H Hx. induction l1 as [|y l1 IH]; simpl; [by rewrite Hx|].
  rewrite (H y) by set_solver. apply IH. set_solver.
Qed.

(** * Services *)

Lemma selectorMatches_spec sel labels :
  selectorMatches sel labels = true ↔ ∀ k v, sel !! k = Some v → map_get "" labels k = v.
Proof.
  unfold selectorMatches. rewrite forallb_elem. split.
  - intros H k v Hk. apply elem_of_map_to_list in Hk. specialize (H (k, v) Hk).
    simpl in H. by boolify.
  - intros H [k v] Hk%elem_of_map_to_list. simpl. apply String.eqb_eq. auto.
Qed.

Lemma elem_of_WorkloadsForService g svc w :
  w ∈ WorkloadsForService g svc ↔
  svc_Selector svc ≠ ∅ ∧ w ∈ g_Workloads g ∧ w_Namespace w = Namespace (svc_Resource svc) ∧
  selectorMatches (svc_Selector svc) (w_PodLabels w) = true.
Proof.
  unfold WorkloadsForService. destruct (Nat.eqb_spec (size (svc_Selector svc)) 0) as [E|E].
  - apply map_size_empty_iff in E. set_solver.
  - rewrite elem_of_list_filter. rewrite map_size_empty_iff in E. split.
    + intros [Hw H]. by boolify.
    + intros (_ & Hw & -> & ->). by rewrite String.eqb_refl.
Qed.

Lemma HasDefaultDeny_spec g ns :
  HasDefaultDeny g ns = true ↔
  ∃ np, np ∈ g_NetworkPolicies g ∧ Namespace (np_Resource np) = ns ∧ IsDefaultDeny np = true.
Proof.
  unfold HasDefaultDeny, NetworkPoliciesInNamespace. rewrite existsb_elem.
  setoid_rewrite elem_of_list_filter. setoid_rewrite String.eqb_eq. naive_solver.
Qed.

(** * Coverage *)

Definition assessed (r : Resource) : bool := mem_str (Kind r) assessedKinds.

Definition skipped_kinds (rs : list Resource) : list string :=
  map skipped_kind (List.filter (λ r, negb (assessed r)) rs).

Lemma coverage_fold rs a m :
  foldl coverage_step (a, m) rs = ((a + count assessed rs)%Z, foldl tally_add m (skipped_kinds rs)).
Proof.
  revert a m. induction rs as [|r rs IH]; intros a m.
  - rewrite count_nil. simpl. f_equal. lia.
  - cbn [foldl]. rewrite count_cons.
    change (coverage_step (a, m) r)
      with (if assessed r then ((a + 1)%Z, m) else (a, tally_add m (skipped_kind r))).
    unfold skipped_kinds. simpl. destruct (assessed r); simpl; rewrite IH; f_equal; lia.
Qed.

Lemma cov_skipped_map (m : gmap string Z) :
  foldl (λ m' k, <[k := map_get 0%Z m k]> m') ∅ (sort_strings (map fst (map_to_list m))) = m.
Proof.
  apply copy_map. intros k. rewrite elem_of_sort_strings, list_elem_of_fmap. split.
  - intros ([k' v] & -> & Hk%elem_of_map_to_list). by exists v.
  - intros [v Hv]. exists (k, v). split; [done|]. by apply elem_of_map_to_list.
Qed.

Lemma Coverage_closed g :
  let n := Z.of_nat (length (g_Resources g)) in
  let a := count assessed (g_Resources g) in
  Coverage g = mkCoverage n a (n - a)
    (if (n >? 0)%Z then fdiv (float_of_int a) (float_of_int n) else fzero)
    (tally (skipped_kinds (g_Resources g))).
Proof.
  unfold Coverage. rewrite coverage_fold. simpl. by rewrite cov_skipped_map.
Qed.

#[export] Hint Resolve wf_roles wf_cluster_roles wf_workloads wf_workload_sa : kg.

(** * Properties *)

(** The inventory holds exactly the typed views of the loaded resources, kind by
    kind and in load order (an undecodable workload is the only resource of a known
    kind that is left out), and the namespace list is the sorted, duplicate-free set
    of the namespaces that are used or declared. *)
Theorem Build_inventory rs :
  g_Resources (Build rs) = rs ∧
  g_Workloads (Build rs) = omap toWorkload rs ∧
  g_Roles (Build rs) = omap (of_kind "Role" (λ r, mkRole r (toRules r))) rs ∧
  g_ClusterRoles (Build rs) = omap (of_kind "ClusterRole" (λ r, mkClusterRole r (toRules r))) rs ∧
  g_RoleBindings (Build rs) = omap (of_kind "RoleBinding" (binding_of mkRoleBinding)) rs ∧
  g_ClusterRoleBindings (Build rs)
    = omap (of_kind "ClusterRoleBinding" (binding_of mkClusterRoleBinding)) rs ∧
  g_ServiceAccounts (Build rs) = omap (of_kind "ServiceAccount" toServiceAccount) rs ∧
  g_Services (Build rs) = omap (of_kind "Service" toService) rs ∧
  g_NetworkPolicies (Build rs) = omap (of_kind "NetworkPolicy" toNetworkPolicy) rs ∧
  sorted_by String.ltb (g_Namespaces (Build rs)) ∧
  NoDup (g_Namespaces (Build rs)) ∧
  ∀ ns, ns ∈ g_Namespaces (Build rs) ↔
    ∃ r, r ∈ rs ∧ (Namespace r = ns ∧ ns ≠ "" ∨ Kind r = "Namespace" ∧ Name r = ns).
Proof.
  destruct (Build_closed rs) as (nsSet & Hns & ->). simpl.
  repeat (split; [done|]). split; [apply slice_stable_sorted, _|].
  split; [rewrite sort_strings_perm; apply NoDup_elements|].
  intros ns. rewrite elem_of_sort_strings, elem_of_elements, Hns, elem_of_list_to_set,
    elem_of_flat_map. unfold namespaces_of.
  split; intros (r & Hr & H); exists r; (split; [done|]).
  - apply elem_of_app in H as [H|H]; case_scrut; try set_solver; boolify; set_solver.
  - apply elem_of_app. destruct H as [[<- Hne]|[Hk <-]].
    + left. apply String.eqb_neq in Hne. rewrite Hne. simpl. set_solver.
    + right. rewrite Hk. simpl. set_solver.
Qed.

(** What the engine says of a ServiceAccount is what its bindings grant: it is
    cluster admin, reads Secrets or creates pods exactly when a binding that names it
    refers to cluster-admin or resolves to a rule with that power. *)
Theorem sa_capabilities_spec g ns name :
  (SAIsClusterAdmin g ns name = true ↔
     ∃ ref, sa_granted g ns name ref ∧ (isClusterAdminRef ref = true ∨
       ∃ rule, rule ∈ ref_rules g ref ∧ RuleFullWildcard rule = true)) ∧
  (SACanReadSecrets g ns name = true ↔
     ∃ ref, sa_granted g ns name ref ∧ (isClusterAdminRef ref = true ∨
       ∃ rule, rule ∈ ref_rules g ref ∧ RuleGrantsSecrets rule = true)) ∧
  (SACanCreatePods g ns name = true ↔
     ∃ ref, sa_granted g ns name ref ∧ (isClusterAdminRef ref = true ∨
       ∃ rule, rule ∈ ref_rules g ref ∧ RuleGrantsPodCreate rule = true)).
Proof.
  split; [apply SAIsClusterAdmin_iff|].
  unfold SACanReadSecrets, SACanCreatePods. rewrite !existsb_elem.
  setoid_rewrite elem_of_saRules. split; split.
  1, 3: intros (rule & (ref & Hg & [[Ha ->]|Hr]) & H); exists ref; eauto 6.
  1, 2: intros (ref & Hg & [Ha|(rule & Hr & H)]); [exists clusterAdminRule|exists rule];
    split; [exists ref; auto|done|exists ref; auto|done].
Qed.

(** A ServiceAccount reported as cluster admin is also reported as able to read
    Secrets and to create pods: the three answers never contradict each other. *)
Theorem cluster_admin_subsumes g ns name :
  SAIsClusterAdmin g ns name = true →
  SACanReadSecrets g ns name = true ∧ SACanCreatePods g ns name = true.
Proof.
  intros (ref & Hg & H)%SAIsClusterAdmin_iff. unfold SACanReadSecrets, SACanCreatePods.
  rewrite !existsb_elem. setoid_rewrite elem_of_saRules.
  destruct H as [Ha|(rule & Hr & [Hs Hp]%full_wildcard_grants)].
  - split; exists clusterAdminRule; (split; [exists ref; auto|done]).
  - split; exists rule; (split; [exists ref; auto|done]).
Qed.

(** Two teams, each with a Role named [app-role]: [team-a]'s is a full wildcard,
    [team-b]'s reads ConfigMaps.  The ServiceAccount of [team-b] is bound to its own. *)
Definition strs (l : list string) : json := JArr (map JStr l).
Definition ex_role (ns name : string) (groups ress verbs : list string) : Resource :=
  mkResource "v1" "Role" ns name "" ∅ ∅
    [("rules", JArr [JObj [("apiGroups", strs groups); ("resources", strs ress);
                           ("verbs", strs verbs)]])].
Definition ex_binding (ns name role sa : string) : Resource :=
  mkResource "v1" "RoleBinding" ns name "" ∅ ∅
    [("roleRef", JObj [("kind", JStr "Role"); ("name", JStr role)]);
     ("subjects", JArr [JObj [("kind", JStr "ServiceAccount"); ("name", JStr sa)]])].
Definition ex_teams : list Resource :=
  [ex_role "team-a" "app-role" ["*"] ["*"] ["*"];
   ex_role "team-b" "app-role" [""] ["configmaps"] ["get"];
   ex_binding "team-b" "app-binding" "app-role" "app"].

Lemma cluster_admin_subsumes_witness :
  SACanReadSecrets (Build ex_teams) "team-b" "app" = true ∧
  SACanCreatePods (Build ex_teams) "team-b" "app" = true.
Proof. apply (cluster_admin_subsumes (Build ex_teams)). vm_compute. reflexivity. Defined.

(** Role lookup ignores namespaces: a RoleBinding to a Role resolves to the first
    loaded Role of that name, wherever it lives, so a wildcard Role of one namespace
    makes the ServiceAccount bound, in another namespace, to a harmless Role of the same
    name a cluster admin. *)
Theorem role_capture g b s r rs1 rs2 ns name :
  b ∈ g_RoleBindings g → s ∈ rb_Subjects b →
  sub_Kind s = "ServiceAccount" → sub_Name s = name → sub_Namespace s = "" →
  Namespace (rb_Resource b) = ns →
  rref_Kind (rb_RoleRef b) = "Role" → rref_Name (rb_RoleRef b) = Name (r_Resource r) →
  g_Roles g = rs1 ++ r :: rs2 →
  (∀ r', r' ∈ rs1 → Name (r_Resource r') ≠ Name (r_Resource r)) →
  (∃ rule, rule ∈ r_Rules r ∧ RuleFullWildcard rule = true) →
  SAIsClusterAdmin g ns name = true.
Proof.
  intros Hb Hs Hk Hn Hsn Hns Href Hrn Hroles Hfirst Hrule.
  apply SAIsClusterAdmin_iff. exists (rb_RoleRef b). split.
  - eapply granted_namespaced; eauto.
  - right. unfold ref_rules, resolveRef. rewrite Href, Hrn, Hroles. simpl.
    rewrite find_cons_first; [done| |apply String.eqb_refl].
    intros y Hy. apply String.eqb_neq. auto.
Qed.

Lemma role_capture_witness : SAIsClusterAdmin (Build ex_teams) "team-b" "app" = true.
Proof.
  refine (role_capture (Build ex_teams) _ (mkSubject "ServiceAccount" "app" "")
            (hd (mkRole (ex_role "" "" [] [] []) []) (g_Roles (Build ex_teams)))
            [] (tl (g_Roles (Build ex_teams))) "team-b" "app"
            (list_elem_of_here _ _) (list_elem_of_here _ _) eq_refl eq_refl eq_refl
            eq_refl eq_refl eq_refl eq_refl _ _).
  - intros r' Hr'. by apply not_elem_of_nil in Hr'.
  - exists (mkPolicyRule ["*"] ["*"] ["*"] []). split; [left|reflexivity].
Defined.

(** A Service selects the workloads of its own namespace whose pod labels include
    its whole selector, and none when the selector is empty.  The hypothesis is needed:
    for a selector value that is the empty string, the code also accepts a pod that does
    not have the label at all. *)
Theorem WorkloadsForService_spec g svc w :
  (∀ k, svc_Selector svc !! k ≠ Some "") →
  w ∈ WorkloadsForService g svc ↔
    svc_Selector svc ≠ ∅ ∧ w ∈ g_Workloads g ∧
    w_Namespace w = Namespace (svc_Resource svc) ∧ svc_Selector svc ⊆ w_PodLabels w.
Proof.
  intros Hne. rewrite elem_of_WorkloadsForService, selectorMatches_spec, map_subseteq_spec.
  split; intros (H1 & H2 & H3 & H4); (split; [done|split; [done|split; [done|]]]).
  - intros k v Hk. specialize (H4 k v Hk). unfold map_get in H4.
    destruct (w_PodLabels w !! k); simpl in H4; [by subst|]. subst. by destruct (Hne k).
  - intros k v Hk. unfold map_get. by rewrite (H4 k v Hk).
Qed.

Definition ex_pod (ns name : string) (labels : gmap string string) (spec : json_members) : Resource :=
  mkResource "v1" "Pod" ns name "" labels ∅ [("spec", JObj spec)].
Definition ex_service (ns name type : string) (selector : json_members) : Resource :=
  mkResource "v1" "Service" ns name "" ∅ ∅
    [("spec", JObj [("type", JStr type); ("selector", JObj selector)])].

Lemma WorkloadsForService_spec_witness :
  let g := Build [ex_pod "shop" "web" {["app" := "web"; "tier" := "front"]} [];
                  ex_pod "shop" "db" {["app" := "db"]} []] in
  let svc := toService (ex_service "shop" "web" "LoadBalancer" [("app", JStr "web")]) in
  map w_Name (WorkloadsForService g svc) = ["web"] ∧
  (∀ w, w ∈ WorkloadsForService g svc ↔
     svc_Selector svc ≠ ∅ ∧ w ∈ g_Workloads g ∧
     w_Namespace w = Namespace (svc_Resource svc) ∧ svc_Selector svc ⊆ w_PodLabels w).
Proof.
  split; [vm_compute; reflexivity|]. intros w. apply WorkloadsForService_spec.
  intros k. change (({["app" := "web"]} : gmap string string) !! k ≠ Some "").
  rewrite lookup_singleton. case_decide; congruence.
Defined.

(** The coverage figures are an honest denominator: every discovered resource is
    either assessable or skipped, and the skipped ones are tallied by kind, none twice. *)
Theorem coverage_honest g :
  let c := Coverage g in
  cov_Discovered c = Z.of_nat (length (g_Resources g)) ∧
  cov_Assessable c = count assessed (g_Resources g) ∧
  (cov_Assessable c + cov_Skipped c = cov_Discovered c)%Z ∧
  (0 <= cov_Assessable c <= cov_Discovered c)%Z ∧
  map_sum (cov_SkippedByKind c) = cov_Skipped c ∧
  ∀ k, map_get 0%Z (cov_SkippedByKind c) k =
       count (λ r, negb (assessed r) && (skipped_kind r =s k)) (g_Resources g).
Proof.
  rewrite Coverage_closed. simpl.
  pose proof (count_negb assessed (g_Resources g)) as Hneg.
  pose proof (count_nonneg assessed (g_Resources g)).
  pose proof (count_le assessed (g_Resources g)).
  split; [done|]. split; [done|]. split; [lia|]. split; [lia|]. split.
  - rewrite tally_sum. unfold skipped_kinds. rewrite length_map. unfold count in *. lia.
  - intros k. rewrite tally_get. unfold skipped_kinds. clear.
    induction (g_Resources g) as [|r rs IH]; [done|]. rewrite count_cons. simpl.
    destruct (assessed r); simpl; [rewrite IH; lia|]. by rewrite count_cons, IH.
Qed.

(** Coverage counts kinds, not decoded resources: a workload manifest that fails to
    decode is dropped from the graph, so no check sees it, and is still reported as
    assessed with nothing skipped. *)
Theorem coverage_counts_undecodable r :
  isWorkloadKind (Kind r) = true → toWorkload r = None →
  g_Workloads (Build [r]) = [] ∧
  cov_Assessable (Coverage (Build [r])) = 1%Z ∧ cov_Skipped (Coverage (Build [r])) = 0%Z.
Proof.
  intros Hk Hw. rewrite Coverage_closed. destruct (Build_closed [r]) as (ns & _ & ->).
  simpl. rewrite Hw. split; [done|]. rewrite count_cons, count_nil.
  assert (assessed r = true) as ->; [|lia].
  unfold assessed. apply mem_str_spec. apply mem_str_spec in Hk.
  unfold workloadKinds in Hk. unfold assessedKinds. set_solver.
Qed.

(** A Deployment whose [replicas] is a string. *)
Definition ex_undecodable : Resource :=
  mkResource "apps/v1" "Deployment" "shop" "web" "" ∅ ∅
    [("spec", JObj [("replicas", JStr "3")])].

Lemma coverage_counts_undecodable_witness :
  g_Workloads (Build [ex_undecodable]) = [] ∧
  cov_Assessable (Coverage (Build [ex_undecodable])) = 1%Z ∧
  cov_Skipped (Coverage (Build [ex_undecodable])) = 0%Z.
Proof. apply coverage_counts_undecodable; vm_compute; reflexivity. Defined.
