(* ===== verification/Checks.v ===== *)
(** The detection engine (internal/checks): the 22 built-in checks, the profiles
    that select them and the canonical order of the findings. *)

From Stdlib Require Import Ascii.
From S2P Require Import Prelude GoStrings GoJson Api Model Graph.

(** * Metadata: check.go *)

Definition catWorkload : string := "workload-hardening".
Definition catHostAccess : string := "host-access".
Definition catRBAC : string := "rbac".
Definition catNetwork : string := "network".
Definition catExposure : string := "exposure".
Definition catSupplyChain : string := "supply-chain".

Record Meta := mkMeta {
  m_ID : string;
  m_Title : string;
  m_Severity : Severity;
  m_Category : string;
  m_Grants : list Capability;
  m_Refs : list ControlRef;
  m_Remediation : string
}.

(** [Check]: the interface of a detection rule. *)
Record Check := mkCheck {
  ck_Meta : Meta;
  ck_Run : Graph → list Finding
}.

(** A newline. *)
Definition nl : string := String (Ascii.ascii_of_N 10) EmptyString.

Definition remediationSnippets : list (string * string) :=
  [("KG-001", "securityContext:" +:+ nl +:+ "  privileged: false");
   ("KG-002", "# remove the hostPath volume; use a CSI or projected volume instead");
   ("KG-003", "spec:" +:+ nl +:+ "  hostNetwork: false");
   ("KG-004", "spec:" +:+ nl +:+ "  hostPID: false");
   ("KG-005", "spec:" +:+ nl +:+ "  hostIPC: false");
   ("KG-006", "securityContext:" +:+ nl +:+ "  runAsNonRoot: true" +:+ nl +:+ "  runAsUser: 1000");
   ("KG-007", "securityContext:" +:+ nl +:+ "  allowPrivilegeEscalation: false");
   ("KG-008", "securityContext:" +:+ nl +:+ "  capabilities:" +:+ nl +:+ "    drop: ["
              +:+ dquote +:+ "ALL" +:+ dquote +:+ "]");
   ("KG-009", "securityContext:" +:+ nl +:+ "  readOnlyRootFilesystem: true");
   ("KG-010", "resources:" +:+ nl +:+ "  limits:" +:+ nl +:+ "    cpu: " +:+ dquote +:+ "500m"
              +:+ dquote +:+ nl +:+ "    memory: " +:+ dquote +:+ "256Mi" +:+ dquote);
   ("KG-011", "# bind a least-privilege Role, not cluster-admin or a wildcard ClusterRole");
   ("KG-012", "# replace wildcard rules with explicit apiGroups/resources/verbs");
   ("KG-013", "# remove get/list/watch on secrets; scope via resourceNames if required");
   ("KG-014", "# remove create on pods and access to pods/exec and pods/attach");
   ("KG-015", "spec:" +:+ nl +:+ "  automountServiceAccountToken: false");
   ("KG-016", "spec:" +:+ nl +:+ "  serviceAccountName: <dedicated-service-account>");
   ("KG-017", "# apply a default-deny NetworkPolicy (see `kubeguard harden`)");
   ("KG-018", "spec:" +:+ nl +:+ "  type: ClusterIP   # front with an ingress + WAF instead");
   ("KG-019", "image: <repo>@sha256:<digest>   # pin by digest");
   ("KG-020", "securityContext:" +:+ nl +:+ "  seccompProfile:" +:+ nl
              +:+ "    type: RuntimeDefault")].

Definition snippet_of (id : string) : string :=
  match List.find (λ kv, id =s kv.1) remediationSnippets with Some kv => kv.2 | None => "" end.

(** [Meta.finding] *)
Definition finding (m : Meta) (ref : ResourceRef) (evidence : list Evidence) : Finding :=
  {| f_ID := m_ID m;
     f_Title := m_Title m;
     f_Severity := m_Severity m;
     f_Category := m_Category m;
     f_Resource := ref;
     f_Evidence := evidence;
     f_Remediation := mkRemediation (m_Remediation m) (snippet_of (m_ID m));
     f_Grants := m_Grants m;
     f_Refs := m_Refs m |}.

Definition ref (r : Resource) : ResourceRef := mkResourceRef (Kind r) (Namespace r) (Name r).
Definition nsRef (namespace : string) : ResourceRef := mkResourceRef "Namespace" "" namespace.
Definition ev (path value : string) : Evidence := mkEvidence path value.
Definition cpath (c : ContainerView) (field : string) : string :=
  "spec.containers[" +:+ c_Name c +:+ "]." +:+ field.

Definition cis (id : string) : ControlRef := mkControlRef "CIS" id "".
Definition nsa (title : string) : ControlRef := mkControlRef "NSA" "k8s-hardening" title.
Definition attack (id : string) : ControlRef := mkControlRef "ATT&CK" id "".

(** * Workload helpers: workload_checks.go *)

Definition effectiveSeccomp (c : ContainerView) (pod : PodSpecView) : string :=
  if c_SeccompProfile c <>s "" then c_SeccompProfile c
  else sc_SeccompProfile (SecurityContext pod).

Definition runsAsRoot (c : ContainerView) (pod : PodSpecView) : bool :=
  let nonRoot := match c_RunAsNonRoot c with
                 | None => sc_RunAsNonRoot (SecurityContext pod) | b => b end in
  let user := match c_RunAsUser c with
              | None => sc_RunAsUser (SecurityContext pod) | u => u end in
  if match user with Some u => (u =? 0)%Z | None => false end then true
  else if match nonRoot with Some b => b | None => false end then false
  else if match user with Some u => (u >? 0)%Z | None => false end then false
  else true.

Definition sensitiveHostPaths : list string :=
  ["/"; "/var/run"; "/var/run/docker.sock"; "/run/docker.sock"; "/run/containerd/containerd.sock";
   "/var/run/crio/crio.sock"; "/proc"; "/var/lib/kubelet"; "/etc/kubernetes"; "/var/lib/docker"].

Definition dangerousCaps : list string :=
  ["ALL"; "SYS_ADMIN"; "NET_ADMIN"; "SYS_PTRACE"; "SYS_MODULE"; "SYS_BOOT"; "SYS_RAWIO";
   "DAC_READ_SEARCH"; "BPF"; "NET_RAW"].

Definition isMutableImage (image : string) : bool :=
  if contains image "@sha256:" then false
  else
    let name := match last_index image "/"%char with
                | Some i => str_from (i + 1) image
                | None => image
                end in
    match last_index name ":"%char with
    | Some i => str_from (i + 1) name =s "latest"
    | None => true
    end.

Definition dropsAll (drop : list string) : bool := existsb (λ d, equal_fold d "ALL") drop.

Definition implicitRegistry (image : string) : bool :=
  if image =s "" then false
  else match str_index image "/" with
  | None => true
  | Some i =>
      let first := str_to i image in
      negb (contains first ".") && negb (contains first ":") && first <>s "localhost"
  end.

Definition automountEffective (g : Graph) (w : Workload) : bool :=
  match AutomountSAToken (w_PodSpec w) with
  | Some b => b
  | None =>
      match ServiceAccountByName g (w_Namespace w) (w_ServiceAccountName w) with
      | Some sa => match sa_AutomountToken sa with Some b => b | None => true end
      | None => true
      end
  end.

(** The loops of the checks: over workloads, and over their containers. *)
Definition per_workload (f : Workload → list Finding) (g : Graph) : list Finding :=
  flat_map f (g_Workloads g).
Definition per_container (f : Workload → ContainerView → list Finding) (g : Graph) : list Finding :=
  flat_map (λ w, flat_map (f w) (Containers (w_PodSpec w))) (g_Workloads g).

(** * Container-level checks *)

Definition meta_001 : Meta := mkMeta "KG-001" "Privileged container" SeverityCritical catHostAccess
  [CapContainerEscape; CapNodeAccess] [cis "5.2.1"; nsa "Pod security"; attack "T1611"]
  "Remove securityContext.privileged or set it to false; grant only the specific capabilities the workload needs.".
Definition privilegedCheck : Check := mkCheck meta_001 (per_container (λ w c,
  if c_Privileged c
  then [finding meta_001 (ref (w_Resource w)) [ev (cpath c "securityContext.privileged") "true"]]
  else [])).

Definition meta_002 : Meta := mkMeta "KG-002" "Sensitive hostPath mount" SeverityCritical
  catHostAccess [CapHostFilesystemAccess; CapContainerEscape]
  [cis "5.2.10"; nsa "Pod security"; attack "T1611"]
  "Remove the hostPath volume; use a projected/ephemeral volume or a CSI driver instead of mounting host paths or runtime sockets.".
Definition hostPathCheck : Check := mkCheck meta_002 (per_workload (λ w,
  flat_map (λ v,
    if v_HostPath v =s "" then []
    else
      let f := finding meta_002 (ref (w_Resource w))
                 [ev ("spec.volumes[" +:+ v_Name v +:+ "].hostPath.path") (v_HostPath v)] in
      [if negb (mem_str (v_HostPath v) sensitiveHostPaths) then set_Severity SeverityHigh f else f])
    (Volumes (w_PodSpec w)))).

Definition meta_006 : Meta := mkMeta "KG-006" "Container may run as root" SeverityMedium catWorkload
  [CapRootInContainer] [cis "5.2.6"; nsa "Pod security"]
  "Set runAsNonRoot: true and a non-zero runAsUser in the security context.".
Definition runAsRootCheck : Check := mkCheck meta_006 (per_container (λ w c,
  if runsAsRoot c (w_PodSpec w)
  then [finding meta_006 (ref (w_Resource w))
          [ev (cpath c "securityContext.runAsNonRoot") "not enforced"]]
  else [])).

Definition meta_007 : Meta := mkMeta "KG-007" "Privilege escalation not disabled" SeverityMedium
  catWorkload [CapPrivEsc] [cis "5.2.5"; nsa "Pod security"]
  "Set allowPrivilegeEscalation: false in the container security context.".
Definition allowPrivEscCheck : Check := mkCheck meta_007 (per_container (λ w c,
  if match c_AllowPrivEsc c with None => true | Some b => b end
  then [finding meta_007 (ref (w_Resource w))
          [ev (cpath c "securityContext.allowPrivilegeEscalation") "not set (defaults true)"]]
  else [])).

Definition meta_008 : Meta := mkMeta "KG-008" "Dangerous Linux capability added" SeverityHigh
  catWorkload [CapContainerEscape] [cis "5.2.8"; nsa "Pod security"; attack "T1611"]
  "Drop ALL capabilities and add back only those strictly required.".
Definition dangerousCapsCheck : Check := mkCheck meta_008 (per_container (λ w c,
  flat_map (λ capName,
    if mem_str (to_upper capName) dangerousCaps
    then [finding meta_008 (ref (w_Resource w))
            [ev (cpath c "securityContext.capabilities.add") capName]]
    else []) (c_CapsAdd c))).

Definition meta_009 : Meta := mkMeta "KG-009" "Root filesystem is writable" SeverityLow catWorkload
  [] [cis "5.2.12"; nsa "Pod security"]
  "Set readOnlyRootFilesystem: true and mount writable paths as volumes.".
Definition readOnlyRootFSCheck : Check := mkCheck meta_009 (per_container (λ w c,
  if match c_ReadOnlyRootFS c with None => true | Some b => negb b end
  then [finding meta_009 (ref (w_Resource w))
          [ev (cpath c "securityContext.readOnlyRootFilesystem") "not true"]]
  else [])).

Definition meta_010 : Meta := mkMeta "KG-010" "Missing CPU/memory limits" SeverityLow catWorkload
  [CapResourceExhaustion] [cis "5.7.3"; nsa "Resource limits"]
  "Set resources.limits.cpu and resources.limits.memory.".
Definition resourceLimitsCheck : Check := mkCheck meta_010 (per_container (λ w c,
  if negb (HasLimits (c_Limits c))
  then [finding meta_010 (ref (w_Resource w))
          [ev (cpath c "resources.limits") "missing cpu/memory"]]
  else [])).

Definition meta_019 : Meta := mkMeta "KG-019" "Image uses a mutable tag" SeverityLow catSupplyChain
  [] [cis "5.5.1"; nsa "Supply chain"]
  "Pin images by digest (image@sha256:...) or an immutable, versioned tag.".
Definition mutableImageCheck : Check := mkCheck meta_019 (per_container (λ w c,
  if isMutableImage (c_Image c)
  then [finding meta_019 (ref (w_Resource w)) [ev (cpath c "image") (c_Image c)]]
  else [])).

Definition meta_021 : Meta := mkMeta "KG-021" "Container does not drop all capabilities"
  SeverityMedium catWorkload []
  [cis "5.2.9"; nsa "Pod security"; mkControlRef "PSA" "restricted" ""]
  ("Set securityContext.capabilities.drop: [" +:+ dquote +:+ "ALL" +:+ dquote
   +:+ "] and add back only the capabilities the workload strictly requires (Pod Security "
   +:+ dquote +:+ "restricted" +:+ dquote +:+ ").").
Definition capDropAllCheck : Check := mkCheck meta_021 (per_container (λ w c,
  if negb (dropsAll (c_CapsDrop c))
  then [finding meta_021 (ref (w_Resource w))
          [ev (cpath c "securityContext.capabilities.drop") "does not drop ALL"]]
  else [])).

Definition meta_022 : Meta := mkMeta "KG-022" "Image pulled from an implicit or untrusted registry"
  SeverityLow catSupplyChain [] [nsa "Supply chain"]
  "Pull images from an explicit, trusted registry (e.g. registry.example.com/…) rather than an implicit Docker Hub reference, and enforce it with an admission policy.".
Definition untrustedRegistryCheck : Check := mkCheck meta_022 (per_container (λ w c,
  if implicitRegistry (c_Image c)
  then [finding meta_022 (ref (w_Resource w)) [ev (cpath c "image") (c_Image c)]]
  else [])).

Definition meta_020 : Meta := mkMeta "KG-020" "Seccomp profile is not RuntimeDefault" SeverityLow
  catWorkload [] [cis "5.7.2"; nsa "Pod security"]
  "Set seccompProfile.type: RuntimeDefault on the pod or container.".
Definition seccompCheck : Check := mkCheck meta_020 (per_container (λ w c,
  if effectiveSeccomp c (w_PodSpec w) <>s "RuntimeDefault"
  then [finding meta_020 (ref (w_Resource w))
          [ev (cpath c "securityContext.seccompProfile.type") "not RuntimeDefault"]]
  else [])).

(** * Pod- and workload-level checks *)

Definition meta_003 : Meta := mkMeta "KG-003" "hostNetwork enabled" SeverityHigh catHostAccess
  [CapHostNetworkAccess] [cis "5.2.4"; nsa "Pod security"]
  "Set hostNetwork: false; expose the workload via a Service instead.".
Definition hostNetworkCheck : Check := mkCheck meta_003 (per_workload (λ w,
  if HostNetwork (w_PodSpec w)
  then [finding meta_003 (ref (w_Resource w)) [ev "spec.hostNetwork" "true"]] else [])).

Definition meta_004 : Meta := mkMeta "KG-004" "hostPID enabled" SeverityHigh catHostAccess
  [CapHostProcessAccess] [cis "5.2.3"; nsa "Pod security"] "Set hostPID: false.".
Definition hostPIDCheck : Check := mkCheck meta_004 (per_workload (λ w,
  if HostPID (w_PodSpec w)
  then [finding meta_004 (ref (w_Resource w)) [ev "spec.hostPID" "true"]] else [])).

Definition meta_005 : Meta := mkMeta "KG-005" "hostIPC enabled" SeverityMedium catHostAccess
  [CapHostIPCAccess] [cis "5.2.3"; nsa "Pod security"] "Set hostIPC: false.".
Definition hostIPCCheck : Check := mkCheck meta_005 (per_workload (λ w,
  if HostIPC (w_PodSpec w)
  then [finding meta_005 (ref (w_Resource w)) [ev "spec.hostIPC" "true"]] else [])).

Definition meta_015 : Meta := mkMeta "KG-015" "ServiceAccount token auto-mounted" SeverityMedium
  catRBAC [CapServiceAccountToken] [cis "5.1.6"; nsa "RBAC"]
  "Set automountServiceAccountToken: false on the pod or ServiceAccount when the token is not needed.".
Definition automountTokenCheck : Check := mkCheck meta_015 (λ g, per_workload (λ w,
  if automountEffective g w
  then [finding meta_015 (ref (w_Resource w))
          [ev "spec.automountServiceAccountToken" "not disabled"]]
  else []) g).

Definition meta_016 : Meta := mkMeta "KG-016" "Workload uses the default ServiceAccount" SeverityLow
  catRBAC [] [cis "5.1.5"; nsa "RBAC"]
  "Assign a dedicated, least-privilege ServiceAccount instead of default.".
Definition defaultSACheck : Check := mkCheck meta_016 (per_workload (λ w,
  if w_ServiceAccountName w =s "default"
  then [finding meta_016 (ref (w_Resource w)) [ev "spec.serviceAccountName" "default"]]
  else [])).

(** * RBAC checks: rbac_checks.go *)

Definition findRoleRules (g : Graph) (kind name : string) : option (list PolicyRule) :=
  if kind =s "ClusterRole" then
    option_map cro_Rules (List.find (λ cr, Name (cro_Resource cr) =s name) (g_ClusterRoles g))
  else if kind =s "Role" then
    option_map r_Rules (List.find (λ r, Name (r_Resource r) =s name) (g_Roles g))
  else None.

Definition hasPrivSubject (subjects : list Subject) : bool :=
  existsb (λ s, (sub_Kind s =s "ServiceAccount") || (sub_Kind s =s "Group")) subjects.

Definition allRoles (g : Graph) : list Resource :=
  map r_Resource (g_Roles g) ++ map cro_Resource (g_ClusterRoles g).

Definition rulesOf (g : Graph) (r : Resource) : list PolicyRule :=
  default [] (findRoleRules g (Kind r) (Name r)).

Definition adminReason (g : Graph) (rr : RoleRef) : option string :=
  if (rref_Kind rr =s "ClusterRole") && (rref_Name rr =s "cluster-admin")
  then Some "cluster-admin"
  else match findRoleRules g (rref_Kind rr) (rref_Name rr) with
  | Some rules =>
      if existsb RuleFullWildcard rules
      then Some ("wildcard " +:+ rref_Kind rr +:+ " " +:+ rref_Name rr) else None
  | None => None
  end.

Definition meta_011 : Meta := mkMeta "KG-011"
  "Binding grants cluster-admin to a ServiceAccount or group" SeverityCritical catRBAC
  [CapClusterAdmin] [cis "5.1.1"; nsa "RBAC"; attack "T1078"]
  "Bind a least-privilege Role instead of cluster-admin or a wildcard ClusterRole.".

Definition check_binding (g : Graph) (r : Resource) (rr : RoleRef) (subs : list Subject)
    : list Finding :=
  if negb (hasPrivSubject subs) then []
  else match adminReason g rr with
  | Some reason => [finding meta_011 (ref r) [ev "roleRef" reason]]
  | None => []
  end.

Definition clusterAdminBindingCheck : Check := mkCheck meta_011 (λ g,
  flat_map (λ b, check_binding g (crb_Resource b) (crb_RoleRef b) (crb_Subjects b))
    (g_ClusterRoleBindings g)
  ++ flat_map (λ b, check_binding g (rb_Resource b) (rb_RoleRef b) (rb_Subjects b))
       (g_RoleBindings g)).

(** The loop shared by KG-012, KG-013 and KG-014: one finding for a role with a rule
    that satisfies the predicate. *)
Definition role_check (m : Meta) (p : PolicyRule → bool) (e : Evidence) : Check := mkCheck m (λ g,
  flat_map (λ r, if existsb p (rulesOf g r) then [finding m (ref r) [e]] else []) (allRoles g)).

Definition meta_012 : Meta := mkMeta "KG-012" "Wildcard RBAC rule" SeverityHigh catRBAC
  [CapBroadAPIAccess] [cis "5.1.3"; nsa "RBAC"]
  "Replace wildcard apiGroups/resources/verbs with the specific values required.".
Definition wildcardRBACCheck : Check :=
  role_check meta_012 RuleAnyWildcard (ev "rules[].verbs|resources|apiGroups" "*").

Definition meta_013 : Meta := mkMeta "KG-013" "RBAC allows reading Secrets" SeverityHigh catRBAC
  [CapSecretRead] [cis "5.1.2"; nsa "RBAC"; attack "T1552"]
  "Remove get/list/watch on secrets; scope to named resourceNames if unavoidable.".
Definition secretsAccessCheck : Check :=
  role_check meta_013 RuleGrantsSecrets (ev "rules[]" "get/list/watch on secrets").

Definition meta_014 : Meta := mkMeta "KG-014" "RBAC allows creating or exec-ing into pods"
  SeverityHigh catRBAC [CapPodCreate] [cis "5.1.4"; nsa "RBAC"; attack "T1610"]
  "Remove create on pods and access to pods/exec & pods/attach.".
Definition podCreateCheck : Check :=
  role_check meta_014 RuleGrantsPodCreate (ev "rules[]" "create pods / pods exec").

(** * Network and exposure checks: network_checks.go, exposure_checks.go *)

Definition meta_017 : Meta := mkMeta "KG-017" "Namespace has no default-deny NetworkPolicy"
  SeverityMedium catNetwork [CapLateralMovement] [cis "5.3.2"; nsa "Network separation"]
  "Apply a default-deny NetworkPolicy (empty podSelector, Ingress+Egress) and allow only required flows.".

Definition workload_namespaces (g : Graph) : gset string :=
  list_to_set (List.filter (λ ns, ns <>s "") (map w_Namespace (g_Workloads g))).

Definition networkPolicyCheck : Check := mkCheck meta_017 (λ g,
  flat_map (λ ns,
    if negb (HasDefaultDeny g ns)
    then [finding meta_017 (nsRef ns) [ev "networkpolicies" "no default-deny in namespace"]]
    else [])
    (sort_strings (elements (workload_namespaces g)))).

Definition workloadDangerous (g : Graph) (w : Workload) : bool :=
  if existsb c_Privileged (Containers (w_PodSpec w)) then true
  else if existsb (λ v, v_HostPath v <>s "") (Volumes (w_PodSpec w)) then true
  else SAIsClusterAdmin g (w_Namespace w) (w_ServiceAccountName w).

Definition frontsDangerousWorkload (g : Graph) (svc : Service) : bool :=
  existsb (workloadDangerous g) (WorkloadsForService g svc).

(** A Service type that is reachable from outside the cluster. *)
Definition externalService (svc : Service) : bool :=
  (svc_Type svc =s "LoadBalancer") || (svc_Type svc =s "NodePort").

Definition meta_018 : Meta := mkMeta "KG-018" "Service exposed externally" SeverityMedium
  catExposure [CapInternetIngress] [nsa "Network separation"; attack "T1190"]
  "Avoid direct LoadBalancer/NodePort exposure; front workloads with an ingress + WAF and restrict source ranges.".
Definition exposureCheck : Check := mkCheck meta_018 (λ g,
  flat_map (λ svc,
    if negb (externalService svc) then []
    else
      let f := finding meta_018 (ref (svc_Resource svc)) [ev "spec.type" (svc_Type svc)] in
      [if (svc_Type svc =s "LoadBalancer") && frontsDangerousWorkload g svc
       then set_Severity SeverityHigh f else f])
    (g_Services g)).

(** * The registry, profiles and the scan *)

Definition Registry : list Check :=
  [privilegedCheck; hostPathCheck; hostNetworkCheck; hostPIDCheck; hostIPCCheck;
   runAsRootCheck; allowPrivEscCheck; dangerousCapsCheck; readOnlyRootFSCheck; resourceLimitsCheck;
   clusterAdminBindingCheck; wildcardRBACCheck; secretsAccessCheck; podCreateCheck;
   automountTokenCheck; defaultSACheck; networkPolicyCheck; exposureCheck; mutableImageCheck;
   seccompCheck; capDropAllCheck; untrustedRegistryCheck].

Definition check_id (c : Check) : string := m_ID (ck_Meta c).

Record Profile := mkProfile {
  pr_Name : string;
  pr_Include : list string;
  pr_Exclude : list string;
  pr_SeverityOverride : gmap string Severity
}.

Definition includes (p : Profile) (id : string) : bool :=
  if existsb (λ e, e =s id) (pr_Exclude p) then false
  else if Nat.eqb (length (pr_Include p)) 0 then true
  else existsb (λ i, i =s id) (pr_Include p).

Definition RunnableIDs (p : Profile) : gset string :=
  list_to_set (List.filter (includes p) (map check_id Registry)).

Definition zealDefault : Profile := mkProfile "zeal-default" [] [] ∅.
Definition cisProfile : Profile := mkProfile "cis" [] [] {["KG-018" := SeverityMedium]}.

Definition ProfileByName (name : string) : option Profile :=
  if (name =s "") || (name =s "zeal-default") then Some zealDefault
  else if name =s "cis" then Some cisProfile
  else None.

Definition resourceKey (r : ResourceRef) : string :=
  rr_Namespace r +:+ "/" +:+ rr_Kind r +:+ "/" +:+ rr_Name r.

(** The [less] of [SortFindings]. *)
Definition finding_less (a b : Finding) : bool :=
  if negb (Rank (f_Severity a) =? Rank (f_Severity b))%Z
  then (Rank (f_Severity b) <? Rank (f_Severity a))%Z
  else if f_Category a <>s f_Category b then f_Category a <s f_Category b
  else if f_ID a <>s f_ID b then f_ID a <s f_ID b
  else resourceKey (f_Resource a) <s resourceKey (f_Resource b).

Definition SortFindings (fs : list Finding) : list Finding := slice_stable finding_less fs.

Definition override (p : Profile) (id : string) (f : Finding) : Finding :=
  match pr_SeverityOverride p !! id with Some ov => set_Severity ov f | None => f end.

(** The findings of the selected checks, before sorting. *)
Definition scan_raw (g : Graph) (p : Profile) : list Finding :=
  flat_map (λ c,
    let id := check_id c in
    if negb (includes p id) then [] else map (override p id) (ck_Run c g)) Registry.

Definition Scan (g : Graph) (p : Profile) : list Finding := SortFindings (scan_raw g p).

(** * The abstract specification

    What it means for a resource to violate a rule, per family of rules and without
    reference to how the checks walk the graph. *)

(** A container setting, inherited from the pod when the container leaves it out. *)
Definition effective {A} (own inherited : option A) : option A :=
  match own with Some _ => own | None => inherited end.

(** The effective uid and [runAsNonRoot] of a container. *)
Definition eff_user (pod : PodSpecView) (c : ContainerView) : option Z :=
  effective (c_RunAsUser c) (sc_RunAsUser (SecurityContext pod)).
Definition eff_non_root (pod : PodSpecView) (c : ContainerView) : option bool :=
  effective (c_RunAsNonRoot c) (sc_RunAsNonRoot (SecurityContext pod)).

Inductive container_rule (pod : PodSpecView) (c : ContainerView) : string → Prop :=
| cr_privileged : c_Privileged c = true → container_rule pod c "KG-001"
| cr_root_uid : eff_user pod c = Some 0%Z → container_rule pod c "KG-006"
| cr_root_unset :
    eff_non_root pod c ≠ Some true → (∀ u, eff_user pod c = Some u → (u <= 0)%Z) →
    container_rule pod c "KG-006"
| cr_priv_esc : c_AllowPrivEsc c ≠ Some false → container_rule pod c "KG-007"
| cr_caps name : name ∈ c_CapsAdd c → to_upper name ∈ dangerousCaps → container_rule pod c "KG-008"
| cr_writable : c_ReadOnlyRootFS c ≠ Some true → container_rule pod c "KG-009"
| cr_limits : lim_CPU (c_Limits c) = "" ∨ lim_Memory (c_Limits c) = "" → container_rule pod c "KG-010"
| cr_image : isMutableImage (c_Image c) = true → container_rule pod c "KG-019"
| cr_seccomp : effectiveSeccomp c pod ≠ "RuntimeDefault" → container_rule pod c "KG-020"
| cr_drop : (∀ d, d ∈ c_CapsDrop c → equal_fold d "ALL" = false) → container_rule pod c "KG-021"
| cr_registry : implicitRegistry (c_Image c) = true → container_rule pod c "KG-022".

(** Whether a pod mounts its token: the pod decides, else its ServiceAccount, else yes. *)
Definition token_mounted (g : Graph) (w : Workload) : Prop :=
  effective (AutomountSAToken (w_PodSpec w))
    (ServiceAccountByName g (w_Namespace w) (w_ServiceAccountName w) ≫= sa_AutomountToken)
  ≠ Some false.

Inductive workload_rule (g : Graph) (w : Workload) : string → Prop :=
| wr_container c id : c ∈ Containers (w_PodSpec w) → container_rule (w_PodSpec w) c id →
    workload_rule g w id
| wr_host_path v : v ∈ Volumes (w_PodSpec w) → v_HostPath v ≠ "" → workload_rule g w "KG-002"
| wr_host_network : HostNetwork (w_PodSpec w) = true → workload_rule g w "KG-003"
| wr_host_pid : HostPID (w_PodSpec w) = true → workload_rule g w "KG-004"
| wr_host_ipc : HostIPC (w_PodSpec w) = true → workload_rule g w "KG-005"
| wr_token : token_mounted g w → workload_rule g w "KG-015"
| wr_default_sa : w_ServiceAccountName w = "default" → workload_rule g w "KG-016".

(** A role violates a rule by one of its own rules. *)
Inductive role_rule (rule : PolicyRule) : string → Prop :=
| ror_wildcard : RuleAnyWildcard rule = true → role_rule rule "KG-012"
| ror_secrets : RuleGrantsSecrets rule = true → role_rule rule "KG-013"
| ror_pods : RuleGrantsPodCreate rule = true → role_rule rule "KG-014".

(** The roles of a graph, with their rules. *)
Inductive has_role (g : Graph) : Resource → list PolicyRule → Prop :=
| has_role_ns r : r ∈ g_Roles g → has_role g (r_Resource r) (r_Rules r)
| has_role_cluster r : r ∈ g_ClusterRoles g → has_role g (cro_Resource r) (cro_Rules r).

(** A binding grants cluster-admin rights to a ServiceAccount or group. *)
Definition admin_binding (g : Graph) (rr : RoleRef) (subs : list Subject) : Prop :=
  (∃ s, s ∈ subs ∧ (sub_Kind s = "ServiceAccount" ∨ sub_Kind s = "Group")) ∧
  (isClusterAdminRef rr = true ∨ ∃ rule, rule ∈ ref_rules g rr ∧ RuleFullWildcard rule = true).

Inductive violation (g : Graph) : string → ResourceRef → Prop :=
| vio_workload w id : w ∈ g_Workloads g → workload_rule g w id → violation g id (ref (w_Resource w))
| vio_role r rules rule id : has_role g r rules → rule ∈ rules → role_rule rule id →
    violation g id (ref r)
| vio_cluster_binding b : b ∈ g_ClusterRoleBindings g →
    admin_binding g (crb_RoleRef b) (crb_Subjects b) → violation g "KG-011" (ref (crb_Resource b))
| vio_binding b : b ∈ g_RoleBindings g →
    admin_binding g (rb_RoleRef b) (rb_Subjects b) → violation g "KG-011" (ref (rb_Resource b))
| vio_namespace w : w ∈ g_Workloads g → w_Namespace w ≠ "" → HasDefaultDeny g (w_Namespace w) = false →
    violation g "KG-017" (nsRef (w_Namespace w))
| vio_service s : s ∈ g_Services g → svc_Type s = "LoadBalancer" ∨ svc_Type s = "NodePort" →
    violation g "KG-018" (ref (svc_Resource s)).

(** No two Roles and no two ClusterRoles share a name. *)
Definition unique_roles (g : Graph) : Prop :=
  NoDup (map (λ r, Name (r_Resource r)) (g_Roles g)) ∧
  NoDup (map (λ r, Name (cro_Resource r)) (g_ClusterRoles g)).

(** * Helper lemmas: the tests of the checks *)

Lemma runsAsRoot_spec c pod : runsAsRoot c pod = true ↔ container_rule pod c "KG-006".
Proof.
  transitivity (eff_user pod c = Some 0%Z ∨
    eff_non_root pod c ≠ Some true ∧ ∀ u, eff_user pod c = Some u → (u <= 0)%Z).
  - unfold runsAsRoot.
    replace (match c_RunAsUser c with None => _ | u => u end) with (eff_user pod c)
      by (unfold eff_user, effective; by destruct (c_RunAsUser c)).
    replace (match c_RunAsNonRoot c with None => _ | b => b end) with (eff_non_root pod c)
      by (unfold eff_non_root, effective; by destruct (c_RunAsNonRoot c)).
    destruct (eff_user pod c) as [u|], (eff_non_root pod c) as [[]|]; simpl; try naive_solver;
      destruct (Z.eqb_spec u 0), (Z.gtb_spec u 0); simpl; subst; try lia;
      (split; [intros ?; try done|intros [Hz|[Hn Hu]]; simplify_eq; try done; try specialize (Hu _ eq_refl); try lia]);
      try (by left); right; (split; [done|]); intros ? [= <-]; lia.
  - split; [intros [?|[??]]; eauto using container_rule|inversion 1; auto].
Qed.

Lemma automountEffective_spec g w : automountEffective g w = true ↔ token_mounted g w.
Proof.
  unfold automountEffective, token_mounted, effective.
  destruct (AutomountSAToken (w_PodSpec w)) as [[]|]; [done..|].
  destruct (ServiceAccountByName _ _ _) as [sa|]; simpl; [|done].
  destruct (sa_AutomountToken sa) as [[]|]; done.
Qed.

Lemma workloadDangerous_spec g w :
  workloadDangerous g w = true ↔
  (∃ c, c ∈ Containers (w_PodSpec w) ∧ c_Privileged c = true) ∨
  (∃ v, v ∈ Volumes (w_PodSpec w) ∧ v_HostPath v ≠ "") ∨
  SAIsClusterAdmin g (w_Namespace w) (w_ServiceAccountName w) = true.
Proof.
  unfold workloadDangerous.
  assert (existsb (λ v, v_HostPath v <>s "") (Volumes (w_PodSpec w)) = true ↔
          ∃ v, v ∈ Volumes (w_PodSpec w) ∧ v_HostPath v ≠ "") as <-.
  { rewrite existsb_elem. setoid_rewrite negb_true_iff. by setoid_rewrite String.eqb_neq. }
  rewrite <-existsb_elem. repeat case_match; naive_solver.
Qed.

Lemma findRoleRules_ref g rr :
  default [] (findRoleRules g (rref_Kind rr) (rref_Name rr)) = ref_rules g rr.
Proof.
  unfold findRoleRules, ref_rules, resolveRef. repeat case_str; try done;
    by destruct (List.find _ _).
Qed.

Lemma adminReason_spec g rr :
  is_Some (adminReason g rr) ↔
  isClusterAdminRef rr = true ∨ ∃ rule, rule ∈ ref_rules g rr ∧ RuleFullWildcard rule = true.
Proof.
  unfold adminReason. fold (isClusterAdminRef rr). rewrite <-existsb_elem, <-findRoleRules_ref.
  destruct (isClusterAdminRef rr); [naive_solver|].
  destruct (findRoleRules _ _ _); simpl; [|naive_solver].
  case_match; naive_solver.
Qed.

Lemma hasPrivSubject_spec subs :
  hasPrivSubject subs = true ↔
  ∃ s, s ∈ subs ∧ (sub_Kind s = "ServiceAccount" ∨ sub_Kind s = "Group").
Proof.
  unfold hasPrivSubject. rewrite existsb_elem.
  setoid_rewrite orb_true_iff. by setoid_rewrite String.eqb_eq.
Qed.

Lemma find_unique {A} (key : A → string) l x :
  NoDup (map key l) → x ∈ l → List.find (λ y, key y =s key x) l = Some x.
Proof.
  intros Hnd (l1 & l2 & ->)%list_elem_of_split. apply find_cons_first; [|apply String.eqb_refl].
  intros y Hy. apply String.eqb_neq. intros E. rewrite map_app in Hnd.
  apply NoDup_app in Hnd as (_ & Hd & _). apply (Hd (key y)).
  - by apply list_elem_of_fmap_2.
  - simpl. rewrite E. left.
Qed.

Lemma rulesOf_unique g r rules `{!graph_wf g} :
  unique_roles g → has_role g r rules → rulesOf g r = rules.
Proof.
  intros [H1 H2] []; unfold rulesOf, findRoleRules.
  - rewrite wf_roles by done. simpl. by rewrite (find_unique (λ r, Name (r_Resource r))).
  - rewrite wf_cluster_roles by done. simpl. by rewrite (find_unique (λ r, Name (cro_Resource r))).
Qed.

Lemma elem_of_allRoles g r : r ∈ allRoles g ↔ ∃ rules, has_role g r rules.
Proof.
  unfold allRoles. rewrite elem_of_app, !list_elem_of_fmap. split.
  - intros [(x & -> & Hx)|(x & -> & Hx)]; eauto using has_role.
  - intros [rules []]; eauto.
Qed.

Lemma elem_of_if {A} (b : bool) (x y : A) : y ∈ (if b then [x] else []) ↔ b = true ∧ y = x.
Proof. destruct b; set_solver. Qed.
#[export] Hint Rewrite @elem_of_if : kgrw.

(** * Helper lemmas: one check at a time *)

(** The resources a check reports. *)
Definition reports (g : Graph) (c : Check) (r : ResourceRef) : Prop :=
  ∃ f, f ∈ ck_Run c g ∧ f_Resource f = r.

Lemma per_container_reports m p e g r :
  (∀ w c, p w c = true ↔ container_rule (w_PodSpec w) c (m_ID m)) →
  reports g (mkCheck m (per_container (λ w c,
    if p w c then [finding m (ref (w_Resource w)) (e w c)] else []))) r ↔
  ∃ w, w ∈ g_Workloads g ∧ r = ref (w_Resource w) ∧
       ∃ c, c ∈ Containers (w_PodSpec w) ∧ container_rule (w_PodSpec w) c (m_ID m).
Proof.
  intros Hp. unfold reports, per_container. simpl. setoid_rewrite elem_of_flat_map.
  setoid_rewrite elem_of_flat_map. setoid_rewrite elem_of_if. setoid_rewrite Hp. split.
  - intros (f & (w & Hw & c & Hc & Hr & ->) & <-). eauto 7.
  - intros (w & Hw & -> & c & Hc & Hr). eauto 9.
Qed.

Lemma per_workload_reports m p e g r :
  (∀ w, p w = true ↔ workload_rule g w (m_ID m)) →
  reports g (mkCheck m (per_workload (λ w,
    if p w then [finding m (ref (w_Resource w)) (e w)] else []))) r ↔
  ∃ w, w ∈ g_Workloads g ∧ r = ref (w_Resource w) ∧ workload_rule g w (m_ID m).
Proof.
  intros Hp. unfold reports, per_workload. simpl. setoid_rewrite elem_of_flat_map.
  setoid_rewrite elem_of_if. setoid_rewrite Hp. split.
  - intros (f & (w & Hw & Hr & ->) & <-). eauto.
  - intros (w & Hw & -> & Hr). eauto 6.
Qed.

Lemma role_check_reports m p e g r `{!graph_wf g} :
  unique_roles g → (∀ rule, p rule = true ↔ role_rule rule (m_ID m)) →
  reports g (role_check m p e) r ↔
  ∃ x rules rule, has_role g x rules ∧ rule ∈ rules ∧ role_rule rule (m_ID m) ∧ r = ref x.
Proof.
  intros Hu Hp. unfold reports, role_check. simpl. setoid_rewrite elem_of_flat_map.
  setoid_rewrite elem_of_if. setoid_rewrite elem_of_allRoles. setoid_rewrite existsb_elem.
  setoid_rewrite Hp. split.
  - intros (f & (x & [rules Hx] & (rule & Hr & Hv) & ->) & <-).
    rewrite (rulesOf_unique g x rules Hu Hx) in Hr. eauto 8.
  - intros (x & rules & rule & Hx & Hr & Hv & ->).
    exists (finding m (ref x) [e]). split; [|done]. exists x. split; [eauto|]. split; [|done].
    exists rule. by rewrite (rulesOf_unique g x rules Hu Hx).
Qed.

(** Every check reports exactly the violations of its own rule. *)
Definition check_correct (g : Graph) (c : Check) : Prop :=
  ∀ r, reports g c r ↔ violation g (check_id c) r.

(** A rule id that only workloads can violate. *)
Lemma violation_workload g id r :
  id ∉ ["KG-011"; "KG-012"; "KG-013"; "KG-014"; "KG-017"; "KG-018"] →
  violation g id r ↔ ∃ w, w ∈ g_Workloads g ∧ r = ref (w_Resource w) ∧ workload_rule g w id.
Proof.
  intros Hid. split; [|intros (w & ? & -> & ?); by apply vio_workload].
  destruct 1 as [| ? ? ? ? ? ? []| | | |]; set_solver.
Qed.

(** A rule id that only roles can violate. *)
Lemma violation_role g id r :
  id ∈ ["KG-012"; "KG-013"; "KG-014"] →
  violation g id r ↔
  ∃ x rules rule, has_role g x rules ∧ rule ∈ rules ∧ role_rule rule id ∧ r = ref x.
Proof.
  intros Hid. split; [|intros (x & rules & rule & ? & ? & ? & ->); by eapply vio_role].
  destruct 1 as [w id Hw Hwr|x rules rule id| | | |]; [|eauto 9|set_solver..].
  destruct Hwr as [c id Hc Hcr| | | | | |]; [destruct Hcr|..]; set_solver.
Qed.

(** A rule id that only containers can violate. *)
Lemma workload_rule_container g w id :
  id ∉ ["KG-002"; "KG-003"; "KG-004"; "KG-005"; "KG-015"; "KG-016"] →
  workload_rule g w id ↔
  ∃ c, c ∈ Containers (w_PodSpec w) ∧ container_rule (w_PodSpec w) c id.
Proof.
  intros Hid. split; [|intros (c & ? & ?); by eapply wr_container].
  destruct 1; set_solver.
Qed.

Lemma container_check_correct g m p e :
  m_ID m ∉ ["KG-011"; "KG-012"; "KG-013"; "KG-014"; "KG-017"; "KG-018"] →
  m_ID m ∉ ["KG-002"; "KG-003"; "KG-004"; "KG-005"; "KG-015"; "KG-016"] →
  (∀ w c, p w c = true ↔ container_rule (w_PodSpec w) c (m_ID m)) →
  check_correct g (mkCheck m (per_container (λ w c,
    if p w c then [finding m (ref (w_Resource w)) (e w c)] else []))).
Proof.
  intros H1 H2 Hp r. rewrite per_container_reports, violation_workload by done.
  by setoid_rewrite workload_rule_container.
Qed.

Lemma workload_check_correct g m p e :
  m_ID m ∉ ["KG-011"; "KG-012"; "KG-013"; "KG-014"; "KG-017"; "KG-018"] →
  (∀ w, p w = true ↔ workload_rule g w (m_ID m)) →
  check_correct g (mkCheck m (per_workload (λ w,
    if p w then [finding m (ref (w_Resource w)) (e w)] else []))).
Proof. intros H1 Hp r. by rewrite per_workload_reports, violation_workload. Qed.

Ltac solve_id := apply (bool_decide_unpack _); vm_compute; exact I.

Lemma negb_eqb_spec (x y : string) : x <>s y = true ↔ x ≠ y.
Proof. rewrite negb_true_iff. apply String.eqb_neq. Qed.

Lemma opt_bool_not (o : option bool) (b : bool) :
  match o with None => true | Some b' => if b then negb b' else b' end = true ↔ o ≠ Some b.
Proof. destruct o as [[]|], b; naive_solver. Qed.

Lemma HasLimits_spec l : negb (HasLimits l) = true ↔ lim_CPU l = "" ∨ lim_Memory l = "".
Proof.
  unfold HasLimits. rewrite negb_andb, orb_true_iff, !negb_involutive.
  by rewrite !String.eqb_eq.
Qed.

Lemma dropsAll_spec ds :
  negb (dropsAll ds) = true ↔ ∀ d, d ∈ ds → equal_fold d "ALL" = false.
Proof. unfold dropsAll. rewrite negb_true_iff. apply existsb_none. Qed.

(** Split a container check's test into its rule's constructor and its inversion. *)
Ltac by_rule :=
  let H := fresh in split; [intros H; econstructor; eauto|intros H; inversion H; subst; eauto].

Lemma container_checks_correct g :
  Forall (check_correct g)
    [privilegedCheck; runAsRootCheck; allowPrivEscCheck; readOnlyRootFSCheck; resourceLimitsCheck;
     mutableImageCheck; seccompCheck; capDropAllCheck; untrustedRegistryCheck].
Proof.
  repeat (apply Forall_cons; split; [apply container_check_correct; [solve_id..|]; intros w c|]);
    [..|apply Forall_nil_2].
  - by_rule.
  - apply runsAsRoot_spec.
  - rewrite (opt_bool_not (c_AllowPrivEsc c) false). by_rule.
  - rewrite (opt_bool_not (c_ReadOnlyRootFS c) true). by_rule.
  - rewrite HasLimits_spec. by_rule.
  - by_rule.
  - rewrite negb_eqb_spec. by_rule.
  - rewrite dropsAll_spec. by_rule.
  - by_rule.
Qed.

(** The same for a workload check, whose id no container rule has. *)
Ltac by_workload_rule :=
  let H := fresh in
  split; [intros H; econstructor; eauto; fail|
          intros H; inversion H as [? ? ? Hc| | | | | |]; subst; [inversion Hc|..]; eauto].

Lemma workload_checks_correct g :
  Forall (check_correct g)
    [hostNetworkCheck; hostPIDCheck; hostIPCCheck; defaultSACheck].
Proof.
  repeat (apply Forall_cons; split; [apply workload_check_correct; [solve_id..|]; intros w|]);
    [..|apply Forall_nil_2].
  - by_workload_rule.
  - by_workload_rule.
  - by_workload_rule.
  - rewrite String.eqb_eq. by_workload_rule.
Qed.

Lemma automountTokenCheck_correct g : check_correct g automountTokenCheck.
Proof.
  intros r. rewrite violation_workload by solve_id.
  pose proof (per_workload_reports meta_015 (automountEffective g)
    (λ w, [ev "spec.automountServiceAccountToken" "not disabled"]) g r) as H.
  apply H. intros w. rewrite automountEffective_spec. by_workload_rule.
Qed.

Lemma hostPathCheck_correct g : check_correct g hostPathCheck.
Proof.
  intros r. rewrite violation_workload by solve_id.
  unfold reports, hostPathCheck, per_workload. simpl. setoid_rewrite elem_of_flat_map.
  setoid_rewrite elem_of_flat_map. split.
  - intros (f & (w & Hw & v & Hv & Hf) & <-). exists w. split; [done|].
    destruct (String.eqb_spec (v_HostPath v) ""); [by apply not_elem_of_nil in Hf|].
    apply list_elem_of_singleton in Hf as ->. split; [by destruct (negb _)|]. by eapply wr_host_path.
  - intros (w & Hw & -> & Hr). inversion Hr as [? ? ? Hc|v Hv Hp| | | | |]; subst; [inversion Hc|].
    eexists. split; [exists w; split; [done|]; exists v; split; [done|]|].
    + apply String.eqb_neq in Hp. rewrite Hp. left.
    + by destruct (negb _).
Qed.

Lemma dangerousCapsCheck_correct g : check_correct g dangerousCapsCheck.
Proof.
  intros r. rewrite violation_workload by solve_id. setoid_rewrite workload_rule_container; [|solve_id].
  unfold reports, dangerousCapsCheck, per_container. simpl. setoid_rewrite elem_of_flat_map.
  setoid_rewrite elem_of_flat_map. setoid_rewrite elem_of_flat_map. setoid_rewrite elem_of_if.
  setoid_rewrite mem_str_spec. split.
  - intros (f & (w & Hw & c & Hc & name & Hn & Hd & ->) & <-). exists w. repeat split; [done|].
    exists c. split; [done|]. by eapply cr_caps.
  - intros (w & Hw & -> & c & Hc & Hr). inversion Hr as [| | | |name Hn Hd| | | | | |]; subst.
    eexists. split; [exists w; split; [done|]; exists c; split; [done|]; exists name; eauto|done].
Qed.

Lemma role_checks_correct g `{!graph_wf g} :
  unique_roles g → Forall (check_correct g) [wildcardRBACCheck; secretsAccessCheck; podCreateCheck].
Proof.
  intros Hu. repeat (apply Forall_cons; split; [intros r; rewrite violation_role by solve_id|]);
    [..|apply Forall_nil_2].
  - apply (role_check_reports _ _ _ _ _ Hu). intros rule. by_rule.
  - apply (role_check_reports _ _ _ _ _ Hu). intros rule. by_rule.
  - apply (role_check_reports _ _ _ _ _ Hu). intros rule. by_rule.
Qed.

Lemma elem_of_check_binding g r rr subs f :
  f ∈ check_binding g r rr subs →
  admin_binding g rr subs ∧ f_Resource f = ref r ∧ f_ID f = "KG-011".
Proof.
  unfold check_binding, admin_binding. rewrite <-hasPrivSubject_spec, <-adminReason_spec.
  destruct (hasPrivSubject subs), (adminReason g rr); set_solver.
Qed.

Lemma check_binding_reports g r rr subs :
  admin_binding g rr subs → ∃ f, f ∈ check_binding g r rr subs ∧ f_Resource f = ref r.
Proof.
  unfold check_binding, admin_binding. rewrite <-hasPrivSubject_spec, <-adminReason_spec.
  intros [-> [reason ->]]. eexists. split; [left|done].
Qed.

Lemma clusterAdminBindingCheck_correct g : check_correct g clusterAdminBindingCheck.
Proof.
  intros r. unfold reports, clusterAdminBindingCheck. simpl. setoid_rewrite elem_of_app.
  setoid_rewrite elem_of_flat_map. split.
  - intros (f & [(b & Hb & H)|(b & Hb & H)] & <-); apply elem_of_check_binding in H as (Ha & -> & _).
    + by apply vio_cluster_binding.
    + by apply vio_binding.
  - inversion 1 as [w id Hw Hr|x rules rule id Hx Hr Hrr|b Hb Ha|b Hb Ha| |]; subst.
    + inversion Hr as [? ? ? Hc| | | | | |]. inversion Hc.
    + inversion Hrr.
    + destruct (check_binding_reports g (crb_Resource b) _ _ Ha) as (f & ? & ?). eauto 6.
    + destruct (check_binding_reports g (rb_Resource b) _ _ Ha) as (f & ? & ?). eauto 6.
Qed.

Lemma elem_of_workload_namespaces g ns :
  ns ∈ workload_namespaces g ↔ ns ≠ "" ∧ ∃ w, w ∈ g_Workloads g ∧ w_Namespace w = ns.
Proof.
  unfold workload_namespaces. rewrite elem_of_list_to_set, elem_of_list_filter, list_elem_of_fmap.
  rewrite negb_eqb_spec. naive_solver.
Qed.

Lemma networkPolicyCheck_correct g : check_correct g networkPolicyCheck.
Proof.
  intros r. unfold reports, networkPolicyCheck. simpl. setoid_rewrite elem_of_flat_map.
  setoid_rewrite elem_of_if. setoid_rewrite elem_of_sort_strings.
  setoid_rewrite elem_of_elements. setoid_rewrite elem_of_workload_namespaces.
  setoid_rewrite negb_true_iff. split.
  - intros (f & (ns & (Hne & w & Hw & <-) & Hd & ->) & <-). by apply vio_namespace.
  - inversion 1 as [w id Hw Hr|x rules rule id Hx Hr Hrr| | |w Hw Hne Hd|]; subst.
    + inversion Hr as [? ? ? Hc| | | | | |]. inversion Hc.
    + inversion Hrr.
    + exists (finding meta_017 (nsRef (w_Namespace w)) [ev "networkpolicies" "no default-deny in namespace"]).
      split; [|done]. exists (w_Namespace w). split; [|done]. split; [done|]. by exists w.
Qed.

Lemma exposureCheck_correct g : check_correct g exposureCheck.
Proof.
  intros r. unfold reports, exposureCheck. simpl. setoid_rewrite elem_of_flat_map.
  assert (∀ s, externalService s = true ↔ svc_Type s = "LoadBalancer" ∨ svc_Type s = "NodePort") as He.
  { intros s. unfold externalService. by rewrite orb_true_iff, !String.eqb_eq. }
  split.
  - intros (f & (s & Hs & Hf) & <-).
    destruct (externalService s) eqn:E; [|by apply not_elem_of_nil in Hf].
    apply list_elem_of_singleton in Hf as ->. apply He in E.
    replace (f_Resource _) with (ref (svc_Resource s)) by (by destruct (_ && _)).
    by apply vio_service.
  - inversion 1 as [w id Hw Hr|x rules rule id Hx Hr Hrr| | | |s Hs Ht]; subst.
    + inversion Hr as [? ? ? Hc| | | | | |]. inversion Hc.
    + inversion Hrr.
    + apply He in Ht. eexists. split; [exists s; split; [done|]; rewrite Ht; left|].
      by destruct (_ && _).
Qed.

(** All the checks of the registry. *)
Lemma Registry_correct g `{!graph_wf g} :
  unique_roles g → Forall (check_correct g) Registry.
Proof.
  intros Hu. pose proof (container_checks_correct g) as Hc. pose proof (workload_checks_correct g) as Hw.
  pose proof (role_checks_correct g Hu) as Hr.
  repeat match goal with H : Forall _ (_ :: _) |- _ => apply Forall_cons in H as [? ?] end.
  unfold Registry. repeat (apply Forall_cons; split);
    auto using hostPathCheck_correct, dangerousCapsCheck_correct, automountTokenCheck_correct,
      networkPolicyCheck_correct, exposureCheck_correct, clusterAdminBindingCheck_correct, Forall_nil_2.
Qed.

(** * Helper lemmas: the scan *)

#[export] Instance finding_less_strict_weak : StrictWeak finding_less.
Proof.
  unfold finding_less.
  chain_link (λ f, Rank (f_Severity f)) Z.eqb (λ x y, (y <? x)%Z) Z.eqb_eq.
  chain_link f_Category String.eqb String.ltb String.eqb_eq.
  chain_link f_ID String.eqb String.ltb String.eqb_eq.
  split; intros *; [apply sw_irrefl|apply sw_trans|apply sw_negtrans].
Qed.

Lemma elem_of_Scan g p f :
  f ∈ Scan g p ↔
  ∃ c f0, c ∈ Registry ∧ includes p (check_id c) = true ∧ f0 ∈ ck_Run c g ∧
          f = override p (check_id c) f0.
Proof.
  unfold Scan, SortFindings, scan_raw. autorewrite with kgrw.
  split.
  - intros (c & Hc & Hf). destruct (includes p (check_id c)) eqn:E; simpl in Hf; [|set_solver].
    apply list_elem_of_fmap in Hf as (f0 & -> & Hf0). eauto 6.
  - intros (c & f0 & Hc & Hi & Hf0 & ->). exists c. split; [done|]. rewrite Hi. simpl.
    by apply list_elem_of_fmap_2.
Qed.

(** A finding carries the metadata of the check that reported it. *)
Definition carries (m : Meta) (f : Finding) : Prop :=
  f_ID f = m_ID m ∧ f_Title f = m_Title m ∧ f_Category f = m_Category m ∧ f_Grants f = m_Grants m ∧
  f_Refs f = m_Refs m ∧ f_Remediation f = mkRemediation (m_Remediation m) (snippet_of (m_ID m)) ∧
  f_Evidence f ≠ [] ∧
  f_Severity f ∈ severities.

Lemma finding_carries m r e :
  m_Severity m ∈ severities → e ≠ [] → carries m (finding m r e).
Proof. intros. by repeat split. Qed.

Lemma set_Severity_carries s m f : s ∈ severities → carries m f → carries m (set_Severity s f).
Proof. intros Hs (?&?&?&?&?&?&?&?). by repeat split. Qed.

(** Take apart the membership of a finding in the output of a check. *)
Ltac in_run H :=
  repeat match type of H with
  | _ ∈ flat_map _ _ => apply elem_of_flat_map in H as (? & ? & H)
  | _ ∈ _ ++ _ => apply elem_of_app in H as [H|H]
  | _ ∈ (if ?b then _ else _) => destruct b eqn:?
  | _ ∈ match ?o with _ => _ end => destruct o eqn:?
  | _ ∈ [_] => apply list_elem_of_singleton in H as ->
  | _ ∈ [] => by apply not_elem_of_nil in H
  | _ ∈ check_binding _ _ _ _ => unfold check_binding in H
  end.

Lemma Registry_carries g :
  Forall (λ c, ∀ f, f ∈ ck_Run c g → carries (ck_Meta c) f) Registry.
Proof.
  unfold Registry. repeat (apply Forall_cons; split); [..|apply Forall_nil_2];
    intros f H; simpl in H; unfold per_container, per_workload in H; in_run H;
    repeat case_match; try apply set_Severity_carries;
    try apply finding_carries; done || (apply (bool_decide_unpack _); vm_compute; exact I).
Qed.

Lemma elem_of_RunnableIDs p id :
  id ∈ RunnableIDs p ↔ includes p id = true ∧ ∃ c, c ∈ Registry ∧ check_id c = id.
Proof.
  unfold RunnableIDs. rewrite elem_of_list_to_set, elem_of_list_filter, list_elem_of_fmap.
  naive_solver.
Qed.

Lemma Scan_carries g p f :
  f ∈ Scan g p →
  ∃ c, c ∈ Registry ∧ check_id c ∈ RunnableIDs p ∧ f_ID f = check_id c ∧
       carries (ck_Meta c) (set_Severity (m_Severity (ck_Meta c)) f) ∧
       (f_Severity f ∈ severities ∨ pr_SeverityOverride p !! check_id c = Some (f_Severity f)).
Proof.
  intros (c & f0 & Hc & Hi & Hf0 & ->)%elem_of_Scan.
  pose proof (Registry_carries g) as Hr. rewrite Forall_forall in Hr.
  destruct (Hr c Hc f0 Hf0) as (?&?&?&?&?&?&?&?).
  assert (m_Severity (ck_Meta c) ∈ severities) as Hs.
  { clear -Hc. revert c Hc. apply Forall_forall. repeat constructor. }
  exists c. unfold override. destruct (pr_SeverityOverride p !! check_id c) eqn:E; simpl.
  - repeat split; auto. apply elem_of_RunnableIDs. eauto.
  - repeat split; auto. apply elem_of_RunnableIDs. eauto.
Qed.

Lemma override_default id f : override zealDefault id f = f.
Proof. unfold override, zealDefault. simpl. by rewrite lookup_empty. Qed.

Lemma includes_default id : includes zealDefault id = true.
Proof. done. Qed.

Lemma Registry_ids_unique : NoDup (map check_id Registry).
Proof. apply (bool_decide_unpack _). vm_compute. exact I. Qed.

(** The check of an id. *)
Lemma Registry_by_id c1 c2 :
  c1 ∈ Registry → c2 ∈ Registry → check_id c1 = check_id c2 → c1 = c2.
Proof.
  intros H1 H2 E. pose proof (find_unique check_id Registry c1 Registry_ids_unique H1) as F1.
  pose proof (find_unique check_id Registry c2 Registry_ids_unique H2) as F2.
  rewrite E in F1. congruence.
Qed.

Lemma elem_of_Scan_default g f :
  f ∈ Scan g zealDefault ↔ ∃ c, c ∈ Registry ∧ f ∈ ck_Run c g.
Proof.
  rewrite elem_of_Scan. setoid_rewrite override_default. setoid_rewrite includes_default.
  naive_solver.
Qed.

Lemma Scan_violations_iff rs id r :
  unique_roles (Build rs) →
  (∃ f, f ∈ Scan (Build rs) zealDefault ∧ f_ID f = id ∧ f_Resource f = r) ↔
  violation (Build rs) id r.
Proof.
  intros Hu. set (g := Build rs) in *. pose proof (Registry_correct g Hu) as Hr.
  pose proof (Registry_carries g) as Hca. rewrite Forall_forall in Hr, Hca.
  setoid_rewrite elem_of_Scan_default. split.
  - intros (f & (c & Hc & Hf) & <- & <-). destruct (Hca c Hc f Hf) as [-> _].
    apply (Hr c Hc). by exists f.
  - intros Hv. assert (id ∈ map check_id Registry) as (c & -> & Hc)%list_elem_of_fmap.
    { clear -Hv. destruct Hv as [w id Hw [c id' Hc []| | | | | |]|? ? ? ? ? ? []| | | |];
        apply (bool_decide_unpack _); vm_compute; exact I. }
    apply (Hr c Hc) in Hv as (f & Hf & <-). exists f. split; [eauto|].
    split; [|done]. by destruct (Hca c Hc f Hf) as [-> _].
Qed.

(** * Properties *)

(** C1: The default scan is exact: it reports a rule id on a resource if and only if the
    resource violates that rule, for each of the 22 rules.  The hypothesis excludes
    clusters where two Roles or two ClusterRoles share a name (see
    [shadowed_role_unseen]). *)
Theorem Scan_violations rs id r :
  unique_roles (Build rs) →
  (∃ f, f ∈ Scan (Build rs) zealDefault ∧ f_ID f = id ∧ f_Resource f = r) ↔
  violation (Build rs) id r.
Proof. apply Scan_violations_iff. Qed.

Definition ex_cluster : list Resource :=
  [ex_pod "shop" "web" {["app" := "web"]}
     [("containers", JArr [JObj [("name", JStr "c"); ("image", JStr "nginx");
                                 ("securityContext", JObj [("privileged", JBool true)])]])];
   ex_service "shop" "web" "LoadBalancer" [("app", JStr "web")];
   ex_role "shop" "admin" ["*"] ["*"] ["*"]].

Lemma Scan_violations_witness :
  violation (Build ex_cluster) "KG-001" (mkResourceRef "Pod" "shop" "web") ∧
  ¬ violation (Build ex_cluster) "KG-003" (mkResourceRef "Pod" "shop" "web").
Proof.
  assert (unique_roles (Build ex_cluster)) as Hu
    by (split; apply (bool_decide_unpack _); vm_compute; exact I).
  split.
  - apply (Scan_violations ex_cluster _ _ Hu). exists (hd (finding meta_001 (nsRef "") [])
      (Scan (Build ex_cluster) zealDefault)). vm_compute. split; [left|split; reflexivity].
  - intros Hv. apply (Scan_violations ex_cluster _ _ Hu) in Hv as (f & Hf & Hid & _).
    assert (Forall (λ f, f_ID f ≠ "KG-003") (Scan (Build ex_cluster) zealDefault)) as Hall
      by (apply (bool_decide_unpack _); vm_compute; exact I).
    rewrite Forall_forall in Hall. by apply (Hall f Hf).
Defined.

(** The report order is canonical.  [Scan] returns the findings of the selected checks
    with their overrides, none lost or invented, sorted by severity, category, id and
    resource; and it is the only list so sorted that keeps equal findings in the order
    the checks produced them, so any stable sorting routine gives this report. *)
Theorem Scan_canonical g p :
  Scan g p ≡ₚ scan_raw g p ∧
  sorted_by finding_less (Scan g p) ∧
  (∀ l, sorted_by finding_less l →
        (∀ f, filter (λ x, tied finding_less f x = true) l =
              filter (λ x, tied finding_less f x = true) (scan_raw g p)) →
        l = Scan g p).
Proof.
  split; [apply slice_stable_perm|]. split; [apply slice_stable_sorted, _|].
  intros l Hl Hf. apply (slice_stable_unique finding_less); [done|apply slice_stable_sorted, _|].
  intros f. rewrite Hf. symmetry. by apply slice_stable_stable, _.
Qed.

(** Excluding a check from a profile removes its findings and changes nothing else:
    the remaining report is the same list with the same order. *)
Theorem Scan_exclude g p id :
  Scan g (mkProfile (pr_Name p) (pr_Include p) (id :: pr_Exclude p) (pr_SeverityOverride p)) =
  List.filter (λ f, f_ID f <>s id) (Scan g p).
Proof.
  unfold Scan, SortFindings. rewrite <-slice_stable_filter by apply _. f_equal.
  unfold scan_raw. pose proof (Registry_carries g) as Hca.
  induction Registry as [|c cs IH]; [done|]. apply Forall_cons in Hca as [Hc Hca].
  simpl. rewrite List.filter_app, <-IH by done. f_equal. unfold includes. simpl.
  set (p' := mkProfile _ _ _ _). rewrite (String.eqb_sym id (check_id c)).
  assert (∀ f, f ∈ ck_Run c g → f_ID (override p (check_id c) f) = check_id c) as Hid.
  { intros f Hf. destruct (Hc f Hf) as [E _]. unfold override. by case_match. }
  destruct (String.eqb_spec (check_id c) id) as [E|E]; simpl.
  - destruct (negb _); [done|]. symmetry. clear -Hid E.
    induction (ck_Run c g) as [|f fs IH]; [done|]. simpl. rewrite Hid by left.
    apply String.eqb_eq in E. rewrite E. simpl. apply IH. intros f' Hf'. apply Hid. by right.
  - destruct (negb _); [done|]. clear -Hid E. change (override p') with (override p).
    induction (ck_Run c g) as [|f fs IH]; [done|]. simpl. rewrite Hid by left.
    apply String.eqb_neq in E. rewrite E. simpl. f_equal. apply IH. intros f' Hf'. apply Hid. by right.
Qed.

(** The CIS profile reports the findings of the default one, with every external
    Service at medium severity. *)
Theorem Scan_cis g :
  Scan g cisProfile ≡ₚ
  map (λ f, if f_ID f =s "KG-018" then set_Severity SeverityMedium f else f) (Scan g zealDefault).
Proof.
  unfold Scan, SortFindings. rewrite !slice_stable_perm.
  unfold scan_raw. pose proof (Registry_carries g) as Hca.
  induction Registry as [|c cs IH]; [done|]. apply Forall_cons in Hca as [Hc Hca].
  simpl. rewrite map_app, IH by done. f_equiv; [|done]. rewrite map_map.
  match goal with |- ?a ≡ₚ ?b => enough (a = b) as -> by done end.
  apply map_ext_in. intros f Hf%list_elem_of_In. rewrite override_default.
  destruct (Hc f Hf) as [-> _]. unfold override, cisProfile. simpl. fold (check_id c).
  rewrite lookup_singleton. destruct (String.eqb_spec (check_id c) "KG-018");
    case_decide; simpl; congruence.
Qed.

(** Every finding of a scan carries the metadata of one registered, selected check
    (id, title, category, capabilities, references and remediation), has evidence, and a
    severity that is declared or set by the profile's override; the 22 rule ids are
    distinct. *)
Theorem Scan_findings_wellformed g p :
  length Registry = 22 ∧ NoDup (map check_id Registry) ∧
  ∀ f, f ∈ Scan g p →
    ∃ c, c ∈ Registry ∧ check_id c ∈ RunnableIDs p ∧ f_ID f = check_id c ∧
         carries (ck_Meta c) (set_Severity (m_Severity (ck_Meta c)) f) ∧
         (f_Severity f ∈ severities ∨ pr_SeverityOverride p !! check_id c = Some (f_Severity f)).
Proof.
  split; [done|]. split; [apply Registry_ids_unique|]. apply Scan_carries.
Qed.

(** A Role hidden behind another of the same name is never scanned: the role checks
    look rules up by name only, so when the first Role of a name is harmless, no later Role
    of that name is reported by KG-012, KG-013 or KG-014, whatever its rules. *)
Theorem shadowed_role_unseen g rs1 r1 rs2 r2 f :
  graph_wf g →
  g_Roles g = rs1 ++ r1 :: rs2 → r2 ∈ rs2 → Name (r_Resource r2) = Name (r_Resource r1) →
  (∀ r, r ∈ rs1 → Name (r_Resource r) ≠ Name (r_Resource r1)) →
  (∀ rule id, rule ∈ r_Rules r1 → ¬ role_rule rule id) →
  f ∈ Scan g zealDefault → f_ID f ∈ ["KG-012"; "KG-013"; "KG-014"] →
  f_Resource f ≠ ref (r_Resource r2).
Proof.
  intros Hwf Hg Hr2 Hname Hfirst Hok Hf Hid Href.
  apply elem_of_Scan_default in Hf as (c & Hc & Hf).
  assert (∃ m p e, c = role_check m p e ∧ ∀ rule, p rule = true → role_rule rule (m_ID m))
    as (m & p & e & -> & Hp).
  { pose proof (Registry_carries g) as Hca. rewrite Forall_forall in Hca.
    destruct (Hca c Hc f Hf) as [E _]. rewrite E in Hid. fold (check_id c) in Hid.
    clear -Hc Hid. rewrite !elem_of_cons, elem_of_nil in Hid.
    assert (∀ d, d ∈ Registry → check_id c = check_id d → c = d) as Hd by eauto using Registry_by_id.
    destruct Hid as [E|[E|[E|[]]]];
      [rewrite (Hd wildcardRBACCheck)|rewrite (Hd secretsAccessCheck)|rewrite (Hd podCreateCheck)];
      try done; try (unfold Registry; set_solver); repeat eexists; eauto using role_rule. }
  simpl in Hf. in_run Hf. simpl in Href. injection Href as Hk _ Hn.
  assert (rulesOf g x = r_Rules r1) as E.
  { unfold rulesOf. rewrite Hk, Hn. unfold findRoleRules.
    rewrite (wf_roles r2) by (rewrite Hg; set_solver). simpl. rewrite Hname, Hg.
    rewrite find_cons_first; [done| |apply String.eqb_refl].
    intros y Hy. apply String.eqb_neq. auto. }
  match goal with H : existsb p _ = true |- _ => apply existsb_elem in H as (rule & Hrule & Hv) end.
  rewrite E in Hrule. destruct (Hok rule (m_ID m) Hrule). auto.
Qed.

Definition ex_shadowed : list Resource :=
  [ex_role "team-b" "app-role" [""] ["configmaps"] ["get"];
   ex_role "team-a" "app-role" ["*"] ["*"] ["*"]].

Lemma shadowed_role_unseen_witness :
  violation (Build ex_shadowed) "KG-012" (mkResourceRef "Role" "team-a" "app-role") ∧
  ∀ f, f ∈ Scan (Build ex_shadowed) zealDefault → f_ID f ∈ ["KG-012"; "KG-013"; "KG-014"] →
       f_Resource f ≠ mkResourceRef "Role" "team-a" "app-role".
Proof.
  set (d := mkRole (ex_role "" "" [] [] []) []).
  set (r1 := hd d (g_Roles (Build ex_shadowed))).
  set (r2 := hd d (tl (g_Roles (Build ex_shadowed)))).
  split.
  - apply (vio_role _ (r_Resource r2) (r_Rules r2) (mkPolicyRule ["*"] ["*"] ["*"] [])).
    + apply has_role_ns. vm_compute. right. left.
    + vm_compute. left.
    + by apply ror_wildcard.
  - intros f Hf Hid. change (mkResourceRef _ _ _) with (ref (r_Resource r2)).
    apply (shadowed_role_unseen (Build ex_shadowed) [] r1 [r2] r2 f (Build_wf _));
      [reflexivity|left|reflexivity|by intros r Hr%not_elem_of_nil| |done|done].
    intros rule id Hr Hrule. change (r_Rules r1) with [mkPolicyRule [""] ["configmaps"] ["get"] []] in Hr.
    apply list_elem_of_singleton in Hr as ->. by destruct Hrule.
Defined.
