(* ===== verification/Policy.v ===== *)
(** Custom policies (internal/policy/policy.go): packs of CEL expressions evaluated over the
    graph.  CEL itself is a library; compiling and evaluating an expression are parameters. *)

From S2P Require Import Prelude GoStrings GoJson Api Model Graph Checks.

Definition apiVersion : string := "kubeguard.io/policy/v1".

(** [Target] is a string type. *)
Definition TargetWorkload : string := "workload".
Definition TargetContainer : string := "container".

Record PolicyRef := mkPolicyRef {
  prf_Framework : string;
  prf_ID : string;
  prf_Title : string
}.

Section policy.
(** A checked CEL expression, and a compiled program. *)
Context {ast program : Type}.

(** [Policy]; [po_program] is the zero value before compilation. *)
Record Policy := mkPolicy {
  po_ID : string;
  po_Title : string;
  po_Severity : string;
  po_Category : string;
  po_Target : string;
  po_Match : string;
  po_Remediation : string;
  po_Refs : list PolicyRef;
  po_program : option program
}.

(** [*Set]: [None] is the nil pointer. *)
Definition PolicySet : Type := option (list Policy).

Definition Empty (s : PolicySet) : bool :=
  match s with None => true | Some ps => Nat.eqb (length ps) 0 end.
Definition Len (s : PolicySet) : Z :=
  match s with None => 0 | Some ps => Z.of_nat (length ps) end.

(** The keys of [validSeverity]; each maps to itself. *)
Definition validSeverity : list Severity := severities.

(** ** Loading *)

(** [yaml.UnmarshalStrict] into the on-disk shape: apiVersion and policies. *)
Variable unmarshal_pack : string → res (string * list Policy).

(** The steps of the CEL library: compiling an expression in an environment with the given
    variables, to a checked expression with its output type ([true] for bool or dyn, [false]
    otherwise, and the type's name), and building the program. *)
Variable cel_compile : list string → string → res (bool * string * ast).
Variable cel_program : ast → res program.

Definition envFor (t : string) : res (list string) :=
  if t =s TargetWorkload then Ok ["workload"]
  else if t =s TargetContainer then Ok ["workload"; "container"]
  else Err ("target must be workload or container, got " +:+ fmt_quote t).

Definition compilePolicy (p : Policy) : res Policy :=
  let q := "policy " +:+ fmt_quote (po_ID p) +:+ ": " in
  if po_ID p =s "" then Err "policy is missing an id"
  else if po_Title p =s "" then Err (q +:+ "title is required")
  else if negb (mem_str (po_Severity p) validSeverity)
  then Err (q +:+ "severity must be critical|high|medium|low|info, got " +:+ fmt_quote (po_Severity p))
  else if po_Category p =s "" then Err (q +:+ "category is required")
  else if po_Match p =s "" then Err (q +:+ "match expression is required")
  else
    let target := if po_Target p =s "" then TargetWorkload else po_Target p in
    vars ← wrap_err q (envFor target);
    '(is_bool, ty, a) ← wrap_err (q +:+ "match does not compile: ") (cel_compile vars (po_Match p));
    if negb is_bool then Err (q +:+ "match must evaluate to bool, got " +:+ ty)
    else
      prg ← wrap_err (q +:+ "program: ") (cel_program a);
      Ok (mkPolicy (po_ID p) (po_Title p) (po_Severity p) (po_Category p) target (po_Match p)
            (po_Remediation p) (po_Refs p) (Some prg)).

Definition parse (data src : string) : res (list Policy) :=
  '(ver, ps) ← wrap_err ("parse policy pack " +:+ src +:+ ": ") (unmarshal_pack data);
  if ver <>s apiVersion
  then Err ("policy pack " +:+ src +:+ ": apiVersion must be " +:+ fmt_quote apiVersion +:+ ", got "
            +:+ fmt_quote ver)
  else if Nat.eqb (length ps) 0 then Err ("policy pack " +:+ src +:+ ": no policies")
  else map_res (λ p, wrap_err ("policy pack " +:+ src +:+ ": ") (compilePolicy p)) ps.

Definition Parse (data : string) : res PolicySet :=
  ps ← parse data "<bytes>"; Ok (Some ps).

(** The inner loop of [Load]: policies of one file, with the ids seen so far. *)
Fixpoint add_policies (base : string) (ps : list Policy) (st : gset string * list Policy)
    : res (gset string * list Policy) :=
  match ps with
  | [] => Ok st
  | p :: ps' =>
      if decide (po_ID p ∈ st.1)
      then Err ("duplicate policy id " +:+ fmt_quote (po_ID p) +:+ " (in " +:+ base +:+ ")")
      else add_policies base ps' ({[po_ID p]} ∪ st.1, st.2 ++ [p])
  end.

(** The outer loop of [Load], over the base names and contents of the selected files, all
    readable and in order. *)
Fixpoint load_files (files : list (string * string)) (st : gset string * list Policy)
    : res (gset string * list Policy) :=
  match files with
  | [] => Ok st
  | (base, data) :: files' =>
      ps ← parse data base;
      st ← add_policies base ps st;
      load_files files' st
  end.

Definition Load (files : list (string * string)) : res PolicySet :=
  st ← load_files files (∅, []); Ok (Some st.2).

(** ** Evaluation *)

(** [program.Eval(vars)]: an error, or a value, [None] when it is not a bool. *)
Variable cel_eval : program → list (string * json) → res (option bool).

Definition derefBool (b : option bool) (def : bool) : bool := default def b.
Definition derefInt (i : option Z) (def : Z) : Z := default def i.
Definition toAnySlice (ss : list string) : json := JArr (map JStr ss).
Definition toAnyMap (m : gmap string string) : json :=
  JObj (map (λ kv, (kv.1, JStr kv.2)) (map_to_list m)).

Definition containerMap (c : ContainerView) : json :=
  JObj [("name", JStr (c_Name c));
        ("image", JStr (c_Image c));
        ("role", JStr (c_Role c));
        ("privileged", JBool (c_Privileged c));
        ("runAsUser", JInt (derefInt (c_RunAsUser c) (-1)));
        ("runAsNonRoot", JBool (derefBool (c_RunAsNonRoot c) false));
        ("readOnlyRootFilesystem", JBool (derefBool (c_ReadOnlyRootFS c) false));
        ("allowPrivilegeEscalation", JBool (derefBool (c_AllowPrivEsc c) true));
        ("capsAdd", toAnySlice (c_CapsAdd c));
        ("capsDrop", toAnySlice (c_CapsDrop c));
        ("seccompProfile", JStr (c_SeccompProfile c));
        ("envSecretKeys", toAnySlice (c_EnvSecretKeys c));
        ("hasLimits", JBool (HasLimits (c_Limits c)))].

Definition workloadMap (w : Workload) : json :=
  let pod := w_PodSpec w in
  JObj [("kind", JStr (w_Kind w));
        ("name", JStr (w_Name w));
        ("namespace", JStr (w_Namespace w));
        ("serviceAccountName", JStr (w_ServiceAccountName w));
        ("hostNetwork", JBool (HostNetwork pod));
        ("hostPID", JBool (HostPID pod));
        ("hostIPC", JBool (HostIPC pod));
        ("automountServiceAccountToken", JBool (derefBool (AutomountSAToken pod) true));
        ("labels", toAnyMap (w_PodLabels w));
        ("containers", JArr (map containerMap (Containers pod)))].

(** A policy without a program is never in a loaded set ([Load_sound]). *)
Definition matches (p : Policy) (vars : list (string * json)) : bool :=
  match po_program p with
  | Some prg => match cel_eval prg vars with Ok (Some b) => b | _ => false end
  | None => false
  end.

Definition orDefault (v def : string) : string := if v =s "" then def else v.

Definition policy_finding (p : Policy) (w : Workload) (detail : string) : Finding :=
  {| f_ID := po_ID p;
     f_Title := po_Title p;
     f_Severity := if mem_str (po_Severity p) validSeverity then po_Severity p else "";
     f_Category := po_Category p;
     f_Resource := mkResourceRef (w_Kind w) (w_Namespace w) (w_Name w);
     f_Evidence := [mkEvidence ("custom-policy/" +:+ po_ID p)
                      (if detail <>s "" then detail else "custom policy matched")];
     f_Remediation := mkRemediation (orDefault (po_Remediation p)
       "Review this custom policy violation and remediate per your org's guidance.") "";
     f_Grants := [];
     f_Refs := map (λ r, mkControlRef (prf_Framework r) (prf_ID r) (prf_Title r)) (po_Refs p) |}.

Definition eval_policy (p : Policy) (w : Workload) : list Finding :=
  let wmap := workloadMap w in
  if po_Target p =s TargetContainer then
    flat_map (λ c, if matches p [("workload", wmap); ("container", containerMap c)]
                   then [policy_finding p w ("container " +:+ c_Name c)] else [])
      (Containers (w_PodSpec w))
  else if matches p [("workload", wmap)] then [policy_finding p w ""] else [].

Definition Evaluate (s : PolicySet) (g : Graph) : list Finding :=
  if Empty s then []
  else flat_map (λ p, flat_map (eval_policy p) (g_Workloads g)) (default [] s).

(** ** Helper lemmas *)

(** A policy that passed compilation. *)
Definition compiled (p : Policy) : Prop :=
  po_ID p ≠ "" ∧ po_Title p ≠ "" ∧ po_Severity p ∈ severities ∧ po_Category p ≠ "" ∧
  po_Match p ≠ "" ∧ (po_Target p = TargetWorkload ∨ po_Target p = TargetContainer) ∧
  ∃ vars ty a prg, envFor (po_Target p) = Ok vars ∧
    cel_compile vars (po_Match p) = Ok (true, ty, a) ∧ cel_program a = Ok prg ∧
    po_program p = Some prg.

Lemma compilePolicy_compiled p q : compilePolicy p = Ok q → compiled q ∧ po_ID q = po_ID p.
Proof.
  unfold compilePolicy. destruct (String.eqb_spec (po_ID p) ""); [done|].
  destruct (String.eqb_spec (po_Title p) ""); [done|].
  destruct (mem_str (po_Severity p) validSeverity) eqn:Es; simpl; [|done].
  destruct (String.eqb_spec (po_Category p) ""); [done|].
  destruct (String.eqb_spec (po_Match p) ""); [done|].
  set (target := if po_Target p =s "" then _ else _).
  destruct (envFor target) as [vars|] eqn:Ev; simpl; [|done].
  destruct (cel_compile vars (po_Match p)) as [[[[] ty] a]|] eqn:Ec; simpl; try done.
  destruct (cel_program a) as [prg|] eqn:Epr; simpl; [|done].
  intros [= <-]. split; [|done]. apply mem_str_spec in Es. unfold compiled. simpl.
  repeat (split; [done|]). split; [|eauto 8].
  unfold envFor in Ev. destruct (String.eqb_spec target TargetWorkload); [by left|].
  destruct (String.eqb_spec target TargetContainer); [by right|done].
Qed.

Lemma parse_compiled data src ps : parse data src = Ok ps → Forall compiled ps.
Proof.
  unfold parse. destruct (unmarshal_pack data) as [[ver raw]|]; simpl; [|done].
  destruct (_ <>s _); [done|]. destruct (Nat.eqb _ _); [done|].
  intros H%map_res_Ok. induction H as [|r p raw' ps' Hp _ IH]; constructor; [|done].
  destruct (compilePolicy r) as [q|] eqn:E; simpl in Hp; [|done].
  injection Hp as <-. by destruct (compilePolicy_compiled _ _ E).
Qed.

(** The invariant of the loops of [Load]. *)
Definition load_inv (st : gset string * list Policy) : Prop :=
  NoDup (map po_ID st.2) ∧ Forall compiled st.2 ∧ ∀ id, id ∈ st.1 ↔ id ∈ map po_ID st.2.

Lemma add_policies_inv base ps st st' :
  Forall compiled ps → load_inv st → add_policies base ps st = Ok st' → load_inv st'.
Proof.
  intros Hps. revert st. induction Hps as [|p ps Hp Hps IH]; intros st (H1 & H2 & H3); simpl.
  { by intros [= <-]. }
  destruct (decide (po_ID p ∈ st.1)) as [|Hn]; [done|]. apply IH. split; simpl; [|split].
  - rewrite map_app. apply NoDup_app. split; [done|]. split; [|apply NoDup_singleton].
    intros id Hid ->%list_elem_of_singleton. by apply Hn, H3.
  - apply Forall_app. auto.
  - intros id. rewrite map_app, elem_of_app, elem_of_union, H3. simpl. set_solver.
Qed.

Lemma load_files_inv files st st' : load_inv st → load_files files st = Ok st' → load_inv st'.
Proof.
  revert st. induction files as [|[base data] files IH]; intros st Hst; simpl; [by intros [= <-]|].
  destruct (parse data base) as [ps|] eqn:Ep; simpl; [|done].
  destruct (add_policies base ps st) as [st1|] eqn:Ea; simpl; [|done].
  apply IH. eapply add_policies_inv; [by eapply parse_compiled|done|done].
Qed.

Lemma Load_inv files s :
  Load files = Ok s → ∃ ps, s = Some ps ∧ NoDup (map po_ID ps) ∧ Forall compiled ps.
Proof.
  unfold Load. destruct (load_files files (∅, [])) as [st|] eqn:E; simpl; [|done].
  intros [= <-]. exists st.2. split; [done|].
  assert (load_inv st) as (H1 & H2 & _); [|done].
  eapply load_files_inv; [|done]. split; [constructor|split; [constructor|set_solver]].
Qed.
End policy.

Arguments Policy : clear implicits.
Arguments PolicySet : clear implicits.

(** * Properties *)

(** A policy set that loads is sound, whatever the YAML decoder and the CEL compiler: the
    ids are distinct across all files, and every policy has an id, a title, a declared
    severity, a category, a known target and an expression that compiled, in the environment
    of its target, to the program it carries. *)
Theorem Load_sound {ast program} (unmarshal_pack : string → res (string * list (Policy program)))
    (cel_compile : list string → string → res (bool * string * ast))
    (cel_program : ast → res program) files s :
  Load unmarshal_pack cel_compile cel_program files = Ok s →
  ∃ ps, s = Some ps ∧ NoDup (map po_ID ps) ∧ Forall (compiled cel_compile cel_program) ps.
Proof. apply Load_inv. Qed.

(** A toy expression language: an expression is the name of a boolean field of the workload. *)
Definition ex_unmarshal (data : string) : res (string * list (Policy string)) :=
  Ok (apiVersion, [mkPolicy data "No host network" "high" "org" "" "hostNetwork" "" [] None]).
Definition ex_compile (vars : list string) (e : string) : res (bool * string * string) :=
  Ok (true, "dyn", e).
Definition ex_eval (prg : string) (vars : list (string * json)) : res (option bool) :=
  match vars with
  | (_, JObj fields) :: _ =>
      match List.find (λ kv, kv.1 =s prg) fields with
      | Some (_, JBool b) => Ok (Some b)
      | Some _ => Ok None
      | None => Err "no such key"
      end
  | _ => Err "no such variable"
  end.

Lemma Load_sound_witness :
  (∃ e, Load ex_unmarshal ex_compile Ok [("a.yaml", "ORG-1"); ("b.yaml", "ORG-1")] = Err e) ∧
  ∃ ps, Load ex_unmarshal ex_compile Ok [("a.yaml", "ORG-1"); ("b.yaml", "ORG-2")] = Ok (Some ps) ∧
        NoDup (map po_ID ps) ∧ Forall (compiled ex_compile Ok) ps.
Proof.
  split; [eexists; vm_compute; reflexivity|].
  destruct (Load ex_unmarshal ex_compile Ok [("a.yaml", "ORG-1"); ("b.yaml", "ORG-2")])
    as [s|e] eqn:E; [|vm_compute in E; discriminate E].
  destruct (Load_sound ex_unmarshal ex_compile Ok _ s E) as (ps & -> & H1 & H2).
  exists ps. split; [reflexivity|]. split; [exact H1|exact H2].
Defined.

(** Evaluation reports exactly the matches: a custom policy of the set has a finding on a
    workload if and only if its program evaluates to true there, on the workload or, for a
    container policy, on one of its containers; an evaluation error or a non-boolean result
    never matches, and never hides another resource's finding. *)
Theorem policy_findings_exact {program} (cel_eval : program → list (string * json) → res (option bool))
    (s : PolicySet program) g f :
  f ∈ Evaluate cel_eval s g ↔
  ∃ p w prg, p ∈ default [] s ∧ w ∈ g_Workloads g ∧ po_program p = Some prg ∧
    (po_Target p ≠ TargetContainer ∧ f = policy_finding p w "" ∧
       cel_eval prg [("workload", workloadMap w)] = Ok (Some true) ∨
     po_Target p = TargetContainer ∧ ∃ c, c ∈ Containers (w_PodSpec w) ∧
       f = policy_finding p w ("container " +:+ c_Name c) ∧
       cel_eval prg [("workload", workloadMap w); ("container", containerMap c)] = Ok (Some true)).
Proof.
  assert (∀ p vars, matches cel_eval p vars = true ↔
    ∃ prg, po_program p = Some prg ∧ cel_eval prg vars = Ok (Some true)) as Hm.
  { intros p vars. unfold matches. destruct (po_program p) as [prg|].
    - destruct (cel_eval prg vars) as [[[]|]|] eqn:E; split; try done;
        try (intros (prg' & [= <-] & H); congruence). by exists prg.
    - split; [done|]. by intros (prg & ? & _). }
  assert (Evaluate cel_eval s g
          = flat_map (λ p, flat_map (eval_policy cel_eval p) (g_Workloads g)) (default [] s)) as ->.
  { unfold Evaluate. by destruct s as [[|]|]. }
  setoid_rewrite elem_of_flat_map. setoid_rewrite elem_of_flat_map. split.
  - intros (p & Hp & w & Hw & Hf). unfold eval_policy in Hf.
    destruct (String.eqb_spec (po_Target p) TargetContainer) as [Ht|Ht].
    + apply elem_of_flat_map in Hf as (c & Hc & [(prg & Hprg & He)%Hm ->]%elem_of_if).
      exists p, w, prg. split; [done|]. split; [done|]. split; [done|]. right. eauto.
    + apply elem_of_if in Hf as [(prg & Hprg & He)%Hm ->].
      exists p, w, prg. split; [done|]. split; [done|]. split; [done|]. by left.
  - intros (p & w & prg & Hp & Hw & Hprg & H). exists p. split; [done|]. exists w. split; [done|].
    unfold eval_policy. destruct H as [(Ht & -> & He)|(Ht & c & Hc & -> & He)].
    + apply String.eqb_neq in Ht. rewrite Ht. apply elem_of_if. split; [apply Hm; eauto|done].
    + apply String.eqb_eq in Ht. rewrite Ht. apply elem_of_flat_map. exists c. split; [done|].
      apply elem_of_if. split; [apply Hm; eauto|done].
Qed.
