(* ===== verification/Attack.v ===== *)
(** The attack-path engine (internal/attack/engine.go): per workload, the chain of
    ATT&CK-tagged hops from its entry point to the capability it reaches. *)

From S2P Require Import Prelude GoStrings GoJson Api Model Graph Checks.

(** * Constants *)

Definition kgPrivileged : string := "KG-001".
Definition kgHostPath : string := "KG-002".
Definition kgDangerousCap : string := "KG-008".
Definition kgClusterAdmin : string := "KG-011".
Definition kgSecrets : string := "KG-013".
Definition kgPodCreate : string := "KG-014".
Definition kgAutomount : string := "KG-015".
Definition kgNoNetPol : string := "KG-017".
Definition kgExposure : string := "KG-018".

Definition escapeHostPaths : list string :=
  ["/"; "/var/run"; "/var/run/docker.sock"; "/run/docker.sock"; "/run/containerd/containerd.sock";
   "/var/run/crio/crio.sock"; "/proc"; "/var/lib/kubelet"; "/var/lib/docker"].

Definition escapeCaps : list string :=
  ["ALL"; "SYS_ADMIN"; "SYS_MODULE"; "SYS_RAWIO"; "SYS_PTRACE"; "DAC_READ_SEARCH"; "BPF"].

(** * Predicates *)

Definition hostPathName (w : Workload) : string :=
  match List.find (λ v, (v_HostPath v <>s "") && mem_str (v_HostPath v) escapeHostPaths)
          (Volumes (w_PodSpec w)) with
  | Some v => v_HostPath v
  | None => ""
  end.

(** [escapeCaps[strings.ToUpper(capName)]] *)
Definition escapeCap (capName : string) : bool := mem_str (to_upper capName) escapeCaps.

Definition workloadEscape (w : Workload) : bool :=
  if existsb (λ c, if c_Privileged c then true else existsb escapeCap (c_CapsAdd c))
       (Containers (w_PodSpec w))
  then true
  else hostPathName w <>s "".

Definition escapeEnabler (w : Workload) : string * string :=
  let cs := Containers (w_PodSpec w) in
  if existsb c_Privileged cs
  then (kgPrivileged, "Privileged container allows breakout from the pod.")
  else match first_some (λ c, List.find escapeCap (c_CapsAdd c)) cs with
  | Some capName =>
      (kgDangerousCap, "Dangerous capability (" +:+ capName +:+ ") allows breakout.")
  | None =>
      let hp := hostPathName w in
      if hp <>s "" then (kgHostPath, "Sensitive hostPath (" +:+ hp +:+ ") allows breakout.")
      else (kgPrivileged, "Container escape.")
  end.

(** The first externally reachable Service that selects the workload. *)
Definition exposingService (g : Graph) (w : Workload) : option string :=
  first_some (λ svc,
    if (svc_Type svc <>s "LoadBalancer") && (svc_Type svc <>s "NodePort") then None
    else if existsb (λ m, (w_Namespace m =s w_Namespace w) && (w_Name m =s w_Name w)
                          && (w_Kind m =s w_Kind w)) (WorkloadsForService g svc)
         then Some (Name (svc_Resource svc)) else None)
    (g_Services g).

Definition automountOn (g : Graph) (w : Workload) : bool :=
  match AutomountSAToken (w_PodSpec w) with
  | Some b => b
  | None =>
      match ServiceAccountByName g (w_Namespace w) (w_ServiceAccountName w) with
      | Some sa => match sa_AutomountToken sa with Some b => b | None => true end
      | None => true
      end
  end.

Definition hasFoothold (c : Capability) : bool :=
  (c =s CapContainerEscape) || (c =s CapNodeAccess) || (c =s CapServiceAccountToken)
  || (c =s CapSecretRead) || (c =s CapPodCreate) || (c =s CapClusterAdmin).

(** * Severity and presentation *)

Definition capSeverity (c : Capability) : Severity :=
  if (c =s CapClusterAdmin) || (c =s CapNodeAccess) then SeverityCritical
  else if (c =s CapContainerEscape) || (c =s CapHostNetworkAccess) || (c =s CapHostProcessAccess)
          || (c =s CapSecretRead) || (c =s CapPodCreate) || (c =s CapBroadAPIAccess)
  then SeverityHigh
  else if (c =s CapServiceAccountToken) || (c =s CapLateralMovement) then SeverityMedium
  else SeverityLow.

(** The closure [consider] of [pathSeverity]. *)
Definition consider (best : Severity) (c : Capability) : Severity :=
  if (Rank best <? Rank (capSeverity c))%Z then capSeverity c else best.

Definition pathSeverity (hops : list PathHop) (cur : Capability) : Severity :=
  consider (foldl (λ best h, consider (consider best (h_From h)) (h_To h)) SeverityInfo hops) cur.

Definition capPrecedence (c : Capability) : Z :=
  if c =s CapClusterAdmin then 100
  else if c =s CapNodeAccess then 90
  else if c =s CapSecretRead then 80
  else if c =s CapPodCreate then 75
  else if c =s CapContainerEscape then 70
  else if c =s CapBroadAPIAccess then 65
  else if c =s CapLateralMovement then 30
  else if c =s CapServiceAccountToken then 20
  else 10.

Definition apexCap (hops : list PathHop) : Capability :=
  (foldl (λ '(bestRank, best) h,
      let r := capPrecedence (h_To h) in
      if (bestRank <? r)%Z then (r, h_To h) else (bestRank, best)) ((-1)%Z, "") hops).2.

Definition pathTitle (w : Workload) (hops : list PathHop) : string :=
  let apex := apexCap hops in
  if apex =s CapClusterAdmin then "Cluster-admin takeover via " +:+ w_Name w
  else if apex =s CapNodeAccess then "Node breakout via " +:+ w_Name w
  else if apex =s CapSecretRead then "Secret exfiltration via " +:+ w_Name w
  else if apex =s CapPodCreate then "Pod-create pivot via " +:+ w_Name w
  else "Privilege escalation via " +:+ w_Name w.

Definition capChain (hops : list PathHop) : list string :=
  match hops with [] => [] | h :: _ => h_From h :: map h_To hops end.

Definition uniqueTechniques (hops : list PathHop) : list string :=
  (foldl (λ st t, let '(seen, out) := (st : gset string * list string) in
      if decide (t ∈ seen) then (seen, out) else ({[t]} ∪ seen, out ++ [t]))
    (∅, []) (flat_map h_Technique hops)).2.

Definition pathSummary (w : Workload) (hops : list PathHop) : string :=
  "Entry " +:+ w_Kind w +:+ "/" +:+ w_Name w +:+ ". Chain: " +:+ join " -> " (capChain hops)
  +:+ ". Techniques: " +:+ join ", " (uniqueTechniques hops) +:+ ".".

Definition entryKey (r : ResourceRef) : string :=
  rr_Namespace r +:+ "/" +:+ rr_Kind r +:+ "/" +:+ rr_Name r.

(** The [less] of [sortPaths]. *)
Definition path_less (a b : AttackPath) : bool :=
  if negb (Rank (p_Severity a) =? Rank (p_Severity b))%Z
  then (Rank (p_Severity b) <? Rank (p_Severity a))%Z
  else if negb (Nat.eqb (length (p_Hops a)) (length (p_Hops b)))
  then Nat.ltb (length (p_Hops a)) (length (p_Hops b))
  else entryKey (p_Entry a) <s entryKey (p_Entry b).

Definition sortPaths (paths : list AttackPath) : list AttackPath := slice_stable path_less paths.

(** * Building a path *)

(** The variables [hops] and [cur], and the closure [add]. *)
Record chain := mkChain {
  ch_hops : list PathHop;
  ch_cur : Capability
}.

Definition add (to : Capability) (by_ : string) (tech : list string) (narr : string) (ch : chain)
    : chain :=
  mkChain (ch_hops ch ++ [mkPathHop (Z.of_nat (length (ch_hops ch)) + 1) (ch_cur ch) to by_ tech narr])
          to.

(** The entry: [None] is the early return for a workload that is not reachable. *)
Definition entry (g : Graph) (w : Workload) (assumeBreach : bool) : option chain :=
  match exposingService g w with
  | Some svcName =>
      Some (add CapNetworkReachable kgExposure ["T1190"]
              ("Internet-facing Service " +:+ fmt_quote svcName +:+ " exposes workload "
               +:+ fmt_quote (w_Name w) +:+ ".")
              (mkChain [] CapInternetIngress))
  | None =>
      if workloadEscape w || assumeBreach then Some (mkChain [] CapNetworkReachable) else None
  end.

(** Container escape, then the node. *)
Definition escape_hops (w : Workload) (ch : chain) : chain :=
  if workloadEscape w then
    let '(by_, narr) := escapeEnabler w in
    let nodeBy := if hostPathName w <>s "" then kgHostPath else kgPrivileged in
    add CapNodeAccess nodeBy ["T1611"]
      ("Breakout yields code execution on the node hosting " +:+ fmt_quote (w_Name w) +:+ ".")
      (add CapContainerEscape by_ ["T1611"] narr ch)
  else ch.

(** The ServiceAccount token, then RBAC escalation. *)
Definition token_hops (g : Graph) (w : Workload) (ch : chain) : chain :=
  let sa := w_ServiceAccountName w in
  let saAdmin := SAIsClusterAdmin g (w_Namespace w) sa in
  let saSecrets := SACanReadSecrets g (w_Namespace w) sa in
  let saPods := SACanCreatePods g (w_Namespace w) sa in
  let cur := ch_cur ch in
  let footholdInCluster :=
    (cur =s CapNodeAccess) || (cur =s CapContainerEscape) || (cur =s CapNetworkReachable) in
  if automountOn g w && footholdInCluster && (saAdmin || saSecrets || saPods) then
    let ch := add CapServiceAccountToken kgAutomount ["T1552.001"]
                ("ServiceAccount " +:+ fmt_quote sa +:+ " token is auto-mounted and harvestable.") ch in
    if saAdmin then
      add CapClusterAdmin kgClusterAdmin ["T1078"]
        (fmt_quote sa +:+ " is bound to cluster-admin — full cluster control.") ch
    else
      let ch := if saSecrets
                then add CapSecretRead kgSecrets ["T1552"]
                       (fmt_quote sa +:+ " can read Secrets across the cluster.") ch
                else ch in
      if saPods
      then add CapPodCreate kgPodCreate ["T1610"]
             (fmt_quote sa +:+ " can create or exec into pods to pivot.") ch
      else ch
  else ch.

(** Lateral movement. *)
Definition lateral_hop (g : Graph) (w : Workload) (ch : chain) : chain :=
  if negb (HasDefaultDeny g (w_Namespace w)) && hasFoothold (ch_cur ch)
  then add CapLateralMovement kgNoNetPol ["T1021"]
         ("No default-deny NetworkPolicy in " +:+ fmt_quote (w_Namespace w)
          +:+ " enables lateral movement.") ch
  else ch.

Definition buildForWorkload (g : Graph) (w : Workload) (assumeBreach : bool) : option AttackPath :=
  match entry g w assumeBreach with
  | None => None
  | Some ch =>
      let ch := lateral_hop g w (token_hops g w (escape_hops w ch)) in
      let hops := ch_hops ch in
      let sev := pathSeverity hops (ch_cur ch) in
      if (Rank sev <? Rank SeverityHigh)%Z then None
      else Some {| p_ID := "";
                   p_Title := pathTitle w hops;
                   p_Severity := sev;
                   p_Entry := mkResourceRef (w_Kind w) (w_Namespace w) (w_Name w);
                   p_Hops := hops;
                   p_Summary := pathSummary w hops |}
  end.

Definition BuildPaths (g : Graph) (assumeBreach : bool) : list AttackPath :=
  let paths := omap (λ w, buildForWorkload g w assumeBreach) (g_Workloads g) in
  imap (λ i p, set_path_ID ("AP-" +:+ fmt_nat_pad 3 (i + 1)) p) (sortPaths paths).

(** * The abstract specification of a path *)

Definition exposed (g : Graph) (w : Workload) : bool :=
  match exposingService g w with Some _ => true | None => false end.

(** The token is mounted and the ServiceAccount has rights worth stealing it for. *)
Definition pivots (g : Graph) (w : Workload) : bool :=
  let sa := w_ServiceAccountName w in
  automountOn g w &&
  (SAIsClusterAdmin g (w_Namespace w) sa || SACanReadSecrets g (w_Namespace w) sa
   || SACanCreatePods g (w_Namespace w) sa).

(** The hops of a workload's path, as pairs of the capability gained and the check that
    enables it. *)
Definition path_spec (g : Graph) (w : Workload) : list (Capability * string) :=
  let sa := w_ServiceAccountName w in
  (if exposed g w then [(CapNetworkReachable, kgExposure)] else [])
  ++ (if workloadEscape w
      then [(CapContainerEscape, (escapeEnabler w).1);
            (CapNodeAccess, if hostPathName w <>s "" then kgHostPath else kgPrivileged)]
      else [])
  ++ (if pivots g w then
        (CapServiceAccountToken, kgAutomount) ::
        (if SAIsClusterAdmin g (w_Namespace w) sa then [(CapClusterAdmin, kgClusterAdmin)]
         else (if SACanReadSecrets g (w_Namespace w) sa then [(CapSecretRead, kgSecrets)] else [])
              ++ (if SACanCreatePods g (w_Namespace w) sa then [(CapPodCreate, kgPodCreate)] else []))
      else [])
  ++ (if negb (HasDefaultDeny g (w_Namespace w)) && (workloadEscape w || pivots g w)
      then [(CapLateralMovement, kgNoNetPol)] else []).

(** When a workload has a path at all. *)
Definition has_path (g : Graph) (w : Workload) (assumeBreach : bool) : bool :=
  workloadEscape w || (exposed g w || assumeBreach) && pivots g w.

Definition to_by (hops : list PathHop) : list (Capability * string) :=
  map (λ h, (h_To h, h_EnabledBy h)) hops.

(** * Helper lemmas: the chain under construction *)

(** Orders count from 1, and each hop starts where the previous one ended. *)
Definition chain_ok (start : Capability) (ch : chain) : Prop :=
  map h_Order (ch_hops ch) = map Z.of_nat (seq 1 (length (ch_hops ch))) ∧
  map h_From (ch_hops ch) ++ [ch_cur ch] = start :: map h_To (ch_hops ch).

Lemma add_ok start to b t n ch : chain_ok start ch → chain_ok start (add to b t n ch).
Proof.
  intros [H1 H2]. split; simpl.
  - rewrite length_app, seq_app, !map_app, H1. simpl. do 2 f_equal. lia.
  - rewrite !map_app. simpl. by rewrite H2.
Qed.

Lemma add_to_by to b t n ch : to_by (ch_hops (add to b t n ch)) = to_by (ch_hops ch) ++ [(to, b)].
Proof. unfold to_by. simpl. by rewrite map_app. Qed.

Lemma add_cur to b t n ch : ch_cur (add to b t n ch) = to.
Proof. done. Qed.

#[local] Opaque add.

Lemma entry_spec g w ab ch :
  entry g w ab = Some ch →
  chain_ok (if exposed g w then CapInternetIngress else CapNetworkReachable) ch ∧
  ch_cur ch = CapNetworkReachable ∧
  to_by (ch_hops ch) = if exposed g w then [(CapNetworkReachable, kgExposure)] else [].
Proof.
  unfold entry, exposed.
  destruct (exposingService g w) as [svc|]; simpl; [intros [= <-]|case_match; [intros [= <-]|done]].
  - split; [apply add_ok; split; done|]. by rewrite add_to_by, add_cur.
  - by repeat split.
Qed.

Lemma entry_is_Some g w ab :
  is_Some (entry g w ab) ↔ exposed g w || workloadEscape w || ab = true.
Proof.
  unfold entry, exposed. destruct (exposingService g w); simpl; [naive_solver|].
  case_match; naive_solver.
Qed.

Lemma escape_hops_spec start w ch :
  chain_ok start ch → ch_cur ch = CapNetworkReachable →
  chain_ok start (escape_hops w ch) ∧
  ch_cur (escape_hops w ch) = (if workloadEscape w then CapNodeAccess else CapNetworkReachable) ∧
  to_by (ch_hops (escape_hops w ch)) = to_by (ch_hops ch) ++
    (if workloadEscape w
      then [(CapContainerEscape, (escapeEnabler w).1);
            (CapNodeAccess, if hostPathName w <>s "" then kgHostPath else kgPrivileged)]
      else []).
Proof.
  intros Hok Hcur. unfold escape_hops. destruct (workloadEscape w).
  - destruct (escapeEnabler w) as [b n]. rewrite add_cur, !add_to_by, <-(assoc_L (++)).
    auto using add_ok.
  - by rewrite app_nil_r.
Qed.

Lemma token_hops_spec start g w ch :
  chain_ok start ch → ch_cur ch ∈ [CapNodeAccess; CapNetworkReachable] →
  chain_ok start (token_hops g w ch) ∧
  hasFoothold (ch_cur (token_hops g w ch)) = hasFoothold (ch_cur ch) || pivots g w ∧
  to_by (ch_hops (token_hops g w ch)) = to_by (ch_hops ch) ++
    (if pivots g w then
        (CapServiceAccountToken, kgAutomount) ::
        (if SAIsClusterAdmin g (w_Namespace w) (w_ServiceAccountName w)
         then [(CapClusterAdmin, kgClusterAdmin)]
         else (if SACanReadSecrets g (w_Namespace w) (w_ServiceAccountName w)
               then [(CapSecretRead, kgSecrets)] else [])
              ++ (if SACanCreatePods g (w_Namespace w) (w_ServiceAccountName w)
                  then [(CapPodCreate, kgPodCreate)] else []))
      else []).
Proof.
  intros Hok Hcur. unfold token_hops, pivots.
  assert ((ch_cur ch =s CapNodeAccess) || (ch_cur ch =s CapContainerEscape)
          || (ch_cur ch =s CapNetworkReachable) = true) as ->.
  { rewrite !elem_of_cons, elem_of_nil in Hcur. by destruct Hcur as [->|[->|[]]]. }
  destruct (automountOn g w); simpl; [|rewrite orb_false_r, app_nil_r; auto].
  destruct (SAIsClusterAdmin _ _ _), (SACanReadSecrets _ _ _), (SACanCreatePods _ _ _); simpl;
    rewrite ?add_cur, ?add_to_by, <-?(assoc_L (++)), ?orb_true_r, ?orb_false_r, ?app_nil_r;
    auto 6 using add_ok.
Qed.

Lemma lateral_hop_spec start g w ch :
  chain_ok start ch →
  chain_ok start (lateral_hop g w ch) ∧
  to_by (ch_hops (lateral_hop g w ch)) = to_by (ch_hops ch) ++
    (if negb (HasDefaultDeny g (w_Namespace w)) && hasFoothold (ch_cur ch)
     then [(CapLateralMovement, kgNoNetPol)] else []).
Proof.
  intros Hok. unfold lateral_hop. case_match; rewrite ?add_to_by, ?app_nil_r; auto using add_ok.
Qed.

(** The chain that [buildForWorkload] ends with. *)
Lemma full_chain g w ab ch :
  entry g w ab = Some ch →
  let ch' := lateral_hop g w (token_hops g w (escape_hops w ch)) in
  chain_ok (if exposed g w then CapInternetIngress else CapNetworkReachable) ch' ∧
  to_by (ch_hops ch') = path_spec g w.
Proof.
  intros (Hok & Hcur & Htb)%entry_spec. simpl.
  destruct (escape_hops_spec _ w ch Hok Hcur) as (Hok1 & Hcur1 & Htb1).
  destruct (token_hops_spec _ g w (escape_hops w ch) Hok1) as (Hok2 & Hf & Htb2).
  { rewrite Hcur1. destruct (workloadEscape w); set_solver. }
  destruct (lateral_hop_spec _ g w _ Hok2) as (Hok3 & Htb3).
  split; [done|]. rewrite Htb3, Htb2, Htb1, Htb, Hf, Hcur1. unfold path_spec.
  rewrite <-!(assoc_L (++)).
  by replace (hasFoothold (if workloadEscape w then _ else _)) with (workloadEscape w)
    by (by destruct (workloadEscape w)).
Qed.

(** * Helper lemmas: severity *)

Lemma capSeverity_declared c : capSeverity c ∈ severities.
Proof. unfold capSeverity. repeat case_match; set_solver. Qed.

Lemma consider_rank r best c :
  (r <= Rank (consider best c) ↔ r <= Rank best ∨ r <= Rank (capSeverity c))%Z.
Proof. unfold consider. destruct (Z.ltb_spec (Rank best) (Rank (capSeverity c))); lia. Qed.

Lemma consider_declared best c : best ∈ severities → consider best c ∈ severities.
Proof. unfold consider. case_match; auto using capSeverity_declared. Qed.

Lemma pathSeverity_fold_rank r hops best :
  (r <= Rank (foldl (λ best h, consider (consider best (h_From h)) (h_To h)) best hops) ↔
   r <= Rank best ∨ ∃ c, c ∈ map h_From hops ++ map h_To hops ∧ r <= Rank (capSeverity c))%Z.
Proof.
  revert best. induction hops as [|h hops IH]; intros best; simpl; [set_solver|].
  rewrite IH, !consider_rank. setoid_rewrite elem_of_cons. setoid_rewrite elem_of_app.
  setoid_rewrite elem_of_cons. naive_solver.
Qed.

Lemma pathSeverity_declared hops cur : pathSeverity hops cur ∈ severities.
Proof.
  unfold pathSeverity. apply consider_declared.
  assert (SeverityInfo ∈ severities) as H by set_solver. revert H. generalize SeverityInfo.
  induction hops; simpl; auto using consider_declared.
Qed.

(** The rank of a chain's severity, above that of its start. *)
Lemma pathSeverity_rank r start ch :
  chain_ok start ch → (Rank (capSeverity start) < r)%Z →
  (r <= Rank (pathSeverity (ch_hops ch) (ch_cur ch)) ↔
   ∃ h, h ∈ ch_hops ch ∧ r <= Rank (capSeverity (h_To h)))%Z.
Proof.
  intros [_ Hok] Hr. unfold pathSeverity. rewrite consider_rank, pathSeverity_fold_rank.
  assert (1 <= Rank (capSeverity start))%Z as Hpos.
  { pose proof (Rank_positive (capSeverity start)) as H.
    apply proj2 in H. specialize (H (capSeverity_declared _)). lia. }
  assert (∀ c, c ∈ map h_From (ch_hops ch) ++ [ch_cur ch] ↔ c = start ∨ c ∈ map h_To (ch_hops ch)) as Hc.
  { intros c. by rewrite Hok, elem_of_cons. }
  split.
  - intros [[H|(c & Hin & H)]|H].
    + unfold Rank in H at 1. simpl in H. lia.
    + assert (c = start ∨ c ∈ map h_To (ch_hops ch)) as [->|Hto]; [|lia|].
      { apply elem_of_app in Hin as [Hin|Hin]; [apply Hc; set_solver|auto]. }
      apply list_elem_of_fmap in Hto as (h & -> & Hh). eauto.
    + destruct (proj1 (Hc (ch_cur ch))) as [Heq|Hto]; [set_solver|rewrite Heq in H; lia|].
      apply list_elem_of_fmap in Hto as (h & Heq & Hh). rewrite Heq in H. eauto.
  - intros (h & Hh & H). left. right. exists (h_To h). split; [|done].
    apply elem_of_app. right. by apply list_elem_of_fmap_2.
Qed.

Lemma elem_of_to_by h hops : h ∈ hops → (h_To h, h_EnabledBy h) ∈ to_by hops.
Proof. intros H. unfold to_by. by apply (list_elem_of_fmap_2 (λ h, (h_To h, h_EnabledBy h))). Qed.

Lemma path_spec_high g w :
  (∃ cb, cb ∈ path_spec g w ∧ (4 <= Rank (capSeverity cb.1))%Z) ↔
  workloadEscape w || pivots g w = true.
Proof.
  unfold path_spec. split.
  - intros (cb & Hin & Hr). destruct (workloadEscape w), (pivots g w); try done. exfalso.
    rewrite !elem_of_app in Hin. simpl in Hin. rewrite andb_false_r in Hin.
    destruct (exposed g w); simpl in Hin; [|set_solver].
    destruct Hin as [Hin|[Hin|[Hin|Hin]]]; try by apply not_elem_of_nil in Hin.
    apply list_elem_of_singleton in Hin as ->. vm_compute in Hr. congruence.
  - intros H. destruct (workloadEscape w); simpl in H.
    + exists (CapNodeAccess, if hostPathName w <>s "" then kgHostPath else kgPrivileged).
      split; [|vm_compute; congruence]. rewrite !elem_of_app. right. left. set_solver.
    + rewrite H. unfold pivots in H. apply andb_true_iff in H as [_ H].
      destruct (SAIsClusterAdmin _ _ _); [exists (CapClusterAdmin, kgClusterAdmin)|].
      { split; [|vm_compute; congruence]. rewrite !elem_of_app. right. right. left. set_solver. }
      destruct (SACanReadSecrets _ _ _); [exists (CapSecretRead, kgSecrets)|].
      { split; [|vm_compute; congruence]. rewrite !elem_of_app. right. right. left. set_solver. }
      simpl in H. rewrite H. exists (CapPodCreate, kgPodCreate).
      split; [|vm_compute; congruence]. rewrite !elem_of_app. right. right. left. set_solver.
Qed.

Lemma start_rank b r :
  (2 < r → Rank (capSeverity (if b : bool then CapInternetIngress else CapNetworkReachable)) < r)%Z.
Proof. by destruct b. Qed.

Lemma buildForWorkload_Some g w ab p :
  buildForWorkload g w ab = Some p →
  ∃ ch, chain_ok (if exposed g w then CapInternetIngress else CapNetworkReachable) ch ∧
    p_Hops p = ch_hops ch ∧ to_by (p_Hops p) = path_spec g w ∧
    p_Severity p = pathSeverity (ch_hops ch) (ch_cur ch) ∧ (4 <= Rank (p_Severity p))%Z ∧
    p_Entry p = ref (w_Resource w) ∧ p_ID p = "".
Proof.
  unfold buildForWorkload. destruct (entry g w ab) as [ch|] eqn:E; [|done].
  destruct (full_chain g w ab ch E) as [Hok Htb].
  destruct (Z.ltb_spec (Rank (pathSeverity (ch_hops (lateral_hop g w (token_hops g w (escape_hops w ch))))
    (ch_cur (lateral_hop g w (token_hops g w (escape_hops w ch)))))) (Rank SeverityHigh)); [done|].
  intros [= <-]. simpl. eauto 10.
Qed.

Lemma buildForWorkload_is_Some g w ab :
  is_Some (buildForWorkload g w ab) ↔ has_path g w ab = true.
Proof.
  assert (has_path g w ab = (exposed g w || workloadEscape w || ab)
                            && (workloadEscape w || pivots g w)) as ->.
  { unfold has_path. destruct (exposed g w), (workloadEscape w), ab, (pivots g w); done. }
  rewrite andb_true_iff, <-entry_is_Some, <-path_spec_high.
  unfold buildForWorkload. destruct (entry g w ab) as [ch|] eqn:E; [|naive_solver].
  destruct (full_chain g w ab ch E) as [Hok Htb].
  pose proof (pathSeverity_rank 4 _ _ Hok (start_rank _ 4 ltac:(lia))) as Hr.
  set (ch' := lateral_hop g w _) in *. rewrite <-Htb.
  assert ((4 <= Rank (pathSeverity (ch_hops ch') (ch_cur ch')))%Z ↔
          ∃ cb, cb ∈ to_by (ch_hops ch') ∧ (4 <= Rank (capSeverity cb.1))%Z) as <-.
  { rewrite Hr. split.
    - intros (h & Hh & H). exists (h_To h, h_EnabledBy h). split; [by apply elem_of_to_by|done].
    - intros ([c b] & (h & [= -> ->] & Hh)%list_elem_of_fmap & H). eauto. }
  change (Rank SeverityHigh) with 4%Z.
  destruct (Z.ltb_spec (Rank (pathSeverity (ch_hops ch') (ch_cur ch'))) 4); split.
  - by intros [].
  - intros [_ ?]. lia.
  - intros _. by split.
  - by eexists.
Qed.

(** * Helper lemmas: the findings behind the hops *)

(** The default scan has a finding of this rule. *)
Definition backed (g : Graph) (id : string) : Prop :=
  ∃ f, f ∈ Scan g zealDefault ∧ f_ID f = id.

Lemma backed_by_violation g c r :
  c ∈ Registry → check_correct g c → violation g (check_id c) r → backed g (check_id c).
Proof.
  intros Hc Hcc (f & Hf & _)%Hcc. exists f. split; [apply elem_of_Scan_default; eauto|].
  pose proof (Registry_carries g) as Hca. rewrite Forall_forall in Hca.
  by destruct (Hca c Hc f Hf).
Qed.

Lemma backed_by_role g m p e x rule :
  role_check m p e ∈ Registry → x ∈ allRoles g → rule ∈ rulesOf g x → p rule = true →
  backed g (m_ID m).
Proof.
  intros Hc Hx Hr Hp. exists (finding m (ref x) [e]). split; [|done].
  apply elem_of_Scan_default. eexists. split; [done|]. simpl. apply elem_of_flat_map.
  exists x. split; [done|]. apply elem_of_if. split; [|done]. apply existsb_elem. eauto.
Qed.

Lemma ref_rules_role g rr rule `{!graph_wf g} :
  rule ∈ ref_rules g rr → ∃ x, x ∈ allRoles g ∧ rule ∈ rulesOf g x.
Proof.
  rewrite <-findRoleRules_ref. setoid_rewrite elem_of_allRoles. unfold rulesOf.
  unfold findRoleRules at 1.
  destruct (String.eqb_spec (rref_Kind rr) "ClusterRole") as [Hk|]; [|
    destruct (String.eqb_spec (rref_Kind rr) "Role") as [Hk|]; [|by intros ?%not_elem_of_nil]];
    match goal with |- context [List.find ?p ?l] => destruct (List.find p l) as [r|] eqn:E end;
    simpl; try (by intros ?%not_elem_of_nil); intros Hrule; pose proof E as [Hin _]%find_elem.
  - exists (cro_Resource r). split; [eauto using has_role|].
    apply find_elem in E as E'. destruct E' as [_ Hn%String.eqb_eq].
    unfold findRoleRules. rewrite wf_cluster_roles by done. simpl. by rewrite Hn, E.
  - exists (r_Resource r). split; [eauto using has_role|].
    apply find_elem in E as E'. destruct E' as [_ Hn%String.eqb_eq].
    unfold findRoleRules. rewrite wf_roles by done. simpl. by rewrite Hn, E.
Qed.

Lemma exposed_backed g w : exposed g w = true → backed g kgExposure.
Proof.
  unfold exposed. destruct (exposingService g w) as [n|] eqn:E; [|done]. intros _.
  unfold exposingService in E. apply first_some_elem in E as (svc & Hs & H).
  apply (backed_by_violation g exposureCheck (ref (svc_Resource svc)));
    [unfold Registry; set_solver|apply exposureCheck_correct|].
  apply vio_service; [done|].
  destruct (String.eqb_spec (svc_Type svc) "LoadBalancer"), (String.eqb_spec (svc_Type svc) "NodePort");
    auto; done.
Qed.

Lemma hostPathName_Some w :
  hostPathName w ≠ "" →
  ∃ v, v ∈ Volumes (w_PodSpec w) ∧ v_HostPath v ≠ "" ∧ v_HostPath v = hostPathName w.
Proof.
  unfold hostPathName. destruct (List.find _ _) as [v|] eqn:E; [|done].
  apply find_elem in E as [Hv H]. intros _. boolify. eauto.
Qed.

Lemma host_path_backed g w :
  w ∈ g_Workloads g → hostPathName w ≠ "" → backed g kgHostPath.
Proof.
  intros Hw (v & Hv & Hne & _)%hostPathName_Some.
  apply (backed_by_violation g hostPathCheck (ref (w_Resource w)));
    [unfold Registry; set_solver|apply hostPathCheck_correct|].
  apply vio_workload; [done|]. by eapply wr_host_path.
Qed.

Lemma container_backed g w c k :
  w ∈ g_Workloads g → c ∈ Containers (w_PodSpec w) → k ∈ Registry → check_correct g k →
  container_rule (w_PodSpec w) c (check_id k) → backed g (check_id k).
Proof.
  intros Hw Hc Hk Hcc Hr. apply (backed_by_violation g k (ref (w_Resource w))); [done..|].
  apply vio_workload; [done|]. by eapply wr_container.
Qed.

Lemma escapeCaps_dangerous name : escapeCap name = true → to_upper name ∈ dangerousCaps.
Proof.
  unfold escapeCap. rewrite mem_str_spec. generalize (to_upper name). apply Forall_forall.
  apply (bool_decide_unpack _). vm_compute. exact I.
Qed.

Lemma escape_enabler_backed g w :
  w ∈ g_Workloads g → workloadEscape w = true → backed g (escapeEnabler w).1.
Proof.
  intros Hw Hesc. unfold escapeEnabler.
  destruct (existsb c_Privileged _) eqn:Hp.
  { apply existsb_elem in Hp as (c & Hc & Hp). simpl.
    apply (container_backed g w c privilegedCheck); [done..|unfold Registry; set_solver| |].
    - pose proof (container_checks_correct g) as H. by apply Forall_cons in H as [? _].
    - by apply cr_privileged. }
  destruct (first_some _ _) as [name|] eqn:Hcap; simpl.
  { apply first_some_elem in Hcap as (c & Hc & [Hn Hesc']%find_elem).
    apply (container_backed g w c dangerousCapsCheck); [done..|unfold Registry; set_solver| |].
    - apply dangerousCapsCheck_correct.
    - eapply cr_caps; [done|]. by apply escapeCaps_dangerous. }
  assert (hostPathName w ≠ "") as Hh.
  { unfold workloadEscape in Hesc. rewrite first_some_None in Hcap. rewrite existsb_none in Hp.
    destruct (existsb _ _) eqn:E; [|by boolify]. apply existsb_elem in E as (c & Hc & E).
    rewrite (Hp c Hc) in E. apply existsb_elem in E as (n & Hn & E).
    destruct (find_is_Some escapeCap (c_CapsAdd c)) as [_ H].
    destruct H as [x H]; [eauto|]. by rewrite Hcap in H. }
  assert ((hostPathName w <>s "") = true) as -> by by apply negb_true_iff, String.eqb_neq.
  by eapply host_path_backed.
Qed.

Lemma admin_backed g w :
  SAIsClusterAdmin g (w_Namespace w) (w_ServiceAccountName w) = true → backed g kgClusterAdmin.
Proof.
  intros (rr & Hg & H)%SAIsClusterAdmin_iff.
  assert (∃ r, violation g "KG-011" r) as [r Hr].
  { destruct Hg as [b s Hb Hs Hk Hn Hns|b s Hb Hs Hk Hn Hns].
    - exists (ref (crb_Resource b)). apply vio_cluster_binding; [done|]. split; [eauto|done].
    - exists (ref (rb_Resource b)). apply vio_binding; [done|]. split; [eauto|done]. }
  apply (backed_by_violation g clusterAdminBindingCheck r);
    [unfold Registry; set_solver|apply clusterAdminBindingCheck_correct|done].
Qed.

Lemma sa_rule_backed g m p e ns sa `{!graph_wf g} :
  role_check m p e ∈ Registry → SAIsClusterAdmin g ns sa = false →
  existsb p (saRules g ns sa) = true → backed g (m_ID m).
Proof.
  intros Hc Ha (rule & (rr & Hg & [[Hadm _]|Hr])%elem_of_saRules & Hp)%existsb_elem.
  - apply not_true_iff_false in Ha. destruct Ha. apply SAIsClusterAdmin_iff. eauto.
  - apply ref_rules_role in Hr as (x & Hx & Hr); [|done]. by eapply backed_by_role.
Qed.

Lemma automount_backed g w :
  w ∈ g_Workloads g → automountOn g w = true → backed g kgAutomount.
Proof.
  intros Hw Ha. apply (backed_by_violation g automountTokenCheck (ref (w_Resource w)));
    [unfold Registry; set_solver|apply automountTokenCheck_correct|].
  apply vio_workload; [done|]. apply wr_token. by apply automountEffective_spec.
Qed.

Lemma lateral_backed g w :
  w ∈ g_Workloads g → w_Namespace w ≠ "" → HasDefaultDeny g (w_Namespace w) = false →
  backed g kgNoNetPol.
Proof.
  intros Hw Hne Hd. apply (backed_by_violation g networkPolicyCheck (nsRef (w_Namespace w)));
    [unfold Registry; set_solver|apply networkPolicyCheck_correct|]. by apply vio_namespace.
Qed.

Lemma path_spec_backed g w c b `{!graph_wf g} :
  w ∈ g_Workloads g → w_Namespace w ≠ "" → (c, b) ∈ path_spec g w →
  backed g b ∨ c = CapNodeAccess ∧ b = kgPrivileged.
Proof.
  intros Hw Hne Hin. unfold path_spec in Hin. rewrite !elem_of_app in Hin.
  destruct Hin as [Hin|[Hin|[Hin|Hin]]].
  - destruct (exposed g w) eqn:E; [|set_solver]. left.
    apply list_elem_of_singleton in Hin as [= -> ->]. by eapply exposed_backed.
  - destruct (workloadEscape w) eqn:E; [|set_solver].
    rewrite !elem_of_cons, elem_of_nil in Hin. destruct Hin as [[= -> ->]|[[= -> ->]|[]]].
    + left. by apply escape_enabler_backed.
    + destruct (String.eqb_spec (hostPathName w) ""); simpl; [auto|left; by eapply host_path_backed].
  - destruct (pivots g w) eqn:E; [|set_solver]. left. unfold pivots in E.
    apply andb_true_iff in E as [Ha E]. apply elem_of_cons in Hin as [[= -> ->]|Hin].
    { by eapply automount_backed. }
    destruct (SAIsClusterAdmin _ _ _) eqn:Hadm.
    { apply list_elem_of_singleton in Hin as [= -> ->]. by eapply admin_backed. }
    apply elem_of_app in Hin as [Hin|Hin].
    + destruct (SACanReadSecrets _ _ _) eqn:Hs; [|set_solver].
      apply list_elem_of_singleton in Hin as [= -> ->].
      apply (sa_rule_backed g meta_013 RuleGrantsSecrets (ev "rules[]" "get/list/watch on secrets")
        (w_Namespace w) (w_ServiceAccountName w)); [|done..]. unfold Registry. set_solver.
    + destruct (SACanCreatePods _ _ _) eqn:Hs; [|set_solver].
      apply list_elem_of_singleton in Hin as [= -> ->].
      apply (sa_rule_backed g meta_014 RuleGrantsPodCreate (ev "rules[]" "create pods / pods exec")
        (w_Namespace w) (w_ServiceAccountName w)); [|done..]. unfold Registry. set_solver.
  - destruct (HasDefaultDeny g (w_Namespace w)) eqn:Hd; simpl in Hin; [set_solver|].
    destruct (_ || _); [|set_solver]. apply list_elem_of_singleton in Hin as [= -> ->].
    left. by eapply lateral_backed.
Qed.

(** * Helper lemmas: the list of paths *)

Lemma set_path_ID_twice i j p : set_path_ID i (set_path_ID j p) = set_path_ID i p.
Proof. done. Qed.

Lemma set_path_ID_same p : set_path_ID (p_ID p) p = p.
Proof. by destruct p. Qed.

Definition raw_paths (g : Graph) (ab : bool) : list AttackPath :=
  omap (λ w, buildForWorkload g w ab) (g_Workloads g).

Lemma elem_of_raw_paths g ab p :
  p ∈ raw_paths g ab ↔ ∃ w, w ∈ g_Workloads g ∧ buildForWorkload g w ab = Some p.
Proof. apply list_elem_of_omap. Qed.

Lemma BuildPaths_unnumbered g ab :
  map (set_path_ID "") (BuildPaths g ab) = sortPaths (raw_paths g ab).
Proof.
  unfold BuildPaths. fold (raw_paths g ab).
  assert (∀ p, p ∈ sortPaths (raw_paths g ab) → set_path_ID "" p = p) as Hid.
  { unfold sortPaths. intros p (w & _ & Hb)%elem_of_slice_stable%elem_of_raw_paths.
    apply buildForWorkload_Some in Hb as (? & _ & _ & _ & _ & _ & _ & H). rewrite <-H.
    apply set_path_ID_same. }
  revert Hid. generalize (sortPaths (raw_paths g ab)) as l.
  enough (∀ l f, (∀ p, p ∈ l → set_path_ID "" p = p) →
            map (set_path_ID "") (imap (λ i p, set_path_ID (f i) p) l) = l) as H by (intros; by apply H).
  induction l as [|p l IH]; intros f Hid; [done|]. simpl. rewrite set_path_ID_twice, Hid by left.
  f_equal. apply (IH (f ∘ S)). intros q Hq. apply Hid. by right.
Qed.

Lemma elem_of_BuildPaths g ab p :
  p ∈ BuildPaths g ab →
  ∃ w, w ∈ g_Workloads g ∧ buildForWorkload g w ab = Some (set_path_ID "" p).
Proof.
  intros Hp. apply elem_of_raw_paths. apply (elem_of_slice_stable path_less).
  fold (sortPaths (raw_paths g ab)). rewrite <-BuildPaths_unnumbered. by apply list_elem_of_fmap_2.
Qed.

Lemma BuildPaths_elem g ab w p :
  w ∈ g_Workloads g → buildForWorkload g w ab = Some p →
  ∃ p', p' ∈ BuildPaths g ab ∧ set_path_ID "" p' = p.
Proof.
  intros Hw Hb. assert (p ∈ sortPaths (raw_paths g ab)) as Hp.
  { unfold sortPaths. apply elem_of_slice_stable, elem_of_raw_paths. eauto. }
  rewrite <-BuildPaths_unnumbered in Hp. apply list_elem_of_fmap in Hp as (p' & -> & Hp'). eauto.
Qed.

#[export] Instance path_less_strict_weak : StrictWeak path_less.
Proof.
  unfold path_less.
  chain_link (λ p, Rank (p_Severity p)) Z.eqb (λ x y, (y <? x)%Z) Z.eqb_eq.
  chain_link (λ p, length (p_Hops p)) Nat.eqb Nat.ltb Nat.eqb_eq.
  split; intros *; [apply sw_irrefl|apply sw_trans|apply sw_negtrans].
Qed.

(** Renaming paths does not change their order. *)
Lemma sorted_unnumbered l : sorted_by path_less (map (set_path_ID "") l) → sorted_by path_less l.
Proof.
  induction l as [|p l IH]; [constructor|]. simpl. intros [Hl Hp]%StronglySorted_inv.
  constructor; [by apply IH|]. rewrite Forall_forall in *. intros q Hq.
  apply (Hp (set_path_ID "" q)). by apply list_elem_of_fmap_2.
Qed.

Lemma chain_ok_links start ch i h1 h2 :
  chain_ok start ch → ch_hops ch !! i = Some h1 → ch_hops ch !! S i = Some h2 → h_From h2 = h_To h1.
Proof.
  intros [_ H] H1 H2.
  assert ((map h_From (ch_hops ch) ++ [ch_cur ch]) !! S i = Some (h_From h2)) as E.
  { apply lookup_app_l_Some. by rewrite list_lookup_map, H2. }
  rewrite H in E. simpl in E. rewrite list_lookup_map, H1 in E. by injection E.
Qed.

Lemma critical_capability c :
  (5 <= Rank (capSeverity c))%Z ↔ c = CapClusterAdmin ∨ c = CapNodeAccess.
Proof.
  unfold capSeverity. split.
  - destruct (String.eqb_spec c CapClusterAdmin), (String.eqb_spec c CapNodeAccess); auto. simpl.
    repeat case_match; intros H'; vm_compute in H'; congruence.
  - by intros [-> | ->].
Qed.

(** * Properties *)

(** A path is a chain: its hops are numbered from 1, it starts at the internet or at an
    in-cluster foothold, each hop starts from the capability the previous one gained, and its
    severity is critical when it gains cluster-admin or node access and high otherwise.  The
    paths are sorted by severity, length and entry, and numbered AP-001, AP-002, ... in that
    order. *)
Theorem BuildPaths_wellformed g ab :
  map p_ID (BuildPaths g ab)
    = map (λ n, "AP-" +:+ fmt_nat_pad 3 n) (seq 1 (length (BuildPaths g ab))) ∧
  sorted_by path_less (BuildPaths g ab) ∧
  ∀ p, p ∈ BuildPaths g ab →
    map h_Order (p_Hops p) = map Z.of_nat (seq 1 (length (p_Hops p))) ∧
    (∃ h rest, p_Hops p = h :: rest ∧ h_From h ∈ [CapInternetIngress; CapNetworkReachable]) ∧
    (∀ i h1 h2, p_Hops p !! i = Some h1 → p_Hops p !! S i = Some h2 → h_From h2 = h_To h1) ∧
    (p_Severity p = SeverityCritical ∧
       (∃ h, h ∈ p_Hops p ∧ (h_To h = CapClusterAdmin ∨ h_To h = CapNodeAccess)) ∨
     p_Severity p = SeverityHigh ∧
       ¬ ∃ h, h ∈ p_Hops p ∧ (h_To h = CapClusterAdmin ∨ h_To h = CapNodeAccess)).
Proof.
  split; [|split].
  - unfold BuildPaths. fold (raw_paths g ab). generalize (sortPaths (raw_paths g ab)) as l. intros l.
    rewrite length_imap. apply list_eq. intros i.
    rewrite !list_lookup_map, list_lookup_imap.
    destruct (decide (i < length l)) as [Hi|Hi].
    + destruct (lookup_lt_is_Some_2 l i Hi) as [p Hp]. rewrite Hp, lookup_seq_lt by done.
      simpl. do 3 f_equal. lia.
    + rewrite lookup_ge_None_2 by lia. by rewrite lookup_seq_ge by lia.
  - apply sorted_unnumbered. rewrite BuildPaths_unnumbered. apply slice_stable_sorted, _.
  - intros p (w & _ & Hb)%elem_of_BuildPaths.
    apply buildForWorkload_Some in Hb as (ch & Hok & Hh & _ & Hs & Hr & _). simpl in Hh, Hs, Hr.
    rewrite Hh. split; [apply Hok|]. split; [|split].
    + pose proof (pathSeverity_rank 4 _ _ Hok (start_rank _ 4 ltac:(lia))) as Hr4.
      rewrite <-Hs in Hr4. destruct (proj1 Hr4 Hr) as (h & Hin & _).
      destruct (ch_hops ch) as [|h0 hs] eqn:E; [by apply not_elem_of_nil in Hin|].
      exists h0, hs. split; [done|]. destruct Hok as [_ Hok]. rewrite E in Hok.
      injection Hok as -> _. destruct (exposed g w); set_solver.
    + intros i h1 h2. by eapply chain_ok_links.
    + pose proof (pathSeverity_rank 5 _ _ Hok (start_rank _ 5 ltac:(lia))) as Hr5.
      rewrite <-Hs in Hr5. setoid_rewrite critical_capability in Hr5. rewrite <-Hr5.
      pose proof (pathSeverity_declared (ch_hops ch) (ch_cur ch)) as Hd. rewrite <-Hs in Hd.
      unfold severities in Hd. rewrite !elem_of_cons, elem_of_nil in Hd.
      clear -Hd Hr. destruct Hd as [E|[E|[E|[E|[E|[]]]]]]; rewrite E in *;
        vm_compute in Hr; try congruence; [left|right]; (split; [done|]); vm_compute; congruence.
Qed.


(** C3: Every step of an attack path is evidence-backed: the default scan of the same
    cluster has a finding of the check that enables the hop.  The workloads must have a
    namespace (KG-017 skips the empty one), and the exception is the node-access hop, which
    is attributed to KG-001 when no host path is involved. *)
Theorem hops_backed_by_findings rs ab p h :
  (∀ w, w ∈ g_Workloads (Build rs) → w_Namespace w ≠ "") →
  p ∈ BuildPaths (Build rs) ab → h ∈ p_Hops p →
  (∃ f, f ∈ Scan (Build rs) zealDefault ∧ f_ID f = h_EnabledBy h) ∨
  h_To h = CapNodeAccess ∧ h_EnabledBy h = "KG-001".
Proof.
  intros Hns (w & Hw & Hb)%elem_of_BuildPaths Hh.
  apply buildForWorkload_Some in Hb as (ch & _ & _ & Htb & _). simpl in Htb.
  apply (path_spec_backed (Build rs) w _ _ Hw (Hns w Hw)). rewrite <-Htb. by apply elem_of_to_by.
Qed.

Lemma hops_backed_by_findings_witness :
  let p := hd (mkAttackPath "" "" "" (nsRef "") [] "") (BuildPaths (Build ex_cluster) false) in
  let h := hd (mkPathHop 0 "" "" "" [] "") (p_Hops p) in
  h_EnabledBy h = "KG-018" ∧
  ((∃ f, f ∈ Scan (Build ex_cluster) zealDefault ∧ f_ID f = h_EnabledBy h) ∨
   h_To h = CapNodeAccess ∧ h_EnabledBy h = "KG-001").
Proof.
  intros p h. split; [vm_compute; reflexivity|].
  apply (hops_backed_by_findings ex_cluster false p h).
  - apply Forall_forall. apply (bool_decide_unpack _). vm_compute. exact I.
  - apply list_elem_of_lookup. exists 0. vm_compute. reflexivity.
  - apply list_elem_of_lookup. exists 0. vm_compute. reflexivity.
Defined.

(** Assuming breach only adds: every path of the default mode is, up to its number, a
    path of the assumed-breach mode. *)
Theorem assume_breach_monotone g :
  map (set_path_ID "") (BuildPaths g false) ⊆+ map (set_path_ID "") (BuildPaths g true).
Proof.
  rewrite !BuildPaths_unnumbered. unfold sortPaths. rewrite !slice_stable_perm.
  unfold raw_paths. induction (g_Workloads g) as [|w ws IH]; [done|]. simpl.
  assert (∀ p, buildForWorkload g w false = Some p → buildForWorkload g w true = Some p) as Hmono.
  { intros p. unfold buildForWorkload.
    assert (∀ ch, entry g w false = Some ch → entry g w true = Some ch) as He.
    { intros ch. unfold entry. destruct (exposingService g w); [done|].
      rewrite orb_true_r, orb_false_r. by destruct (workloadEscape w). }
    destruct (entry g w false) as [ch|]; [|done]. by rewrite (He ch). }
  destruct (buildForWorkload g w false) as [p|].
  - rewrite (Hmono p) by done. by apply submseteq_skip.
  - destruct (buildForWorkload g w true); [by apply submseteq_cons|done].
Qed.

(** The exception is real: a workload that escapes by an added capability alone, in a
    cluster without a privileged container, has a node-access hop attributed to KG-001, a
    check that has no finding there. *)
Theorem node_hop_misattributed g w ab :
  w ∈ g_Workloads g → workloadEscape w = true → hostPathName w = "" →
  (∀ w' c, w' ∈ g_Workloads g → c ∈ Containers (w_PodSpec w') → c_Privileged c = false) →
  (∃ p h, p ∈ BuildPaths g ab ∧ p_Entry p = ref (w_Resource w) ∧ h ∈ p_Hops p ∧
          h_To h = CapNodeAccess ∧ h_EnabledBy h = "KG-001") ∧
  ¬ ∃ f, f ∈ Scan g zealDefault ∧ f_ID f = "KG-001".
Proof.
  intros Hw Hesc Hhp Hpriv. split.
  - assert (has_path g w ab = true) as [p Hp]%buildForWorkload_is_Some.
    { unfold has_path. by rewrite Hesc. }
    destruct (BuildPaths_elem g ab w p Hw Hp) as (p' & Hp' & Hid).
    apply buildForWorkload_Some in Hp as (ch & _ & _ & Htb & _ & _ & He & _).
    assert ((CapNodeAccess, kgPrivileged) ∈ to_by (p_Hops p)) as Hin.
    { rewrite Htb. unfold path_spec. rewrite Hesc, Hhp, !elem_of_app. right. left. right. left. }
    apply list_elem_of_fmap in Hin as (h & [= Hto Hby] & Hh). exists p', h. subst p. auto.
  - intros (f & (c & Hc & Hf)%elem_of_Scan_default & Hid).
    pose proof (Registry_carries g) as Hca. rewrite Forall_forall in Hca.
    destruct (Hca c Hc f Hf) as [E _]. rewrite E in Hid.
    rewrite (Registry_by_id c privilegedCheck) in Hf; [|done|unfold Registry; set_solver|done].
    unfold privilegedCheck, per_container in Hf. simpl in Hf. in_run Hf.
    match goal with H : c_Privileged _ = true |- _ => by erewrite Hpriv in H end.
Qed.

Definition ex_cap_escape : list Resource :=
  [ex_pod "shop" "agent" ∅
     [("containers", JArr [JObj [("name", JStr "c"); ("image", JStr "agent");
        ("securityContext", JObj [("capabilities", JObj [("add", strs ["SYS_ADMIN"])])])]])]].

Lemma node_hop_misattributed_witness :
  let g := Build ex_cap_escape in
  (∃ p h, p ∈ BuildPaths g false ∧ p_Entry p = mkResourceRef "Pod" "shop" "agent" ∧ h ∈ p_Hops p ∧
          h_To h = CapNodeAccess ∧ h_EnabledBy h = "KG-001") ∧
  ¬ ∃ f, f ∈ Scan g zealDefault ∧ f_ID f = "KG-001".
Proof.
  intros g.
  set (w := hd (mkWorkload (ex_role "" "" [] [] []) 0 "" ∅ (mkPodSpecView false false false None [] []
              (mkSecurityContextView None None ""))) (g_Workloads g)).
  apply (node_hop_misattributed g w false).
  - apply list_elem_of_lookup. exists 0. vm_compute. reflexivity.
  - vm_compute. reflexivity.
  - vm_compute. reflexivity.
  - intros w' c Hw' Hc.
    assert (Forall (λ w, Forall (λ c, c_Privileged c = false) (Containers (w_PodSpec w))) (g_Workloads g))
      as Hall by (apply (bool_decide_unpack _); vm_compute; exact I).
    rewrite Forall_forall in Hall. specialize (Hall w' Hw'). rewrite Forall_forall in Hall. auto.
Defined.
