(* ===== verification/Risk.v ===== *)
(** The risk score (internal/risk/risk.go): a weighted sum over the findings of a report,
    with every weight recorded as a factor. *)

From S2P Require Import Prelude Api.

(** * Weights *)

Definition sevCritical : Z := 50.
Definition sevHigh : Z := 30.
Definition sevMedium : Z := 15.
Definition sevLow : Z := 5.
Definition sevInfo : Z := 0.
Definition pointsAttackEnabler : Z := 25.
Definition pointsInternet : Z := 20.
Definition pointsClusterAdmin : Z := 30.
Definition pointsNodeAccess : Z := 20.
Definition pointsSAToken : Z := 10.
Definition pointsPerExtraWorkload : Z := 2.
Definition maxBreadthBonus : Z := 10.

Definition severityPoints (s : Severity) : Z :=
  if s =s SeverityCritical then sevCritical
  else if s =s SeverityHigh then sevHigh
  else if s =s SeverityMedium then sevMedium
  else if s =s SeverityLow then sevLow
  else sevInfo.

Record pathSignals := mkSignals {
  internet : bool;
  reachAdmin : bool;
  reachNode : bool;
  reachSAlike : bool
}.

Definition zero_signals : pathSignals := mkSignals false false false false.

(** The component-wise disjunction of [s.internet = s.internet || internet] and so on. *)
Definition or_signals (s t : pathSignals) : pathSignals :=
  mkSignals (internet s || internet t) (reachAdmin s || reachAdmin t)
    (reachNode s || reachNode t) (reachSAlike s || reachSAlike t).

(** The first inner loop of [analyzePaths]: what one path touches. *)
Definition path_signals (p : AttackPath) : pathSignals :=
  foldl (λ s h,
      let s := if (h_From h =s CapInternetIngress) || (h_To h =s CapInternetIngress)
               then mkSignals true (reachAdmin s) (reachNode s) (reachSAlike s) else s in
      if h_To h =s CapClusterAdmin then mkSignals (internet s) true (reachNode s) (reachSAlike s)
      else if h_To h =s CapNodeAccess then mkSignals (internet s) (reachAdmin s) true (reachSAlike s)
      else if (h_To h =s CapServiceAccountToken) || (h_To h =s CapSecretRead)
      then mkSignals (internet s) (reachAdmin s) (reachNode s) true
      else s)
    zero_signals (p_Hops p).

(** The second inner loop: one hop of a path with signals [t]. *)
Definition note_hop (t : pathSignals) (m : gmap string pathSignals) (h : PathHop)
    : gmap string pathSignals :=
  if h_EnabledBy h =s "" then m
  else <[h_EnabledBy h := or_signals (map_get zero_signals m (h_EnabledBy h)) t]> m.

Definition analyzePaths (paths : list AttackPath) : gmap string pathSignals :=
  foldl (λ m p, foldl (note_hop (path_signals p)) m (p_Hops p)) ∅ paths.

Definition resourceKey (r : ResourceRef) : string :=
  rr_Kind r +:+ "/" +:+ rr_Namespace r +:+ "/" +:+ rr_Name r.

Definition affected_by (fs : list Finding) : gmap string (gset string) :=
  foldl (λ m f, <[f_ID f := {[resourceKey (f_Resource f)]} ∪ map_get ∅ m (f_ID f)]> m) ∅ fs.

(** The closure [add] on the score and the factors. *)
Definition add (name : string) (pts : Z) (detail : string) (st : Z * list RiskFactor)
    : Z * list RiskFactor :=
  if (pts =? 0)%Z then st else ((st.1 + pts)%Z, st.2 ++ [mkRiskFactor name pts detail]).

Definition score_finding (byFinding : gmap string pathSignals) (affected : gmap string (gset string))
    (f : Finding) : RiskScore :=
  let st := add "severity" (severityPoints (f_Severity f))
              ("base weight for " +:+ f_Severity f +:+ " severity") (0%Z, []) in
  let st :=
    match byFinding !! f_ID f with
    | Some sig =>
        let st := add "attack-path-enabler" pointsAttackEnabler
                    "enables a step in at least one attack path" st in
        let st := if internet sig
                  then add "internet-exposed" pointsInternet
                         "the enabled path is reachable from the public internet" st
                  else st in
        if reachAdmin sig
        then add "blast-radius" pointsClusterAdmin "the enabled path reaches cluster-admin" st
        else if reachNode sig
        then add "blast-radius" pointsNodeAccess "the enabled path reaches node access" st
        else if reachSAlike sig
        then add "blast-radius" pointsSAToken
               "the enabled path reaches a service-account token / secret read" st
        else st
    | None => st
    end in
  let n := Z.of_nat (size (map_get ∅ affected (f_ID f))) in
  let st := if (n >? 1)%Z
            then let bonus := ((n - 1) * pointsPerExtraWorkload)%Z in
                 let bonus := if (bonus >? maxBreadthBonus)%Z then maxBreadthBonus else bonus in
                 add "breadth" bonus "the check affects multiple workloads" st
            else st in
  mkRiskScore (f_ID f) (f_Title f) (f_Severity f) (f_Resource f) st.1 st.2.

(** The [less] of the final sort. *)
Definition score_less (a b : RiskScore) : bool :=
  if negb (rs_Score a =? rs_Score b)%Z then (rs_Score b <? rs_Score a)%Z
  else if negb (Rank (rs_Severity a) =? Rank (rs_Severity b))%Z
  then (Rank (rs_Severity b) <? Rank (rs_Severity a))%Z
  else rs_FindingID a <s rs_FindingID b.

Definition Score (rep : Report) : list RiskScore :=
  let byFinding := analyzePaths (rep_Paths rep) in
  let affected := affected_by (rep_Findings rep) in
  slice_stable score_less (map (score_finding byFinding affected) (rep_Findings rep)).

(** * The abstract specification of a score *)

(** The paths with a step that the check [id] enables. *)
Definition enabled_paths (paths : list AttackPath) (id : string) : list AttackPath :=
  List.filter (λ p, (id <>s "") && existsb (λ h, h_EnabledBy h =s id) (p_Hops p)) paths.

Definition from_internet (p : AttackPath) : bool :=
  existsb (λ h, (h_From h =s CapInternetIngress) || (h_To h =s CapInternetIngress)) (p_Hops p).
Definition reaches (caps : list Capability) (p : AttackPath) : bool :=
  existsb (λ h, mem_str (h_To h) caps) (p_Hops p).

(** The resources on which the check [id] fired. *)
Definition affected_resources (fs : list Finding) (id : string) : gset string :=
  list_to_set (map (λ f, resourceKey (f_Resource f)) (List.filter (λ f, f_ID f =s id) fs)).

Definition path_points (ps : list AttackPath) : Z :=
  if Nat.eqb (length ps) 0 then 0
  else 25 + (if existsb from_internet ps then 20 else 0)
       + (if existsb (reaches [CapClusterAdmin]) ps then 30
          else if existsb (reaches [CapNodeAccess]) ps then 20
          else if existsb (reaches [CapServiceAccountToken; CapSecretRead]) ps then 10 else 0).

Definition breadth_points (n : nat) : Z := Z.min 10 (2 * Z.max 0 (Z.of_nat n - 1)).

Definition risk_points (rep : Report) (f : Finding) : Z :=
  severityPoints (f_Severity f)
  + path_points (enabled_paths (rep_Paths rep) (f_ID f))
  + breadth_points (size (affected_resources (rep_Findings rep) (f_ID f))).

(** The sum of the points of the factors of a score. *)
Definition factor_sum (fs : list RiskFactor) : Z := foldr (λ r n, (rf_Points r + n)%Z) 0%Z fs.

(** * Helper lemmas: signals *)

Lemma or_signals_assoc s t u : or_signals s (or_signals t u) = or_signals (or_signals s t) u.
Proof. unfold or_signals. simpl. by rewrite !orb_assoc. Qed.

Lemma or_signals_absorb s t : or_signals (or_signals s t) t = or_signals s t.
Proof. rewrite <-or_signals_assoc. f_equal. destruct t as [[] [] [] []]; done. Qed.

Lemma or_signals_zero_l s : or_signals zero_signals s = s.
Proof. by destruct s. Qed.

Lemma or_signals_zero_r s : or_signals s zero_signals = s.
Proof. destruct s as [[] [] [] []]; done. Qed.

(** What one hop touches. *)
Definition hop_signals (h : PathHop) : pathSignals :=
  mkSignals ((h_From h =s CapInternetIngress) || (h_To h =s CapInternetIngress))
    (mem_str (h_To h) [CapClusterAdmin]) (mem_str (h_To h) [CapNodeAccess])
    (mem_str (h_To h) [CapServiceAccountToken; CapSecretRead]).

Lemma path_signals_closed p :
  path_signals p = mkSignals (from_internet p) (reaches [CapClusterAdmin] p)
    (reaches [CapNodeAccess] p) (reaches [CapServiceAccountToken; CapSecretRead] p).
Proof.
  unfold path_signals, from_internet, reaches.
  transitivity (or_signals zero_signals (mkSignals
    (existsb (λ h, (h_From h =s CapInternetIngress) || (h_To h =s CapInternetIngress)) (p_Hops p))
    (existsb (λ h, mem_str (h_To h) [CapClusterAdmin]) (p_Hops p))
    (existsb (λ h, mem_str (h_To h) [CapNodeAccess]) (p_Hops p))
    (existsb (λ h, mem_str (h_To h) [CapServiceAccountToken; CapSecretRead]) (p_Hops p))));
    [|by rewrite or_signals_zero_l].
  generalize zero_signals. induction (p_Hops p) as [|h hs IH]; intros s; cbn [foldl existsb].
  - symmetry. apply or_signals_zero_r.
  - rewrite IH. change (mkSignals (_ || _) (_ || _) (_ || _) (_ || _)) with
      (or_signals (hop_signals h) (mkSignals
        (existsb (λ h, (h_From h =s CapInternetIngress) || (h_To h =s CapInternetIngress)) hs)
        (existsb (λ h, mem_str (h_To h) [CapClusterAdmin]) hs)
        (existsb (λ h, mem_str (h_To h) [CapNodeAccess]) hs)
        (existsb (λ h, mem_str (h_To h) [CapServiceAccountToken; CapSecretRead]) hs))).
    rewrite or_signals_assoc. f_equal. unfold hop_signals, mem_str. cbn [existsb].
    destruct s as [s1 s2 s3 s4].
    destruct (h_From h =s CapInternetIngress); simpl; rewrite ?orb_false_r, ?orb_true_r;
      repeat case_str;
      try (match goal with H : h_To h = _, H' : h_To h = _ |- _ => rewrite H in H'; discriminate H' end);
      unfold or_signals; simpl; rewrite ?orb_false_r, ?orb_true_r; done.
Qed.

Lemma note_hops_lookup t hs m id :
  foldl (note_hop t) m hs !! id =
  if (id <>s "") && existsb (λ h, h_EnabledBy h =s id) hs
  then Some (or_signals (map_get zero_signals m id) t) else m !! id.
Proof.
  revert m. induction hs as [|h hs IH]; intros m; simpl; [by rewrite andb_false_r|].
  rewrite IH. unfold note_hop.
  destruct (String.eqb_spec (h_EnabledBy h) "") as [E|E]; simpl.
  - destruct (String.eqb_spec id "") as [Hid|Hid]; simpl; [done|].
    assert ((h_EnabledBy h =s id) = false) as -> by (apply String.eqb_neq; congruence). done.
  - rewrite map_get_insert, lookup_insert. destruct (String.eqb_spec (h_EnabledBy h) id) as [<-|Hne].
    + rewrite decide_True by done. apply String.eqb_neq in E. rewrite E. simpl.
      destruct (existsb _ hs); [by rewrite or_signals_absorb|done].
    + rewrite decide_False by done. done.
Qed.

(** The signals of a set of paths. *)
Definition paths_signals (ps : list AttackPath) : pathSignals :=
  mkSignals (existsb from_internet ps) (existsb (reaches [CapClusterAdmin]) ps)
    (existsb (reaches [CapNodeAccess]) ps)
    (existsb (reaches [CapServiceAccountToken; CapSecretRead]) ps).

Lemma analyzePaths_lookup paths id :
  analyzePaths paths !! id =
  match enabled_paths paths id with [] => None | ps => Some (paths_signals ps) end.
Proof.
  unfold analyzePaths.
  transitivity (match enabled_paths paths id with
    | [] => (∅ : gmap string pathSignals) !! id
    | ps => Some (or_signals (map_get zero_signals ∅ id) (paths_signals ps)) end).
  2: { unfold map_get. rewrite lookup_empty. simpl. destruct (enabled_paths paths id); [done|].
       by rewrite or_signals_zero_l. }
  generalize (∅ : gmap string pathSignals).
  induction paths as [|p paths IH]; intros m; simpl; [done|].
  rewrite IH. unfold enabled_paths at 2. simpl. fold (enabled_paths paths id).
  unfold map_get. rewrite note_hops_lookup, path_signals_closed.
  destruct (_ && _); [|done]. simpl.
  destruct (enabled_paths paths id) as [|p' ps] eqn:E.
  - unfold paths_signals. simpl. by rewrite !orb_false_r.
  - rewrite <-or_signals_assoc. done.
Qed.

Lemma affected_by_get fs id : map_get ∅ (affected_by fs) id = affected_resources fs id.
Proof.
  unfold affected_by.
  enough (∀ m : gmap string (gset string), map_get ∅ (foldl (λ m f,
     <[f_ID f := {[resourceKey (f_Resource f)]} ∪ map_get ∅ m (f_ID f)]> m) m fs) id
     = map_get ∅ m id ∪ affected_resources fs id) as H.
  { rewrite H. unfold map_get. rewrite lookup_empty. simpl. by rewrite (left_id_L ∅ (∪)). }
  induction fs as [|f fs IH]; intros m; simpl.
  - unfold affected_resources. simpl. set_solver.
  - rewrite IH, map_get_insert. unfold affected_resources. simpl. case_str; simpl; subst; set_solver.
Qed.

(** * Helper lemmas: scores *)

Lemma factor_sum_app l1 l2 : factor_sum (l1 ++ l2) = (factor_sum l1 + factor_sum l2)%Z.
Proof. induction l1 as [|r l1 IH]; simpl; [done|]. rewrite IH. lia. Qed.

(** The invariant of the closure [add]: the score is the sum of the recorded factors, and
    each factor is worth something. *)
Definition explained (st : Z * list RiskFactor) : Prop :=
  st.1 = factor_sum st.2 ∧ ∀ r, r ∈ st.2 → (0 < rf_Points r)%Z.

Lemma add_fst name pts detail st : (add name pts detail st).1 = (st.1 + pts)%Z.
Proof. unfold add. destruct (Z.eqb_spec pts 0); simpl; lia. Qed.

Lemma add_explained name pts detail st :
  (0 <= pts)%Z → explained st → explained (add name pts detail st).
Proof.
  intros Hp [H1 H2]. unfold add. destruct (Z.eqb_spec pts 0); [done|]. split; simpl.
  - rewrite factor_sum_app. simpl. lia.
  - intros r [Hr|Hr]%elem_of_app; [auto|]. apply list_elem_of_singleton in Hr as ->. simpl. lia.
Qed.

Lemma severityPoints_bounds s : (0 <= severityPoints s <= 50)%Z.
Proof. unfold severityPoints. repeat case_match; unfold sevCritical, sevHigh, sevMedium, sevLow, sevInfo; lia. Qed.

Lemma path_points_bounds ps : (0 <= path_points ps <= 75)%Z.
Proof. unfold path_points. repeat case_match; lia. Qed.

Lemma breadth_points_bounds n : (0 <= breadth_points n <= 10)%Z.
Proof. unfold breadth_points. lia. Qed.

Lemma score_finding_score rep f :
  rs_Score (score_finding (analyzePaths (rep_Paths rep)) (affected_by (rep_Findings rep)) f)
  = risk_points rep f.
Proof.
  unfold score_finding, risk_points. simpl. rewrite analyzePaths_lookup, affected_by_get.
  set (ps := enabled_paths (rep_Paths rep) (f_ID f)).
  set (n := size (affected_resources (rep_Findings rep) (f_ID f))).
  assert (∀ st : Z * list RiskFactor,
    (if (Z.of_nat n >? 1)%Z
     then add "breadth" (if ((Z.of_nat n - 1) * pointsPerExtraWorkload >? maxBreadthBonus)%Z
                         then maxBreadthBonus else ((Z.of_nat n - 1) * pointsPerExtraWorkload)%Z)
            "the check affects multiple workloads" st else st).1 = (st.1 + breadth_points n)%Z) as ->.
  { intros st. unfold breadth_points, pointsPerExtraWorkload, maxBreadthBonus.
    destruct (Z.gtb_spec (Z.of_nat n) 1); [rewrite add_fst|lia].
    destruct (Z.gtb_spec ((Z.of_nat n - 1) * 2) 10); lia. }
  f_equal. unfold path_points. destruct ps as [|p ps'].
  - rewrite add_fst. simpl. lia.
  - cbn [length Nat.eqb]. unfold paths_signals. cbn [internet reachAdmin reachNode reachSAlike].
    unfold pointsAttackEnabler, pointsInternet, pointsClusterAdmin, pointsNodeAccess, pointsSAToken.
    repeat case_match; rewrite !add_fst; simpl; lia.
Qed.

Lemma score_finding_explained bf aff f :
  let rs := score_finding bf aff f in explained (rs_Score rs, rs_Factors rs).
Proof.
  unfold score_finding. simpl. rewrite <-surjective_pairing.
  pose proof (severityPoints_bounds (f_Severity f)).
  assert (explained (0%Z, [])) as H0 by (split; [done|set_solver]).
  assert (∀ z : Z, (z >? 1)%Z = true → 0 <= (z - 1) * pointsPerExtraWorkload)%Z as Hz.
  { intros z Hz. unfold pointsPerExtraWorkload. lia. }
  repeat case_match; repeat (apply add_explained; [try (by vm_compute); try lia; eauto|]); done.
Qed.

#[export] Instance score_less_strict_weak : StrictWeak score_less.
Proof.
  unfold score_less.
  chain_link rs_Score Z.eqb (λ x y, (y <? x)%Z) Z.eqb_eq.
  chain_link (λ r, Rank (rs_Severity r)) Z.eqb (λ x y, (y <? x)%Z) Z.eqb_eq.
  split; intros *; [apply sw_irrefl|apply sw_trans|apply sw_negtrans].
Qed.

(** * Properties *)

(** The risk list is the findings of the report, each scored by the published formula:
    severity weight, plus, when it enables a step of some attack path, 25 points, 20 when
    such a path starts from the internet and the strongest blast radius such paths reach,
    plus 2 points per further affected resource, at most 10; highest risk first. *)
Theorem Score_spec rep :
  map (λ rs, (rs_FindingID rs, rs_Title rs, rs_Severity rs, rs_Resource rs, rs_Score rs)) (Score rep) ≡ₚ
  map (λ f, (f_ID f, f_Title f, f_Severity f, f_Resource f, risk_points rep f)) (rep_Findings rep) ∧
  sorted_by score_less (Score rep).
Proof.
  split; [|apply slice_stable_sorted, _]. unfold Score. rewrite slice_stable_perm, map_map.
  match goal with |- ?a ≡ₚ ?b => enough (a = b) as -> by done end.
  apply map_ext. intros f. rewrite <-score_finding_score. done.
Qed.

(** Every score is fully explained: it is the sum of its recorded factors, each worth
    something, and it lies between 0 and 135. *)
Theorem Score_explained rep rs :
  rs ∈ Score rep →
  rs_Score rs = factor_sum (rs_Factors rs) ∧
  (∀ r, r ∈ rs_Factors rs → 0 < rf_Points r)%Z ∧
  (0 <= rs_Score rs <= 135)%Z.
Proof.
  unfold Score. rewrite elem_of_slice_stable. intros (f & -> & Hf)%list_elem_of_fmap.
  destruct (score_finding_explained (analyzePaths (rep_Paths rep)) (affected_by (rep_Findings rep)) f)
    as [H1 H2].
  split; [exact H1|]. split; [exact H2|].
  rewrite score_finding_score. unfold risk_points.
  pose proof (severityPoints_bounds (f_Severity f)).
  pose proof (path_points_bounds (enabled_paths (rep_Paths rep) (f_ID f))).
  pose proof (breadth_points_bounds (size (affected_resources (rep_Findings rep) (f_ID f)))). lia.
Qed.

(** A critical finding that enables an internet-facing path to cluster-admin. *)
Definition ex_report : Report :=
  let f id sev name := mkFinding id "t" sev "c" (mkResourceRef "Pod" "shop" name) []
                         (mkRemediation "" "") [] [] in
  let h from to by_ := mkPathHop 1 from to by_ [] "" in
  mkReport "" "" "" [f "KG-011" SeverityCritical "a"; f "KG-019" SeverityLow "a"; f "KG-019" SeverityLow "b"]
    [mkAttackPath "AP-001" "" SeverityCritical (mkResourceRef "" "" "")
       [h CapInternetIngress CapNetworkReachable "KG-018";
        h CapNetworkReachable CapClusterAdmin "KG-011"] ""]
    zero_posture [] None None.

Lemma Score_explained_witness :
  let rs := hd (mkRiskScore "" "" "" (mkResourceRef "" "" "") 0 []) (Score ex_report) in
  rs_Score rs = 125%Z ∧ rs_Score rs = factor_sum (rs_Factors rs) ∧
  (∀ r, r ∈ rs_Factors rs → 0 < rf_Points r)%Z ∧ (0 <= rs_Score rs <= 135)%Z.
Proof.
  intros rs. split; [vm_compute; reflexivity|]. apply (Score_explained ex_report rs).
  apply list_elem_of_lookup. exists 0. vm_compute. reflexivity.
Defined.
