(* ===== verification/Compliance.v ===== *)
(** Compliance (internal/compliance): framework packs, their evaluation against the checks
    that ran and fired, the posture summary and the auditor evidence packs. *)

From S2P Require Import Prelude GoStrings GoFloat Api.

(** * Packs: pack.go *)

Record Control := mkControl {
  ct_ID : string;
  ct_Title : string;
  ct_MapsTo : list string;
  ct_Assessable : bool
}.

Record Pack := mkPack {
  pk_ID : string;
  pk_Title : string;
  pk_Version : string;
  pk_Disclaimer : string;
  pk_Controls : list Control
}.

(** [strings.TrimSpace(s) == ""] *)
Definition blank (s : string) : bool := trim_space s =s "".

Definition validate_control (p : Pack) (i : nat) (c : Control) : res unit :=
  if blank (ct_ID c)
  then Err ("pack " +:+ fmt_quote (pk_ID p) +:+ ": control[" +:+ fmt_int (Z.of_nat i) +:+ "] missing id")
  else if ct_Assessable c && Nat.eqb (length (ct_MapsTo c)) 0
  then Err ("pack " +:+ fmt_quote (pk_ID p) +:+ ": control " +:+ fmt_quote (ct_ID c)
            +:+ " is assessable but maps to no checks")
  else Ok tt.

Definition validate (p : Pack) : res unit :=
  if blank (pk_ID p) then Err "pack: missing id"
  else if blank (pk_Title p) then Err ("pack " +:+ fmt_quote (pk_ID p) +:+ ": missing title")
  else if blank (pk_Disclaimer p)
  then Err ("pack " +:+ fmt_quote (pk_ID p) +:+ ": missing disclaimer (honest-metrics policy)")
  else if Nat.eqb (length (pk_Controls p)) 0
  then Err ("pack " +:+ fmt_quote (pk_ID p) +:+ ": no controls")
  else _ ← map_res (λ ic, validate_control p ic.1 ic.2) (imap pair (pk_Controls p)); Ok tt.

Section packs.
(** [yaml.UnmarshalStrict] into a [Pack]. *)
Variable unmarshal_pack : string → res Pack.

Definition ParsePack (data : string) : res Pack :=
  p ← wrap_err "decode pack: " (unmarshal_pack data);
  _ ← validate p;
  Ok p.

(** [LoadFS] over the names and contents of the [*.yaml] files, all readable. *)
Definition LoadFS (files : gmap string string) : res (list Pack) :=
  map_res (λ name, wrap_err (name +:+ ": ") (ParsePack (map_get "" files name)))
    (sort_strings (map fst (map_to_list files))).
End packs.

(** * Evaluation: evaluate.go *)

Definition allRan (ids : list string) (executed : gset string) : bool :=
  forallb (λ id, bool_decide (id ∈ executed)) ids.

Definition round4 (f : float64) : float64 :=
  fdiv (fround (fmul f (float_of_int 10000))) (float_of_int 10000).

(** The rate reported for [passed] of [assessed]. *)
Definition pass_rate (passed assessed : Z) : float64 :=
  if (assessed >? 0)%Z then round4 (fdiv (float_of_int passed) (float_of_int assessed)) else fzero.

(** The variables of the loop over the controls. *)
Record tallies := mkTallies {
  t_Assessed : Z;
  t_Breached : Z;
  t_Breaches : list ControlBreach
}.

Definition evaluate_control (executed fired : gset string) (t : tallies) (c : Control) : tallies :=
  if negb (ct_Assessable c) || negb (allRan (ct_MapsTo c) executed) then t
  else
    let assessed := (t_Assessed t + 1)%Z in
    let offending := List.filter (λ id, bool_decide (id ∈ fired)) (ct_MapsTo c) in
    if Nat.ltb 0 (length offending)
    then mkTallies assessed (t_Breached t + 1)
           (t_Breaches t ++ [mkControlBreach (ct_ID c) (ct_Title c) (sort_strings offending)])
    else mkTallies assessed (t_Breached t) (t_Breaches t).

Definition Evaluate (p : Pack) (executed fired : gset string) : FrameworkResult :=
  let t := foldl (evaluate_control executed fired) (mkTallies 0 0 []) (pk_Controls p) in
  let passed := (t_Assessed t - t_Breached t)%Z in
  {| fr_Framework := pk_Title p;
     fr_Version := pk_Version p;
     fr_Assessed := t_Assessed t;
     fr_Breached := t_Breached t;
     fr_Passed := passed;
     fr_PassRate := pass_rate passed (t_Assessed t);
     fr_Breaches := t_Breaches t;
     fr_Disclaimer := pk_Disclaimer p |}.

Definition EvaluateAll (packs : list Pack) (executed fired : gset string) : list FrameworkResult :=
  map (λ p, Evaluate p executed fired) packs.

Definition Summarize (findings : list Finding) (paths : list AttackPath)
    (results : list FrameworkResult) : PostureSummary :=
  let assessed := foldl (λ n r, (n + fr_Assessed r)%Z) 0%Z results in
  let breached := foldl (λ n r, (n + fr_Breached r)%Z) 0%Z results in
  {| ps_TotalFindings := Z.of_nat (length findings);
     ps_BySeverity := foldl (λ m f, tally_add m (f_Severity f)) ∅ findings;
     ps_CriticalPaths :=
       foldl (λ n p, if p_Severity p =s SeverityCritical then (n + 1)%Z else n) 0%Z paths;
     ps_ControlsAssessed := assessed;
     ps_ControlsBreached := breached;
     ps_OverallPassRate := pass_rate (assessed - breached) assessed |}.

Definition FiredChecks (findings : list Finding) : gset string :=
  foldl (λ m f, {[f_ID f]} ∪ m) ∅ findings.

(** * Evidence packs: evidence.go *)

Definition byCheck_of (fs : list Finding) : gmap string (list Finding) :=
  foldl (λ m f, <[f_ID f := map_get [] m (f_ID f) ++ [f]]> m) ∅ fs.

(** The variables [ep.Assessed], [ep.Breached] and [ep.Controls]. *)
Definition evidence_control (byCheck : gmap string (list Finding)) (executed : gset string)
    (t : Z * Z * list EvidenceControl) (c : Control) : Z * Z * list EvidenceControl :=
  if negb (ct_Assessable c) || negb (allRan (ct_MapsTo c) executed) then t
  else
    let '(assessed, breached, controls) := t in
    let mapped := sort_strings (ct_MapsTo c) in
    let fs := flat_map (λ id, map_get [] byCheck id) mapped in
    let ctrl := mkEvidenceControl (ct_ID c) (ct_Title c) mapped (Nat.ltb 0 (length fs)) fs in
    ((assessed + 1)%Z, if ec_Breached ctrl then (breached + 1)%Z else breached, controls ++ [ctrl]).

Definition evidence_pack (rep : Report) (byCheck : gmap string (list Finding))
    (executed : gset string) (p : Pack) : EvidencePack :=
  let '(assessed, breached, controls) :=
    foldl (evidence_control byCheck executed) (0%Z, 0%Z, []) (pk_Controls p) in
  let passed := (assessed - breached)%Z in
  {| ep_GeneratedAt := rep_GeneratedAt rep;
     ep_Source := rep_Source rep;
     ep_Profile := rep_Profile rep;
     ep_ID := pk_ID p;
     ep_Framework := pk_Title p;
     ep_Version := pk_Version p;
     ep_Assessed := assessed;
     ep_Breached := breached;
     ep_Passed := passed;
     ep_PassRate := pass_rate passed assessed;
     ep_Controls := controls;
     ep_Disclaimer := pk_Disclaimer p |}.

Definition BuildEvidence (rep : Report) (packs : list Pack) (executed : gset string)
    : list EvidencePack :=
  map (evidence_pack rep (byCheck_of (rep_Findings rep)) executed) packs.

(** * The abstract specification *)

(** A control counts in the denominator when it is assessable and all its checks ran. *)
Definition control_assessed (executed : gset string) (c : Control) : bool :=
  ct_Assessable c && forallb (λ id, bool_decide (id ∈ executed)) (ct_MapsTo c).

(** It is breached when one of its checks fired. *)
Definition control_breached (executed fired : gset string) (c : Control) : bool :=
  control_assessed executed c && existsb (λ id, bool_decide (id ∈ fired)) (ct_MapsTo c).

Definition breach_of (fired : gset string) (c : Control) : ControlBreach :=
  mkControlBreach (ct_ID c) (ct_Title c)
    (sort_strings (List.filter (λ id, bool_decide (id ∈ fired)) (ct_MapsTo c))).

(** * Helper lemmas *)

Lemma filter_nonempty {A} (p : A → bool) l : Nat.ltb 0 (length (List.filter p l)) = existsb p l.
Proof. induction l as [|x l IH]; [done|]. simpl. by destruct (p x). Qed.

Lemma evaluate_control_closed executed fired t c :
  evaluate_control executed fired t c =
  mkTallies (t_Assessed t + if control_assessed executed c then 1 else 0)
    (t_Breached t + if control_breached executed fired c then 1 else 0)
    (t_Breaches t ++ if control_breached executed fired c then [breach_of fired c] else []).
Proof.
  unfold evaluate_control, control_breached. rewrite <-negb_andb, filter_nonempty.
  change (ct_Assessable c && allRan (ct_MapsTo c) executed) with (control_assessed executed c).
  destruct (control_assessed executed c); simpl.
  - destruct (existsb _ _); [done|]. by rewrite app_nil_r, Z.add_0_r.
  - rewrite app_nil_r, !Z.add_0_r. by destruct t.
Qed.

Lemma evaluate_fold executed fired cs t :
  foldl (evaluate_control executed fired) t cs =
  mkTallies (t_Assessed t + count (control_assessed executed) cs)
    (t_Breached t + count (control_breached executed fired) cs)
    (t_Breaches t ++ map (breach_of fired) (List.filter (control_breached executed fired) cs)).
Proof.
  revert t. induction cs as [|c cs IH]; intros t.
  - rewrite !count_nil. simpl. rewrite app_nil_r, !Z.add_0_r. by destruct t.
  - cbn [foldl]. rewrite IH, evaluate_control_closed, !count_cons. simpl.
    destruct (control_breached executed fired c); simpl;
      rewrite ?app_nil_r, <-?(assoc_L (++)); f_equal; lia.
Qed.

Lemma Evaluate_closed p executed fired :
  let a := count (control_assessed executed) (pk_Controls p) in
  let b := count (control_breached executed fired) (pk_Controls p) in
  Evaluate p executed fired =
  mkFrameworkResult (pk_Title p) (pk_Version p) a b (a - b) (pass_rate (a - b) a)
    (map (breach_of fired) (List.filter (control_breached executed fired) (pk_Controls p)))
    (pk_Disclaimer p).
Proof. unfold Evaluate. by rewrite evaluate_fold. Qed.

Lemma breached_le_assessed executed fired cs :
  (0 <= count (control_breached executed fired) cs <= count (control_assessed executed) cs)%Z.
Proof.
  split; [apply count_nonneg|]. apply count_mono. intros c _ H. unfold control_breached in H.
  by boolify.
Qed.

Lemma elem_of_FiredChecks id fs : id ∈ FiredChecks fs ↔ ∃ f, f ∈ fs ∧ f_ID f = id.
Proof.
  unfold FiredChecks.
  enough (∀ m : gset string, id ∈ foldl (λ m f, {[f_ID f]} ∪ m) m fs ↔
    id ∈ m ∨ ∃ f, f ∈ fs ∧ f_ID f = id) as H by (rewrite H; set_solver).
  induction fs as [|f fs IH]; intros m; simpl; [set_solver|].
  rewrite IH. set_solver.
Qed.

Lemma byCheck_get fs id : map_get [] (byCheck_of fs) id = List.filter (λ f, f_ID f =s id) fs.
Proof.
  unfold byCheck_of.
  enough (∀ m, map_get [] (foldl (λ m f, <[f_ID f := map_get [] m (f_ID f) ++ [f]]> m) m fs) id
          = map_get [] m id ++ List.filter (λ f, f_ID f =s id) fs) as H.
  { rewrite H. unfold map_get. by rewrite lookup_empty. }
  induction fs as [|f fs IH]; intros m; simpl; [by rewrite app_nil_r|].
  rewrite IH, map_get_insert. case_str; subst; [by rewrite <-(assoc_L (++))|done].
Qed.

(** The findings of an assessed control. *)
Definition control_findings (fs : list Finding) (c : Control) : list Finding :=
  flat_map (λ id, List.filter (λ f, f_ID f =s id) fs) (sort_strings (ct_MapsTo c)).

Lemma control_findings_nonempty fs c :
  Nat.ltb 0 (length (control_findings fs c)) =
  existsb (λ id, bool_decide (id ∈ FiredChecks fs)) (ct_MapsTo c).
Proof.
  apply eq_true_iff_eq. rewrite Nat.ltb_lt, existsb_elem. setoid_rewrite bool_decide_eq_true.
  setoid_rewrite elem_of_FiredChecks. unfold control_findings. split.
  - destruct (flat_map _ _) as [|f l] eqn:E; simpl; [lia|]. intros _.
    assert (f ∈ f :: l) as Hf by left. rewrite <-E in Hf.
    apply elem_of_flat_map in Hf as (id & Hid & Hf).
    apply elem_of_list_filter in Hf as [Hf He%String.eqb_eq]. rewrite elem_of_sort_strings in Hid. eauto.
  - intros (id & Hid & f & Hf & He). destruct (flat_map _ _) as [|] eqn:E; simpl; [|lia].
    exfalso. apply (not_elem_of_nil f). rewrite <-E. apply elem_of_flat_map. exists id.
    rewrite elem_of_sort_strings, elem_of_list_filter. rewrite He, String.eqb_refl. auto.
Qed.

Definition evidence_of (fs : list Finding) (c : Control) : EvidenceControl :=
  mkEvidenceControl (ct_ID c) (ct_Title c) (sort_strings (ct_MapsTo c))
    (existsb (λ id, bool_decide (id ∈ FiredChecks fs)) (ct_MapsTo c)) (control_findings fs c).

Lemma evidence_control_closed fs executed a b l c :
  evidence_control (byCheck_of fs) executed (a, b, l) c =
  ((a + if control_assessed executed c then 1 else 0)%Z,
   (b + if control_breached executed (FiredChecks fs) c then 1 else 0)%Z,
   l ++ if control_assessed executed c then [evidence_of fs c] else []).
Proof.
  unfold evidence_control, control_breached. rewrite <-negb_andb.
  change (ct_Assessable c && allRan (ct_MapsTo c) executed) with (control_assessed executed c).
  destruct (control_assessed executed c); simpl; [|by rewrite app_nil_r, !Z.add_0_r].
  assert (flat_map (λ id, map_get [] (byCheck_of fs) id) (sort_strings (ct_MapsTo c))
          = control_findings fs c) as ->.
  { unfold control_findings. apply flat_map_ext. intros id. apply byCheck_get. }
  unfold evidence_of. rewrite control_findings_nonempty.
  destruct (existsb _ _); [done|]. by rewrite Z.add_0_r.
Qed.

Lemma evidence_fold fs executed cs a b l :
  foldl (evidence_control (byCheck_of fs) executed) (a, b, l) cs =
  ((a + count (control_assessed executed) cs)%Z,
   (b + count (control_breached executed (FiredChecks fs)) cs)%Z,
   l ++ map (evidence_of fs) (List.filter (control_assessed executed) cs)).
Proof.
  revert a b l. induction cs as [|c cs IH]; intros a b l.
  - rewrite !count_nil. simpl. by rewrite app_nil_r, !Z.add_0_r.
  - cbn [foldl]. rewrite evidence_control_closed, IH, !count_cons. simpl.
    destruct (control_assessed executed c); simpl; rewrite ?app_nil_r, <-?(assoc_L (++));
      f_equal; f_equal; lia.
Qed.

Lemma fold_sum {A} (g : A → Z) l n : foldl (λ n r, (n + g r)%Z) n l = (n + foldr (λ r m, g r + m)%Z 0%Z l)%Z.
Proof. revert n. induction l as [|x l IH]; intros n; simpl; [lia|]. rewrite IH. lia. Qed.

(** The rates of small packs, checked exhaustively: between 0 and 1, and 1 exactly when
    nothing is breached. *)
Definition rate_ok (passed assessed : Z) : bool :=
  let r := pass_rate passed assessed in
  fle fzero r && fle r fone && Bool.eqb (feq r fone) (passed =? assessed)%Z
  && Bool.eqb (feq r fzero) (passed =? 0)%Z.

Lemma rates_checked :
  forallb (λ a, forallb (λ p, rate_ok (Z.of_nat p) (Z.of_nat a)) (seq 0 (S a))) (seq 1 100) = true.
Proof. vm_compute. reflexivity. Qed.

Lemma small_rate passed assessed :
  (0 <= passed <= assessed)%Z → (0 < assessed <= 100)%Z → rate_ok passed assessed = true.
Proof.
  intros Hp Ha. pose proof (proj1 (forallb_elem _ _) rates_checked (Z.to_nat assessed)) as H.
  rewrite elem_of_seq in H. specialize (H ltac:(lia)). cbv beta in H.
  pose proof (proj1 (forallb_elem _ _) H (Z.to_nat passed)) as H'.
  rewrite elem_of_seq in H'. cbv beta in H'. rewrite !Z2Nat.id in H' by lia. apply H'. lia.
Qed.

(** * Properties *)

(** C20: The posture of a framework has an honest denominator: a control is assessed exactly
    when it is assessable and every check it maps to ran; among those it is breached exactly
    when one of its checks fired, and passed otherwise; and the breach list names exactly the
    breached controls, in pack order, each with the sorted list of its checks that fired. *)
Theorem Evaluate_spec p executed fired :
  let r := Evaluate p executed fired in
  let cs := pk_Controls p in
  fr_Assessed r = count (control_assessed executed) cs ∧
  fr_Breached r = count (control_breached executed fired) cs ∧
  fr_Passed r = count (λ c, control_assessed executed c && negb (control_breached executed fired c)) cs ∧
  fr_Breaches r = map (breach_of fired) (List.filter (control_breached executed fired) cs) ∧
  (∀ c, breach_of fired c ∈ fr_Breaches r →
        sorted_by String.ltb (cb_Findings (breach_of fired c)) ∧
        cb_Findings (breach_of fired c) ≡ₚ List.filter (λ id, bool_decide (id ∈ fired)) (ct_MapsTo c)).
Proof.
  cbv zeta. rewrite Evaluate_closed. cbn [fr_Assessed fr_Breached fr_Passed fr_Breaches].
  repeat (split; [done|]). split; [|split; [done|]].
  - induction (pk_Controls p) as [|c cs IH]; [done|]. rewrite !count_cons. unfold control_breached at 1 3.
    destruct (control_assessed executed c); simpl; [|lia]. destruct (existsb _ _); simpl; lia.
  - intros c _. split; [apply slice_stable_sorted, _|apply slice_stable_perm].
Qed.

(** The auditor evidence never contradicts the report: for every pack, the evidence pack
    has the denominator, the breaches and the rate that the report shows, it lists exactly the
    assessed controls, and under each control exactly the report's findings of its checks. *)
Theorem evidence_agrees rep packs executed :
  Forall2 (λ ep fr,
      ep_Framework ep = fr_Framework fr ∧ ep_Assessed ep = fr_Assessed fr ∧
      ep_Breached ep = fr_Breached fr ∧ ep_Passed ep = fr_Passed fr ∧
      ep_PassRate ep = fr_PassRate fr ∧
      map ec_ControlID (List.filter ec_Breached (ep_Controls ep)) = map cb_ControlID (fr_Breaches fr) ∧
      Z.of_nat (length (ep_Controls ep)) = fr_Assessed fr ∧
      ∀ ec f, ec ∈ ep_Controls ep →
        f ∈ ec_Findings ec ↔ f ∈ rep_Findings rep ∧ f_ID f ∈ ec_MapsTo ec)
    (BuildEvidence rep packs executed)
    (EvaluateAll packs executed (FiredChecks (rep_Findings rep))).
Proof.
  unfold BuildEvidence, EvaluateAll. induction packs as [|p packs IH]; simpl; constructor; [|done].
  rewrite Evaluate_closed. unfold evidence_pack. rewrite evidence_fold. simpl.
  repeat (split; [done|]). split; [|split].
  - clear. induction (pk_Controls p) as [|c cs IH]; [done|]. simpl.
    unfold control_breached at 1. destruct (control_assessed executed c); simpl; [|done].
    destruct (existsb _ _); simpl; [by f_equal|done].
  - by rewrite length_map.
  - intros ec f (c & -> & _)%list_elem_of_fmap. simpl. unfold control_findings.
    rewrite elem_of_flat_map. setoid_rewrite elem_of_list_filter. setoid_rewrite String.eqb_eq.
    clear. split; [intros (id & Hid & Hf & <-); auto|intros [Hf Hid]; eauto].
Qed.

(** The posture summary accounts for every finding: the severity tally adds up to the
    total, each entry is the number of findings of that severity, the critical paths are
    counted, and the control totals are the sums over the frameworks. *)
Theorem Summarize_accounts findings paths results :
  let s := Summarize findings paths results in
  ps_TotalFindings s = Z.of_nat (length findings) ∧
  map_sum (ps_BySeverity s) = ps_TotalFindings s ∧
  (∀ sev, map_get 0%Z (ps_BySeverity s) sev = count (λ f, f_Severity f =s sev) findings) ∧
  ps_CriticalPaths s = count (λ p, p_Severity p =s SeverityCritical) paths ∧
  ps_ControlsAssessed s = foldr (λ r n, fr_Assessed r + n)%Z 0%Z results ∧
  ps_ControlsBreached s = foldr (λ r n, fr_Breached r + n)%Z 0%Z results.
Proof.
  simpl. rewrite !fold_sum. split; [done|].
  assert (foldl (λ m f, tally_add m (f_Severity f)) ∅ findings = tally (map f_Severity findings)) as ->.
  { unfold tally. generalize (∅ : gmap string Z).
    induction findings as [|f fs IH]; intros m; simpl; auto. }
  split; [by rewrite tally_sum, length_map|]. split; [|split; [|split; lia]].
  - intros sev. rewrite tally_get. induction findings as [|f fs IH]; [done|].
    simpl. by rewrite !count_cons, IH.
  - enough (∀ n, foldl (λ n p, if p_Severity p =s SeverityCritical then (n + 1)%Z else n) n paths
                = (n + count (λ p, p_Severity p =s SeverityCritical) paths)%Z) as H by apply H.
    induction paths as [|p ps IH]; intros n; simpl; [rewrite count_nil; lia|].
    rewrite IH, count_cons. case_match; lia.
Qed.
