(* ===== verification/Frameworks.v ===== *)
(** The compliance packs that ship in the binary (frameworks/*.yaml), as the values their
    YAML decodes to, and what makes them fit the checks and the evaluation. *)

From S2P Require Import Prelude GoStrings GoFloat Api Graph Checks Compliance.

Definition pack_cis_k8s : Pack := mkPack "cis-k8s" "CIS Kubernetes Benchmark" "1.9"
  "Indicative mapping to KubeGuard checks only; not a CIS certification or audit." [
  mkControl "5.1.1" "Ensure cluster-admin is used only where required"
    ["KG-011"] true;
  mkControl "5.1.3" "Minimize wildcard use in Roles and ClusterRoles"
    ["KG-012"] true;
  mkControl "5.1.5" "Ensure default service accounts are not actively used"
    ["KG-016"] true;
  mkControl "5.1.6" "Ensure SA tokens are only mounted where necessary"
    ["KG-015"] true;
  mkControl "5.2.1" "Minimize admission of privileged containers"
    ["KG-001"] true;
  mkControl "5.2.4" "Minimize admission of containers wishing to share the host network"
    ["KG-003"; "KG-004"] true;
  mkControl "5.2.8" "Minimize admission of containers with added capabilities"
    ["KG-008"] true;
  mkControl "5.3.2" "Ensure all namespaces have network policies defined"
    ["KG-017"] true;
  mkControl "5.7.3" "Apply security context to pods and containers"
    ["KG-006"; "KG-007"; "KG-009"; "KG-020"] true].

Definition pack_cyber_essentials : Pack := mkPack "cyber-essentials" "NCSC Cyber Essentials" "3.1"
  "Indicative mapping to KubeGuard checks only; not an IASME/NCSC Cyber Essentials certification." [
  mkControl "firewalls" "Firewalls (boundary and network protection)"
    ["KG-003"; "KG-017"; "KG-018"] true;
  mkControl "secure-configuration" "Secure configuration"
    ["KG-001"; "KG-002"; "KG-006"; "KG-007"; "KG-008"; "KG-009"; "KG-020"] true;
  mkControl "user-access-control" "User access control"
    ["KG-011"; "KG-012"; "KG-013"; "KG-014"; "KG-015"; "KG-016"] true;
  mkControl "security-update-management" "Security update management"
    [] false;
  mkControl "malware-protection" "Malware protection"
    [] false].

Definition pack_dpdp_2023 : Pack := mkPack "dpdp-2023" "India DPDP Act 2023" "2023"
  "Indicative mapping to KubeGuard checks only; not legal advice or a compliance determination." [
  mkControl "8.5" "Reasonable security safeguards to prevent personal data breach"
    ["KG-001"; "KG-002"; "KG-011"] true;
  mkControl "8.6" "Measures to prevent and detect data breaches"
    ["KG-013"; "KG-017"] true;
  mkControl "8.7" "Limit access to personal data"
    ["KG-012"; "KG-016"] true].

Definition pack_iso_27001_2022 : Pack := mkPack "iso-27001-2022" "ISO/IEC 27001:2022 Annex A" "2022"
  "Indicative mapping to KubeGuard checks only; not an ISO certification or audit." [
  mkControl "A.8.2" "Privileged access rights"
    ["KG-011"; "KG-016"] true;
  mkControl "A.8.9" "Configuration management"
    ["KG-001"; "KG-009"; "KG-020"] true;
  mkControl "A.8.20" "Networks security"
    ["KG-003"; "KG-017"] true;
  mkControl "A.8.22" "Segregation of networks"
    ["KG-018"] true;
  mkControl "A.8.3" "Information access restriction"
    ["KG-012"; "KG-013"] true].

Definition pack_nca_ccc : Pack := mkPack "nca-ccc" "Saudi NCA Cloud Cybersecurity Controls (CCC-1)" "2020"
  "Indicative mapping to KubeGuard checks only; not an NCA assessment or accreditation. Control identifiers follow the NCA CCC domain structure and map at the domain level; verify against the official NCA Cloud Cybersecurity Controls (CCC-1:2020) before regulator use." [
  mkControl "2-2" "Identity and Access Management"
    ["KG-011"; "KG-012"; "KG-013"; "KG-014"; "KG-015"; "KG-016"] true;
  mkControl "2-3" "Information System and Processing Facilities Protection"
    ["KG-001"; "KG-002"; "KG-006"; "KG-007"; "KG-008"; "KG-009"; "KG-020"; "KG-021"] true;
  mkControl "2-5" "Networks Security Management"
    ["KG-003"; "KG-017"; "KG-018"] true;
  mkControl "2-7" "Data and Information Protection"
    ["KG-013"; "KG-015"] true;
  mkControl "2-10" "Vulnerability and Cloud Image/Registry Management"
    ["KG-019"; "KG-022"] true;
  mkControl "1-1" "Cybersecurity Governance"
    [] false;
  mkControl "2-12" "Cybersecurity Event Logs and Monitoring"
    [] false;
  mkControl "4-1" "Third-Party and Cloud Computing Cybersecurity"
    [] false].

Definition pack_nca_ecc_1 : Pack := mkPack "nca-ecc-1" "Saudi NCA Essential Cybersecurity Controls (ECC-1)" "2018"
  "Indicative mapping to KubeGuard checks only; not an NCA assessment or accreditation." [
  mkControl "2-2" "Identity and Access Management"
    ["KG-011"; "KG-012"; "KG-016"] true;
  mkControl "2-3" "Information System and Processing Facilities Protection"
    ["KG-001"; "KG-002"; "KG-008"] true;
  mkControl "2-5" "Networks Security Management"
    ["KG-003"; "KG-017"; "KG-018"] true;
  mkControl "2-15" "Data and Information Protection"
    ["KG-013"; "KG-015"] true].

Definition pack_ncsc_caf_4 : Pack := mkPack "ncsc-caf-4" "NCSC Cyber Assessment Framework (CAF) 4.0" "4.0"
  "Indicative mapping to KubeGuard checks only; not an NCSC assessment or certification." [
  mkControl "B2" "Identity and Access Control"
    ["KG-011"; "KG-012"; "KG-013"; "KG-014"; "KG-015"; "KG-016"] true;
  mkControl "B3" "Data Security"
    ["KG-013"; "KG-015"] true;
  mkControl "B4" "System Security"
    ["KG-001"; "KG-002"; "KG-003"; "KG-004"; "KG-005"; "KG-006"; "KG-007"; "KG-008"; "KG-009"; "KG-020"] true;
  mkControl "B5" "Resilient Networks and Systems"
    ["KG-010"; "KG-017"; "KG-018"] true;
  mkControl "C1" "Security Monitoring"
    [] false;
  mkControl "C2" "Proactive Security Event Discovery"
    [] false].

Definition pack_nist_800_53 : Pack := mkPack "nist-800-53" "NIST SP 800-53 Rev. 5" "5.1.1"
  "Indicative mapping to KubeGuard checks only; not a NIST assessment or authorization." [
  mkControl "AC-6" "Least Privilege"
    ["KG-011"; "KG-012"; "KG-016"] true;
  mkControl "AC-4" "Information Flow Enforcement"
    ["KG-017"; "KG-018"] true;
  mkControl "CM-7" "Least Functionality"
    ["KG-001"; "KG-002"; "KG-008"] true;
  mkControl "SC-7" "Boundary Protection"
    ["KG-003"; "KG-018"] true;
  mkControl "IA-5" "Authenticator Management"
    ["KG-013"; "KG-015"] true;
  mkControl "SC-39" "Process Isolation"
    ["KG-004"; "KG-005"] true].

Definition pack_pci_dss_v4 : Pack := mkPack "pci-dss-v4" "PCI DSS v4.0" "4.0"
  "Indicative mapping to KubeGuard checks only; not a PCI DSS assessment by a QSA." [
  mkControl "1.3.1" "Inbound traffic to the CDE is restricted"
    ["KG-017"; "KG-018"] true;
  mkControl "2.2.1" "Configuration standards are applied to system components"
    ["KG-001"; "KG-002"; "KG-009"; "KG-020"] true;
  mkControl "6.4.1" "Public-facing web applications are protected against attacks"
    ["KG-018"] true;
  mkControl "7.2.1" "Access is assigned based on least privilege"
    ["KG-011"; "KG-012"; "KG-016"] true;
  mkControl "8.3.1" "Strong authentication for access to system components"
    ["KG-013"; "KG-015"] true].

Definition pack_sama_csf : Pack := mkPack "sama-csf" "SAMA Cyber Security Framework (Saudi Central Bank)" "1.0"
  "Indicative mapping to KubeGuard checks only; not a SAMA assessment or certification. Control identifiers follow the SAMA CSF domain structure and map at the domain level." [
  mkControl "3.3.5" "Identity and Access Management"
    ["KG-011"; "KG-012"; "KG-013"; "KG-014"; "KG-015"; "KG-016"] true;
  mkControl "3.3.6" "Application Security"
    ["KG-006"; "KG-007"; "KG-009"; "KG-019"; "KG-020"] true;
  mkControl "3.3.8" "Infrastructure Security"
    ["KG-001"; "KG-002"; "KG-004"; "KG-005"; "KG-008"] true;
  mkControl "3.3.9" "Network Security"
    ["KG-003"; "KG-017"; "KG-018"] true;
  mkControl "3.3.16" "Cyber Security Event Management"
    [] false;
  mkControl "3.3.17" "Cyber Security Reviews"
    [] false].

Definition pack_uae_ia : Pack := mkPack "uae-ia" "UAE Information Assurance Standards (NESA)" "1.1"
  "Indicative mapping to KubeGuard checks only; not a NESA / UAE IA assessment or certification. Controls map at the technical-control-family level." [
  mkControl "T1" "Access Control"
    ["KG-011"; "KG-012"; "KG-013"; "KG-014"; "KG-015"; "KG-016"] true;
  mkControl "T4" "Systems Security and Hardening"
    ["KG-001"; "KG-002"; "KG-004"; "KG-005"; "KG-006"; "KG-007"; "KG-008"; "KG-009"; "KG-020"] true;
  mkControl "T5" "Network Security"
    ["KG-003"; "KG-017"; "KG-018"] true;
  mkControl "T7" "Third-Party / Supply Chain Security"
    ["KG-019"] true;
  mkControl "M1" "Risk Management"
    [] false].

Definition pack_uk_gdpr_dpa_2018 : Pack := mkPack "uk-gdpr-dpa-2018" "UK GDPR / Data Protection Act 2018" "2018"
  "Indicative mapping to KubeGuard checks only; not an ICO assessment or a determination of compliance." [
  mkControl "Art.5(1)(f)" "Integrity and confidentiality of personal data"
    ["KG-011"; "KG-013"; "KG-015"; "KG-016"; "KG-017"] true;
  mkControl "Art.32" "Security of processing — appropriate technical measures"
    ["KG-011"; "KG-013"; "KG-017"; "KG-018"] true].

(** The embedded packs in the order [LoadEmbedded] returns them: by file name. *)
Definition Packs : list Pack :=
  [pack_cis_k8s; pack_cyber_essentials; pack_dpdp_2023; pack_iso_27001_2022; pack_nca_ccc;
   pack_nca_ecc_1; pack_ncsc_caf_4; pack_nist_800_53; pack_pci_dss_v4; pack_sama_csf;
   pack_uae_ia; pack_uk_gdpr_dpa_2018].

(** * Helper lemmas *)

Definition total_assessed (rs : list FrameworkResult) : Z := foldr (λ r n, (fr_Assessed r + n)%Z) 0%Z rs.

Lemma EvaluateAll_assessed packs executed fired :
  (∀ p, p ∈ packs → length (pk_Controls p) <= 20) →
  ∀ r, r ∈ EvaluateAll packs executed fired →
    (0 <= fr_Breached r <= fr_Assessed r)%Z ∧ (fr_Assessed r <= 20)%Z ∧
    fr_Passed r = (fr_Assessed r - fr_Breached r)%Z ∧ fr_PassRate r = pass_rate (fr_Passed r) (fr_Assessed r).
Proof.
  intros Hlen r (p & -> & Hp)%list_elem_of_fmap. rewrite Evaluate_closed. simpl.
  pose proof (breached_le_assessed executed fired (pk_Controls p)).
  pose proof (count_le (control_assessed executed) (pk_Controls p)).
  specialize (Hlen p Hp). repeat split; lia.
Qed.

(** * Properties *)

(** The shipped packs are sound data: each passes the loader's validation, pack ids and
    the control ids of a pack are distinct, every check a control maps to is a registered
    rule, listed once, and under both built-in profiles every assessable control is in the
    denominator. *)
Theorem shipped_packs_sound :
  Forall (λ p,
      validate p = Ok tt ∧ NoDup (map ct_ID (pk_Controls p)) ∧
      Forall (λ c, NoDup (ct_MapsTo c) ∧ Forall (λ id, id ∈ map check_id Registry) (ct_MapsTo c) ∧
                   control_assessed (RunnableIDs zealDefault) c = ct_Assessable c ∧
                   control_assessed (RunnableIDs cisProfile) c = ct_Assessable c)
        (pk_Controls p)) Packs ∧
  NoDup (map pk_ID Packs).
Proof.
  split; [|apply (bool_decide_unpack _); vm_compute; exact I].
  assert (∀ p, p ∈ Packs → validate p = Ok tt) as Hv.
  { apply Forall_forall. unfold Packs. repeat (apply Forall_cons; split; [vm_compute; reflexivity|]).
    apply Forall_nil_2. }
  apply Forall_forall. intros p Hp. split; [auto|]. revert p Hp. apply Forall_forall.
  apply (bool_decide_unpack _). vm_compute. exact I.
Qed.

(** For every shipped pack, whatever checks fired, the pass rate lies between 0 and 1, is
    1 exactly when no control is breached and 0 exactly when none passed; the same holds of the
    overall rate.  Rounding to four digits never turns a breach into a perfect score. *)
Theorem shipped_rates_honest executed fired findings paths :
  let rs := EvaluateAll Packs executed fired in
  let s := Summarize findings paths rs in
  (∀ r, r ∈ rs → (0 < fr_Assessed r)%Z →
     fle fzero (fr_PassRate r) = true ∧ fle (fr_PassRate r) fone = true ∧
     (feq (fr_PassRate r) fone = true ↔ fr_Breached r = 0%Z) ∧
     (feq (fr_PassRate r) fzero = true ↔ fr_Passed r = 0%Z)) ∧
  ((0 < ps_ControlsAssessed s)%Z →
     fle fzero (ps_OverallPassRate s) = true ∧ fle (ps_OverallPassRate s) fone = true ∧
     (feq (ps_OverallPassRate s) fone = true ↔ ps_ControlsBreached s = 0%Z)).
Proof.
  intros rs s.
  assert (∀ p a, (0 <= p <= a)%Z → (0 < a <= 100)%Z →
    fle fzero (pass_rate p a) = true ∧ fle (pass_rate p a) fone = true ∧
    (feq (pass_rate p a) fone = true ↔ p = a) ∧ (feq (pass_rate p a) fzero = true ↔ p = 0%Z)) as Hrate.
  { intros p a Hp Ha. pose proof (small_rate p a Hp Ha) as H. unfold rate_ok in H.
    apply andb_true_iff in H as [[[H1 H2]%andb_true_iff H3]%andb_true_iff H4].
    apply eqb_prop in H3, H4. rewrite H3, H4, !Z.eqb_eq. auto. }
  split.
  - intros r Hr Ha. destruct (EvaluateAll_assessed Packs executed fired) with (r := r)
      as (H1 & H2 & H3 & H4); [|done|].
    { apply Forall_forall. apply (bool_decide_unpack _). vm_compute. exact I. }
    rewrite H4. destruct (Hrate (fr_Passed r) (fr_Assessed r)) as (?&?&E&?); [lia..|].
    rewrite E. do 2 (split; [done|]). split; [lia|done].
  - unfold s, Summarize. cbn [ps_ControlsAssessed ps_ControlsBreached ps_OverallPassRate].
    rewrite !fold_sum, !Z.add_0_l. set (a := foldr (λ r m, (fr_Assessed r + m)%Z) 0%Z rs).
    set (b := foldr (λ r m, (fr_Breached r + m)%Z) 0%Z rs). intros Ha.
    assert ((0 <= b <= a)%Z ∧ (a <= 100)%Z) as [Hb Hle].
    { pose proof (EvaluateAll_assessed Packs executed fired) as Hall. fold rs in Hall.
      assert (Forall (λ p, length (pk_Controls p) ≤ 20) Packs) as Hlen
        by (apply (bool_decide_unpack _); vm_compute; exact I).
      rewrite Forall_forall in Hlen. specialize (Hall Hlen). clear Hlen Ha.
      split.
      - subst a b. clear -Hall. induction rs as [|r rs IH]; simpl; [lia|].
        destruct (Hall r ltac:(left)) as (H1 & _). specialize (IH ltac:(intros; apply Hall; by right)). lia.
      - subst a rs. unfold EvaluateAll.
        assert (∀ ps, foldr (λ r m, (fr_Assessed r + m)%Z) 0%Z (map (λ p, Evaluate p executed fired) ps)
          <= foldr (λ p m, (Z.of_nat (length (pk_Controls p)) + m)%Z) 0%Z ps)%Z as Hsum.
        { induction ps as [|p ps IH]; [done|]. cbn [map foldr]. rewrite Evaluate_closed.
          cbn [fr_Assessed]. pose proof (count_le (control_assessed executed) (pk_Controls p)). lia. }
        etransitivity; [apply Hsum|]. vm_compute. congruence. }
    destruct (Hrate (a - b)%Z a) as (?&?&E&_); [lia..|]. rewrite E. repeat split; auto; lia.
Qed.
