(* ===== verification/Waiver.v ===== *)
(** Offline waivers (internal/waiver/waiver.go): a validated list of time-boxed risk
    acceptances, and the partition of findings it induces. *)

From S2P Require Import Prelude GoStrings GoTime Api.

Record Selector := mkSelector {
  sl_Kind : string;
  sl_Namespace : string;
  sl_Name : string
}.

Record Entry := mkEntry {
  en_ID : string;
  en_Resource : option Selector;
  en_Justification : string;
  en_Expires : string;
  en_expiresAt : instant
}.

(** [*Set]: [None] is the nil pointer. *)
Definition WaiverSet : Type := option (list Entry).

Record WaivedFinding := mkWaivedFinding {
  wf_Finding : Finding;
  wf_Entry : Entry
}.

Definition Empty (s : WaiverSet) : bool :=
  match s with None => true | Some es => Nat.eqb (length es) 0 end.

(** * Loading *)

(** [e.expiresAt = t] *)
Definition set_expiresAt (t : instant) (e : Entry) : Entry :=
  mkEntry (en_ID e) (en_Resource e) (en_Justification e) (en_Expires e) t.

(** One iteration of the validation loop, for the entry at index [i]; [time_error] is the
    text of the error of [time.Parse]. *)
Definition check_entry (time_error : string → string) (i : nat) (e : Entry) : res Entry :=
  let at_ := "waiver[" +:+ fmt_int (Z.of_nat i) +:+ "]" in
  if en_ID e =s "" then Err (at_ +:+ ": id is required")
  else if en_Justification e =s ""
  then Err (at_ +:+ " (" +:+ en_ID e +:+ "): justification is required")
  else if en_Expires e =s "" then Err (at_ +:+ " (" +:+ en_ID e +:+ "): expires is required")
  else match parse_rfc3339 (en_Expires e) with
  | None => Err (at_ +:+ " (" +:+ en_ID e +:+ "): expires must be RFC3339: " +:+ time_error (en_Expires e))
  | Some t => Ok (set_expiresAt t e)
  end.

Section parse.
(** [yaml.UnmarshalStrict] into the on-disk shape, and the text of a [time.Parse] error. *)
Variable unmarshal_file : string → res (list Entry).
Variable time_error : string → string.

Definition Parse (data : string) : res WaiverSet :=
  es ← wrap_err "parse waiver file: " (unmarshal_file data);
  es ← map_res (λ ie, check_entry time_error ie.1 ie.2) (imap pair es);
  Ok (Some es).
End parse.

(** * Matching *)

Definition matchesResource (e : Entry) (r : ResourceRef) : bool :=
  match en_Resource e with
  | None => true
  | Some s =>
      if (sl_Kind s <>s "") && (sl_Kind s <>s rr_Kind r) then false
      else if (sl_Namespace s <>s "") && (sl_Namespace s <>s rr_Namespace r) then false
      else if (sl_Name s <>s "") && (sl_Name s <>s rr_Name r) then false
      else true
  end.

Definition Match (s : WaiverSet) (f : Finding) (now : instant) : option Entry :=
  match s with
  | None => None
  | Some es =>
      first_some (λ e,
        if en_ID e <>s f_ID f then None
        else if negb (Before now (en_expiresAt e)) then None
        else if matchesResource e (f_Resource f) then Some e else None) es
  end.

(** The accumulators [blocking] and [waived]. *)
Definition Partition (s : WaiverSet) (findings : list Finding) (now : instant)
    : list Finding * list WaivedFinding :=
  foldl (λ '(blocking, waived) f,
      match Match s f now with
      | Some e => (blocking, waived ++ [mkWaivedFinding f e])
      | None => (blocking ++ [f], waived)
      end) ([], []) findings.

(** * The abstract specification *)

(** A selector field is a wildcard when it is empty. *)
Definition field_covers (want have : string) : Prop := want = "" ∨ want = have.

(** An entry covers a finding at a time: same check, unexpired, resource selected. *)
Definition covers (e : Entry) (f : Finding) (now : instant) : Prop :=
  en_ID e = f_ID f ∧ (now < en_expiresAt e)%Z ∧
  ∀ s, en_Resource e = Some s →
    field_covers (sl_Kind s) (rr_Kind (f_Resource f)) ∧
    field_covers (sl_Namespace s) (rr_Namespace (f_Resource f)) ∧
    field_covers (sl_Name s) (rr_Name (f_Resource f)).

(** The entries of a set. *)
Definition entries (s : WaiverSet) : list Entry := default [] s.

(** * Helper lemmas *)

Lemma field_covers_spec want have :
  (want <>s "") && (want <>s have) = false ↔ field_covers want have.
Proof. unfold field_covers. repeat case_str; simpl; split; intros; try tauto; naive_solver. Qed.

Lemma matchesResource_spec e r :
  matchesResource e r = true ↔
  ∀ s, en_Resource e = Some s →
    field_covers (sl_Kind s) (rr_Kind r) ∧ field_covers (sl_Namespace s) (rr_Namespace r) ∧
    field_covers (sl_Name s) (rr_Name r).
Proof.
  unfold matchesResource. destruct (en_Resource e) as [s|]; [|split; [done|done]].
  split.
  - intros H s' [= <-]. rewrite <-!field_covers_spec. repeat case_match; done.
  - intros H. specialize (H s eq_refl). rewrite <-!field_covers_spec in H. by destruct H as (-> & -> & ->).
Qed.

(** The test of the matching loop decides [covers]. *)
Definition covers_test (e : Entry) (f : Finding) (now : instant) : option Entry :=
  if en_ID e <>s f_ID f then None
  else if negb (Before now (en_expiresAt e)) then None
  else if matchesResource e (f_Resource f) then Some e else None.

Lemma covers_test_spec e f now :
  covers_test e f now = Some e ∧ covers e f now ∨ covers_test e f now = None ∧ ¬ covers e f now.
Proof.
  unfold covers_test, covers, Before. rewrite <-matchesResource_spec.
  destruct (String.eqb_spec (en_ID e) (f_ID f)); simpl; [|naive_solver].
  destruct (Z.ltb_spec now (en_expiresAt e)); simpl; [|right; split; [done|]; intros (_ & ? & _); lia].
  destruct (matchesResource e (f_Resource f)); naive_solver.
Qed.

Lemma covers_test_Some e f now e' : covers_test e f now = Some e' ↔ e' = e ∧ covers e f now.
Proof. destruct (covers_test_spec e f now) as [[-> ?]|[-> ?]]; naive_solver. Qed.

Lemma covers_test_None e f now : covers_test e f now = None ↔ ¬ covers e f now.
Proof. destruct (covers_test_spec e f now) as [[-> ?]|[-> ?]]; naive_solver. Qed.

Lemma Match_Some s f now e :
  Match s f now = Some e → e ∈ entries s ∧ covers e f now.
Proof.
  destruct s as [es|]; [|done]. simpl. intros (e' & He & H)%first_some_elem.
  fold (covers_test e' f now) in H. by apply covers_test_Some in H as [-> ?].
Qed.

Lemma Match_None s f now : Match s f now = None ↔ ∀ e, e ∈ entries s → ¬ covers e f now.
Proof.
  destruct s as [es|]; simpl; [|split; [intros _ e []%not_elem_of_nil|done]].
  rewrite first_some_None. fold covers_test. by setoid_rewrite covers_test_None.
Qed.

Lemma Partition_closed s fs now :
  Partition s fs now =
  (List.filter (λ f, match Match s f now with Some _ => false | None => true end) fs,
   omap (λ f, mkWaivedFinding f <$> Match s f now) fs).
Proof.
  unfold Partition.
  enough (∀ b w, foldl (λ '(blocking, waived) f,
      match Match s f now with
      | Some e => (blocking, waived ++ [mkWaivedFinding f e])
      | None => (blocking ++ [f], waived)
      end) (b, w) fs = (b ++ List.filter (λ f, match Match s f now with Some _ => false | None => true end) fs,
   w ++ omap (λ f, mkWaivedFinding f <$> Match s f now) fs)) as H by apply H.
  induction fs as [|f fs IH]; intros b w; simpl; [by rewrite !app_nil_r|].
  destruct (Match s f now); simpl; rewrite IH, <-?(assoc_L (++)); done.
Qed.

(** * Properties *)

(** A finding matches the first entry, in file order, that covers it at that time: the
    check id is equal, the waiver has not expired and each non-empty selector field equals
    the resource's; it matches none exactly when no entry covers it. *)
Theorem Match_spec s f now :
  (∀ e, Match s f now = Some e ↔
     ∃ l1 l2, entries s = l1 ++ e :: l2 ∧ covers e f now ∧ ∀ e', e' ∈ l1 → ¬ covers e' f now) ∧
  (Match s f now = None ↔ ∀ e, e ∈ entries s → ¬ covers e f now).
Proof.
  split; [|apply Match_None]. intros e. destruct s as [es|]; simpl.
  - fold covers_test. split.
    + intros (l1 & x & l2 & -> & H & Hn)%first_some_Some.
      apply (covers_test_Some x) in H as [-> Hc]. exists l1, l2. split; [done|]. split; [done|].
      intros e' He'. by apply covers_test_None, Hn.
    + intros (l1 & l2 & -> & Hc & Hn). induction l1 as [|x l1 IH]; simpl.
      * fold (covers_test e f now). by rewrite (proj2 (covers_test_Some e f now e)).
      * fold (covers_test x f now). rewrite (proj2 (covers_test_None x f now)) by (apply Hn; left).
        apply IH. intros e' He'. apply Hn. by right.
  - split; [done|]. intros (l1 & l2 & H & _). by destruct l1.
Qed.

(** Waivers never hide a finding silently: the partition splits the findings into the
    blocking ones and the waived ones without loss, duplication or reordering, each waived
    one is paired with an entry of the file that covers it at that time, and no blocking one
    is covered by any entry. *)
Theorem Partition_spec s fs now :
  let '(blocking, waived) := Partition s fs now in
  blocking ++ map wf_Finding waived ≡ₚ fs ∧
  blocking `sublist_of` fs ∧ map wf_Finding waived `sublist_of` fs ∧
  (∀ wf, wf ∈ waived → wf_Entry wf ∈ entries s ∧ covers (wf_Entry wf) (wf_Finding wf) now) ∧
  (∀ f, f ∈ blocking → ∀ e, e ∈ entries s → ¬ covers e f now).
Proof.
  rewrite Partition_closed. split; [|split; [|split; [|split]]].
  - induction fs as [|f fs IH]; simpl; [done|].
    destruct (Match s f now); simpl; [|by rewrite IH]. by rewrite <-Permutation_middle, IH.
  - induction fs as [|f fs IH]; simpl; [done|]. destruct (Match s f now); by constructor.
  - induction fs as [|f fs IH]; simpl; [done|]. destruct (Match s f now); simpl; by constructor.
  - intros wf (f & Hf & H)%list_elem_of_omap. destruct (Match s f now) eqn:E; [|done].
    injection H as <-. simpl. by apply Match_Some.
  - intros f [_ H]%elem_of_list_filter. destruct (Match s f now) eqn:E; [done|].
    by apply Match_None.
Qed.

(** Expiry only ever re-blocks: a finding that blocks at some time blocks at every later
    time too. *)
Theorem Partition_monotone s fs now now' f :
  (now <= now')%Z → f ∈ (Partition s fs now).1 → f ∈ (Partition s fs now').1.
Proof.
  rewrite !Partition_closed. simpl. rewrite !elem_of_list_filter. intros Hle [Hf H]. split; [done|].
  destruct (Match s f now) eqn:E; [done|]. rewrite Match_None in E.
  rewrite (proj2 (Match_None s f now')); [done|]. intros e He (H1 & H2 & H3).
  apply (E e He). repeat split; [done|lia|..]; by apply H3.
Qed.

Definition ex_finding (id ns : string) : Finding :=
  mkFinding id "" SeverityHigh "" (mkResourceRef "Pod" ns "web") [] (mkRemediation "" "") [] [].
Definition ex_waivers : WaiverSet :=
  Some [mkEntry "KG-001" (Some (mkSelector "" "shop" "")) "legacy" "2026-01-01T00:00:00Z" 1767225600000000000%Z].

Lemma Partition_monotone_witness :
  ex_finding "KG-002" "shop" ∈ (Partition ex_waivers [ex_finding "KG-001" "shop"; ex_finding "KG-002" "shop"] 0%Z).1 ∧
  ex_finding "KG-002" "shop" ∈
    (Partition ex_waivers [ex_finding "KG-001" "shop"; ex_finding "KG-002" "shop"] 1767225600000000000%Z).1.
Proof.
  assert (ex_finding "KG-002" "shop" ∈
    (Partition ex_waivers [ex_finding "KG-001" "shop"; ex_finding "KG-002" "shop"] 0%Z).1) as H
    by (vm_compute; left).
  split; [exact H|]. refine (Partition_monotone _ _ 0%Z _ _ _ H). lia.
Defined.

(** C21: A waiver file that loads is sound, whatever the YAML decoder: the entries are the
    decoded ones in file order, each with a check id, a justification and an expiry that
    parses as RFC3339 to the instant the matching uses.  An undated or unjustified waiver is
    never accepted. *)
Theorem Parse_sound unmarshal_file time_error data s :
  Parse unmarshal_file time_error data = Ok s →
  ∃ raw es, unmarshal_file data = Ok raw ∧ s = Some es ∧
    Forall2 (λ r e, e = set_expiresAt (en_expiresAt e) r) raw es ∧
    ∀ e, e ∈ es → en_ID e ≠ "" ∧ en_Justification e ≠ "" ∧
                  parse_rfc3339 (en_Expires e) = Some (en_expiresAt e).
Proof.
  unfold Parse. intros H. destruct (unmarshal_file data) as [raw|]; [|done]. simpl in H.
  destruct (map_res _ _) as [es|] eqn:E; [|done]. simpl in H. injection H as <-.
  exists raw, es. split; [done|]. split; [done|]. apply map_res_Ok in E.
  assert (∀ i r e, check_entry time_error i r = Ok e →
    e = set_expiresAt (en_expiresAt e) r ∧ en_ID e ≠ "" ∧ en_Justification e ≠ "" ∧
    parse_rfc3339 (en_Expires e) = Some (en_expiresAt e)) as Hc.
  { clear. intros i r e. unfold check_entry.
    destruct (String.eqb_spec (en_ID r) ""); [done|].
    destruct (String.eqb_spec (en_Justification r) ""); [done|].
    destruct (String.eqb_spec (en_Expires r) ""); [done|].
    destruct (parse_rfc3339 (en_Expires r)) eqn:Ep; [|done]. by intros [= <-]. }
  split.
  - revert E. generalize 0 as i. intros _.
    assert (∀ (f : nat → Entry → nat * Entry), (∀ i r, (f i r).2 = r) →
      Forall2 (λ x y, check_entry time_error x.1 x.2 = Ok y) (imap f raw) es →
      Forall2 (λ r e, e = set_expiresAt (en_expiresAt e) r) raw es) as Hgen.
    { clear -Hc. revert es. induction raw as [|r raw IH]; intros es f Hf HF; simpl in HF.
      - inversion HF. constructor.
      - inversion HF as [|? e ? es' H1 H2]; subst. constructor.
        + rewrite Hf in H1. by destruct (Hc _ _ _ H1).
        + by apply (IH _ (f ∘ S)); [intros; simpl; apply Hf|]. }
    by apply Hgen.
  - intros e He. apply list_elem_of_lookup in He as [i Hi].
    destruct (Forall2_lookup_r _ _ _ _ _ E Hi) as ([j r] & _ & Hj). by destruct (Hc _ _ _ Hj).
Qed.

(** A decoder that accepts one file. *)
Definition ex_decoder (data : string) : res (list Entry) :=
  if data =s "ok" then Ok [mkEntry "KG-001" None "legacy" "2026-01-01T00:00:00Z" 0%Z] else Err "bad yaml".

Lemma Parse_sound_witness :
  ∃ raw es, ex_decoder "ok" = Ok raw ∧
    Parse ex_decoder (λ _, "") "ok" = Ok (Some es) ∧
    Forall2 (λ r e, e = set_expiresAt (en_expiresAt e) r) raw es ∧
    ∀ e, e ∈ es → en_ID e ≠ "" ∧ en_Justification e ≠ "" ∧
                  parse_rfc3339 (en_Expires e) = Some (en_expiresAt e).
Proof.
  destruct (Parse_sound ex_decoder (λ _, "") "ok"
    (Some [mkEntry "KG-001" None "legacy" "2026-01-01T00:00:00Z" 1767225600000000000%Z]))
    as (raw & es & H1 & H2 & H3 & H4); [vm_compute; reflexivity|].
  exists raw, es. split; [exact H1|]. split; [|split; [exact H3|exact H4]].
  rewrite <-H2. vm_compute. reflexivity.
Defined.
