(* ===== verification/Analyzer.v ===== *)
(** The pipeline (internal/analyzer/analyzer.go): detect, chain, comply; and the --fail-on
    gate of the scan command (internal/cli/scan.go, exit.go, root.go). *)

From S2P Require Import Prelude GoStrings GoFloat GoTime Api Model Graph Checks Attack Compliance Risk.
From S2P Require Import Waiver.

(** * The pipeline *)

(** [ExtraChecks]: a nil function is [None]. *)
Definition ExtraChecks : Type := option (Graph → list Finding).

(** [checks.ProfileByName] with its error. *)
Definition profile_by_name (name : string) : res Profile :=
  match ProfileByName name with
  | Some p => Ok p
  | None => Err ("unknown profile " +:+ fmt_quote name +:+ " (want cis|zeal-default)")
  end.

(** The findings of the extra checks, in order. *)
Definition extra_findings (extra : list ExtraChecks) (g : Graph) : list Finding :=
  flat_map (λ ec, match ec with None => [] | Some f => f g end) extra.

(** [Analyze]; [packs] is the result of [compliance.LoadEmbedded]. *)
Definition Analyze (packs : res (list Pack)) (resources : list Resource) (profileName : string)
    (assumeBreach : bool) (extra : list ExtraChecks) : res Report :=
  profile ← profile_by_name profileName;
  packs ← packs;
  let g := Build resources in
  let findings := SortFindings (Scan g profile ++ extra_findings extra g) in
  let paths := BuildPaths g assumeBreach in
  let frameworks := EvaluateAll packs (RunnableIDs profile) (FiredChecks findings) in
  let rep := {| rep_GeneratedAt := "";
                rep_Source := "";
                rep_Profile := pr_Name profile;
                rep_Findings := findings;
                rep_Paths := paths;
                rep_Posture := Summarize findings paths frameworks;
                rep_Compliance := frameworks;
                rep_Coverage := Some (Coverage g);
                rep_TopRisks := None |} in
  Ok (mkReport (rep_GeneratedAt rep) (rep_Source rep) (rep_Profile rep) (rep_Findings rep)
        (rep_Paths rep) (rep_Posture rep) (rep_Compliance rep) (rep_Coverage rep)
        (Some (Score rep))).

(** * The gate *)

Definition exitOK : Z := 0.
Definition exitError : Z := 1.
Definition exitGateHit : Z := 2.

(** What a command returns: nil, a [codedError], or another error. *)
Inductive outcome : Type :=
| Done
| Coded (code : Z) (msg : string)
| Failed (msg : string).

Definition parseSeverity (s : string) : res Severity :=
  if (s =s SeverityCritical) || (s =s SeverityHigh) || (s =s SeverityMedium) || (s =s SeverityLow)
  then Ok s
  else Err ("invalid severity " +:+ fmt_quote s +:+ " (want critical|high|medium|low)").

Definition countAtOrAbove (findings : list Finding) (threshold : Severity) : Z :=
  foldl (λ n f, if (Rank (f_Severity f) >=? Rank threshold)%Z then (n + 1)%Z else n) 0%Z findings.

Definition gateBreach (threshold : Severity) (n : Z) : outcome :=
  Coded exitGateHit ("--fail-on " +:+ threshold +:+ ": " +:+ fmt_int n
                     +:+ " finding(s) at or above threshold").

Definition resourceLoc (r : ResourceRef) : string :=
  if rr_Namespace r <>s "" then rr_Namespace r +:+ "/" +:+ rr_Name r else rr_Name r.

(** The line logged for an applied waiver. *)
Definition waived_line (wf : WaivedFinding) : string :=
  let f := wf_Finding wf in
  "waived: " +:+ f_ID f +:+ " " +:+ f_Title f +:+ " (" +:+ rr_Kind (f_Resource f) +:+ " "
  +:+ resourceLoc (f_Resource f) +:+ ") until " +:+ en_Expires (wf_Entry wf) +:+ " — "
  +:+ en_Justification (wf_Entry wf) +:+ nl.

(** The last part of [runScan]: the lines logged and the result. *)
Definition gate (failOn : string) (waiverSet : WaiverSet) (findings : list Finding) (now : instant)
    : list string * outcome :=
  if failOn =s "" then ([], Done)
  else match parseSeverity failOn with
  | Err e => ([], Failed e)
  | Ok thr =>
      let '(blocking, waived) :=
        if negb (Empty waiverSet) then Partition waiverSet findings now else (findings, []) in
      let n := countAtOrAbove blocking thr in
      (map waived_line waived, if (n >? 0)%Z then gateBreach thr n else Done)
  end.

(** The exit code [Execute] maps an outcome to. *)
Definition exit_code (o : outcome) : Z :=
  match o with Done => exitOK | Coded code _ => code | Failed _ => exitError end.

(** * Helper lemmas *)

Lemma elem_of_SortFindings f fs : f ∈ SortFindings fs ↔ f ∈ fs.
Proof. apply elem_of_slice_stable. Qed.

Lemma Analyze_Ok packs resources name ab extra rep :
  Analyze packs resources name ab extra = Ok rep →
  ∃ profile ps, ProfileByName name = Some profile ∧ packs = Ok ps ∧
    let g := Build resources in
    rep_Profile rep = pr_Name profile ∧
    rep_Findings rep = SortFindings (Scan g profile ++ extra_findings extra g) ∧
    rep_Paths rep = BuildPaths g ab ∧
    rep_Compliance rep = EvaluateAll ps (RunnableIDs profile) (FiredChecks (rep_Findings rep)) ∧
    rep_Posture rep = Summarize (rep_Findings rep) (rep_Paths rep) (rep_Compliance rep) ∧
    rep_Coverage rep = Some (Coverage g) ∧
    rep_TopRisks rep = Some (Score rep).
Proof.
  unfold Analyze, profile_by_name. destruct (ProfileByName name) as [profile|]; [|done].
  destruct packs as [ps|]; [|done]. cbn [mbind res_bind]. intros [= <-]. eauto 12.
Qed.

Lemma countAtOrAbove_count fs thr :
  countAtOrAbove fs thr = count (λ f, (Rank (f_Severity f) >=? Rank thr)%Z) fs.
Proof.
  unfold countAtOrAbove.
  enough (∀ n, foldl (λ n f, if (Rank (f_Severity f) >=? Rank thr)%Z then (n + 1)%Z else n) n fs
    = (n + count (λ f, (Rank (f_Severity f) >=? Rank thr)%Z) fs)%Z) as H by apply H.
  induction fs as [|f fs IH]; intros n; simpl; [rewrite count_nil; lia|].
  rewrite IH, count_cons. case_match; lia.
Qed.

(** The blocking findings of the gate, with or without a waiver set. *)
Lemma gate_blocking s fs now f :
  f ∈ (if negb (Empty s) then Partition s fs now else (fs, [])).1 ↔
  f ∈ fs ∧ ∀ e, e ∈ entries s → ¬ covers e f now.
Proof.
  destruct (Empty s) eqn:E; simpl.
  - split; [|by intros [? _]]. intros Hf. split; [done|]. intros e He. exfalso.
    destruct s as [[|]|]; simpl in *; [by apply not_elem_of_nil in He|done|by apply not_elem_of_nil in He].
  - rewrite Partition_closed. simpl. rewrite elem_of_list_filter, <-Match_None.
    destruct (Match s f now); split; intros [? ?]; done.
Qed.

(** * Properties *)


(** A breach always has its evidence in the same report, and evidence is never lost: a
    framework reports a control breached by a check exactly when the control is assessed, maps
    to the check and the report has a finding of it. *)
Theorem breaches_have_findings packs resources name ab extra rep profile p id ct :
  Analyze (Ok packs) resources name ab extra = Ok rep → ProfileByName name = Some profile →
  p ∈ packs → ct ∈ pk_Controls p → control_assessed (RunnableIDs profile) ct = true →
  (∃ fr cb, fr ∈ rep_Compliance rep ∧ fr = Evaluate p (RunnableIDs profile) (FiredChecks (rep_Findings rep)) ∧
            cb ∈ fr_Breaches fr ∧ cb = breach_of (FiredChecks (rep_Findings rep)) ct ∧ id ∈ cb_Findings cb) ↔
  id ∈ ct_MapsTo ct ∧ ∃ f, f ∈ rep_Findings rep ∧ f_ID f = id.
Proof.
  intros HA Hprof Hp Hct Ha. apply Analyze_Ok in HA as (profile' & ps & Hp' & [= <-] & _ & _ & _ & Hc & _).
  rewrite Hprof in Hp'. injection Hp' as <-. rewrite Hc, <-elem_of_FiredChecks.
  set (fired := FiredChecks (rep_Findings rep)).
  assert (∀ x, x ∈ cb_Findings (breach_of fired ct) ↔ x ∈ ct_MapsTo ct ∧ x ∈ fired) as Hb.
  { intros x. simpl. rewrite elem_of_sort_strings, elem_of_list_filter. by rewrite bool_decide_eq_true. }
  split.
  - intros (fr & cb & _ & -> & _ & -> & Hid). by apply Hb.
  - intros Hid. exists (Evaluate p (RunnableIDs profile) fired), (breach_of fired ct).
    split; [by apply (list_elem_of_fmap_2 (λ p, Evaluate p (RunnableIDs profile) fired))|].
    split; [done|]. split; [|split; [done|by apply Hb]].
    rewrite Evaluate_closed. cbn [fr_Breaches]. apply (list_elem_of_fmap_2 (breach_of fired)).
    apply elem_of_list_filter. split; [done|]. unfold control_breached. rewrite Ha. simpl.
    apply existsb_elem. exists id. rewrite bool_decide_eq_true. naive_solver.
Qed.

(** One pack with one control. *)
Definition ex_pack : Pack :=
  mkPack "p" "P" "1" "indicative" [mkControl "1" "priv" ["KG-001"] true].

Lemma breaches_have_findings_witness :
  match Analyze (Ok [ex_pack]) ex_cluster "" false [] with
  | Ok rep =>
      ∃ fr cb, fr ∈ rep_Compliance rep ∧ fr = Evaluate ex_pack (RunnableIDs zealDefault) (FiredChecks (rep_Findings rep)) ∧
        cb ∈ fr_Breaches fr ∧ cb = breach_of (FiredChecks (rep_Findings rep)) (mkControl "1" "priv" ["KG-001"] true) ∧
        "KG-001" ∈ cb_Findings cb
  | Err _ => False
  end.
Proof.
  destruct (Analyze (Ok [ex_pack]) ex_cluster "" false []) as [rep|e] eqn:E; [|discriminate E].
  apply (breaches_have_findings [ex_pack] ex_cluster "" false [] rep zealDefault ex_pack "KG-001"
           (mkControl "1" "priv" ["KG-001"] true) E eq_refl);
    [left|left|vm_compute; reflexivity|].
  split; [left|].
  destruct (Analyze_Ok _ _ _ _ _ _ E) as (profile & ps & Hp & _ & _ & Hf & _).
  change (Some zealDefault = Some profile) in Hp. injection Hp as <-. rewrite Hf.
  exists (hd (finding meta_001 (nsRef "") []) (Scan (Build ex_cluster) zealDefault)).
  split; [|vm_compute; reflexivity]. apply elem_of_SortFindings, elem_of_app. left.
  apply list_elem_of_lookup. exists 0. vm_compute. reflexivity.
Defined.

(** The --fail-on gate is exact.  Without a threshold it passes; an unknown severity is an
    error; otherwise it exits 2 exactly when some finding at or above the threshold is covered
    by no active waiver, exits 0 otherwise, and every waiver it applied is logged. *)
Theorem gate_spec failOn s fs now :
  let '(log, o) := gate failOn s fs now in
  (failOn = "" → log = [] ∧ exit_code o = 0%Z) ∧
  (failOn ∉ ["" : string; SeverityCritical; SeverityHigh; SeverityMedium; SeverityLow] →
     exit_code o = 1%Z) ∧
  (failOn ∈ [SeverityCritical; SeverityHigh; SeverityMedium; SeverityLow] →
     (exit_code o = 2%Z ↔
        ∃ f, f ∈ fs ∧ (Rank failOn <= Rank (f_Severity f))%Z ∧ ∀ e, e ∈ entries s → ¬ covers e f now) ∧
     (exit_code o = 0%Z ∨ exit_code o = 2%Z) ∧
     ∀ f, f ∈ fs → (∃ e, e ∈ entries s ∧ covers e f now) →
       ∃ e, e ∈ entries s ∧ covers e f now ∧ waived_line (mkWaivedFinding f e) ∈ log).
Proof.
  unfold gate. destruct (String.eqb_spec failOn "") as [->|Hne].
  { split; [done|]. split; [set_solver|]. unfold_severities. set_solver. }
  unfold parseSeverity.
  destruct ((failOn =s SeverityCritical) || (failOn =s SeverityHigh) || (failOn =s SeverityMedium)
    || (failOn =s SeverityLow)) eqn:E.
  - rewrite !orb_true_iff, !String.eqb_eq in E.
    pose proof (gate_blocking s fs now) as Hb.
    destruct (if negb (Empty s) then _ else _) as [blocking waived] eqn:Ep. simpl in Hb.
    split; [done|]. split; [set_solver|]. intros _. rewrite countAtOrAbove_count.
    assert (exit_code (if (count (λ f, (Rank (f_Severity f) >=? Rank failOn)%Z) blocking >? 0)%Z
      then gateBreach failOn (count (λ f, (Rank (f_Severity f) >=? Rank failOn)%Z) blocking) else Done)
      = if (count (λ f, (Rank (f_Severity f) >=? Rank failOn)%Z) blocking >? 0)%Z then 2%Z else 0%Z) as ->
      by (by destruct (_ >? 0)%Z).
    pose proof (count_pos (λ f, (Rank (f_Severity f) >=? Rank failOn)%Z) blocking) as Hc.
    split; [|split; [destruct (_ >? 0)%Z; auto|]].
    + destruct (Z.gtb_spec (count (λ f, (Rank (f_Severity f) >=? Rank failOn)%Z) blocking) 0) as [Hgt|Hle].
      * split; [|done]. intros _. apply Hc in Hgt as (f & [Hf Hu]%Hb & Hr).
        exists f. split; [done|]. split; [lia|done].
      * split; [done|]. intros (f & Hf & Hr & Hu). exfalso.
        assert (0 < count (λ f, (Rank (f_Severity f) >=? Rank failOn)%Z) blocking)%Z; [|lia].
        apply Hc. exists f. split; [by apply Hb|lia].
    + intros f Hf (e & He & Hcov). destruct (Match s f now) as [e'|] eqn:Em;
        [|by destruct (proj1 (Match_None s f now) Em e He)].
      exists e'. pose proof (Match_Some _ _ _ _ Em) as [? ?]. split; [done|]. split; [done|].
      apply list_elem_of_fmap_2. destruct s as [es|]; [|by apply not_elem_of_nil in He].
      destruct es as [|e0 es]; [by apply not_elem_of_nil in He|]. simpl in Ep.
      rewrite Partition_closed in Ep. injection Ep as _ <-. apply list_elem_of_omap.
      exists f. split; [done|]. simpl in Em |- *. by rewrite Em.
  - split; [done|]. split; [done|]. intros Hin. rewrite !orb_false_iff, !String.eqb_neq in E. set_solver.
Qed.
