(* ===== verification/History.v ===== *)
(** The scan history (internal/history): the record of a scan, the store interface, and the JSONL
    file store.

    The text encoding of JSON and of floating point numbers are parameters here, which
    HistoryBackends.v instantiates; the mapping between records and JSON objects is
    [encoding/json]'s on the fields of [Record].  The SQLite store is in HistoryBackends.v. *)

From Stdlib Require Import Ascii SpecFloat.
From S2P Require Import Prelude GoStrings GoJson GoFloat GoFmt Api.

(** * Records: store.go *)

Record ScanRecord := mkScanRecord {
  hr_GeneratedAt : string;
  hr_Source : string;
  hr_Profile : string;
  hr_Findings : Z;
  hr_Critical : Z;
  hr_High : Z;
  hr_Medium : Z;
  hr_Low : Z;
  hr_CriticalPaths : Z;
  hr_OverallPassRate : float64
}.

Definition zero_record : ScanRecord := mkScanRecord "" "" "" 0 0 0 0 0 0 fzero.

Definition FromReport (r : Report) : ScanRecord :=
  let sev := map_get 0%Z (ps_BySeverity (rep_Posture r)) in
  mkScanRecord (rep_GeneratedAt r) (rep_Source r) (rep_Profile r)
    (Z.of_nat (length (rep_Findings r)))
    (sev SeverityCritical) (sev SeverityHigh) (sev SeverityMedium) (sev SeverityLow)
    (ps_CriticalPaths (rep_Posture r)) (ps_OverallPassRate (rep_Posture r)).

(** [filepath.Ext]: from the last dot of the last element of a slash-separated path. *)
Fixpoint ext_from (best : string) (s : string) : string :=
  match s with
  | EmptyString => best
  | String c s' =>
      if Ascii.eqb c "/" then ext_from "" s'
      else if Ascii.eqb c "." then ext_from s s'
      else ext_from best s'
  end.
Definition file_ext (path : string) : string := ext_from "" path.

Inductive Backend : Type := SQLite | JSONL.

(** The backend [Open] selects. *)
Definition Open (path : string) : Backend :=
  if mem_str (to_lower (file_ext path)) [".sqlite"; ".db"; ".kgdb"] then SQLite else JSONL.

(** * The store interface

    [Append] returns the new state and the error, if any; [IO] is what the environment does
    during the call. *)

Class HistoryStore (St IO : Type) := {
  store_Append : IO → ScanRecord → St → St * option string;
  store_All : IO → St → res (list ScanRecord)
}.

(** What a backend promises: a state that holds a list of records holds one more after an append
    that reports success, and reading gives the list in order. *)
Class HistoryLaws (St IO : Type) `{HistoryStore St IO} := {
  representable : ScanRecord → Prop;
  readable : IO → Prop;
  holds : list ScanRecord → St → Prop;
  Append_holds io rs r s s' :
    holds rs s → representable r → store_Append io r s = (s', None) → holds (rs ++ [r]) s';
  All_holds io rs s : holds rs s → readable io → store_All io s = Ok rs
}.

(** Appending a list of records, stopping at the first error. *)
Fixpoint append_all {St IO} `{HistoryStore St IO} (io : IO) (rs : list ScanRecord) (s : St) : St * option string :=
  match rs with
  | [] => (s, None)
  | r :: rs' => match store_Append io r s with
                | (s', None) => append_all io rs' s'
                | (s', Some e) => (s', Some e)
                end
  end.

Lemma append_all_holds {St IO} `{HistoryLaws St IO} io rs0 rs s s' :
  holds rs0 s → (∀ r, r ∈ rs → representable r) → append_all io rs s = (s', None) → holds (rs0 ++ rs) s'.
Proof.
  revert rs0 s. induction rs as [|r rs IH]; intros rs0 s Hs Hr; simpl; [intros [= <-]; by rewrite app_nil_r|].
  destruct (store_Append io r s) as [s1 [e|]] eqn:E; [done|]. intros Hrest.
  rewrite cons_middle, app_assoc. eapply IH; [|set_solver|exact Hrest].
  eapply Append_holds; [done|apply Hr; left|done].
Qed.

(** The simplest backend: a list in memory. *)
#[export] Instance list_store : HistoryStore (list ScanRecord) unit := {
  store_Append _ r l := (l ++ [r], None);
  store_All _ l := Ok l
}.

#[export] Program Instance list_laws : HistoryLaws (list ScanRecord) unit := {
  representable _ := True;
  readable _ := True;
  holds rs l := l = rs
}.
Next Obligation. by intros io rs r s s' -> _ [= <-]. Qed.
Next Obligation. by intros io rs s -> _. Qed.

(** * JSON objects of records *)

(** The text codec: numbers, and documents as one line of text. *)
Record codec := mkCodec {
  float_json : float64 → json;
  dec_float : decoder float64;
  marshal : json → res string;
  unmarshal : string → option json
}.

Definition record_json (c : codec) (r : ScanRecord) : json :=
  JObj [("generatedAt", JStr (hr_GeneratedAt r)); ("source", JStr (hr_Source r));
        ("profile", JStr (hr_Profile r)); ("findings", JInt (hr_Findings r));
        ("critical", JInt (hr_Critical r)); ("high", JInt (hr_High r));
        ("medium", JInt (hr_Medium r)); ("low", JInt (hr_Low r));
        ("criticalPaths", JInt (hr_CriticalPaths r));
        ("overallPassRate", float_json c (hr_OverallPassRate r))].

(** The fields by their JSON names. *)
Definition record_fields (c : codec) : list (field ScanRecord) :=
  [fld "generatedAt" hr_GeneratedAt
     (λ r v, mkScanRecord v (hr_Source r) (hr_Profile r) (hr_Findings r) (hr_Critical r) (hr_High r)
               (hr_Medium r) (hr_Low r) (hr_CriticalPaths r) (hr_OverallPassRate r)) dec_string;
   fld "source" hr_Source
     (λ r v, mkScanRecord (hr_GeneratedAt r) v (hr_Profile r) (hr_Findings r) (hr_Critical r) (hr_High r)
               (hr_Medium r) (hr_Low r) (hr_CriticalPaths r) (hr_OverallPassRate r)) dec_string;
   fld "profile" hr_Profile
     (λ r v, mkScanRecord (hr_GeneratedAt r) (hr_Source r) v (hr_Findings r) (hr_Critical r) (hr_High r)
               (hr_Medium r) (hr_Low r) (hr_CriticalPaths r) (hr_OverallPassRate r)) dec_string;
   fld "findings" hr_Findings
     (λ r v, mkScanRecord (hr_GeneratedAt r) (hr_Source r) (hr_Profile r) v (hr_Critical r) (hr_High r)
               (hr_Medium r) (hr_Low r) (hr_CriticalPaths r) (hr_OverallPassRate r)) dec_int;
   fld "critical" hr_Critical
     (λ r v, mkScanRecord (hr_GeneratedAt r) (hr_Source r) (hr_Profile r) (hr_Findings r) v (hr_High r)
               (hr_Medium r) (hr_Low r) (hr_CriticalPaths r) (hr_OverallPassRate r)) dec_int;
   fld "high" hr_High
     (λ r v, mkScanRecord (hr_GeneratedAt r) (hr_Source r) (hr_Profile r) (hr_Findings r) (hr_Critical r) v
               (hr_Medium r) (hr_Low r) (hr_CriticalPaths r) (hr_OverallPassRate r)) dec_int;
   fld "medium" hr_Medium
     (λ r v, mkScanRecord (hr_GeneratedAt r) (hr_Source r) (hr_Profile r) (hr_Findings r) (hr_Critical r)
               (hr_High r) v (hr_Low r) (hr_CriticalPaths r) (hr_OverallPassRate r)) dec_int;
   fld "low" hr_Low
     (λ r v, mkScanRecord (hr_GeneratedAt r) (hr_Source r) (hr_Profile r) (hr_Findings r) (hr_Critical r)
               (hr_High r) (hr_Medium r) v (hr_CriticalPaths r) (hr_OverallPassRate r)) dec_int;
   fld "criticalPaths" hr_CriticalPaths
     (λ r v, mkScanRecord (hr_GeneratedAt r) (hr_Source r) (hr_Profile r) (hr_Findings r) (hr_Critical r)
               (hr_High r) (hr_Medium r) (hr_Low r) v (hr_OverallPassRate r)) dec_int;
   fld "overallPassRate" hr_OverallPassRate
     (λ r v, mkScanRecord (hr_GeneratedAt r) (hr_Source r) (hr_Profile r) (hr_Findings r) (hr_Critical r)
               (hr_High r) (hr_Medium r) (hr_Low r) (hr_CriticalPaths r) v) (dec_float c)].

(** [json.Marshal(r)], and [json.Unmarshal(line, &r)] into a zero record. *)
Definition marshal_record (c : codec) (r : ScanRecord) : res string := marshal c (record_json c r).

Definition unmarshal_record (c : codec) (line : string) : option ScanRecord :=
  j ← unmarshal c line;
  let '(r, type_error) := dec_struct (record_fields c) zero_record j in
  if type_error : bool then None else Some r.

(** * The file store: file.go *)

(** The file at the path, if it exists; the path, and what the calls of the operating system
    return: an error of opening or reading, and a write that fails after some bytes.  The text of
    a decoding error is not kept. *)
Definition fileStore : Type := option string.

Record file_io := mkFileIO {
  io_path : string;
  io_open : option string;
  io_write : option (nat * string);
  io_read : option string
}.

Definition io_ok (path : string) : file_io := mkFileIO path None None None.

Definition file_Append (c : codec) (io : file_io) (r : ScanRecord) (s : fileStore) : fileStore * option string :=
  match io_open io with
  | Some e => (s, Some ("open history " +:+ fmt_quote (io_path io) +:+ ": " +:+ e))
  | None =>
      (* O_CREATE *)
      let data := default "" s in
      match marshal_record c r with
      | Err e => (Some data, Some ("marshal record: " +:+ e))
      | Ok b =>
          let line := b +:+ newline ::: EmptyString in
          match io_write io with
          | Some (n, e) => (Some (data +:+ str_to n line), Some ("append history: " +:+ e))
          | None => (Some (data +:+ line), None)
          end
      end
  end.

(** The loop over the lines. *)
Fixpoint parse_lines (c : codec) (ls : list string) : res (list ScanRecord) :=
  match ls with
  | [] => Ok []
  | line :: ls' =>
      if str_len (trim_space line) =? 0 then parse_lines c ls'
      else match unmarshal_record c line with
           | None => Err "parse history line"
           | Some r => rs ← parse_lines c ls'; Ok (r :: rs)
           end
  end.

Definition file_All (c : codec) (io : file_io) (s : fileStore) : res (list ScanRecord) :=
  match s with
  | None => Ok []
  | Some data =>
      match io_read io with
      | Some e => Err ("read history " +:+ fmt_quote (io_path io) +:+ ": " +:+ e)
      | None => parse_lines c (split_on newline data)
      end
  end.

#[export] Instance file_store (c : codec) : HistoryStore fileStore file_io := {
  store_Append := file_Append c;
  store_All := file_All c
}.

(** * The record's fields survive the object *)

Definition ints_fit (r : ScanRecord) : bool :=
  in_int64 (hr_Findings r) && in_int64 (hr_Critical r) && in_int64 (hr_High r) && in_int64 (hr_Medium r)
  && in_int64 (hr_Low r) && in_int64 (hr_CriticalPaths r).

(** What the codec does with one record: its float is read back, its document is written as a
    line that is not blank, and that line is read back. *)
Record codec_ok (c : codec) (r : ScanRecord) : Prop := {
  ok_ints : ints_fit r = true;
  ok_float old : dec_float c old (float_json c (hr_OverallPassRate r)) = (hr_OverallPassRate r, false);
  ok_line : ∃ b, marshal c (record_json c r) = Ok b ∧ unmarshal c b = Some (record_json c r) ∧
    lacks newline b = true ∧ trim_space b ≠ ""
}.

Lemma dec_int_fits old z : in_int64 z = true → dec_int old (JInt z) = (z, false).
Proof. intros H. unfold dec_int. by rewrite H. Qed.

(** One member of the object, whose value is decoded without error. *)
Lemma dec_members_step {S} (fields : list (field S)) k f s j s' l :
  find_field fields k = Some f → f.2 s j = (s', false) →
  foldl (dec_member fields) (s, false) ((k, j) :: l) = foldl (dec_member fields) (s', false) l.
Proof. intros Hf Hd. cbn [foldl]. unfold dec_member at 2. cbn [fst snd]. by rewrite Hf, Hd. Qed.

Lemma dec_record c r :
  codec_ok c r → dec_struct (record_fields c) zero_record (record_json c r) = (r, false).
Proof.
  intros [Hi Hf _]. unfold ints_fit in Hi. boolify. destruct r. cbn in * |-.
  change (foldl (dec_member (record_fields c)) (zero_record, false)
    [("critical", JInt hr_Critical0); ("criticalPaths", JInt hr_CriticalPaths0);
     ("findings", JInt hr_Findings0); ("generatedAt", JStr hr_GeneratedAt0); ("high", JInt hr_High0);
     ("low", JInt hr_Low0); ("medium", JInt hr_Medium0);
     ("overallPassRate", float_json c hr_OverallPassRate0); ("profile", JStr hr_Profile0);
     ("source", JStr hr_Source0)] = (mkScanRecord hr_GeneratedAt0 hr_Source0 hr_Profile0 hr_Findings0
       hr_Critical0 hr_High0 hr_Medium0 hr_Low0 hr_CriticalPaths0 hr_OverallPassRate0, false)).
  do 10 (etransitivity;
    [eapply dec_members_step;
      [reflexivity
      |cbn -[dec_int dec_float float_json]; first [rewrite dec_int_fits by assumption|rewrite Hf|idtac]; reflexivity]|]).
  reflexivity.
Qed.

Lemma record_roundtrip c r :
  codec_ok c r → ∃ b, marshal_record c r = Ok b ∧ unmarshal_record c b = Some r ∧
    lacks newline b = true ∧ trim_space b ≠ "".
Proof.
  intros Hok. destruct (ok_line c r Hok) as (b & Hm & Hu & ? & ?). exists b. split_and!; [done| |done..].
  unfold unmarshal_record. rewrite Hu. cbn [mbind option_bind]. by rewrite dec_record.
Qed.

(** * The file store keeps the promise of the interface *)

(** A file that does not exist holds nothing; one that does is the lines of its records. *)
Definition file_holds (c : codec) (rs : list ScanRecord) (s : fileStore) : Prop :=
  Forall (codec_ok c) rs ∧
  ∃ bs, Forall2 (λ r b, marshal_record c r = Ok b) rs bs ∧
    default "" s = String.concat "" (map (λ b, b +:+ newline ::: EmptyString) bs) ∧
    (s = None → rs = []).

Lemma concat_snoc l x : String.concat "" (l ++ [x]) = String.concat "" l +:+ x.
Proof.
  induction l as [|y l IH]; [done|]. destruct l as [|z l]; [done|].
  change (y +:+ String.concat "" ((z :: l) ++ [x]) = (y +:+ String.concat "" (z :: l)) +:+ x).
  by rewrite IH, str_app_assoc.
Qed.

Lemma file_Append_holds c io rs r s s' :
  file_holds c rs s → codec_ok c r → file_Append c io r s = (s', None) → file_holds c (rs ++ [r]) s'.
Proof.
  intros (Hok & bs & Hbs & Hd & _) Hr. unfold file_Append.
  destruct (io_open io); [done|]. destruct (record_roundtrip c r Hr) as (b & Hb & _). rewrite Hb.
  destruct (io_write io) as [[]|]; [done|]. intros [= <-].
  split; [by apply Forall_app_2; [|constructor]|]. exists (bs ++ [b]). split_and!; [| |done].
  - by apply Forall2_app; [|constructor].
  - rewrite map_app. simpl. rewrite concat_snoc. by f_equal.
Qed.

Lemma file_All_holds c io rs s : file_holds c rs s → io_read io = None → file_All c io s = Ok rs.
Proof.
  intros (Hok & bs & Hbs & Hd & Hnone) Hio. unfold file_All.
  destruct s as [data|]; [|by rewrite Hnone]. rewrite Hio. simpl in Hd. subst data.
  assert (∀ b, b ∈ bs → lacks newline b = true) as Hlines.
  { intros b Hb. apply list_elem_of_lookup in Hb as [i Hi].
    destruct (Forall2_lookup_r _ _ _ _ _ Hbs Hi) as (r & Hri & Hm).
    destruct (record_roundtrip c r) as (b' & Hm' & _ & ? & _); [by eapply Forall_lookup_1|]. congruence. }
  rewrite split_on_lines by done. clear Hlines Hnone.
  induction Hbs as [|r b rs bs Hm Hbs IH]; [done|]. apply Forall_cons in Hok as [Hr Hok].
  destruct (record_roundtrip c r Hr) as (b' & Hm' & Hu & _ & Hne).
  assert (b' = b) as -> by congruence. cbn [app parse_lines].
  destruct (Nat.eqb_spec (str_len (trim_space b)) 0) as [E|_]; [by destruct (trim_space b)|].
  rewrite Hu, (IH Hok). done.
Qed.

#[export] Instance file_laws (c : codec) : @HistoryLaws fileStore file_io (file_store c) := {
  representable := codec_ok c;
  readable io := io_read io = None;
  holds := file_holds c;
  Append_holds := file_Append_holds c;
  All_holds := file_All_holds c
}.

(** The file store round-trips: the records appended to a new file, or to one that holds
    earlier records, are read back in order after the earlier ones, whatever their strings hold,
    as long as the calls of the operating system succeed and the JSON text of each record is one
    line that decodes to the same document.  A file that does not exist reads as no records. *)
Theorem history_roundtrip c io rs0 rs s s' :
  file_holds c rs0 s → (∀ r, r ∈ rs → codec_ok c r) → io_read io = None →
  append_all (H := file_store c) io rs s = (s', None) →
  file_holds c [] None ∧ file_holds c (rs0 ++ rs) s' ∧ file_All c io s' = Ok (rs0 ++ rs).
Proof.
  intros Hs Hr Hio Happ.
  assert (file_holds c (rs0 ++ rs) s') as Hs' by exact (append_all_holds (H0 := file_laws c) io rs0 rs s s' Hs Hr Happ).
  split_and!; [|done|by apply file_All_holds]. split; [constructor|]. by exists [].
Qed.

Lemma parse_lines_bad c ls1 line ls2 :
  trim_space line ≠ "" → unmarshal_record c line = None →
  parse_lines c (ls1 ++ line :: ls2) = Err "parse history line".
Proof.
  intros Hne Hu.
  assert (∀ l, trim_space l ≠ "" → (str_len (trim_space l) =? 0) = false) as Hlen.
  { intros l Hl. apply Nat.eqb_neq. by destruct (trim_space l). }
  induction ls1 as [|l ls1 IH]; cbn [app parse_lines]; [by rewrite Hlen, Hu|].
  destruct (str_len (trim_space l) =? 0); [done|]. destruct (unmarshal_record c l); [by rewrite IH|done].
Qed.

(** A write that stops in the middle of a line: the next record continues that line, and when the
    glued line does not decode, no record of the history can be read any more. *)
Lemma torn_write_unreadable c path n e rs r r' s s1 s2 b b' :
  file_holds c rs s → marshal_record c r = Ok b → marshal_record c r' = Ok b' →
  lacks newline (str_to n (b +:+ newline ::: EmptyString)) = true → lacks newline b' = true →
  file_Append c (mkFileIO path None (Some (n, e)) None) r s = (s1, Some ("append history: " +:+ e)) →
  file_Append c (io_ok path) r' s1 = (s2, None) →
  let glued := str_to n (b +:+ newline ::: EmptyString) +:+ b' in
  trim_space glued ≠ "" → unmarshal_record c glued = None →
  file_All c (io_ok path) s2 = Err "parse history line".
Proof.
  intros (Hok & bs & Hbs & Hd & _) Hb Hb' Hl Hl'. unfold file_Append. cbn [io_open io_write].
  rewrite Hb. intros [= <-]. cbn [io_ok io_open io_write]. rewrite Hb'. intros [= <-] Hne Hu.
  set (glued := str_to n (b +:+ newline ::: EmptyString) +:+ b') in *.
  unfold file_All. cbn [io_read io_ok default]. rewrite Hd.
  assert (String.concat "" (map (λ b, b +:+ newline ::: EmptyString) (bs ++ [glued]))
    = ((String.concat "" (map (λ b, b +:+ newline ::: EmptyString) bs)
        +:+ str_to n (b +:+ newline ::: EmptyString)) +:+ b' +:+ newline ::: EmptyString)) as <-.
  { rewrite map_app. simpl. rewrite concat_snoc. unfold glued. by rewrite <-!str_app_assoc. }
  rewrite split_on_lines.
  - rewrite <-app_assoc. by apply parse_lines_bad.
  - intros l [Hin|Hin]%elem_of_app.
    + apply list_elem_of_lookup in Hin as [i Hi].
      destruct (Forall2_lookup_r _ _ _ _ _ Hbs Hi) as (x & Hx & Hm).
      destruct (record_roundtrip c x) as (b2 & Hm' & _ & ? & _); [by eapply Forall_lookup_1|]. congruence.
    + apply list_elem_of_singleton in Hin as ->. unfold glued. by rewrite lacks_app, Hl, Hl'.
Qed.

Lemma Open_extension path :
  Open path = SQLite ↔ to_lower (file_ext path) ∈ [".sqlite"; ".db"; ".kgdb"].
Proof.
  unfold Open. rewrite <-mem_str_spec. destruct (mem_str _ _); done.
Qed.

Example Open_ex : Open "/var/h.d/Scan.SQLite" = SQLite ∧ Open "/var/h.db/scan" = JSONL ∧ Open "x.jsonl" = JSONL.
Proof. repeat split; vm_compute; reflexivity. Qed.

(** A codec on which the hypotheses hold: it writes one fixed document. *)
Definition ex_record : ScanRecord := mkScanRecord "2024-01-01T00:00:00Z" "m.yaml" "cis" 3 1 2 0 0 1 fone.

Definition ex_codec : codec :=
  mkCodec (λ _, JFloat "1") (λ old j, match j with JFloat "1" => (fone, false) | _ => (old, true) end)
    (λ _, Ok "{doc}")
    (λ line, if line =s "{doc}" then Some (record_json (mkCodec (λ _, JFloat "1") (λ o _, (o, false))
      (λ _, Ok "") (λ _, None)) ex_record) else None).

Lemma ex_codec_ok : codec_ok ex_codec ex_record.
Proof. split; [vm_compute; done|done|]. exists "{doc}". by vm_compute. Qed.

Definition ex_file : string := String.concat "" (map (λ b, b +:+ newline ::: EmptyString) ["{doc}"; "{doc}"]).

Lemma history_roundtrip_witness :
  file_holds ex_codec [] None ∧ file_holds ex_codec ([] ++ [ex_record; ex_record]) (Some ex_file) ∧
  file_All ex_codec (io_ok "history.jsonl") (Some ex_file) = Ok [ex_record; ex_record].
Proof.
  refine (history_roundtrip ex_codec (io_ok "history.jsonl") [] [ex_record; ex_record] None (Some ex_file) _ _ _ _).
  - split; [constructor|]. by exists [].
  - intros r [-> |[-> |[]%not_elem_of_nil]%elem_of_cons]%elem_of_cons; apply ex_codec_ok.
  - reflexivity.
  - vm_compute. reflexivity.
Defined.
