(* ===== verification/HistoryBackends.v ===== *)
(** The history on the concrete formats (internal/history): the JSONL file with the text of
    encoding/json, the SQLite store (sqlite.go) as the rows of its table, and the store [Open] of
    store.go picks by the path.

    A REAL column gives back what [real_column] says, [None] for NULL: the driver and the database
    are not under src/.  Each statement may fail, with the error the driver returns. *)

From Stdlib Require Import Ascii SpecFloat.
From S2P Require Import Prelude GoStrings GoFloat GoFmt GoJson GoJsonText Api History.

(** * The JSON text of records *)

(** [encoding/json] as the codec of the file store. *)
Definition go_codec : codec := mkCodec float_member GoJsonText.dec_float go_marshal Unmarshal.

(** A record the file store can hold: 64-bit counts, valid UTF-8, a rate that is a number. *)
Definition record_fits (r : ScanRecord) : bool :=
  ints_fit r && utf8_valid (hr_GeneratedAt r) && utf8_valid (hr_Source r) && utf8_valid (hr_Profile r)
  && float_prints (hr_OverallPassRate r).

Lemma trim_space_first c s : is_space c = false → trim_space (c ::: s) ≠ "".
Proof. intros H. unfold trim_space. cbn [trim_left]. rewrite H. cbn [trim_right_by]. destruct (trim_right_by is_space s); by rewrite ?H. Qed.

(** The codec meets what the file store asks of it. *)
Lemma go_codec_ok r : record_fits r = true → codec_ok go_codec r.
Proof.
  unfold record_fits. rewrite !andb_true_iff. intros [[[[Hi Hg] Hs] Hp] Hf].
  destruct (json_float_reads _ Hf) as (j & Hj & Hok & Hd).
  assert (float_json go_codec (hr_OverallPassRate r) = j) as Hm by (cbn; unfold float_member; by rewrite Hj).
  assert (json_ok (record_json go_codec r) = true) as Hr.
  { unfold record_json. rewrite Hm. cbn [json_ok forallb fst snd]. rewrite Hg, Hs, Hp, Hok. reflexivity. }
  split; [done|intros old; by rewrite Hm|]. exists (Marshal (record_json go_codec r)). split_and!.
  - cbn. unfold go_marshal, supported. by rewrite json_ok_supported.
  - by apply Unmarshal_Marshal.
  - by apply printable_lacks, Marshal_printable.
  - apply trim_space_first. reflexivity.
Qed.

(** A rate that is no number is refused, and nothing is written. *)
Lemma append_unsupported io r s :
  io_open io = None → json_float (hr_OverallPassRate r) = None → read_number (fmt_v (hr_OverallPassRate r)) = None →
  file_Append go_codec io r s =
  (Some (default "" s), Some ("marshal record: json: unsupported value: " +:+ fmt_v (hr_OverallPassRate r))).
Proof.
  intros Ho Hf Hn. unfold file_Append, marshal_record. rewrite Ho. cbn [go_codec marshal]. unfold go_marshal, supported, record_json.
  cbn [go_codec float_json unsupported first_some snd]. unfold float_member. rewrite Hf. cbn [default from_option unsupported].
  by rewrite Hn.
Qed.

(** * The SQLite store: sqlite.go *)

Section sqlite.
Variable real_column : float64 → option float64.

(** A row of the table; [overall_pass_rate] may be NULL. *)
Record sqlite_row := mkSqliteRow {
  sq_id : Z;
  sq_record : ScanRecord;
  sq_overall_pass_rate : option float64
}.

(** The table, and the largest id AUTOINCREMENT has given. *)
Record sqliteStore := mkSqliteStore { sq_rows : list sqlite_row; sq_seq : Z }.

Record sqlite_io := mkSqliteIO { db_exec : option string; db_query : option string }.

(** [sql.Open] and the schema: an existing table is kept. *)
Definition OpenSQLite (path : string) (open_err exec_err : option string) (file : option sqliteStore) : res sqliteStore :=
  match open_err, exec_err with
  | Some e, _ => Err ("open sqlite " +:+ fmt_quote path +:+ ": " +:+ e)
  | None, Some e => Err ("init sqlite schema: " +:+ e)
  | None, None => Ok (default (mkSqliteStore [] 0) file)
  end.

Definition sqlite_Append (io : sqlite_io) (r : ScanRecord) (s : sqliteStore) : sqliteStore * option string :=
  match db_exec io with
  | Some e => (s, Some ("insert scan: " +:+ e))
  | None =>
      let id := (sq_seq s + 1)%Z in
      (mkSqliteStore (sq_rows s ++ [mkSqliteRow id r (real_column (hr_OverallPassRate r))]) id, None)
  end.

(** [rows.Scan]: the columns in order; NULL does not convert to a float64. *)
Definition scan_row (r : sqlite_row) : res ScanRecord :=
  match sq_overall_pass_rate r with
  | None => Err ("scan row: sql: Scan error on column index 9, name " +:+ fmt_quote "overall_pass_rate"
                 +:+ ": converting NULL to float64 is unsupported")
  | Some x =>
      let c := sq_record r in
      Ok (mkScanRecord (hr_GeneratedAt c) (hr_Source c) (hr_Profile c) (hr_Findings c) (hr_Critical c) (hr_High c)
            (hr_Medium c) (hr_Low c) (hr_CriticalPaths c) x)
  end.

Fixpoint scan_rows (rs : list sqlite_row) : res (list ScanRecord) :=
  match rs with
  | [] => Ok []
  | r :: rs' => c ← scan_row r; out ← scan_rows rs'; Ok (c :: out)
  end.

(** [ORDER BY id] *)
Definition sqlite_All (io : sqlite_io) (s : sqliteStore) : res (list ScanRecord) :=
  match db_query io with
  | Some e => Err ("query scans: " +:+ e)
  | None => scan_rows (slice_stable (λ a b, (sq_id a <? sq_id b)%Z) (sq_rows s))
  end.

#[export] Instance sqlite_store : HistoryStore sqliteStore sqlite_io := {
  store_Append := sqlite_Append;
  store_All := sqlite_All
}.

(** ** The table holds the records *)

(** The ids are ascending and at most the counter, so the order of insertion is that of the ids. *)
Definition ids_ok (s : sqliteStore) : Prop :=
  sorted_by (λ a b, (sq_id a <? sq_id b)%Z) (sq_rows s) ∧ Forall (λ r, (sq_id r <= sq_seq s)%Z) (sq_rows s).

Definition column_keeps (r : ScanRecord) : Prop := real_column (hr_OverallPassRate r) = Some (hr_OverallPassRate r).

Definition sqlite_holds (rs : list ScanRecord) (s : sqliteStore) : Prop :=
  ids_ok s ∧ map sq_record (sq_rows s) = rs ∧
  Forall (λ r, sq_overall_pass_rate r = Some (hr_OverallPassRate (sq_record r))) (sq_rows s).

#[local] Instance id_order : StrictWeak (λ a b : sqlite_row, (sq_id a <? sq_id b)%Z).
Proof.
  split.
  - intros x. apply Z.ltb_irrefl.
  - intros x y z. rewrite !Z.ltb_lt. lia.
  - intros x y z. rewrite !Z.ltb_lt. lia.
Qed.

Lemma sqlite_Append_ids io r s : ids_ok s → ids_ok (sqlite_Append io r s).1.
Proof.
  intros [Hs Hb]. unfold sqlite_Append. destruct (db_exec io); [done|]. split; cbn [sq_rows sq_seq].
  - apply StronglySorted_app_2; [|done|repeat constructor]. intros x y Hx ->%list_elem_of_singleton. cbn.
    rewrite Forall_forall in Hb. specialize (Hb x Hx). apply Z.ltb_ge. lia.
  - apply Forall_app. split; [|by constructor]. eapply Forall_impl; [done|]. cbn. lia.
Qed.

Lemma sqlite_Append_holds io rs r s s' :
  sqlite_holds rs s → column_keeps r → sqlite_Append io r s = (s', None) → sqlite_holds (rs ++ [r]) s'.
Proof.
  intros (Hi & Hr & Hc) Hk Ha. pose proof (sqlite_Append_ids io r s Hi) as Hi'. rewrite Ha in Hi'. split; [done|].
  unfold sqlite_Append in Ha. destruct (db_exec io); [done|]. injection Ha as <-. cbn [sq_rows]. split.
  - by rewrite map_app, Hr.
  - apply Forall_app. split; [done|]. constructor; [exact Hk|constructor].
Qed.

Lemma scan_rows_ok rows :
  Forall (λ r, sq_overall_pass_rate r = Some (hr_OverallPassRate (sq_record r))) rows →
  scan_rows rows = Ok (map sq_record rows).
Proof.
  induction 1 as [|r rows Hr _ IH]; [done|]. cbn [scan_rows map]. unfold scan_row. rewrite Hr, IH.
  destruct (sq_record r). reflexivity.
Qed.

Lemma sqlite_All_holds io rs s : sqlite_holds rs s → db_query io = None → sqlite_All io s = Ok rs.
Proof.
  intros ([Hs _] & <- & Hc) Hio. unfold sqlite_All. rewrite Hio, (slice_stable_id _ _ Hs). by apply scan_rows_ok.
Qed.

#[export] Instance sqlite_laws : HistoryLaws sqliteStore sqlite_io := {
  representable := column_keeps;
  readable io := db_query io = None;
  holds := sqlite_holds;
  Append_holds := sqlite_Append_holds;
  All_holds := sqlite_All_holds
}.

(** One rate the column gives back as NULL, NaN for SQLite, and the whole history is unreadable. *)
Lemma null_rate_unreadable io rs r s s' :
  sqlite_holds rs s → real_column (hr_OverallPassRate r) = None → sqlite_Append io r s = (s', None) →
  db_query io = None → ∃ e, sqlite_All io s' = Err ("scan row: " +:+ e).
Proof.
  intros (Hi & _ & Hc) Hn Ha Hq. pose proof (sqlite_Append_ids io r s Hi) as [Hs' _]. rewrite Ha in Hs'.
  cbn [fst] in Hs'. unfold sqlite_All. rewrite Hq, (slice_stable_id _ _ Hs'). unfold sqlite_Append in Ha.
  destruct (db_exec io); [done|]. injection Ha as <-. cbn [sq_rows]. rewrite Hn. clear -Hc.
  induction Hc as [|x l Hx Hl (e & IH)]; [by eexists|]. exists e. cbn [app scan_rows]. unfold scan_row at 1.
  by rewrite Hx, IH.
Qed.

(** * The store [Open] picks *)

Inductive historyStore := OnFile (f : fileStore) | OnTable (t : sqliteStore).

Record history_io := mkHistoryIO { hi_file : file_io; hi_db : sqlite_io }.

(** [Open] on what is at the path. *)
Definition open_history (path : string) (open_err exec_err : option string) (file : fileStore)
    (table : option sqliteStore) : res historyStore :=
  match Open path with
  | SQLite => t ← OpenSQLite path open_err exec_err table; Ok (OnTable t)
  | JSONL => Ok (OnFile file)
  end.

Definition history_Append (io : history_io) (r : ScanRecord) (s : historyStore) : historyStore * option string :=
  match s with
  | OnFile f => let '(f, e) := file_Append go_codec (hi_file io) r f in (OnFile f, e)
  | OnTable t => let '(t, e) := sqlite_Append (hi_db io) r t in (OnTable t, e)
  end.

Definition history_All (io : history_io) (s : historyStore) : res (list ScanRecord) :=
  match s with
  | OnFile f => file_All go_codec (hi_file io) f
  | OnTable t => sqlite_All (hi_db io) t
  end.

#[export] Instance history_store : HistoryStore historyStore history_io := {
  store_Append := history_Append;
  store_All := history_All
}.

Definition history_holds (rs : list ScanRecord) (s : historyStore) : Prop :=
  match s with OnFile f => file_holds go_codec rs f | OnTable t => sqlite_holds rs t end.

Definition keepable (r : ScanRecord) : Prop := record_fits r = true ∧ column_keeps r.

#[export] Program Instance history_laws : HistoryLaws historyStore history_io := {
  representable := keepable;
  readable io := io_read (hi_file io) = None ∧ db_query (hi_db io) = None;
  holds := history_holds
}.
Next Obligation.
  intros io rs r [f|t] s' Hs [Hf Hk]; cbn [store_Append history_store history_Append].
  - destruct (file_Append _ _ r f) as [f' e] eqn:E. intros [= <- ->].
    eapply file_Append_holds; [exact Hs|by apply go_codec_ok|exact E].
  - destruct (sqlite_Append _ r t) as [t' e] eqn:E. intros [= <- ->].
    eapply sqlite_Append_holds; [exact Hs|exact Hk|exact E].
Qed.
Next Obligation.
  intros io rs [f|t] Hs [Hf Hd]; [by apply file_All_holds|by apply sqlite_All_holds].
Qed.

(** What is at the path holds the records: nothing, or what the backend of the path wrote. *)
Definition at_path (path : string) (rs : list ScanRecord) (file : fileStore) (table : option sqliteStore) : Prop :=
  match Open path with
  | SQLite => match table with Some t => sqlite_holds rs t | None => rs = [] end
  | JSONL => file_holds go_codec rs file
  end.

Lemma open_holds path oe ee rs file table s :
  at_path path rs file table → open_history path oe ee file table = Ok s → history_holds rs s.
Proof.
  unfold at_path, open_history. destruct (Open path); [|by intros H [= <-]].
  unfold OpenSQLite. destruct oe; [done|]. destruct ee; [done|]. destruct table as [t|]; cbn.
  - by intros H [= <-].
  - intros -> [= <-]. cbn. split; [|done]. split; constructor.
Qed.

(** C27: The history survives on either backend.  Whatever the path, the records appended
    to the store [Open] picks for it are read back in order after those that were there, with the
    text of encoding/json on the file and the table on SQLite, as long as the calls succeed and each
    record is one the backends can hold: counts of 64 bits, valid UTF-8, and a rate that is a number
    and comes back from its column. *)
Theorem history_kept path oe ee file table rs0 rs io s s' :
  at_path path rs0 file table → open_history path oe ee file table = Ok s →
  (∀ r, r ∈ rs → keepable r) → io_read (hi_file io) = None → db_query (hi_db io) = None →
  append_all io rs s = (s', None) →
  history_All io s' = Ok (rs0 ++ rs) ∧ match s' with OnFile _ => Open path = JSONL | OnTable _ => Open path = SQLite end.
Proof.
  intros Hp Ho Hr Hf Hd Ha. split.
  - apply (@All_holds _ _ history_store history_laws io (rs0 ++ rs) s'); [|by split].
    refine (@append_all_holds _ _ history_store history_laws io rs0 rs s s' _ Hr Ha). by eapply open_holds.
  - assert (match s with OnFile _ => Open path = JSONL | OnTable _ => Open path = SQLite end) as Hs.
    { unfold open_history in Ho. destruct (Open path) eqn:E; [|by injection Ho as <-].
      destruct (OpenSQLite _ _ _ _); [|done]. by injection Ho as <-. }
    clear -Hs Ha. revert s Hs Ha. induction rs as [|r rs IH]; intros s Hs; cbn [append_all]; [by intros [= <-]|].
    destruct (store_Append io r s) as [s1 [e|]] eqn:E; [done|]. apply IH.
    destruct s as [f|t]; cbn in E.
    + destruct (file_Append _ _ r f). by injection E as <- _.
    + destruct (sqlite_Append _ r t). by injection E as <- _.
Qed.
End sqlite.

(** * Concrete inputs *)

(** SQLite keeps every number and stores NaN as NULL. *)
Definition sqlite_real (x : float64) : option float64 :=
  match x with S754_nan => None | S754_zero _ => Some fzero | x => Some x end.

Definition third_record : ScanRecord :=
  mkScanRecord "2024-01-02T00:00:00Z" "a
b" "cis" 3 1 2 0 0 1 (fdiv fone (float_of_int 3)).

Lemma third_keepable : keepable sqlite_real third_record ∧ keepable sqlite_real ex_record.
Proof. split; (split; [vm_compute; reflexivity|reflexivity]). Qed.

(** The line of a record. *)
Example record_line :
  marshal_record go_codec third_record = Ok (replace_bytes (λ c, if Ascii.eqb c "'" then Some dquote else None)
    "{'generatedAt':'2024-01-02T00:00:00Z','source':'a\nb','profile':'cis','findings':3,'critical':1,'high':2,'medium':0,'low':0,'criticalPaths':1,'overallPassRate':0.3333333333333333}").
Proof. vm_compute. reflexivity. Qed.

Definition written (path : string) : res (list ScanRecord) :=
  let io := mkHistoryIO (io_ok path) (mkSqliteIO None None) in
  s ← open_history path None None None None;
  history_All io (append_all (H := history_store sqlite_real) io [third_record; ex_record] s).1.

Example written_ex : map written ["h.jsonl"; "h.db"] = [Ok [third_record; ex_record]; Ok [third_record; ex_record]].
Proof. vm_compute. reflexivity. Qed.

Lemma history_kept_witness :
  let io := mkHistoryIO (io_ok "h.jsonl") (mkSqliteIO None None) in
  ∃ s', history_All io s' = Ok [third_record; ex_record] ∧
    match s' with OnFile _ => Open "h.jsonl" = JSONL | OnTable _ => Open "h.jsonl" = SQLite end.
Proof.
  intros io.
  exists (append_all (H := history_store sqlite_real) io [third_record; ex_record] (OnFile None)).1.
  refine (history_kept sqlite_real "h.jsonl" None None None None [] [third_record; ex_record] io (OnFile None) _
    _ eq_refl _ eq_refl eq_refl _).
  - split; [constructor|]. by exists [].
  - intros r [-> |[-> |[]%not_elem_of_nil]%elem_of_cons]%elem_of_cons; apply third_keepable.
  - vm_compute. reflexivity.
Defined.
