(* ===== verification/Offline.v ===== *)
(** The manifest loader (internal/loader/offline/load.go).

    Parameters: the file system ([stat], [readFile] and the entries [filepath.WalkDir] visits, in
    its order), the JSON text parser, and the YAML stream decoder, which gives the documents of a
    text in order, the first failure last. *)

From Stdlib Require Import Ascii.
From S2P Require Import Prelude GoStrings GoJson GoFmt Model History.

(** * Documents to resources *)

Definition stringOf (v : option json) : string := as_string v.

Definition toStringMap (v : option json) : gmap string string :=
  foldl (λ out kv, <[kv.1 := stringOf (Some kv.2)]> out) ∅ (as_map v).

Definition toMaps (v : option json) : list json_members :=
  match v with
  | Some (JArr items) => omap (λ it, match it with JObj m => Some m | _ => None end) items
  | _ => []
  end.

Definition has_key (k : string) (m : json_members) : bool :=
  match member k m with Some _ => true | None => false end.

Definition toResource (raw : json_members) : option Resource :=
  let kind := as_string (member "kind" raw) in
  if kind =s "" then None
  else
    let meta := as_map (member "metadata" raw) in
    let name := as_string (member "name" meta) in
    let ns := as_string (member "namespace" meta) in
    let uid := as_string (member "uid" meta) in
    let r := mkResource (stringOf (member "apiVersion" raw)) kind ns name ""
      (toStringMap (member "labels" meta)) (toStringMap (member "annotations" meta)) raw in
    let uid := if uid <>s "" then uid else Ref r in
    Some (mkResource (APIVersion r) (Kind r) (Namespace r) (Name r) uid (Labels r) (Annotations r) (Raw r)).

Definition resourcesFromMaps (items : list json_members) : list Resource := omap toResource items.

Definition isList (raw : json_members) : bool :=
  if as_string (member "kind" raw) =s "List" then true
  else has_key "items" raw && negb (has_key "kind" raw).

Definition expand (raw : json_members) : list Resource :=
  if isList raw then resourcesFromMaps (toMaps (member "items" raw))
  else match toResource raw with Some r => [r] | None => [] end.

(** * Files *)

Definition hasManifestExt (p : string) : bool :=
  mem_str (to_lower (file_ext p)) [".yaml"; ".yml"; ".json"].

(** [json.Unmarshal] of a document into [[]map[string]any]: an element that is neither an object
    nor null is a type error. *)
Definition map_elem (j : json) : res json_members :=
  match j with JObj m => Ok m | JNull => Ok [] | _ => Err "cannot unmarshal into map" end.

Definition unmarshal_maps (j : json) : res (list json_members) :=
  match j with
  | JArr js => map_res map_elem js
  | JNull => Ok []
  | _ => Err "cannot unmarshal into slice"
  end.

Section load.
Variable parse_json : string → res json.
Variable yaml_docs : string → list (res json_members).

(** The loop of [decodeDocuments]. *)
Fixpoint decode_loop (src : string) (idx : nat) (docs : list (res json_members)) (out : list Resource)
    : res (list Resource) :=
  match docs with
  | [] => Ok out
  | Err e :: _ => Err (src +:+ " [doc " +:+ fmt_int (Z.of_nat idx) +:+ "]: decode: " +:+ e)
  | Ok raw :: docs' =>
      if Nat.eqb (length raw) 0 then decode_loop src (S idx) docs' out
      else decode_loop src (S idx) docs' (out ++ expand raw)
  end.

Definition is_array_text (trimmed : string) : bool :=
  match trimmed with String c _ => Ascii.eqb c "[" | EmptyString => false end.

Definition decodeDocuments (data src : string) : res (list Resource) :=
  let trimmed := trim_space data in
  if is_array_text trimmed then
    items ← wrap_err (src +:+ ": snapshot array: ") (j ← parse_json trimmed; unmarshal_maps j);
    Ok (resourcesFromMaps items)
  else decode_loop src 0 (yaml_docs data) [].

(** The file system: whether a path is a directory, the contents of a file, and the entries a walk
    visits, with the error of an entry that cannot be read. *)
Record FileSystem := mkFileSystem {
  fs_stat : string → res bool;
  fs_readFile : string → res string;
  fs_walk : string → list (string * res bool)
}.

Variable fs : FileSystem.

Definition loadFile (path : string) : res (list Resource) :=
  data ← wrap_err ("read " +:+ fmt_quote path +:+ ": ") (fs_readFile fs path);
  decodeDocuments data path.

(** The walk with its callback; the first error ends it. *)
Fixpoint walk_loop (entries : list (string * res bool)) (out : list Resource) : res (list Resource) :=
  match entries with
  | [] => Ok out
  | (p, d) :: entries' =>
      match d with
      | Err e => Err e
      | Ok isDir =>
          if isDir || negb (hasManifestExt p) then walk_loop entries' out
          else rs ← loadFile p; walk_loop entries' (out ++ rs)
      end
  end.

Definition loadDir (dir : string) : res (list Resource) :=
  wrap_err ("walk " +:+ fmt_quote dir +:+ ": ") (walk_loop (fs_walk fs dir) []).

Definition Load (path : string) : res (list Resource) :=
  isDir ← wrap_err ("stat " +:+ fmt_quote path +:+ ": ") (fs_stat fs path);
  if isDir : bool then loadDir path else loadFile path.

(** * Specification

    [manifest_of data m]: the text [data] holds the manifest [m], as an element of a snapshot
    array, as a document, or as an item of a list document. *)

Inductive manifest_of (data : string) (m : json_members) : Prop :=
| ManifestArray j items :
    is_array_text (trim_space data) = true → parse_json (trim_space data) = Ok j →
    unmarshal_maps j = Ok items → m ∈ items → manifest_of data m
| ManifestDoc :
    is_array_text (trim_space data) = false → Ok m ∈ yaml_docs data → isList m = false →
    manifest_of data m
| ManifestItem raw :
    is_array_text (trim_space data) = false → Ok raw ∈ yaml_docs data → isList raw = true →
    m ∈ toMaps (member "items" raw) → manifest_of data m.

(** The files a path stands for. *)
Inductive file_of (path : string) (p : string) : Prop :=
| FileItself : fs_stat fs path = Ok false → p = path → file_of path p
| FileWalked : fs_stat fs path = Ok true → (p, Ok false) ∈ fs_walk fs path → hasManifestExt p = true →
    file_of path p.

Lemma toResource_None m : toResource m = None ↔ as_string (member "kind" m) = "".
Proof. unfold toResource. destruct (String.eqb_spec (as_string (member "kind" m)) ""); naive_solver. Qed.

Lemma toResource_nil : toResource [] = None.
Proof. reflexivity. Qed.

Lemma elem_of_expand r raw :
  r ∈ expand raw ↔
  ∃ m, (if isList raw then m ∈ toMaps (member "items" raw) else m = raw) ∧ toResource m = Some r.
Proof.
  unfold expand. destruct (isList raw); [apply list_elem_of_omap|].
  destruct (toResource raw) as [r'|] eqn:E.
  - rewrite list_elem_of_singleton. split; [intros ->; eauto|]. intros (m & -> & H). congruence.
  - split; [by intros []%not_elem_of_nil|]. intros (m & -> & H). congruence.
Qed.

Lemma decode_loop_Ok src idx docs out rs :
  decode_loop src idx docs out = Ok rs →
  ∃ raws, docs = map Ok raws ∧ rs = out ++ flat_map expand raws.
Proof.
  revert idx out. induction docs as [|[raw|e] docs IH]; intros idx out; cbn [decode_loop].
  - intros [= <-]. exists []. by rewrite app_nil_r.
  - destruct (Nat.eqb_spec (length raw) 0) as [E|_]; intros (raws & -> & ->)%IH; exists (raw :: raws).
    + by destruct raw.
    + by rewrite <-app_assoc.
  - done.
Qed.

Lemma decode_loop_is_ok src idx docs out :
  is_ok (decode_loop src idx docs out) = true ↔ ∀ d, d ∈ docs → is_ok d = true.
Proof.
  revert idx out. induction docs as [|[raw|e] docs IH]; intros idx out; cbn [decode_loop].
  - split; [|done]. by intros _ d []%not_elem_of_nil.
  - destruct (Nat.eqb (length raw) 0); rewrite IH; setoid_rewrite elem_of_cons; naive_solver.
  - split; [done|]. intros H. specialize (H (Err e) ltac:(left)). done.
Qed.

Lemma elem_of_resourcesFromMaps r items :
  r ∈ resourcesFromMaps items ↔ ∃ m, m ∈ items ∧ toResource m = Some r.
Proof. apply list_elem_of_omap. Qed.

Lemma wrap_err_Ok {A} pre (x : res A) y : wrap_err pre x = Ok y ↔ x = Ok y.
Proof. by destruct x. Qed.

Lemma decodeDocuments_elem data src rs :
  decodeDocuments data src = Ok rs →
  ∀ r, r ∈ rs ↔ ∃ m, manifest_of data m ∧ toResource m = Some r.
Proof.
  unfold decodeDocuments. destruct (is_array_text (trim_space data)) eqn:Ea.
  - destruct (parse_json (trim_space data)) as [j|] eqn:Ej; [|done]. cbn [mbind res_bind].
    destruct (unmarshal_maps j) as [items|] eqn:Ei; [|done]. cbn [wrap_err]. intros [= <-] r.
    rewrite elem_of_resourcesFromMaps. split.
    + intros (m & Hm & Hr). exists m. split; [by eapply ManifestArray|done].
    + intros (m & [j' items' ? Hj' Hi' Hin|?|? ?] & Hr); [|congruence..].
      rewrite Ej in Hj'. injection Hj' as <-. rewrite Ei in Hi'. injection Hi' as <-. eauto.
  - intros (raws & Hraws & ->)%decode_loop_Ok r. cbn [app]. rewrite elem_of_flat_map.
    assert (∀ raw, raw ∈ raws ↔ Ok raw ∈ yaml_docs data) as Hdoc.
    { intros raw. rewrite Hraws, list_elem_of_fmap. split; [eauto|]. by intros (? & [= <-] & ?). }
    split.
    + intros (raw & Hraw & (m & Hm & Hr)%elem_of_expand). apply Hdoc in Hraw. exists m. split; [|done].
      destruct (isList raw) eqn:El; [by eapply ManifestItem|]. subst. by apply ManifestDoc.
    + intros (m & [?|? Hd Hl|raw ? Hd Hl Hin] & Hr); [congruence|..].
      * exists m. rewrite Hdoc, elem_of_expand, Hl. eauto.
      * exists raw. rewrite Hdoc, elem_of_expand, Hl. eauto.
Qed.

(** A text decodes when its array parses, or each of its documents does. *)
Definition decodable (data : string) : Prop :=
  if is_array_text (trim_space data)
  then ∃ j items, parse_json (trim_space data) = Ok j ∧ unmarshal_maps j = Ok items
  else ∀ d, d ∈ yaml_docs data → is_ok d = true.

Lemma decodeDocuments_is_ok data src : is_ok (decodeDocuments data src) = true ↔ decodable data.
Proof.
  unfold decodeDocuments, decodable. destruct (is_array_text (trim_space data)).
  - destruct (parse_json (trim_space data)) as [j|]; cbn [mbind res_bind].
    + destruct (unmarshal_maps j) eqn:E; simpl; [naive_solver|]. split; [done|].
      intros (? & ? & [= <-] & ?). congruence.
    + simpl. split; [done|]. by intros (? & ? & [=] & _).
  - apply decode_loop_is_ok.
Qed.

Lemma walk_loop_Ok entries out rs :
  walk_loop entries out = Ok rs →
  (∀ e, e ∈ entries → is_ok e.2 = true) ∧
  (∀ p, (p, Ok false) ∈ entries → hasManifestExt p = true → is_ok (loadFile p) = true) ∧
  ∀ r, r ∈ rs ↔ r ∈ out ∨ ∃ p rs', (p, Ok false) ∈ entries ∧ hasManifestExt p = true ∧
                  loadFile p = Ok rs' ∧ r ∈ rs'.
Proof.
  revert out. induction entries as [|[p [isDir|e]] entries IH]; intros out; cbn [walk_loop]; [|..|done].
  - intros [= <-]. split_and!; [set_solver..|]. intros r. split; [by left|].
    intros [?|(? & ? & []%not_elem_of_nil & _)]; done.
  - destruct (isDir || negb (hasManifestExt p)) eqn:Eskip.
    + intros (H1 & H2 & H3)%IH. setoid_rewrite elem_of_cons. split_and!.
      * intros e [-> |?]; [done|by apply H1].
      * intros q [[= <- <-]|?] Hq; [by rewrite Hq in Eskip|by apply H2].
      * intros r. rewrite H3. split; [intros [?|(? & ? & ? & ?)]; eauto 8|].
        intros [?|(q & rs' & [[= <- <-]|?] & Hq & ?)]; eauto 8. by rewrite Hq in Eskip.
    + destruct (loadFile p) as [rs1|] eqn:El; [|done]. cbn [mbind res_bind].
      intros (H1 & H2 & H3)%IH. apply orb_false_iff in Eskip as [-> Hext]. apply negb_false_iff in Hext.
      setoid_rewrite elem_of_cons. split_and!.
      * intros e [-> |?]; [done|by apply H1].
      * intros q [[= <-]|?] Hq; [by rewrite El|by apply H2].
      * intros r. rewrite H3, elem_of_app. split.
        -- intros [[?|?]|(? & ? & ? & ?)]; eauto 8.
        -- intros [?|(q & rs' & [[= <-]|?] & ? & Hl & ?)]; eauto 8.
           rewrite El in Hl. injection Hl as <-. eauto.
Qed.

Lemma loadFile_Ok p rs :
  loadFile p = Ok rs ↔ ∃ data, fs_readFile fs p = Ok data ∧ decodeDocuments data p = Ok rs.
Proof.
  unfold loadFile. destruct (fs_readFile fs p) as [data|]; cbn [wrap_err mbind res_bind]; naive_solver.
Qed.

Lemma loadFile_elem p rs r :
  loadFile p = Ok rs →
  (r ∈ rs ↔ ∃ data m, fs_readFile fs p = Ok data ∧ manifest_of data m ∧ toResource m = Some r).
Proof.
  intros (data & Hd & Hrs)%loadFile_Ok. rewrite (decodeDocuments_elem _ _ _ Hrs r).
  split; [naive_solver|]. intros (data' & m & Hd' & ?). rewrite Hd in Hd'. injection Hd' as <-. eauto.
Qed.

Lemma loadFile_is_ok p :
  is_ok (loadFile p) = true → ∃ data, fs_readFile fs p = Ok data ∧ decodable data.
Proof.
  destruct (loadFile p) as [rs|] eqn:E; [|done]. intros _. apply loadFile_Ok in E as (data & ? & Hd).
  exists data. split; [done|]. apply (decodeDocuments_is_ok data p). by rewrite Hd.
Qed.

(** C32: The loader keeps exactly the manifests with a kind.  When a path loads, its resources are
    those of the file it names, or of the files with a manifest extension a walk of it visits: the
    elements of a snapshot array, the single documents, and the items of list documents; a
    manifest is left out only if its kind is missing, empty or not a string.  Each of those files
    was read and every document of it decoded: one that fails makes the whole load fail. *)
Theorem Load_exact path rs :
  Load path = Ok rs →
  (∀ r, r ∈ rs ↔ ∃ p data m, file_of path p ∧ fs_readFile fs p = Ok data ∧ manifest_of data m ∧
                   toResource m = Some r) ∧
  (∀ p, file_of path p → ∃ data, fs_readFile fs p = Ok data ∧ decodable data) ∧
  (∀ m, toResource m = None ↔ as_string (member "kind" m) = "").
Proof.
  intros HL. split_and!; [| |apply toResource_None]; revert HL; unfold Load;
    (destruct (fs_stat fs path) as [[|]|] eqn:Es; [|..|done]); cbn [wrap_err mbind res_bind].
  - intros (Hw1 & Hw2 & Hw3)%wrap_err_Ok%walk_loop_Ok r. rewrite Hw3. split.
    + intros [[]%not_elem_of_nil|(p & rs' & Hp & Hext & Hl & Hr)].
      apply (loadFile_elem _ _ _ Hl) in Hr as (data & m & ? & ? & ?).
      exists p, data, m. split_and!; [by apply FileWalked|done..].
    + intros (p & data & m & [?|? Hin Hext] & Hd & Hm & Hr); [congruence|]. right.
      specialize (Hw2 p Hin Hext). destruct (loadFile p) as [rs'|] eqn:El; [|done].
      exists p, rs'. split_and!; [done..|]. apply (loadFile_elem _ _ _ El). eauto.
  - intros Hl r. rewrite (loadFile_elem _ _ _ Hl). split.
    + intros (data & m & ?). exists path, data, m. by split; [apply FileItself|].
    + intros (p & data & m & [? ->|?] & ?); [eauto|congruence].
  - intros (_ & Hw2 & _)%wrap_err_Ok%walk_loop_Ok p [?|? Hin Hext]; [congruence|].
    by apply loadFile_is_ok, Hw2.
  - intros Hl p [? ->|?]; [|congruence]. apply loadFile_is_ok. by rewrite Hl.
Qed.
End load.

(** The envelope of a loaded resource. *)
Lemma toResource_fields m r :
  toResource m = Some r →
  Raw r = m ∧ Kind r = as_string (member "kind" m) ∧ Kind r ≠ "" ∧
  Name r = as_string (member "name" (as_map (member "metadata" m))) ∧
  Namespace r = as_string (member "namespace" (as_map (member "metadata" m))) ∧ UID r ≠ "".
Proof.
  unfold toResource. destruct (String.eqb_spec (as_string (member "kind" m)) "") as [|Hk]; [done|].
  intros [= <-]. simpl. split_and!; try done.
  destruct (String.eqb_spec (as_string (member "uid" (as_map (member "metadata" m)))) "") as [_|]; simpl; [|done].
  unfold Ref. simpl. destruct (_ =s ""); [done|]. destruct (as_string (member "namespace" _)); done.
Qed.

(** The items of a list are not unwrapped further: a list inside a list is one resource. *)
Definition ex_pod (name : string) : json :=
  JObj [("kind", JStr "Pod"); ("metadata", JObj [("name", JStr name); ("namespace", JStr "ns")])].

Lemma nested_list_kept :
  map Kind (expand [("kind", JStr "List");
    ("items", JArr [JObj [("kind", JStr "List"); ("items", JArr [ex_pod "a"])]; ex_pod "b"; JNull])])
  = ["List"; "Pod"].
Proof. reflexivity. Qed.

(** A directory with a manifest of two documents, a README and a subdirectory. *)
Definition ex_docs (data : string) : list (res json_members) :=
  if data =s "two" then [Ok (as_map (Some (ex_pod "a"))); Ok []; Ok (as_map (Some (ex_pod "b")))] else [Err "bad"].

Definition ex_fs : FileSystem :=
  mkFileSystem (λ p, Ok (p =s "dir")) (λ p, if p =s "dir/a.YAML" then Ok "two" else Err "no such file")
    (λ _, [("dir", Ok true); ("dir/README.md", Ok false); ("dir/a.YAML", Ok false)]).

Lemma Load_exact_witness :
  ∃ rs, Load (λ _, Err "") ex_docs ex_fs "dir" = Ok rs ∧ map Name rs = ["a"; "b"] ∧
  ∀ m, toResource m = None ↔ as_string (member "kind" m) = "".
Proof.
  destruct (Load (λ _, Err "") ex_docs ex_fs "dir") as [rs|] eqn:E; [|vm_compute in E; discriminate E].
  exists rs. split; [done|]. split; [vm_compute in E; injection E as E; by rewrite <-E|].
  exact (proj2 (proj2 (Load_exact _ _ _ "dir" rs E))).
Defined.
