(* ===== verification/Live.v ===== *)
(** The live loader (internal/loader/live/live.go, connect.go): listing a cluster read-only.

    client-go is not under src/: a clientset is the answer of each list call, and a typed object is
    what its metadata accessors return together with its JSON encoding as a map. *)

From S2P Require Import Prelude GoStrings GoJson Model Offline.

(** * The loader *)

Record object := mkObject {
  GetName : string;
  GetNamespace : string;
  GetLabels : gmap string string;
  GetAnnotations : gmap string string;
  GetUID : string;
  toRaw : res json_members
}.

Definition clientset : Type := string → res (list object).

(** connect.go, with client-go's [ClientConfig] of the default loading rules and the overrides, and
    its [NewForConfig]. *)
Record ConfigOverrides := mkConfigOverrides { CurrentContext : string }.

Definition NewClientset {Config} (ClientConfig : ConfigOverrides → res Config) (NewForConfig : Config → res clientset)
    (kubeContext : string) : res clientset :=
  let overrides := mkConfigOverrides "" in
  let overrides := if kubeContext <>s "" then mkConfigOverrides kubeContext else overrides in
  cfg ← wrap_err "load kubeconfig: " (ClientConfig overrides);
  wrap_err "build clientset: " (NewForConfig cfg).

Definition wrap {A} (kind : string) (r : res A) : res A := wrap_err ("list " +:+ kind +:+ ": ") r.

Definition add (kind apiVersion : string) (obj : object) (out : list Resource) : res (list Resource) :=
  raw ← wrap_err ("encode " +:+ kind +:+ "/" +:+ GetName obj +:+ ": ") (toRaw obj);
  let raw := set_member "apiVersion" (JStr apiVersion) (set_member "kind" (JStr kind) raw) in
  let r := mkResource apiVersion kind (GetNamespace obj) (GetName obj) (GetUID obj) (GetLabels obj)
    (GetAnnotations obj) raw in
  let uid := if UID r =s "" then Ref r else UID r in
  Ok (out ++ [mkResource (APIVersion r) (Kind r) (Namespace r) (Name r) uid (Labels r) (Annotations r) (Raw r)]).

Fixpoint addAll (kind apiVersion : string) (objs : list object) (out : list Resource) : res (list Resource) :=
  match objs with
  | [] => Ok out
  | obj :: objs' => out ← add kind apiVersion obj out; addAll kind apiVersion objs' out
  end.

(** The list calls in order: what is listed, its kind and its API version. *)
Definition steps : list (string * (string * string)) :=
  [("namespaces", ("Namespace", "v1"));
   ("serviceaccounts", ("ServiceAccount", "v1"));
   ("pods", ("Pod", "v1"));
   ("services", ("Service", "v1"));
   ("deployments", ("Deployment", "apps/v1"));
   ("statefulsets", ("StatefulSet", "apps/v1"));
   ("daemonsets", ("DaemonSet", "apps/v1"));
   ("jobs", ("Job", "batch/v1"));
   ("cronjobs", ("CronJob", "batch/v1"));
   ("roles", ("Role", "rbac.authorization.k8s.io/v1"));
   ("clusterroles", ("ClusterRole", "rbac.authorization.k8s.io/v1"));
   ("rolebindings", ("RoleBinding", "rbac.authorization.k8s.io/v1"));
   ("clusterrolebindings", ("ClusterRoleBinding", "rbac.authorization.k8s.io/v1"));
   ("networkpolicies", ("NetworkPolicy", "networking.k8s.io/v1"))].

(** The loop over the steps; the first error ends it. *)
Fixpoint run_steps (cs : clientset) (todo : list (string * (string * string))) (out : list Resource)
    : res (list Resource) :=
  match todo with
  | [] => Ok out
  | (plural, (kind, apiVersion)) :: todo' =>
      objs ← wrap plural (cs plural);
      out ← addAll kind apiVersion objs out;
      run_steps cs todo' out
  end.

Definition Load (cs : clientset) : res (list Resource) := run_steps cs steps [].

(** * Lemmas *)

(** [resource_of kind apiVersion obj r]: [r] is the resource of a listed object. *)
Definition resource_of (kind apiVersion : string) (obj : object) (r : Resource) : Prop :=
  add kind apiVersion obj [] = Ok [r].

Lemma add_Ok kind apiVersion obj out out' :
  add kind apiVersion obj out = Ok out' ↔ ∃ r, resource_of kind apiVersion obj r ∧ out' = out ++ [r].
Proof.
  unfold resource_of, add. destruct (toRaw obj) as [raw|e]; cbn [wrap_err mbind res_bind app]; [|naive_solver].
  split; [intros [= <-]; by eexists|]. by intros (r & [= <-] & ->).
Qed.

Lemma addAll_Ok kind apiVersion objs out out' :
  addAll kind apiVersion objs out = Ok out' ↔
  ∃ rs, Forall2 (resource_of kind apiVersion) objs rs ∧ out' = out ++ rs.
Proof.
  revert out. induction objs as [|obj objs IH]; intros out; cbn [addAll].
  - split.
    + intros [= <-]. exists []. by rewrite app_nil_r.
    + by intros (rs & ->%Forall2_nil_inv_l & ->); rewrite app_nil_r.
  - split.
    + destruct (add kind apiVersion obj out) as [out1|] eqn:E; [|done]. cbn [mbind res_bind].
      apply add_Ok in E as (r & Hr & ->). intros (rs & Hrs & ->)%IH. exists (r :: rs).
      split; [by constructor|]. by rewrite <-app_assoc.
    + intros (rs & (r & rs' & Hr & Hrs & ->)%Forall2_cons_inv_l & ->).
      assert (add kind apiVersion obj out = Ok (out ++ [r])) as -> by (apply add_Ok; eauto).
      cbn [mbind res_bind]. apply IH. exists rs'. by rewrite <-app_assoc.
Qed.

(** The resources of one step. *)
Definition listed (cs : clientset) (st : string * (string * string)) (rs : list Resource) : Prop :=
  ∃ objs, cs st.1 = Ok objs ∧ Forall2 (resource_of st.2.1 st.2.2) objs rs.

Lemma run_steps_Ok cs todo out out' :
  run_steps cs todo out = Ok out' ↔ ∃ rss, Forall2 (listed cs) todo rss ∧ out' = out ++ concat rss.
Proof.
  revert out. induction todo as [|[plural [kind apiVersion]] todo IH]; intros out; cbn [run_steps].
  - split.
    + intros [= <-]. exists []. by rewrite app_nil_r.
    + by intros (rss & ->%Forall2_nil_inv_l & ->); rewrite app_nil_r.
  - split.
    + destruct (cs plural) as [objs|] eqn:Ec; [|done]. cbn [wrap wrap_err mbind res_bind].
      destruct (addAll kind apiVersion objs out) as [out1|] eqn:Ea; [|done]. cbn [mbind res_bind].
      apply addAll_Ok in Ea as (rs & Hrs & ->). intros (rss & Hrss & ->)%IH. exists (rs :: rss).
      split; [|by rewrite <-app_assoc]. constructor; [by exists objs|done].
    + intros (rss & (rs & rss' & (objs & Hc & Ho) & Hrss & ->)%Forall2_cons_inv_l & ->).
      cbn [fst snd] in Hc, Ho. rewrite Hc. cbn [wrap wrap_err mbind res_bind].
      assert (addAll kind apiVersion objs out = Ok (out ++ rs)) as -> by (apply addAll_Ok; eauto).
      cbn [mbind res_bind concat]. apply IH. exists rss'. by rewrite <-app_assoc.
Qed.

(** * The same resources as the offline loader *)

(** What the Kubernetes types promise: an object's JSON carries its metadata under the names of
    the API. *)
Definition encodes_metadata (obj : object) : Prop := ∀ raw, toRaw obj = Ok raw →
  let meta := as_map (member "metadata" raw) in
  as_string (member "name" meta) = GetName obj ∧ as_string (member "namespace" meta) = GetNamespace obj ∧
  as_string (member "uid" meta) = GetUID obj ∧
  toStringMap (member "labels" meta) = GetLabels obj ∧
  toStringMap (member "annotations" meta) = GetAnnotations obj.

Lemma resource_of_offline kind apiVersion obj r :
  kind ≠ "" → encodes_metadata obj → resource_of kind apiVersion obj r → toResource (Raw r) = Some r.
Proof.
  intros Hk Hobj. unfold resource_of, add. destruct (toRaw obj) as [raw|e] eqn:E; [|done].
  cbn [wrap_err mbind res_bind app]. intros [= <-]. cbn [Raw]. unfold toResource.
  assert (∀ k, k ≠ "apiVersion" → k ≠ "kind" →
    member k (set_member "apiVersion" (JStr apiVersion) (set_member "kind" (JStr kind) raw)) = member k raw) as Hm.
  { intros k H1 H2. rewrite !member_set_ne; [done|by intros <-..]. }
  rewrite member_set_ne, !member_set_eq by done. cbn [as_string stringOf].
  destruct (String.eqb_spec kind ""); [done|]. rewrite Hm by done.
  destruct (Hobj raw E) as (-> & -> & -> & -> & ->). cbn.
  by destruct (String.eqb_spec (GetUID obj) "").
Qed.

Lemma steps_kinds st : st ∈ steps → st.2.1 ≠ "".
Proof.
  intros H. assert (forallb (λ st : string * (string * string), st.2.1 <>s "") steps = true) as Hall by reflexivity.
  rewrite forallb_forall in Hall. specialize (Hall st (proj1 (list_elem_of_In _ _) H)).
  by apply negb_true_iff, String.eqb_neq in Hall.
Qed.

Section properties.
Variable cs : clientset.
Hypothesis cs_encodes : ∀ plural objs obj, cs plural = Ok objs → obj ∈ objs → encodes_metadata obj.

Lemma listed_offline st rs : st ∈ steps → listed cs st rs → resourcesFromMaps (map Raw rs) = rs.
Proof.
  intros Hst%steps_kinds (objs & Hc & Hrs).
  assert (Forall encodes_metadata objs) as Hobjs by (apply Forall_forall; eauto).
  unfold resourcesFromMaps. clear Hc. induction Hrs as [|obj r objs rs Hr _ IH]; [done|].
  apply Forall_cons in Hobjs as [Ho Hobjs]. cbn [map omap list_omap].
  rewrite (resource_of_offline _ _ _ _ Hst Ho Hr). by rewrite IH.
Qed.

Lemma all_listed_offline todo rss :
  (∀ st, st ∈ todo → st ∈ steps) → Forall2 (listed cs) todo rss →
  resourcesFromMaps (map Raw (concat rss)) = concat rss.
Proof.
  intros Hin Hrss. induction Hrss as [|st rs todo rss Hl _ IH]; [done|]. cbn [concat].
  unfold resourcesFromMaps in *. rewrite map_app, omap_app, IH by (intros; apply Hin; by right).
  f_equal. apply (listed_offline st); [apply Hin; left|done].
Qed.

Lemma unmarshal_objects ms : unmarshal_maps (JArr (map JObj ms)) = Ok ms.
Proof. unfold unmarshal_maps. induction ms as [|m ms IH]; [done|]. cbn in *. by rewrite IH. Qed.

(** C31: The live loader produces the resource set the offline loader would: a load that succeeds
    has made every list call and encoded every object, and holds exactly one resource per listed
    object, in the order of the calls; and when its raw documents are saved as a snapshot array,
    loading that file offline gives the very same resources, so a live scan and a scan of the
    snapshot agree.  A list call that fails makes the whole load fail. *)
Theorem snapshot_equivalence rs :
  Load cs = Ok rs →
  (∃ rss, Forall2 (listed cs) steps rss ∧ rs = concat rss) ∧
  (∀ parse_json yaml_docs fs path data,
     fs_stat fs path = Ok false → fs_readFile fs path = Ok data → is_array_text (trim_space data) = true →
     parse_json (trim_space data) = Ok (JArr (map JObj (map Raw rs))) →
     Offline.Load parse_json yaml_docs fs path = Ok rs).
Proof.
  intros H. apply run_steps_Ok in H as (rss & Hrss & ->). cbn [app]. split; [by exists rss|].
  intros parse_json yaml_docs fs path data Hs Hr Ha Hp. unfold Offline.Load. rewrite Hs.
  cbn [wrap_err mbind res_bind]. unfold loadFile. rewrite Hr. cbn [wrap_err mbind res_bind].
  unfold decodeDocuments. rewrite Ha, Hp. cbn [mbind res_bind].
  rewrite unmarshal_objects. cbn [wrap_err mbind res_bind]. f_equal. by apply (all_listed_offline steps).
Qed.
End properties.

(** A cluster with a namespace and a pod. *)
Definition ex_object (name ns uid : string) (labels : list (string * json)) : object :=
  let meta := [("name", JStr name); ("namespace", JStr ns); ("uid", JStr uid); ("labels", JObj labels)] in
  mkObject name ns (toStringMap (Some (JObj labels))) ∅ uid (Ok [("metadata", JObj meta)]).

Definition ex_cluster : clientset := λ plural,
  if plural =s "namespaces" then Ok [ex_object "shop" "" "" []]
  else if plural =s "pods" then Ok [ex_object "web" "shop" "u1" [("app", JStr "web")]]
  else Ok [].

Lemma ex_cluster_encodes plural objs obj : ex_cluster plural = Ok objs → obj ∈ objs → encodes_metadata obj.
Proof.
  unfold ex_cluster. destruct (plural =s "namespaces"); [|destruct (plural =s "pods")];
    intros [= <-]; rewrite ?list_elem_of_singleton, ?elem_of_nil; try done; intros -> raw [= <-]; done.
Qed.

Lemma snapshot_equivalence_witness :
  ∃ rs, Load ex_cluster = Ok rs ∧ map UID rs = ["_cluster_/Namespace/shop"; "u1"] ∧
  Offline.Load (λ _, Ok (JArr (map JObj (map Raw rs)))) (λ _, [])
    (mkFileSystem (λ _, Ok false) (λ _, Ok "[]") (λ _, [])) "snapshot.json" = Ok rs.
Proof.
  destruct (Load ex_cluster) as [rs|] eqn:E; [|vm_compute in E; discriminate E].
  exists rs. split; [done|]. split; [vm_compute in E; injection E as E; by rewrite <-E|].
  apply (proj2 (snapshot_equivalence ex_cluster ex_cluster_encodes rs E) _ _ _ _ "[]"); reflexivity.
Defined.
