(* ===== verification/Reports.v ===== *)
(** The report writers (internal/report) except ASFF, and the exports of the dashboard
    (internal/dashboard/export.go).

    A writer is the text it writes; writing to the destination cannot fail here.  The SARIF and PDF
    libraries are not under src/, so [sarif_calls] and [ExportPDF] are the sequences of calls the
    writers make on them.
    [html_data] is the data [HTML] passes to its template; the template texts are in Html.v. *)

From Stdlib Require Import Ascii.
From S2P Require Import Prelude GoStrings GoFloat GoFmt Api Checks Analyzer History.

(** * The location of a resource *)

Definition resourceFQN (r : ResourceRef) : string :=
  if rr_Namespace r <>s ""
  then rr_Namespace r +:+ "/" +:+ rr_Kind r +:+ "/" +:+ rr_Name r
  else rr_Kind r +:+ "/" +:+ rr_Name r.

Definition severity_counts (fs : list Finding) : gmap string Z := tally (map f_Severity fs).

Definition counts_text (m : gmap string Z) : string :=
  "critical=" +:+ fmt_int (map_get 0%Z m SeverityCritical)
  +:+ " high=" +:+ fmt_int (map_get 0%Z m SeverityHigh)
  +:+ " medium=" +:+ fmt_int (map_get 0%Z m SeverityMedium)
  +:+ " low=" +:+ fmt_int (map_get 0%Z m SeverityLow).

Definition len_text {A} (l : list A) : string := fmt_int (Z.of_nat (length l)).

(** * GitHub workflow commands: gitops.go *)

Definition annotationLevel (s : Severity) : string :=
  if (s =s SeverityCritical) || (s =s SeverityHigh) then "error"
  else if s =s SeverityMedium then "warning"
  else "notice".

Definition data_code (c : ascii) : option string :=
  if Ascii.eqb c "%" then Some "%25"
  else if Ascii.eqb c creturn then Some "%0D"
  else if Ascii.eqb c newline then Some "%0A"
  else None.

Definition prop_code (c : ascii) : option string :=
  match data_code c with
  | Some r => Some r
  | None => if Ascii.eqb c ":" then Some "%3A" else if Ascii.eqb c "," then Some "%2C" else None
  end.

Definition escapeProp : string → string := replace_bytes prop_code.
Definition escapeData : string → string := replace_bytes data_code.

Definition annotation_msg (f : Finding) : string :=
  rr_Kind (f_Resource f) +:+ " " +:+ resourceLoc (f_Resource f) +:+ " — " +:+ rem_Summary (f_Remediation f).

(** One annotation, without its newline. *)
Definition annotation (f : Finding) : string :=
  "::" +:+ annotationLevel (f_Severity f) +:+ " title=" +:+ f_ID f +:+ " " +:+ escapeProp (f_Title f)
  +:+ "::" +:+ escapeData (annotation_msg f).

Definition annotation_summary (fs : list Finding) : string :=
  "::notice title=KubeGuard::" +:+ len_text fs +:+ " findings — " +:+ counts_text (severity_counts fs)
  +:+ " (indicative; not a certification)".

(** [fmt.Fprintf(w, "...\n", ...)] for each line. *)
Definition lines (ls : list string) : string :=
  String.concat "" (map (λ l, l +:+ newline ::: EmptyString) ls).

Definition GitOpsAnnotations (r : Report) : string :=
  lines (map annotation (rep_Findings r) ++ [annotation_summary (rep_Findings r)]).

(** * SARIF: sarif.go *)

Definition sarifLevel (s : Severity) : string :=
  if (s =s SeverityCritical) || (s =s SeverityHigh) then "error"
  else if s =s SeverityMedium then "warning"
  else "note".

(** A call on the library's run: a rule with its name, description and default level, or a
    result with its level, message and logical location (name, kind, qualified name). *)
Inductive sarif_call : Type :=
| AddRule (id name description level : string)
| CreateResult (ruleID level message loc_name loc_kind loc_fqn : string).

(** The first loop: one rule per check id. *)
Definition sarif_rule (acc : list sarif_call * gset string) (f : Finding)
    : list sarif_call * gset string :=
  let '(calls, seen) := acc in
  if decide (f_ID f ∈ seen) then acc
  else (calls ++ [AddRule (f_ID f) (f_Title f) (rem_Summary (f_Remediation f)) (sarifLevel (f_Severity f))],
        {[f_ID f]} ∪ seen).

Definition sarif_result (f : Finding) : sarif_call :=
  let fqn := resourceFQN (f_Resource f) in
  CreateResult (f_ID f) (sarifLevel (f_Severity f))
    (f_Title f +:+ " — " +:+ fqn +:+ " (" +:+ f_Severity f +:+ ")")
    (rr_Name (f_Resource f)) (rr_Kind (f_Resource f)) fqn.

Definition sarif_calls (r : Report) : list sarif_call :=
  (foldl sarif_rule ([], ∅) (rep_Findings r)).1 ++ map sarif_result (rep_Findings r).

(** * The console summary: render.go *)

Definition esc : string := ascii_of_N 27 ::: EmptyString.
Definition ansiReset : string := esc +:+ "[0m".
Definition ansiRed : string := esc +:+ "[31m".
Definition ansiMagenta : string := esc +:+ "[35m".
Definition ansiYellow : string := esc +:+ "[33m".
Definition ansiCyan : string := esc +:+ "[36m".
Definition ansiBold : string := esc +:+ "[1m".

Definition sevColor (s : Severity) : string :=
  if s =s SeverityCritical then ansiBold +:+ ansiRed
  else if s =s SeverityHigh then ansiMagenta
  else if s =s SeverityMedium then ansiYellow
  else ansiCyan.

Definition colorize (s code : string) (on : bool) : string :=
  if negb on then s else code +:+ s +:+ ansiReset.

Definition severity_tag (s : Severity) (color : bool) : string :=
  colorize ("[" +:+ pad_right 8 s +:+ "]") (sevColor s) color.

Definition consoleTopRisks (risks : option (list RiskScore)) (color : bool) : list string :=
  match risks with
  | None | Some [] => []
  | Some risks =>
      [""; "Top risks (deterministic score — see docs/honest-metrics.md):"]
      ++ flat_map (λ rs,
          ["  " +:+ colorize ("[score " +:+ pad_left 3 (fmt_int (rs_Score rs)) +:+ "]")
                     (sevColor (rs_Severity rs)) color
           +:+ " " +:+ rs_FindingID rs +:+ "  " +:+ rs_Title rs +:+ "  (" +:+ rr_Kind (rs_Resource rs)
           +:+ " " +:+ resourceLoc (rs_Resource rs) +:+ ")";
           "      why: "
           +:+ join ", " (map (λ f, rf_Name f +:+ " +" +:+ fmt_int (rf_Points f)) (rs_Factors rs))])
         (take 5 risks)
  end.

Definition percent (rate : float64) : string := fmt_fixed 0 (fmul rate (float_of_int 100)).

Definition consoleCoverage (cov : option CoverageBreakdown) : list string :=
  match cov with
  | None => []
  | Some cov =>
      if (cov_Discovered cov =? 0)%Z then []
      else
        [""; "Assessment coverage: " +:+ fmt_int (cov_Assessable cov) +:+ " of "
             +:+ fmt_int (cov_Discovered cov) +:+ " resources assessed (" +:+ percent (cov_Rate cov)
             +:+ "%); " +:+ fmt_int (cov_Skipped cov) +:+ " skipped"]
        ++ (match sort_strings (map fst (map_to_list (cov_SkippedByKind cov))) with
            | [] => []
            | kinds =>
                ["  skipped kinds (no built-in check): "
                 +:+ join ", " (map (λ k, k +:+ "×" +:+ fmt_int (map_get 0%Z (cov_SkippedByKind cov) k)) kinds)]
            end)
  end.

Definition console_hop (h : PathHop) : string :=
  "  " +:+ fmt_int (h_Order h) +:+ ". " +:+ h_From h +:+ " → " +:+ h_To h +:+ "  [" +:+ h_EnabledBy h
  +:+ " " +:+ join "," (h_Technique h) +:+ "]  " +:+ h_Narrative h.

Definition consolePaths (paths : list AttackPath) (color : bool) : list string :=
  match paths with
  | [] => []
  | _ =>
      [""; "Attack paths: " +:+ len_text paths]
      ++ flat_map (λ p,
           ["";
            severity_tag (p_Severity p) color +:+ " " +:+ p_ID p +:+ "  " +:+ p_Title p]
           ++ map console_hop (p_Hops p)) paths
  end.

Definition consoleCompliance (results : list FrameworkResult) : list string :=
  match results with
  | [] => []
  | _ =>
      [""; "Compliance (indicative mapping — breached of assessed):"]
      ++ map (λ r,
           let pct := if (fr_Assessed r >? 0)%Z then percent (fr_PassRate r) +:+ "%" else "n/a" in
           "  " +:+ pad_right 45 (fr_Framework r) +:+ " " +:+ fmt_int (fr_Breached r)
           +:+ " breached of " +:+ fmt_int (fr_Assessed r) +:+ " assessed (" +:+ pct +:+ " pass)") results
      ++ ["  Note: indicative control mapping only; not a certification or audit."]
  end.

Definition console_finding (color : bool) (f : Finding) : string :=
  severity_tag (f_Severity f) color +:+ " " +:+ f_ID f +:+ "  " +:+ f_Title f +:+ "  ("
  +:+ rr_Kind (f_Resource f) +:+ " " +:+ resourceLoc (f_Resource f) +:+ ")".

Definition Console (r : Report) (color : bool) : string :=
  let fs := rep_Findings r in
  lines
    (["KubeGuard scan — source=" +:+ rep_Source r +:+ " profile=" +:+ rep_Profile r; ""]
     ++ (match fs with [] => ["No findings. 0 issues across assessed checks."] | _ => [] end)
     ++ map (console_finding color) fs
     ++ (match fs with
         | [] => []
         | _ => [""; "Summary: " +:+ len_text fs +:+ " findings — " +:+ counts_text (severity_counts fs)]
         end)
     ++ consoleTopRisks (rep_TopRisks r) color
     ++ consoleCoverage (rep_Coverage r)
     ++ consolePaths (rep_Paths r) color
     ++ consoleCompliance (rep_Compliance r)).

(** * Evidence helpers: evidence.go *)

Definition techniques (refs : list ControlRef) : list string :=
  foldl (λ ids r, if cr_Framework r =s "ATT&CK" then ids ++ [cr_ID r] else ids) [] refs.

Fixpoint joinComma_from (i : nat) (out : string) (s : list string) : string :=
  match s with
  | [] => out
  | v :: s' => joinComma_from (S i) ((if Nat.ltb 0 i then out +:+ ", " else out) +:+ v) s'
  end.
Definition joinComma (s : list string) : string := joinComma_from 0 "" s.

(** * The data of the HTML dashboard: html.go *)

Record trendPoint := mkTrendPoint {
  tp_X : float64;
  tp_Y : float64;
  tp_Pct : string;
  tp_Label : string
}.

Record htmlData := mkHtmlData {
  hd_Report : Report;
  hd_SevCounts : gmap string Z;
  hd_TrendLine : string;
  hd_TrendDots : list trendPoint;
  hd_HasHistory : bool;
  hd_NodeChains : list (list string)
}.

(** The capability chain of a path. *)
Definition node_chain (p : AttackPath) : list string :=
  match p_Hops p with [] => [] | h :: _ => h_From h :: map h_To (p_Hops p) end.

(** The body of the loop of [buildTrend]: the point of record [i] of [n]. *)
Definition trend_point (n i : nat) (rec : ScanRecord) : trendPoint :=
  let fl z := float_of_int z in
  let x := if Nat.ltb 1 n
    then fadd (fl 30%Z) (fdiv (fmul (fl 540%Z) (fl (Z.of_nat i))) (fl (Z.of_nat n - 1)%Z)) else fl 30%Z in
  let y := fadd (fl 20%Z) (fmul (fl 120%Z) (fsub fone (hr_OverallPassRate rec))) in
  mkTrendPoint x y (percent (hr_OverallPassRate rec) +:+ "%") (hr_Source rec).

Fixpoint trend_from (n i : nat) (hist : list ScanRecord) : list trendPoint :=
  match hist with [] => [] | rec :: hist' => trend_point n i rec :: trend_from n (S i) hist' end.

Definition buildTrend (hist : list ScanRecord) : list trendPoint := trend_from (length hist) 0 hist.

(** [HTML] up to the execution of its template. *)
Definition html_data (r : Report) (hist : list ScanRecord) : htmlData :=
  let dots := buildTrend hist in
  mkHtmlData r (severity_counts (rep_Findings r))
    (String.concat "" (map (λ d, fmt_fixed 1 (tp_X d) +:+ "," +:+ fmt_fixed 1 (tp_Y d) +:+ " ") dots))
    dots (negb (Nat.eqb (length hist) 0)) (map node_chain (rep_Paths r)).

Example trend_ex :
  hd_TrendLine (html_data zero_report [ex_record; ex_record; ex_record]) = "30.0,20.0 300.0,20.0 570.0,20.0 ".
Proof. vm_compute. reflexivity. Qed.

(** * The CSV export: export.go *)

Definition csv_header : list string :=
  ["id"; "severity"; "category"; "namespace"; "resource"; "title"; "frameworks"].

Definition csv_record (f : Finding) : list string :=
  [f_ID f; f_Severity f; f_Category f; rr_Namespace (f_Resource f);
   rr_Kind (f_Resource f) +:+ " " +:+ rr_Name (f_Resource f); f_Title f;
   join "; " (map (λ r, cr_Framework r +:+ " " +:+ cr_ID r) (f_Refs f))].

Definition ExportCSV (rep : Report) : string :=
  String.concat "" (map csv_row (csv_header :: map csv_record (rep_Findings rep))).

(** [pctInt]: Go's division truncates towards zero. *)
Definition pctInt (n d : Z) : Z := if (d =? 0)%Z then 0%Z else Z.quot (n * 100) d.

(** * The PDF export: export.go

    The PDF library is not under src/: a report is the sequence of calls made on it, with lengths
    in tenths of a millimetre.  Cells have no border, are left-aligned, and end the line. *)

Record Brand := mkBrand { br_Title : string; br_Tenant : string }.

Definition reportDisclaimer : string :=
  "Indicative control mapping only — not a certification or audit. " +:+
  "Compliance figures are reported as breached/passed of assessed.".

Inductive pdf_call : Type :=
| PdfSetFont (style : string) (size : Z)
| PdfCell (height : Z) (text : string)
| PdfMultiCell (height : Z) (text : string)
| PdfLn (height : Z).

Definition pdf_header (rep : Report) (brand : Brand) : list pdf_call :=
  let title := if br_Title brand =s "" then "KubeGuard" else br_Title brand in
  [PdfSetFont "B" 18; PdfCell 100 (title +:+ " — Kubernetes Security Report");
   PdfSetFont "" 10;
   PdfCell 60 ("Tenant: " +:+ br_Tenant brand +:+ "    Source: " +:+ rep_Source rep +:+ "    Generated: "
               +:+ rep_GeneratedAt rep);
   PdfLn 30].

Definition pdf_posture (p : PostureSummary) : list pdf_call :=
  let n sev := fmt_int (map_get 0%Z (ps_BySeverity p) sev) in
  let passed := (ps_ControlsAssessed p - ps_ControlsBreached p)%Z in
  [PdfSetFont "B" 13; PdfCell 80 "Posture summary"; PdfSetFont "" 10;
   PdfMultiCell 50
     ("Total findings: " +:+ fmt_int (ps_TotalFindings p) +:+ " (critical " +:+ n SeverityCritical +:+ ", high "
      +:+ n SeverityHigh +:+ ", medium " +:+ n SeverityMedium +:+ ", low " +:+ n SeverityLow +:+ ")"
      +:+ newline ::: "Attack paths: " +:+ fmt_int (ps_CriticalPaths p)
      +:+ newline ::: "Overall control pass: " +:+ fmt_int passed +:+ " of " +:+ fmt_int (ps_ControlsAssessed p)
      +:+ " assessed (" +:+ fmt_int (pctInt passed (ps_ControlsAssessed p)) +:+ "%)");
   PdfLn 20].

Definition pdf_framework (fw : FrameworkResult) : pdf_call :=
  PdfCell 50 (fr_Framework fw +:+ ": " +:+ fmt_int (fr_Breached fw) +:+ " breached of " +:+ fmt_int (fr_Assessed fw)
              +:+ " assessed (" +:+ fmt_int (pctInt (fr_Passed fw) (fr_Assessed fw)) +:+ "% pass)").

Definition pdf_path (p : AttackPath) : list pdf_call :=
  [PdfSetFont "B" 10;
   PdfMultiCell 50 ("[" +:+ to_upper (p_Severity p) +:+ "] " +:+ p_ID p +:+ " — " +:+ p_Title p);
   PdfSetFont "" 9]
  ++ map (λ h, PdfMultiCell 45
       ("  " +:+ fmt_int (h_Order h) +:+ ". " +:+ h_From h +:+ " -> " +:+ h_To h +:+ "  [" +:+ h_EnabledBy h +:+ " "
        +:+ join "," (h_Technique h) +:+ "]  " +:+ h_Narrative h)) (p_Hops p)
  ++ [PdfLn 10].

Definition ExportPDF (rep : Report) (brand : Brand) : list pdf_call :=
  pdf_header rep brand
  ++ pdf_posture (rep_Posture rep)
  ++ [PdfSetFont "B" 13; PdfCell 80 "Compliance (indicative mapping)"; PdfSetFont "" 10]
  ++ map pdf_framework (rep_Compliance rep)
  ++ [PdfLn 20]
  ++ (match rep_Paths rep with
      | [] => []
      | paths => [PdfSetFont "B" 13; PdfCell 80 "Attack paths"; PdfSetFont "" 10] ++ flat_map pdf_path paths
      end)
  ++ [PdfLn 20; PdfSetFont "I" 8; PdfMultiCell 40 reportDisclaimer].

(** Whatever the report, the disclaimer is the last text of the document. *)
Lemma ExportPDF_disclaimer rep brand :
  ∃ pre, ExportPDF rep brand = pre ++ [PdfMultiCell 40 reportDisclaimer].
Proof.
  unfold ExportPDF.
  change [PdfLn 20; PdfSetFont "I" 8; PdfMultiCell 40 reportDisclaimer]
    with ([PdfLn 20; PdfSetFont "I" 8] ++ [PdfMultiCell 40 reportDisclaimer]).
  eexists. rewrite !app_assoc. reflexivity.
Qed.

(** * The workflow-command grammar

    A reader of one annotation line: the command between the two [::], its level, its single
    property [title], and the message, percent-decoded. *)

Definition pct_byte (h l : ascii) : option ascii :=
  if Ascii.eqb h "2" && Ascii.eqb l "5" then Some "%"%char
  else if Ascii.eqb h "0" && Ascii.eqb l "D" then Some creturn
  else if Ascii.eqb h "0" && Ascii.eqb l "A" then Some newline
  else if Ascii.eqb h "3" && Ascii.eqb l "A" then Some ":"%char
  else if Ascii.eqb h "2" && Ascii.eqb l "C" then Some ","%char
  else None.

Fixpoint pct_decode (s : string) : string :=
  match s with
  | String c rest =>
      if Ascii.eqb c "%" then
        match rest with
        | String h (String l rest') =>
            match pct_byte h l with
            | Some b => b ::: pct_decode rest'
            | None => c ::: pct_decode rest
            end
        | _ => c ::: pct_decode rest
        end
      else c ::: pct_decode rest
  | EmptyString => EmptyString
  end.

Definition parse_annotation (line : string) : option (string * string * string) :=
  body ← strip "::" line;
  head_rest ← cut ":" body;
  msg ← strip ":" head_rest.2;
  level_props ← cut " " head_rest.1;
  title ← strip "title=" level_props.2;
  if lacks "," title then Some (level_props.1, pct_decode title, pct_decode msg) else None.

(** A check id without the bytes the syntax uses. *)
Definition plain_id (id : string) : bool :=
  str_all (λ c, negb (Ascii.eqb c "%" || Ascii.eqb c ":" || Ascii.eqb c "," || Ascii.eqb c newline
                      || Ascii.eqb c creturn)) id.

Lemma pct_decode_plain s t : lacks "%" s = true → pct_decode (s +:+ t) = s +:+ pct_decode t.
Proof.
  unfold lacks. induction s as [|c s IH]; [done|]. cbn [str_all]. intros H. boolify.
  rewrite str_app_cons. cbn [pct_decode]. rewrite Ascii.eqb_sym, H. by rewrite IH.
Qed.

(** Decoding undoes an escaping that replaces the percent sign. *)
Lemma pct_decode_escape code s :
  (∀ c r t, code c = Some r → pct_decode (r +:+ t) = c ::: pct_decode t) →
  (∀ c, code c = None → Ascii.eqb c "%" = false) →
  pct_decode (replace_bytes code s) = s.
Proof.
  intros Hs Hn. induction s as [|c s IH]; [done|].
  change (pct_decode ((match code c with Some r => r | None => c ::: EmptyString end)
                      +:+ replace_bytes code s) = c ::: s).
  destruct (code c) as [r|] eqn:E; [by rewrite (Hs c r), IH by done|].
  change (pct_decode (c ::: replace_bytes code s) = c ::: s). cbn [pct_decode]. by rewrite (Hn c E), IH.
Qed.

Lemma code_cases c :
  (c = "%"%char ∨ c = creturn ∨ c = newline ∨ c = ":"%char ∨ c = ","%char)
  ∨ (data_code c = None ∧ prop_code c = None ∧ Ascii.eqb c "%" = false).
Proof.
  unfold prop_code, data_code.
  destruct (Ascii.eqb_spec c "%"), (Ascii.eqb_spec c creturn), (Ascii.eqb_spec c newline),
    (Ascii.eqb_spec c ":"), (Ascii.eqb_spec c ","); naive_solver.
Qed.

Ltac by_code_cases c :=
  destruct (code_cases c) as [[-> | [-> | [-> | [-> | ->]]]] | (? & ? & ?)];
  [vm_compute; congruence..|congruence].

Lemma pct_decode_prop s : pct_decode (escapeProp s) = s.
Proof.
  apply pct_decode_escape.
  - intros c r t. destruct (code_cases c) as [[-> | [-> | [-> | [-> | ->]]]] | (_ & E & _)];
      [intros [= <-]; reflexivity..|congruence].
  - intros c. by_code_cases c.
Qed.

Lemma pct_decode_data s : pct_decode (escapeData s) = s.
Proof.
  apply pct_decode_escape.
  - intros c r t. destruct (code_cases c) as [[-> | [-> | [-> | [-> | ->]]]] | (E & _ & _)];
      [intros [= <-]; reflexivity || discriminate..|congruence].
  - intros c. by_code_cases c.
Qed.

(** The bytes no escaped text contains. *)
Lemma escapeProp_lacks c s :
  c = ":"%char ∨ c = ","%char ∨ c = newline → lacks c (escapeProp s) = true.
Proof.
  intros Hc. apply lacks_replace; [destruct Hc as [-> | [-> | ->]]; done|].
  intros d r. destruct (code_cases d) as [[-> | [-> | [-> | [-> | ->]]]] | (_ & E & _)];
    [intros [= <-]; destruct Hc as [-> | [-> | ->]]; reflexivity..|congruence].
Qed.

Lemma escapeData_lacks s : lacks newline (escapeData s) = true.
Proof.
  apply lacks_replace; [done|].
  intros d r. destruct (code_cases d) as [[-> | [-> | [-> | [-> | ->]]]] | (E & _ & _)];
    [intros [= <-]; reflexivity || discriminate..|congruence].
Qed.

Lemma plain_lacks id c :
  plain_id id = true → c = "%"%char ∨ c = ":"%char ∨ c = ","%char ∨ c = newline → lacks c id = true.
Proof.
  intros H Hc. eapply str_all_weaken; [|exact H]. intros d Hd. cbv beta in Hd. boolify.
  apply negb_true_iff. rewrite Ascii.eqb_sym. destruct Hc as [-> | [-> | [-> | ->]]]; assumption.
Qed.

Lemma annotationLevel_lacks s c :
  c = " "%char ∨ c = ":"%char ∨ c = newline → lacks c (annotationLevel s) = true.
Proof.
  intros [-> | [-> | ->]]; unfold annotationLevel; by destruct (_ || _), (s =s SeverityMedium).
Qed.

(** The annotation as the bytes before its second [::] and the message. *)
Lemma annotation_head f :
  annotation f = "::" +:+ ((annotationLevel (f_Severity f) +:+ " title=" +:+ f_ID f +:+ " "
    +:+ escapeProp (f_Title f)) +:+ ":" +:+ ":" +:+ escapeData (annotation_msg f)).
Proof. unfold annotation. by rewrite <-!str_app_assoc. Qed.

Lemma annotation_parses f :
  plain_id (f_ID f) = true →
  parse_annotation (annotation f)
  = Some (annotationLevel (f_Severity f), f_ID f +:+ " " +:+ f_Title f, annotation_msg f).
Proof.
  intros Hid. unfold parse_annotation. rewrite annotation_head, strip_app. cbn [mbind option_bind].
  change (":" +:+ ?x) with (":"%char ::: x). rewrite cut_app.
  2: { rewrite !lacks_app, annotationLevel_lacks, (plain_lacks (f_ID f) ":"), escapeProp_lacks by auto. done. }
  cbn [mbind option_bind fst snd].
  change (strip ":" _) with (strip ":" (":" +:+ escapeData (annotation_msg f))).
  rewrite strip_app. cbn [mbind option_bind].
  change (" title=" +:+ ?x) with (" "%char ::: "title=" +:+ x).
  rewrite cut_app by (apply annotationLevel_lacks; auto).
  cbn [mbind option_bind fst snd]. rewrite strip_app. cbn [mbind option_bind].
  rewrite !lacks_app, (plain_lacks (f_ID f) ","), escapeProp_lacks by auto. cbn [andb lacks str_all].
  rewrite pct_decode_plain by (apply plain_lacks; auto).
  change (pct_decode (" " +:+ ?x)) with (" "%char ::: pct_decode x).
  by rewrite pct_decode_prop, pct_decode_data.
Qed.

Lemma annotation_one_line f : plain_id (f_ID f) = true → lacks newline (annotation f) = true.
Proof.
  intros Hid. unfold annotation.
  rewrite !lacks_app, annotationLevel_lacks, (plain_lacks (f_ID f) newline), escapeProp_lacks, escapeData_lacks
    by auto. done.
Qed.

Lemma summary_one_line fs : lacks newline (annotation_summary fs) = true.
Proof.
  unfold annotation_summary, counts_text, len_text, fmt_int.
  by rewrite !lacks_app, !lacks_pretty_Z.
Qed.

(** C33: The workflow-command output is one line per finding, in order, and the summary line, and
    a reader of the command grammar recovers from each line the level, the id and title, and the
    message of its finding: no title, resource name or remediation text breaks out of its
    annotation.  It assumes that the ids hold none of the bytes of the syntax. *)
Theorem annotations_roundtrip r :
  (∀ f, f ∈ rep_Findings r → plain_id (f_ID f) = true) →
  split_on newline (GitOpsAnnotations r)
  = map annotation (rep_Findings r) ++ [annotation_summary (rep_Findings r); ""] ∧
  map parse_annotation (map annotation (rep_Findings r))
  = map (λ f, Some (annotationLevel (f_Severity f), f_ID f +:+ " " +:+ f_Title f, annotation_msg f))
      (rep_Findings r).
Proof.
  intros Hid. split.
  - unfold GitOpsAnnotations, lines. rewrite split_on_lines; [by rewrite <-app_assoc|].
    intros l [Hl|Hl]%elem_of_app.
    + apply list_elem_of_fmap in Hl as (f & -> & Hf). by apply annotation_one_line, Hid.
    + apply list_elem_of_singleton in Hl as ->. apply summary_one_line.
  - rewrite map_map. apply map_ext_in. intros f Hf. apply annotation_parses, Hid.
    by apply list_elem_of_In.
Qed.

(** An input on which the hypothesis holds, with every byte of the syntax in its texts. *)
Definition ex_hostile : Finding :=
  mkFinding "KG-001" ("a::b,%0A" +:+ nl +:+ "::error title=x::y") SeverityCritical "workload"
    (mkResourceRef "Pod" "" ("p" +:+ nl)) [] (mkRemediation "fix: 100%" "") [] [].

Definition with_findings (fs : list Finding) (r : Report) : Report :=
  mkReport (rep_GeneratedAt r) (rep_Source r) (rep_Profile r) fs (rep_Paths r) (rep_Posture r)
    (rep_Compliance r) (rep_Coverage r) (rep_TopRisks r).

Lemma annotations_roundtrip_witness :
  map parse_annotation (map annotation [ex_hostile])
  = [Some ("error", "KG-001 " +:+ f_Title ex_hostile, annotation_msg ex_hostile)].
Proof.
  refine (proj2 (annotations_roundtrip (with_findings [ex_hostile] zero_report) _)).
  intros f Hf. apply list_elem_of_singleton in Hf as ->. vm_compute. reflexivity.
Defined.

(** The id is written as it is: the id of a custom policy, which [policy.Load] accepts as long as
    it is not empty, can end the annotation and start another one. *)
Definition ex_policy_id : Finding :=
  mkFinding ("P" +:+ nl +:+ "::error title=forged::") "t" SeverityInfo "custom"
    (mkResourceRef "Pod" "ns" "p") [] (mkRemediation "s" "") [] [].

Lemma annotation_id_unescaped :
  split_on newline (annotation ex_policy_id)
  = ["::notice title=P"; "::error title=forged:: t::Pod ns/p — s"].
Proof. vm_compute. reflexivity. Qed.

(** * SARIF *)

Definition rule_id (c : sarif_call) : string :=
  match c with AddRule id _ _ _ => id | CreateResult id _ _ _ _ _ => id end.

Definition rule_of (f : Finding) : sarif_call :=
  AddRule (f_ID f) (f_Title f) (rem_Summary (f_Remediation f)) (sarifLevel (f_Severity f)).

Lemma sarif_rules_fold fs :
  let '(calls, seen) := foldl sarif_rule ([], ∅) fs in
  NoDup (map rule_id calls) ∧
  (∀ id, id ∈ seen ↔ id ∈ map rule_id calls) ∧
  (∀ id, id ∈ seen ↔ ∃ f, f ∈ fs ∧ f_ID f = id) ∧
  (∀ c, c ∈ calls → ∃ fs1 f fs2, fs = fs1 ++ f :: fs2 ∧ c = rule_of f ∧ ∀ g, g ∈ fs1 → f_ID g ≠ f_ID f).
Proof.
  induction fs as [|f fs IH] using rev_ind.
  { simpl. split_and!; [constructor|set_solver..]. }
  rewrite foldl_snoc. destruct (foldl sarif_rule ([], ∅) fs) as [calls seen].
  destruct IH as (Hnd & Hseen & Hids & Hfirst). simpl. destruct (decide (f_ID f ∈ seen)) as [Hin|Hout].
  - split_and!; [done|done| |].
    + intros id. rewrite Hids. setoid_rewrite elem_of_app. setoid_rewrite list_elem_of_singleton.
      split; [naive_solver|]. intros (g & [Hg| ->] & <-); [eauto|]. by apply Hids.
    + intros c (fs1 & g & fs2 & -> & ? & ?)%Hfirst. exists fs1, g, (fs2 ++ [f]).
      by rewrite <-app_assoc.
  - split_and!.
    + rewrite map_app. apply NoDup_app. split_and!; [done| |apply NoDup_singleton].
      intros id Hid. simpl. rewrite list_elem_of_singleton. intros ->. by apply Hout, Hseen.
    + intros id. rewrite map_app, elem_of_union, elem_of_singleton, elem_of_app, Hseen. simpl.
      rewrite list_elem_of_singleton. tauto.
    + intros id. rewrite elem_of_union, elem_of_singleton, Hids. setoid_rewrite elem_of_app.
      setoid_rewrite list_elem_of_singleton. naive_solver.
    + intros c [Hc| ->%list_elem_of_singleton]%elem_of_app.
      * apply Hfirst in Hc as (fs1 & g & fs2 & -> & ? & ?). exists fs1, g, (fs2 ++ [f]).
        by rewrite <-app_assoc.
      * exists fs, f, []. split_and!; [done..|]. intros g Hg E. apply Hout, Hids. eauto.
Qed.

(** The SARIF document declares one rule per check id that has a finding, with the title,
    description and level of its first finding, before any result; there is one result per
    finding, in order, and its rule is declared. *)
Theorem sarif_rules_exact r :
  ∃ rules, sarif_calls r = rules ++ map sarif_result (rep_Findings r) ∧
  NoDup (map rule_id rules) ∧
  (∀ id, id ∈ map rule_id rules ↔ ∃ f, f ∈ rep_Findings r ∧ f_ID f = id) ∧
  (∀ c, c ∈ rules → ∃ fs1 f fs2, rep_Findings r = fs1 ++ f :: fs2 ∧ c = rule_of f ∧
     ∀ g, g ∈ fs1 → f_ID g ≠ f_ID f).
Proof.
  pose proof (sarif_rules_fold (rep_Findings r)) as H. unfold sarif_calls.
  destruct (foldl sarif_rule ([], ∅) (rep_Findings r)) as [rules seen].
  destruct H as (? & Hseen & Hids & ?). exists rules. split_and!; [done..| |done].
  intros id. by rewrite <-Hseen, Hids.
Qed.

(** * CSV and evidence helpers *)

(** The CSV export is faithful: a reader of the format gets back the header and one record per
    finding, in order, with exactly the finding's fields, whatever bytes they hold. *)
Theorem ExportCSV_roundtrip r :
  csv_read FieldStart "" [] (ExportCSV r) = Some (csv_header :: map csv_record (rep_Findings r)).
Proof.
  unfold ExportCSV. apply csv_read_rows.
  intros row [-> |(f & -> & _)%list_elem_of_fmap]%elem_of_cons; done.
Qed.

(** [String.concat] by a separator puts the separator before every word but the first. *)
Lemma concat_sep sep v s :
  String.concat sep (v :: s) = v +:+ String.concat "" (map (String.append sep) s).
Proof.
  revert v. induction s as [|w s IH]; intros v; [symmetry; apply str_app_nil_r|].
  change (String.concat sep (v :: w :: s)) with (v +:+ sep +:+ String.concat sep (w :: s)).
  rewrite IH. f_equal. destruct s as [|u s]; cbn [map String.concat]; [by rewrite !str_app_nil_r|].
  by rewrite <-!str_app_assoc.
Qed.

Lemma joinComma_join s : joinComma s = join ", " s.
Proof.
  unfold joinComma, join. destruct s as [|v s]; [done|]. rewrite concat_sep.
  change (joinComma_from 0 "" (v :: s)) with (joinComma_from 1 v s).
  enough (∀ i out, joinComma_from (S i) out s
                   = out +:+ String.concat "" (map (String.append ", ") s)) as H by apply H.
  induction s as [|w s IH]; intros i out; [symmetry; apply str_app_nil_r|].
  change (joinComma_from (S i) out (w :: s)) with (joinComma_from (S (S i)) ((out +:+ ", ") +:+ w) s).
  rewrite IH, <-!str_app_assoc. destruct s; cbn [map String.concat]; [by rewrite !str_app_nil_r|done].
Qed.

Lemma techniques_spec refs : techniques refs = map cr_ID (List.filter (λ r, cr_Framework r =s "ATT&CK") refs).
Proof.
  unfold techniques.
  assert (∀ ids, foldl (λ ids r, if cr_Framework r =s "ATT&CK" then ids ++ [cr_ID r] else ids) ids refs
                 = ids ++ map cr_ID (List.filter (λ r, cr_Framework r =s "ATT&CK") refs)) as ->; [|done].
  induction refs as [|r refs IH]; intros ids; simpl; [by rewrite app_nil_r|].
  rewrite IH. destruct (cr_Framework r =s "ATT&CK"); [by rewrite <-app_assoc|done].
Qed.

(** The headline counts the findings of each level, and no more than there are. *)
Lemma severity_counts_spec fs s :
  map_get 0%Z (severity_counts fs) s = count (λ f, f_Severity f =s s) fs ∧
  map_sum (severity_counts fs) = Z.of_nat (length fs).
Proof.
  unfold severity_counts. rewrite tally_get, tally_sum, length_map. split; [|done].
  induction fs as [|f fs IH]; [done|]. simpl map. by rewrite !count_cons, IH.
Qed.
