(* ===== verification/Html.v ===== *)
(** The HTML writers (internal/report/html.go and evidence.go).

    A page is a list of pieces: the literal texts of the template, and the values it inserts, each
    with the escapers html/template puts into the pipeline for the context of the insertion.
    [HTML] and [EvidenceHTML] render the pages; [html_data] of Reports is the data of the dashboard.
    The theorem [markup_fixed]: no text of a report can add markup to a page. *)

From Stdlib Require Import Ascii.
From S2P Require Import Prelude GoStrings GoFloat GoFmt Api Checks Analyzer History Reports.

(** * html/template

    The escapers the library chooses are those of the contexts of the two templates: text, RCDATA
    and quoted attributes ([html_escape], the same table in all three), a CSS value in a quoted
    attribute, and a number in a quoted JavaScript string or as a JavaScript value in a quoted
    attribute. *)

Definition html_entity (c : ascii) : option string :=
  match byte_of c with
  | 0%N => Some (String (ascii_of_N 239) (String (ascii_of_N 191) (String (ascii_of_N 189) EmptyString)))
  | 34%N => Some "&#34;"
  | 38%N => Some "&amp;"
  | 39%N => Some "&#39;"
  | 43%N => Some "&#43;"
  | 60%N => Some "&lt;"
  | 62%N => Some "&gt;"
  | _ => None
  end.

Definition html_escape (s : string) : string := replace_bytes html_entity s.

(** The bytes a CSS value must not have, and those of its letters. *)
Definition css_forbidden (c : ascii) : bool :=
  existsb (N.eqb (byte_of c)) [0; 34; 39; 40; 41; 47; 59; 60; 62; 64; 91; 92; 93; 96; 123; 125]%N.

Definition css_name_byte (c : ascii) : bool :=
  in_range 97 122 c || in_range 65 90 c || in_range 48 57 c || (byte_of c =? 95)%N.

Fixpoint css_name_part (s : string) : string :=
  match s with
  | EmptyString => EmptyString
  | String c s' => if css_name_byte c then String c (css_name_part s') else css_name_part s'
  end.

(** [cssValueFilter] on a value without backslashes. *)
Definition cssValueFilter (s : string) : string :=
  let name := to_lower (css_name_part s) in
  if negb (str_all (λ c, negb (css_forbidden c)) s) || contains s "--"
     || contains name "expression" || contains name "mozbinding"
  then "ZgotmplZ" else s.

Inductive piece :=
  | Lit (s : string)
  | Html (s : string)
  | Css (s : string)
  | JsIndexStr (n : nat)
  | JsIndex (n : nat).

Definition piece_text (p : piece) : string :=
  match p with
  | Lit s => s
  | Html s => html_escape s
  | Css s => html_escape (cssValueFilter s)
  | JsIndexStr n => html_escape (fmt_int (Z.of_nat n))
  | JsIndex n => html_escape (" " +:+ fmt_int (Z.of_nat n) +:+ " ")
  end.

Fixpoint render (ps : list piece) : string :=
  match ps with [] => EmptyString | p :: ps' => piece_text p +:+ render ps' end.

(** The template texts below write a backtick for the double quote. *)
Definition bq (s : string) : string :=
  replace_bytes (λ c, if (byte_of c =? 96)%N then Some dquote else None) s.

(** [not] and [if] on a slice. *)
Definition no_elem {A} (l : list A) : bool := match l with [] => true | _ => false end.

(** * The evidence page: evidence.go *)

Definition evidence_item (v : Evidence) : list piece :=
  [Lit "<div><code>";
   Html (ev_Path v);
   Lit "</code>"] ++
  (if ev_Value v <>s "" then [Lit ": ";
     Html (ev_Value v)] else []) ++
  [Lit "</div>"].

Definition evidence_finding (f : Finding) : list piece :=
  [Lit (bq "<tr>
<td><span class=`sev s-");
   Html (f_Severity f);
   Lit (bq "`>");
   Html (f_Severity f);
   Lit "</span></td>
<td>";
   Html (f_ID f);
   Lit (bq "<br><span class=`ev`>");
   Html (f_Title f);
   Lit "</span></td>
<td>";
   Html (rr_Kind (f_Resource f));
   Lit " ";
   Html (rr_Namespace (f_Resource f));
   Lit "/";
   Html (rr_Name (f_Resource f));
   Lit "</td>
<td>";
   Html (joinComma (techniques (f_Refs f)));
   Lit (bq "</td>
<td class=`ev`>")] ++
  flat_map evidence_item (f_Evidence f) ++
  [Lit (bq "</td>
<td class=`ev`>");
   Html (rem_Summary (f_Remediation f))] ++
  (if rem_Snippet (f_Remediation f) <>s "" then [Lit "<pre>";
     Html (rem_Snippet (f_Remediation f));
     Lit "</pre>"] else []) ++
  [Lit "</td>
</tr>"].

Definition evidence_control (c : EvidenceControl) : list piece :=
  [Lit (bq "
<div class=`ctrl`>
<h3>")] ++
  (if ec_Breached c then [Lit (bq "<span class=`tag t-breached`>breached</span>")] else [Lit (bq "<span class=`tag t-passed`>passed</span>")]) ++
  [Lit " ";
   Html (ec_ControlID c);
   Lit " — ";
   Html (ec_Title c);
   Lit (bq "</h3>
<div class=`maps`>Mapped checks: ");
   Html (joinComma (ec_MapsTo c));
   Lit "</div>
"] ++
  (if negb (no_elem (ec_Findings c)) then [Lit "
<table><thead><tr><th>Severity</th><th>Check</th><th>Resource</th><th>ATT&CK</th><th>Evidence</th><th>Remediation</th></tr></thead><tbody>
"] ++
    flat_map evidence_finding (ec_Findings c) ++
    [Lit "
</tbody></table>
"] else [Lit (bq "<div class=`ev`>No findings — every mapped check passed against the scanned input.</div>")]) ++
  [Lit "
</div>
"].

Definition evidence_page (ep : EvidencePack) : list piece :=
  [Lit (bq "<!doctype html>
<html lang=`en`><head><meta charset=`utf-8`>
<meta name=`viewport` content=`width=device-width, initial-scale=1`>
<title>KubeGuard Evidence — ");
   Html (ep_Framework ep);
   Lit "</title>
<style>
:root{--bg:#0f1419;--panel:#1a2029;--fg:#e6e6e6;--mut:#8a93a0;--line:#2a323d;
--crit:#ff5c5c;--high:#ff9d5c;--med:#ffd05c;--low:#5cc8ff;--ok:#5cd28a}
*{box-sizing:border-box}body{margin:0;font:14px/1.5 system-ui,Segoe UI,Roboto,sans-serif;background:var(--bg);color:var(--fg)}
header{padding:18px 24px;border-bottom:1px solid var(--line)}
h1{margin:0;font-size:18px}.sub{color:var(--mut);font-size:12px;margin-top:4px}
main{padding:24px;max-width:1000px;margin:0 auto}
.cards{display:flex;gap:12px;flex-wrap:wrap;margin-bottom:20px}
.card{background:var(--panel);border:1px solid var(--line);border-radius:8px;padding:14px 18px;min-width:120px}
.card .n{font-size:26px;font-weight:700}.card .l{color:var(--mut);font-size:12px}
.ctrl{background:var(--panel);border:1px solid var(--line);border-radius:8px;padding:16px;margin-bottom:16px}
.ctrl h3{margin:0 0 6px;font-size:15px}
.tag{font-weight:700;text-transform:uppercase;font-size:11px;padding:2px 7px;border-radius:4px;color:#0f1419}
.t-breached{background:var(--crit)}.t-passed{background:var(--ok)}
.maps{color:var(--mut);font-size:12px;margin:6px 0}
table{width:100%;border-collapse:collapse;margin-top:8px}th,td{text-align:left;padding:8px 10px;border-bottom:1px solid var(--line);vertical-align:top}
th{color:var(--mut);font-weight:600;font-size:12px;text-transform:uppercase}
.sev{font-weight:700;text-transform:uppercase;font-size:11px;padding:2px 7px;border-radius:4px;color:#0f1419}
.s-critical{background:var(--crit)}.s-high{background:var(--high)}.s-medium{background:var(--med)}.s-low{background:var(--low)}.s-info{background:var(--low)}
code{font-family:ui-monospace,Consolas,monospace;font-size:12px}
pre{background:#11161d;border:1px solid var(--line);border-radius:6px;padding:6px;margin-top:6px;overflow:auto}
.disc{color:var(--mut);font-size:12px;margin-top:10px}
.ev{color:var(--mut);font-size:12px}
</style></head><body>
<header><h1>KubeGuard Evidence Pack — ";
   Html (ep_Framework ep)] ++
  (if ep_Version ep <>s "" then [Lit (bq " <span class=`sub`>v");
     Html (ep_Version ep);
     Lit "</span>"] else []) ++
  [Lit (bq "</h1>
<div class=`sub`>source: ");
   Html (ep_Source ep);
   Lit " · profile: ";
   Html (ep_Profile ep);
   Lit " · generated: ";
   Html (ep_GeneratedAt ep);
   Lit (bq "</div></header>
<main>
<div class=`cards`>
<div class=`card`><div class=`n`>");
   Html (fmt_int (ep_Assessed ep));
   Lit (bq "</div><div class=`l`>Assessed</div></div>
<div class=`card`><div class=`n` style=`color:var(--crit)`>");
   Html (fmt_int (ep_Breached ep));
   Lit (bq "</div><div class=`l`>Breached</div></div>
<div class=`card`><div class=`n` style=`color:var(--ok)`>");
   Html (fmt_int (ep_Passed ep));
   Lit (bq "</div><div class=`l`>Passed</div></div>
<div class=`card`><div class=`n`>");
   Html (percent (ep_PassRate ep) +:+ "%");
   Lit (bq "</div><div class=`l`>Pass rate</div></div>
</div>
<p class=`disc`>");
   Html (fmt_int (ep_Breached ep));
   Lit " breached of ";
   Html (fmt_int (ep_Assessed ep));
   Lit " assessed · ";
   Html (fmt_int (ep_Passed ep));
   Lit " passed of ";
   Html (fmt_int (ep_Assessed ep));
   Lit " assessed. ";
   Html (ep_Disclaimer ep);
   Lit "</p>
"] ++
  (if no_elem (ep_Controls ep) then [Lit (bq "<p class=`disc`>No controls assessed for this framework against the scanned input.</p>")] else []) ++
  [Lit "
"] ++
  flat_map evidence_control (ep_Controls ep) ++
  [Lit (bq "
<p class=`disc`>Evidence shows redacted field paths only — never secret values. Indicative control mapping; pass rate is passed of assessed.</p>
</main>
</body></html>")].

Definition EvidenceHTML (ep : EvidencePack) : string := render (evidence_page ep).

(** * The dashboard page: html.go *)

Definition html_dot (t : trendPoint) : list piece :=
  [Lit (bq "<circle cx=`");
   Html (fmt_v (tp_X t));
   Lit (bq "` cy=`");
   Html (fmt_v (tp_Y t));
   Lit (bq "` r=`3` fill=`#5cd28a`><title>");
   Html (tp_Pct t);
   Lit " — ";
   Html (tp_Label t);
   Lit "</title></circle>"].

Definition html_breach (b : ControlBreach) : list piece :=
  [Lit (bq "<tr><td class=`disc` style=`padding-left:24px`>↳ ");
   Html (cb_ControlID b);
   Lit " ";
   Html (cb_Title b);
   Lit (bq "</td><td class=`disc` colspan=`2`>");
   Html (join ", " (cb_Findings b));
   Lit "</td></tr>"].

Definition html_framework (fw : FrameworkResult) : list piece :=
  [Lit "<tr><td>";
   Html (fr_Framework fw);
   Lit " "] ++
  (if fr_Version fw <>s "" then [Lit (bq "<span class=`disc`>v");
     Html (fr_Version fw);
     Lit "</span>"] else []) ++
  [Lit "</td>
<td>";
   Html (fmt_int (fr_Breached fw));
   Lit " of ";
   Html (fmt_int (fr_Assessed fw));
   Lit (bq "</td>
<td><span class=`bar`><i style=`width:");
   Css (percent (fr_PassRate fw) +:+ "%");
   Lit (bq "`></i></span> ");
   Html (percent (fr_PassRate fw) +:+ "%");
   Lit "</td></tr>
"] ++
  flat_map html_breach (fr_Breaches fw) ++
  [Lit "
"].

Definition html_node (pi i : nat) (cap : Capability) : list piece :=
  (if negb (Nat.eqb i 0) then [Lit (bq "<span class=`arrow`>→</span>")] else []) ++
  [Lit (bq "<span class=`node` onclick=`hop('");
   JsIndexStr pi;
   Lit "',";
   JsIndex i;
   Lit (bq ")`>");
   Html cap;
   Lit "</span>"].

Definition html_hop (pi hi : nat) (h : PathHop) : list piece :=
  [Lit (bq "<div class=`hopdetail` id=`h-");
   Html (fmt_int (Z.of_nat pi));
   Lit "-";
   Html (fmt_int (Z.of_nat hi + 1));
   Lit (bq "`><strong>");
   Html (h_From h);
   Lit " → ";
   Html (h_To h);
   Lit "</strong> · enabled by ";
   Html (h_EnabledBy h);
   Lit " · ATT&CK ";
   Html (join ", " (h_Technique h));
   Lit "<br>";
   Html (h_Narrative h);
   Lit "</div>"].

Definition html_path (chain : list Capability) (pi : nat) (p : AttackPath) : list piece :=
  [Lit (bq "
<div class=`path`><span class=`sev s-");
   Html (p_Severity p);
   Lit (bq "`>");
   Html (p_Severity p);
   Lit "</span> <strong>";
   Html (p_Title p);
   Lit (bq "</strong>
<div class=`chain`>")] ++
  concat (imap (html_node pi) chain) ++
  [Lit "</div>
"] ++
  concat (imap (html_hop pi) (p_Hops p)) ++
  [Lit (bq "
<div class=`disc`>");
   Html (p_Summary p);
   Lit "</div></div>
"].

Definition html_finding (f : Finding) : list piece :=
  [Lit (bq "<tr><td><span class=`sev s-");
   Html (f_Severity f);
   Lit (bq "`>");
   Html (f_Severity f);
   Lit "</span></td><td>";
   Html (f_ID f);
   Lit "</td><td>";
   Html (f_Title f);
   Lit "</td>
<td>";
   Html (rr_Kind (f_Resource f));
   Lit " ";
   Html (rr_Namespace (f_Resource f));
   Lit "/";
   Html (rr_Name (f_Resource f));
   Lit (bq "</td>
<td class=`disc`>");
   Html (rem_Summary (f_Remediation f))] ++
  (if rem_Snippet (f_Remediation f) <>s "" then [Lit (bq "<pre style=`background:#11161d;border:1px solid var(--line);border-radius:6px;padding:6px;margin-top:6px;overflow:auto`>");
     Html (rem_Snippet (f_Remediation f));
     Lit "</pre>"] else []) ++
  [Lit "</td></tr>"].

Definition html_head (d : htmlData) : list piece :=
  [Lit (bq "<!doctype html>
<html lang=`en`><head><meta charset=`utf-8`>
<meta name=`viewport` content=`width=device-width, initial-scale=1`>
<title>KubeGuard Report</title>
<style>
:root{--bg:#0f1419;--panel:#1a2029;--fg:#e6e6e6;--mut:#8a93a0;--line:#2a323d;
--crit:#ff5c5c;--high:#ff9d5c;--med:#ffd05c;--low:#5cc8ff;--ok:#5cd28a}
*{box-sizing:border-box}body{margin:0;font:14px/1.5 system-ui,Segoe UI,Roboto,sans-serif;background:var(--bg);color:var(--fg)}
header{padding:18px 24px;border-bottom:1px solid var(--line)}
h1{margin:0;font-size:18px}.sub{color:var(--mut);font-size:12px;margin-top:4px}
nav{display:flex;gap:4px;padding:0 16px;border-bottom:1px solid var(--line);background:var(--panel)}
nav button{background:none;border:0;color:var(--mut);padding:12px 16px;cursor:pointer;font-size:14px;border-bottom:2px solid transparent}
nav button.active{color:var(--fg);border-bottom-color:var(--low)}
main{padding:24px;max-width:1000px;margin:0 auto}.tab{display:none}.tab.active{display:block}
.cards{display:flex;gap:12px;flex-wrap:wrap;margin-bottom:20px}
.card{background:var(--panel);border:1px solid var(--line);border-radius:8px;padding:14px 18px;min-width:120px}
.card .n{font-size:26px;font-weight:700}.card .l{color:var(--mut);font-size:12px}
table{width:100%;border-collapse:collapse}th,td{text-align:left;padding:8px 10px;border-bottom:1px solid var(--line);vertical-align:top}
th{color:var(--mut);font-weight:600;font-size:12px;text-transform:uppercase}
.sev{font-weight:700;text-transform:uppercase;font-size:11px;padding:2px 7px;border-radius:4px;color:#0f1419}
.s-critical{background:var(--crit)}.s-high{background:var(--high)}.s-medium{background:var(--med)}.s-low{background:var(--low)}
.path{background:var(--panel);border:1px solid var(--line);border-radius:8px;padding:16px;margin-bottom:16px}
.chain{display:flex;flex-wrap:wrap;align-items:center;gap:6px;margin:10px 0}
.node{background:#222c38;border:1px solid var(--line);border-radius:6px;padding:6px 10px;cursor:pointer;font-size:12px}
.node:hover{border-color:var(--low)}.arrow{color:var(--mut)}
.hopdetail{display:none;border-left:2px solid var(--low);padding:6px 12px;margin:6px 0;color:var(--mut)}
.hopdetail.show{display:block}.disc{color:var(--mut);font-size:12px;margin-top:10px}
.bar{height:8px;background:var(--line);border-radius:4px;overflow:hidden;width:160px;display:inline-block;vertical-align:middle}
.bar>i{display:block;height:100%;background:var(--ok)}
svg{background:var(--panel);border:1px solid var(--line);border-radius:8px}
</style></head><body>
<header><h1>KubeGuard Report</h1>
<div class=`sub`>source: ");
   Html (rep_Source (hd_Report d));
   Lit " · profile: ";
   Html (rep_Profile (hd_Report d));
   Lit " · generated: ";
   Html (rep_GeneratedAt (hd_Report d));
   Lit (bq "</div></header>
<nav>
<button class=`tab-btn active` data-t=`overview`>Overview</button>
<button class=`tab-btn` data-t=`compliance`>Compliance</button>
<button class=`tab-btn` data-t=`paths`>Attack Paths</button>
<button class=`tab-btn` data-t=`findings`>Findings</button>
</nav><main>

")].

Definition html_overview (d : htmlData) : list piece :=
  [Lit (bq "<section id=`overview` class=`tab active`>
<div class=`cards`>
<div class=`card`><div class=`n`>");
   Html (len_text (rep_Findings (hd_Report d)));
   Lit (bq "</div><div class=`l`>Findings</div></div>
<div class=`card`><div class=`n` style=`color:var(--crit)`>");
   Html (fmt_int (map_get 0%Z (hd_SevCounts d) "critical"));
   Lit (bq "</div><div class=`l`>Critical</div></div>
<div class=`card`><div class=`n` style=`color:var(--high)`>");
   Html (fmt_int (map_get 0%Z (hd_SevCounts d) "high"));
   Lit (bq "</div><div class=`l`>High</div></div>
<div class=`card`><div class=`n`>");
   Html (len_text (rep_Paths (hd_Report d)));
   Lit (bq "</div><div class=`l`>Attack paths</div></div>
<div class=`card`><div class=`n`>");
   Html (percent (ps_OverallPassRate (rep_Posture (hd_Report d))) +:+ "%");
   Lit (bq "</div><div class=`l`>Control pass</div></div>
</div>
")] ++
  (if hd_HasHistory d then [Lit (bq "<h3>Control-pass trend</h3>
<svg viewBox=`0 0 600 160` width=`600` height=`160`>
<polyline fill=`none` stroke=`#5cd28a` stroke-width=`2` points=`");
     Html (hd_TrendLine d);
     Lit (bq "`/>
")] ++
    flat_map html_dot (hd_TrendDots d) ++
    [Lit "
</svg>"] else [Lit (bq "<p class=`disc`>No history yet — scan with --history to build a trend.</p>")]) ++
  [Lit "
</section>

"].

Definition html_compliance (d : htmlData) : list piece :=
  [Lit (bq "<section id=`compliance` class=`tab`>
<table><thead><tr><th>Framework</th><th>Breached / Assessed</th><th>Pass</th></tr></thead><tbody>
")] ++
  flat_map html_framework (rep_Compliance (hd_Report d)) ++
  [Lit (bq "</tbody></table>
<p class=`disc`>Indicative control mapping only; not a certification or audit. Pass rate is shown as passed of assessed.</p>
</section>

")].

Definition html_paths (d : htmlData) : list piece :=
  [Lit (bq "<section id=`paths` class=`tab`>
")] ++
  (if no_elem (rep_Paths (hd_Report d)) then [Lit (bq "<p class=`disc`>No attack paths.</p>")] else []) ++
  [Lit "
"] ++
  concat (imap (λ pi p, html_path (nth pi (hd_NodeChains d) []) pi p) (rep_Paths (hd_Report d))) ++
  [Lit "
</section>

"].

Definition html_findings (d : htmlData) : list piece :=
  [Lit (bq "<section id=`findings` class=`tab`>
<table><thead><tr><th>Severity</th><th>ID</th><th>Title</th><th>Resource</th><th>Remediation</th></tr></thead><tbody>
")] ++
  flat_map html_finding (rep_Findings (hd_Report d)) ++
  [Lit "
</tbody></table>
</section>
"].

Definition html_tail : list piece :=
  [Lit "</main>
<script>
document.querySelectorAll('.tab-btn').forEach(function(b){b.onclick=function(){
document.querySelectorAll('.tab-btn').forEach(function(x){x.classList.remove('active')});
document.querySelectorAll('.tab').forEach(function(x){x.classList.remove('active')});
b.classList.add('active');document.getElementById(b.dataset.t).classList.add('active');};});
function hop(pi,i){var el=document.getElementById('h-'+pi+'-'+i);if(el){el.classList.toggle('show');}}
</script>
</body></html>"].

Definition html_page (d : htmlData) : list piece :=
  html_head d ++ html_overview d ++ html_compliance d ++ html_paths d ++ html_findings d ++ html_tail.

Definition HTML (r : Report) (hist : list ScanRecord) : string := render (html_page (html_data r hist)).

(** * Escaping *)

(** The bytes that open a tag, a quoted value or a script string. *)
Definition is_markup (c : ascii) : bool := existsb (N.eqb (byte_of c)) [34; 39; 60; 62]%N.

Fixpoint markup (s : string) : string :=
  match s with
  | EmptyString => EmptyString
  | String c s' => if is_markup c then String c (markup s') else markup s'
  end.

Lemma markup_app s t : markup (s +:+ t) = markup s +:+ markup t.
Proof. induction s as [|c s IH]; [done|]. rewrite str_app_cons. simpl. destruct (is_markup c); simpl; by rewrite IH. Qed.

Lemma html_escape_cons c s : html_escape (c ::: s) = default (c ::: "") (html_entity c) +:+ html_escape s.
Proof. unfold html_escape. simpl. by destruct (html_entity c). Qed.

Lemma markup_escape s : markup (html_escape s) = "".
Proof.
  induction s as [|c s IH]; [done|]. rewrite html_escape_cons, markup_app, IH, str_app_nil_r.
  destruct c as [[] [] [] [] [] [] [] []]; reflexivity.
Qed.

(** What a browser shows for the entities [html_escape] writes. *)
Definition entities : list (string * ascii) :=
  [("&#34;", ascii_of_N 34); ("&amp;", ascii_of_N 38); ("&#39;", ascii_of_N 39);
   ("&#43;", ascii_of_N 43); ("&lt;", ascii_of_N 60); ("&gt;", ascii_of_N 62)].

Fixpoint starts_with (e s : string) : bool :=
  match e, s with
  | EmptyString, _ => true
  | String a e', String b s' => Ascii.eqb a b && starts_with e' s'
  | _, EmptyString => false
  end.

Definition entity_at (s : string) : option (string * ascii) :=
  List.find (λ '(e, _), starts_with e s) entities.

Fixpoint unescape_from (skip : nat) (s : string) : string :=
  match s, skip with
  | EmptyString, _ => EmptyString
  | String _ s', S n => unescape_from n s'
  | String c s', 0 =>
      match entity_at s with
      | Some (e, d) => String d (unescape_from (str_len e - 1) s')
      | None => String c (unescape_from 0 s')
      end
  end.
Definition unescape (s : string) : string := unescape_from 0 s.

Definition is_nul (c : ascii) : bool := (byte_of c =? 0)%N.

Lemma unescape_entity c s : is_nul c = false →
  unescape (default (c ::: "") (html_entity c) +:+ s) = c ::: unescape s.
Proof. destruct c as [[] [] [] [] [] [] [] []]; intros H; first [discriminate H | reflexivity]. Qed.

(** An escaped text is read back as it was. *)
Lemma unescape_escape s : str_all (λ c, negb (is_nul c)) s = true → unescape (html_escape s) = s.
Proof.
  induction s as [|c s IH]; [done|]. cbn [str_all]. intros H. boolify.
  rewrite html_escape_cons, unescape_entity by done. by rewrite IH.
Qed.

(** * The markup of a page

    Only the literal texts of a page have markup; which of them a page has depends on the numbers of
    elements and on which optional texts are empty. *)

Lemma render_app l1 l2 : render (l1 ++ l2) = render l1 +:+ render l2.
Proof. induction l1 as [|p l IH]; [done|]. simpl. by rewrite IH, str_app_assoc. Qed.

Definition page_markup (ps : list piece) : string := markup (render ps).

Lemma page_markup_app l1 l2 : page_markup (l1 ++ l2) = page_markup l1 +:+ page_markup l2.
Proof. unfold page_markup. by rewrite render_app, markup_app. Qed.

Definition is_lit (p : piece) : bool := match p with Lit _ => true | _ => false end.

Lemma page_markup_cons p ps :
  page_markup (p :: ps) = (if is_lit p then markup (piece_text p) else "") +:+ page_markup ps.
Proof.
  unfold page_markup. cbn [render]. rewrite markup_app. by destruct p; cbn [is_lit piece_text]; rewrite ?markup_escape.
Qed.

(** Pages that show the same literals have the same markup. *)
Definition same_markup (ps qs : list piece) : Prop := page_markup ps = page_markup qs.

Lemma same_app ps ps' qs qs' : same_markup ps qs → same_markup ps' qs' → same_markup (ps ++ ps') (qs ++ qs').
Proof. unfold same_markup. rewrite !page_markup_app. congruence. Qed.

Lemma same_cons p q ps qs :
  (if is_lit p then p = q else is_lit q = false) → same_markup ps qs → same_markup (p :: ps) (q :: qs).
Proof.
  unfold same_markup. rewrite !page_markup_cons. intros Hp ->. destruct (is_lit p) eqn:E; [by subst; rewrite E|].
  by rewrite Hp.
Qed.

Lemma same_flat_map {A B} (f : A → list piece) (sh : A → B) l l' :
  (∀ x y, sh x = sh y → same_markup (f x) (f y)) → map sh l = map sh l' →
  same_markup (flat_map f l) (flat_map f l').
Proof.
  intros Hf. revert l'. induction l as [|x l IH]; intros [|y l'] [=]; [done|].
  simpl. apply same_app; auto.
Qed.

Lemma same_imap {A B} (f g : nat → A → list piece) (sh : A → B) l l' :
  (∀ i x y, sh x = sh y → same_markup (f i x) (g i y)) → map sh l = map sh l' →
  same_markup (concat (imap f l)) (concat (imap g l')).
Proof.
  revert f g l'. induction l as [|x l IH]; intros f g [|y l'] Hf [=]; [done|].
  simpl. apply same_app; [by apply Hf|]. apply (IH (f ∘ S) (g ∘ S)); [|done]. intros i a b. apply Hf.
Qed.

Lemma same_if (b b' : bool) ps ps' qs qs' :
  b = b' → same_markup ps ps' → same_markup qs qs' →
  same_markup (if b then ps else qs) (if b' then ps' else qs').
Proof. intros ->. by destruct b'. Qed.

(** Walks down two pages that were built the same way. *)
Ltac same_page :=
  repeat match goal with
  | |- same_markup [] [] => reflexivity
  | |- same_markup (_ :: _) _ => apply same_cons; [reflexivity|]
  | |- same_markup (_ ++ _) (_ ++ _) => apply same_app
  | |- same_markup (if _ then _ else _) _ => apply same_if; [try done|..]
  end.

(** ** The shape of a page *)

Definition shown (s : string) : bool := s <>s "".

(** Of a finding: whether it has a remediation snippet; with its evidence, which values are shown. *)
Definition finding_shape (f : Finding) : bool := shown (rem_Snippet (f_Remediation f)).
Definition framework_shape (fw : FrameworkResult) : bool * nat := (shown (fr_Version fw), length (fr_Breaches fw)).
Definition path_shape (p : AttackPath) : nat := length (p_Hops p).

Definition report_shape (r : Report) : list bool * list (bool * nat) * list nat :=
  (map finding_shape (rep_Findings r), map framework_shape (rep_Compliance r), map path_shape (rep_Paths r)).

Definition evidence_finding_shape (f : Finding) : list bool * bool :=
  (map (λ v, shown (ev_Value v)) (f_Evidence f), finding_shape f).
Definition control_shape (c : EvidenceControl) : bool * list (list bool * bool) :=
  (ec_Breached c, map evidence_finding_shape (ec_Findings c)).
Definition pack_shape (ep : EvidencePack) : bool * list (bool * list (list bool * bool)) :=
  (shown (ep_Version ep), map control_shape (ep_Controls ep)).

Lemma no_elem_length {A B} (l : list A) (l' : list B) : length l = length l' → no_elem l = no_elem l'.
Proof. by destruct l, l'. Qed.

Lemma map_length_eq {A B C} (f : A → C) (g : B → C) l l' : map f l = map g l' → length l = length l'.
Proof. intros H. apply (f_equal length) in H. by rewrite !length_map in H. Qed.

Lemma map_const {A B} (l : list A) (l' : list B) : length l = length l' → map (λ _, tt) l = map (λ _, tt) l'.
Proof. revert l'. induction l as [|x l IH]; intros [|y l'] [=]; [done|]. simpl. f_equal. auto. Qed.

Lemma same_finding f f' : finding_shape f = finding_shape f' → same_markup (html_finding f) (html_finding f').
Proof. intros H. unfold html_finding. same_page. Qed.

Lemma same_breach b b' : same_markup (html_breach b) (html_breach b').
Proof. unfold html_breach. same_page. Qed.

Lemma same_framework fw fw' :
  framework_shape fw = framework_shape fw' → same_markup (html_framework fw) (html_framework fw').
Proof.
  intros [= Hv Hb]. unfold html_framework. same_page.
  apply (same_flat_map html_breach (λ _, tt)); [intros; apply same_breach|by apply map_const].
Qed.

Lemma same_dot t t' : same_markup (html_dot t) (html_dot t').
Proof. unfold html_dot. same_page. Qed.

Lemma same_node pi pi' i c c' : same_markup (html_node pi i c) (html_node pi' i c').
Proof. unfold html_node. same_page. Qed.

Lemma same_hop pi pi' i i' h h' : same_markup (html_hop pi i h) (html_hop pi' i' h').
Proof. unfold html_hop. same_page. Qed.

Lemma node_chain_shape p p' : path_shape p = path_shape p' → length (node_chain p) = length (node_chain p').
Proof.
  unfold path_shape, node_chain. destruct (p_Hops p), (p_Hops p'); try done.
  cbn [length]. rewrite !length_map. auto.
Qed.

Lemma same_path pi p p' : path_shape p = path_shape p' →
  same_markup (html_path (node_chain p) pi p) (html_path (node_chain p') pi p').
Proof.
  intros H. unfold html_path. same_page.
  - apply (same_imap _ _ (λ _, tt)); [intros; apply same_node|]. by apply map_const, node_chain_shape.
  - apply (same_imap _ _ (λ _, tt)); [intros; apply same_hop|by apply map_const].
Qed.

(** The chain the template finds at the index of a path is that of the path. *)
Lemma paths_chains (F : list Capability → nat → AttackPath → list piece) (paths : list AttackPath) :
  imap (λ pi p, F (nth pi (map node_chain paths) []) pi p) paths = imap (λ pi p, F (node_chain p) pi p) paths.
Proof.
  apply imap_ext. intros i p Hi. f_equal. apply nth_lookup_Some. by rewrite list_lookup_fmap, Hi.
Qed.

Lemma length_buildTrend hist : length (buildTrend hist) = length hist.
Proof.
  unfold buildTrend. generalize (length hist) at 1 as n, 0 as i. induction hist as [|x l IH]; intros; [done|].
  simpl. by rewrite IH.
Qed.

Lemma same_html r r' hist hist' :
  report_shape r = report_shape r' → length hist = length hist' →
  same_markup (html_page (html_data r hist)) (html_page (html_data r' hist')).
Proof.
  unfold report_shape. intros [= Hf Hc Hp] Hh. unfold html_page, html_head, html_overview, html_compliance, html_paths,
    html_findings, html_tail. unfold html_data. cbn [hd_Report hd_HasHistory hd_TrendDots hd_NodeChains].
  rewrite !(paths_chains html_path). same_page.
  - by rewrite Hh.
  - apply (same_flat_map _ (λ _, tt)); [intros; apply same_dot|]. apply map_const. by rewrite !length_buildTrend, Hh.
  - by apply (same_flat_map _ framework_shape), Hc; apply same_framework.
  - apply no_elem_length. by apply map_length_eq in Hp.
  - by apply (same_imap _ _ path_shape), Hp; apply same_path.
  - by apply (same_flat_map _ finding_shape), Hf; apply same_finding.
Qed.

Lemma same_evidence_item v v' : shown (ev_Value v) = shown (ev_Value v') → same_markup (evidence_item v) (evidence_item v').
Proof. intros H. unfold evidence_item. same_page. Qed.

Lemma same_evidence_finding f f' :
  evidence_finding_shape f = evidence_finding_shape f' → same_markup (evidence_finding f) (evidence_finding f').
Proof.
  intros [= He Hs]. unfold evidence_finding. same_page.
  by apply (same_flat_map _ (λ v, shown (ev_Value v))), He; apply same_evidence_item.
Qed.

Lemma same_control c c' : control_shape c = control_shape c' → same_markup (evidence_control c) (evidence_control c').
Proof.
  intros [= Hb Hf]. unfold evidence_control. same_page.
  - f_equal. apply no_elem_length. by apply map_length_eq in Hf.
  - by apply (same_flat_map _ evidence_finding_shape), Hf; apply same_evidence_finding.
Qed.

Lemma same_evidence ep ep' : pack_shape ep = pack_shape ep' → same_markup (evidence_page ep) (evidence_page ep').
Proof.
  intros [= Hv Hc]. unfold evidence_page. same_page.
  - apply no_elem_length. by apply map_length_eq in Hc.
  - by apply (same_flat_map _ control_shape), Hc; apply same_control.
Qed.

(** ** Every finding is on the page *)

(** [s] is part of the text [page]. *)
Definition part_of (s page : string) : Prop := ∃ before after, page = before +:+ s +:+ after.

Lemma part_of_piece p ps : In p ps → part_of (piece_text p) (render ps).
Proof.
  intros (l1 & l2 & ->)%in_split. exists (render l1), (render l2). by rewrite render_app.
Qed.

(** The texts of a finding every page shows. *)
Definition finding_texts (f : Finding) : list string :=
  [f_Severity f; f_ID f; f_Title f; rr_Kind (f_Resource f); rr_Name (f_Resource f); rem_Summary (f_Remediation f)].

Lemma finding_row f s : In s (finding_texts f) → In (Html s) (html_finding f).
Proof.
  intros H. unfold html_finding. rewrite !in_app_iff. cbn [In].
  repeat destruct H as [<- | H]; [..|done]; tauto.
Qed.

Lemma evidence_row f s : In s (finding_texts f) → In (Html s) (evidence_finding f).
Proof.
  intros H. unfold evidence_finding. rewrite !in_app_iff. cbn [In].
  repeat destruct H as [<- | H]; [..|done]; tauto.
Qed.

Lemma finding_on_page r hist f s :
  In f (rep_Findings r) → In s (finding_texts f) → part_of (html_escape s) (HTML r hist).
Proof.
  intros Hf Hs. apply (part_of_piece (Html s)). unfold html_page, html_findings.
  do 4 (apply in_or_app; right). apply in_or_app; left. apply in_or_app; right. apply in_or_app; left.
  apply in_flat_map. exists f. split; [done|]. by apply finding_row.
Qed.

Lemma finding_in_pack ep c f s :
  In c (ep_Controls ep) → In f (ec_Findings c) → In s (finding_texts f) → part_of (html_escape s) (EvidenceHTML ep).
Proof.
  intros Hc Hf Hs. apply (part_of_piece (Html s)). unfold evidence_page.
  do 5 (apply in_or_app; right). apply in_or_app; left. apply in_flat_map. exists c. split; [done|].
  unfold evidence_control. assert (no_elem (ec_Findings c) = false) as -> by by destruct (ec_Findings c).
  do 3 (apply in_or_app; right). apply in_or_app; left. apply in_or_app; right. apply in_or_app; left.
  apply in_flat_map. exists f. split; [done|]. by apply evidence_row.
Qed.

(** * Properties *)

(** C34: The HTML writers are safe and complete.  The markup of a page (every angle bracket and quote
    it has, in order) is the same for all reports with the same numbers of findings, frameworks,
    breaches, paths and hops and the same empty optional texts: no title, name, evidence or
    remediation, whatever bytes it has, opens a tag, closes a quoted value or enters a script.  The
    same holds for an evidence pack.  Every finding is on the page with its severity, id, title,
    resource and remediation, escaped, and what a browser shows for an escaped text without zero
    bytes is that text. *)
Theorem markup_fixed r r' hist hist' ep ep' :
  report_shape r = report_shape r' → length hist = length hist' → pack_shape ep = pack_shape ep' →
  markup (HTML r hist) = markup (HTML r' hist')
  ∧ markup (EvidenceHTML ep) = markup (EvidenceHTML ep')
  ∧ (∀ f s, In f (rep_Findings r) → In s (finding_texts f) → part_of (html_escape s) (HTML r hist))
  ∧ (∀ c f s, In c (ep_Controls ep) → In f (ec_Findings c) → In s (finding_texts f) →
       part_of (html_escape s) (EvidenceHTML ep))
  ∧ (∀ s, str_all (λ c, negb (is_nul c)) s = true → unescape (html_escape s) = s).
Proof.
  intros Hr Hh Hp. split_and!.
  - by apply same_html.
  - by apply same_evidence.
  - intros f s Hf. by apply finding_on_page.
  - intros c f s. apply finding_in_pack.
  - apply unescape_escape.
Qed.

(** A finding whose texts try to leave their place. *)
Definition ex_finding (title snippet : string) : Finding :=
  mkFinding "KG-001" title SeverityHigh "host-access" (mkResourceRef "Pod" "web" "app") []
    (mkRemediation "drop it" snippet) [] [].

Definition ex_report (title snippet : string) : Report :=
  mkReport "" "m.yaml" "cis" [ex_finding title snippet] [] zero_posture [] None None.

Definition ex_pack (title snippet : string) : EvidencePack :=
  mkEvidencePack "" "m.yaml" "cis" "cis" "CIS" "1" 1 1 0 fone
    [mkEvidenceControl "5.2" title ["KG-001"] true [ex_finding title snippet]] "".

Example ex_row :
  render (html_finding (ex_finding (bq "<b onclick=`a`>") ""))
  = bq "<tr><td><span class=`sev s-high`>high</span></td><td>KG-001</td><td>&lt;b onclick=&#34;a&#34;&gt;</td>
<td>Pod web/app</td>
<td class=`disc`>drop it</td></tr>".
Proof. vm_compute. reflexivity. Qed.

Lemma markup_fixed_witness :
  markup (HTML (ex_report "<script>alert(1)</script>" "<pre>") [ex_record])
  = markup (HTML (ex_report "Privileged" "x") [ex_record])
  ∧ markup (EvidenceHTML (ex_pack "<script>alert(1)</script>" "<pre>")) = markup (EvidenceHTML (ex_pack "Privileged" "x"))
  ∧ part_of "&lt;script&gt;alert(1)&lt;/script&gt;" (HTML (ex_report "<script>alert(1)</script>" "<pre>") [ex_record]).
Proof.
  destruct (markup_fixed (ex_report "<script>alert(1)</script>" "<pre>") (ex_report "Privileged" "x")
    [ex_record] [ex_record] (ex_pack "<script>alert(1)</script>" "<pre>") (ex_pack "Privileged" "x")
    eq_refl eq_refl eq_refl) as (H1 & H2 & H3 & _).
  split_and!; [exact H1|exact H2|].
  refine (H3 (ex_finding "<script>alert(1)</script>" "<pre>") "<script>alert(1)</script>" _ _);
    cbn [rep_Findings ex_report finding_texts ex_finding f_Title In]; tauto.
Defined.
