(* ===== verification/Asff.v ===== *)
(** The AWS Security Hub writer (internal/report/asff.go): the pure mapping from a report to ASFF
    findings.  The JSON text of the document is in ReportJson.v; one-field wrapper structs of
    the wire format are flattened. *)

From Stdlib Require Import Ascii.
From S2P Require Import Prelude GoStrings GoFmt Api Reports.

Definition asffSchemaVersion : string := "2018-10-08".
Definition asffTitleMax : nat := 256.
Definition asffDescriptionMax : nat := 1024.
Definition asffMaxRequirements : nat := 32.

(** * Small utilities *)

Fixpoint asffFirstNonEmpty (vals : list string) : string :=
  match vals with
  | [] => ""
  | v :: vals' => if v <>s "" then v else asffFirstNonEmpty vals'
  end.

(** Lengths and slices count bytes. *)
Definition asffTruncate (s : string) (maxLen : nat) : string :=
  if str_len s <=? maxLen then s
  else if maxLen <=? 3 then str_to maxLen s
  else str_to (maxLen - 3) s +:+ "...".

Definition slug_code (c : ascii) : option string :=
  if Ascii.eqb c " " || Ascii.eqb c "/" then Some "-" else None.

Definition asffSlug (s : string) : string :=
  if s =s "" then "default" else replace_bytes slug_code s.

(** * The AWS identity *)

Record ASFFOptions := mkASFFOptions {
  ao_Region : string;
  ao_AccountID : string;
  ao_ProductArn : string
}.

(** [env] is [os.Getenv]: the empty string for an unset variable. *)
Definition asffOptionsFromEnv (env : string → string) : ASFFOptions :=
  let region := asffFirstNonEmpty
    [env "KUBEGUARD_AWS_REGION"; env "AWS_REGION"; env "AWS_DEFAULT_REGION"; "us-east-1"] in
  let account := asffFirstNonEmpty
    [env "KUBEGUARD_AWS_ACCOUNT_ID"; env "AWS_ACCOUNT_ID"; "000000000000"] in
  let product := env "KUBEGUARD_SECURITYHUB_PRODUCT_ARN" in
  let product := if product =s ""
    then "arn:aws:securityhub:" +:+ region +:+ ":" +:+ account +:+ ":product/" +:+ account +:+ "/default"
    else product in
  mkASFFOptions region account product.

(** * The wire types *)

Record asffSeverity := mkAsffSeverity { as_Label : string; as_Normalized : Z }.

Record asffResource := mkAsffResource {
  ar_Type : string;
  ar_ID : string;
  ar_Region : string;
  ar_Other : gmap string string
}.

Record asffCompliance := mkAsffCompliance {
  ac_Status : string;
  ac_RelatedRequirements : list string
}.

Record ASFFFinding := mkASFFFinding {
  af_SchemaVersion : string;
  af_ID : string;
  af_ProductArn : string;
  af_GeneratorID : string;
  af_AwsAccountID : string;
  af_Region : string;
  af_Types : list string;
  af_CreatedAt : string;
  af_UpdatedAt : string;
  af_Severity : asffSeverity;
  af_Title : string;
  af_Description : string;
  af_Remediation : string;
  af_ProductFields : gmap string string;
  af_Resources : list asffResource;
  af_Compliance : asffCompliance;
  af_RecordState : string;
  af_Workflow : string
}.

(** * The mapping *)

Definition asffSeverityFor (s : Severity) : asffSeverity :=
  if s =s SeverityCritical then mkAsffSeverity "CRITICAL" 90
  else if s =s SeverityHigh then mkAsffSeverity "HIGH" 70
  else if s =s SeverityMedium then mkAsffSeverity "MEDIUM" 40
  else if s =s SeverityLow then mkAsffSeverity "LOW" 10
  else mkAsffSeverity "INFORMATIONAL" 0.

Definition is_technique (ref : ControlRef) : bool :=
  let fw := to_upper (cr_Framework ref) in
  let isAttack := contains fw "ATT&CK" || contains fw "ATTACK" in
  let looksLikeTID :=
    (4 <=? str_len (cr_ID ref))
    && (match cr_ID ref with String c _ => Ascii.eqb c "T" || Ascii.eqb c "t" | EmptyString => false end) in
  isAttack || looksLikeTID.

Definition technique_step (acc : list string * gset string) (ref : ControlRef) : list string * gset string :=
  let '(out, seen) := acc in
  if is_technique ref && negb (bool_decide (cr_ID ref ∈ seen))
  then (out ++ [cr_ID ref], {[cr_ID ref]} ∪ seen)
  else acc.

Definition asffTechniques (f : Finding) : list string := (foldl technique_step ([], ∅) (f_Refs f)).1.

Definition asffTypes (f : Finding) : list string :=
  foldl (λ types t, types ++ ["TTPs/" +:+ t])
    ["Software and Configuration Checks/AWS Security Best Practices"] (asffTechniques f).

Definition asffDescription (f : Finding) (fqn : string) : string :=
  (if rem_Summary (f_Remediation f) <>s "" then rem_Summary (f_Remediation f) else f_Title f)
  +:+ " Resource: " +:+ fqn +:+ "."
  +:+ (match f_Evidence f with
       | [] => ""
       | evs => " Evidence: "
           +:+ join "; " (map (λ e, if ev_Value e <>s "" then ev_Path e +:+ "=" +:+ ev_Value e
                                    else ev_Path e) evs)
           +:+ "."
       end).

Definition asffRemediationText (f : Finding) : string :=
  if rem_Summary (f_Remediation f) <>s ""
  then asffTruncate (rem_Summary (f_Remediation f)) asffDescriptionMax
  else "Review and remediate per the KubeGuard finding details.".

Definition requirement_text (ref : ControlRef) : string :=
  let s := trim_space (cr_Framework ref +:+ " " +:+ cr_ID ref) in
  let s := if cr_Title ref <>s "" then s +:+ " " +:+ cr_Title ref else s in
  trim_space s.

(** The loop of [asffRequirements], with its [break]. *)
Fixpoint requirements_loop (refs : list ControlRef) (out : list string) (seen : gset string)
    : list string :=
  match refs with
  | [] => out
  | ref :: refs' =>
      let s := requirement_text ref in
      if (s =s "") || bool_decide (s ∈ seen) then requirements_loop refs' out seen
      else
        let out := out ++ [s] in
        if asffMaxRequirements <=? length out then out
        else requirements_loop refs' out ({[s]} ∪ seen)
  end.

Definition asffRequirements (f : Finding) : list string :=
  sort_strings (requirements_loop (f_Refs f) [] ∅).

Definition asffProductFields (f : Finding) (profile : string) : gmap string string :=
  let pf : gmap string string :=
    <["kubeguard/severity" := f_Severity f]>
    (<["kubeguard/profile" := profile]>
    (<["kubeguard/category" := f_Category f]>
    (<["kubeguard/checkId" := f_ID f]> ∅))) in
  let pf := match f_Grants f with [] => pf | gs => <["kubeguard/grants" := join "," gs]> pf end in
  match asffRequirements f with [] => pf | reqs => <["kubeguard/refs" := join "; " reqs]> pf end.

Definition asffResourceDetails (f : Finding) : gmap string string :=
  let d : gmap string string :=
    <["Name" := rr_Name (f_Resource f)]> (<["Kind" := rr_Kind (f_Resource f)]> ∅) in
  let d := if rr_Namespace (f_Resource f) <>s "" then <["Namespace" := rr_Namespace (f_Resource f)]> d else d in
  if f_Category f <>s "" then <["Category" := f_Category f]> d else d.

Definition asffComplianceFor (f : Finding) : asffCompliance :=
  mkAsffCompliance "FAILED" (asffRequirements f).

(** The body of the loop of [buildASFF]: the finding [f] at index [i]. *)
Definition asff_finding (r : Report) (opts : ASFFOptions) (i : nat) (f : Finding) : ASFFFinding :=
  let ts := rep_GeneratedAt r in
  let fqn := resourceFQN (f_Resource f) in
  {| af_SchemaVersion := asffSchemaVersion;
     af_ID := "kubeguard/" +:+ asffSlug (rep_Profile r) +:+ "/" +:+ fqn +:+ "/" +:+ f_ID f +:+ "/"
              +:+ fmt_int (Z.of_nat i);
     af_ProductArn := ao_ProductArn opts;
     af_GeneratorID := "kubeguard/" +:+ f_ID f;
     af_AwsAccountID := ao_AccountID opts;
     af_Region := ao_Region opts;
     af_Types := asffTypes f;
     af_CreatedAt := ts;
     af_UpdatedAt := ts;
     af_Severity := asffSeverityFor (f_Severity f);
     af_Title := asffTruncate (f_ID f +:+ ": " +:+ f_Title f) asffTitleMax;
     af_Description := asffTruncate (asffDescription f fqn) asffDescriptionMax;
     af_Remediation := asffRemediationText f;
     af_ProductFields := asffProductFields f (rep_Profile r);
     af_Resources := [mkAsffResource "Other" fqn (ao_Region opts) (asffResourceDetails f)];
     af_Compliance := asffComplianceFor f;
     af_RecordState := "ACTIVE";
     af_Workflow := "NEW" |}.

Fixpoint asff_from (r : Report) (opts : ASFFOptions) (i : nat) (fs : list Finding) : list ASFFFinding :=
  match fs with [] => [] | f :: fs' => asff_finding r opts i f :: asff_from r opts (S i) fs' end.

Definition buildASFF (r : Report) (opts : ASFFOptions) : list ASFFFinding := asff_from r opts 0 (rep_Findings r).

Definition BuildASFF (r : Report) (opts : ASFFOptions) : list ASFFFinding := buildASFF r opts.

(** * Truncation *)

Lemma asffTruncate_length s n : str_len (asffTruncate s n) <= n.
Proof.
  unfold asffTruncate. destruct (Nat.leb_spec (str_len s) n); [done|].
  destruct (Nat.leb_spec n 3); [apply str_to_le|].
  rewrite str_app_length. pose proof (str_to_le (n - 3) s). change (str_len "...") with 3. lia.
Qed.

Lemma asffTruncate_id s n : str_len s <= n → asffTruncate s n = s.
Proof. intros H. unfold asffTruncate. by apply Nat.leb_le in H as ->. Qed.

(** Truncation counts bytes: it can split a character of a valid UTF-8 text. *)
Lemma asffTruncate_splits_rune :
  let s := repeat_char "a" 252 +:+ "—é" in
  utf8_valid s = true ∧ utf8_valid (asffTruncate s asffTitleMax) = false.
Proof. vm_compute. done. Qed.

(** * Deduplication: the first occurrence of each string, in order *)

Fixpoint distinct (seen : gset string) (l : list string) : list string :=
  match l with
  | [] => []
  | s :: l' => if decide (s ∈ seen) then distinct seen l' else s :: distinct ({[s]} ∪ seen) l'
  end.

Lemma elem_of_distinct s seen l : s ∈ distinct seen l ↔ s ∈ l ∧ s ∉ seen.
Proof.
  revert seen. induction l as [|t l IH]; intros seen; simpl; [set_solver|].
  destruct (decide (t ∈ seen)) as [Ht|Ht].
  - rewrite IH, elem_of_cons. split; [tauto|]. intros [[-> |?] ?]; tauto.
  - rewrite !elem_of_cons, IH, elem_of_union, elem_of_singleton. split.
    + intros [-> |[? ?]]; tauto.
    + intros [[-> |?] ?]; [by left|]. destruct (decide (s = t)); tauto.
Qed.

Lemma NoDup_distinct seen l : NoDup (distinct seen l).
Proof.
  revert seen. induction l as [|t l IH]; intros seen; simpl; [constructor|].
  destruct (decide (t ∈ seen)); [apply IH|]. constructor; [|apply IH].
  rewrite elem_of_distinct, elem_of_union, elem_of_singleton. tauto.
Qed.

Lemma technique_fold refs out seen :
  (foldl technique_step (out, seen) refs).1 = out ++ distinct seen (map cr_ID (List.filter is_technique refs)).
Proof.
  revert out seen. induction refs as [|ref refs IH]; intros out seen; simpl; [by rewrite app_nil_r|].
  destruct (is_technique ref) eqn:E; simpl; [|apply IH].
  destruct (decide (cr_ID ref ∈ seen)) as [Hin|Hout].
  - rewrite bool_decide_eq_true_2 by done. apply IH.
  - rewrite bool_decide_eq_false_2 by done. simpl. by rewrite IH, <-app_assoc.
Qed.

Lemma requirements_loop_spec refs out seen :
  length out < asffMaxRequirements →
  requirements_loop refs out seen
  = out ++ take (asffMaxRequirements - length out)
      (distinct seen (List.filter (λ s, s <>s "") (map requirement_text refs))).
Proof.
  revert out seen. induction refs as [|ref refs IH]; intros out seen Hlen; cbn [requirements_loop map List.filter].
  { cbn [distinct]. by rewrite take_nil, app_nil_r. }
  destruct (requirement_text ref =s "") eqn:E; cbn [orb negb]; [by apply IH|]. cbn [distinct].
  destruct (decide (requirement_text ref ∈ seen)) as [Hin|Hout].
  - rewrite bool_decide_eq_true_2 by done. by apply IH.
  - rewrite bool_decide_eq_false_2 by done. rewrite length_app. cbn [length].
    destruct (Nat.leb_spec asffMaxRequirements (length out + 1)).
    + assert (asffMaxRequirements - length out = 1) as -> by lia. done.
    + rewrite IH by (rewrite length_app; cbn [length]; lia). rewrite length_app, <-app_assoc. cbn [length].
      assert (asffMaxRequirements - length out = S (asffMaxRequirements - (length out + 1))) as -> by lia.
      done.
Qed.

(** * Properties *)

Lemma asff_from_lookup r opts i fs k :
  asff_from r opts i fs !! k = asff_finding r opts (i + k) <$> fs !! k.
Proof.
  revert i k. induction fs as [|f fs IH]; intros i [|k]; simpl; [done..|by rewrite Nat.add_0_r|].
  rewrite IH. by rewrite Nat.add_succ_r.
Qed.

Lemma asff_ID_index r opts i f :
  af_ID (asff_finding r opts i f)
  = ("kubeguard/" +:+ asffSlug (rep_Profile r) +:+ "/" +:+ resourceFQN (f_Resource f) +:+ "/" +:+ f_ID f)
    +:+ "/"%char ::: pretty (Z.of_nat i).
Proof. unfold asff_finding. cbn [af_ID]. by rewrite <-!str_app_assoc. Qed.

Lemma asff_ID_inj r opts i j f g :
  af_ID (asff_finding r opts i f) = af_ID (asff_finding r opts j g) → i = j.
Proof.
  rewrite !asff_ID_index. intros H.
  apply str_app_inj_tail in H as [_ H]; [|by apply lacks_pretty_Z..].
  apply (inj pretty) in H. lia.
Qed.

Lemma asff_from_length r opts i fs : length (asff_from r opts i fs) = length fs.
Proof. revert i. induction fs as [|f fs IH]; intros i; simpl; auto. Qed.

(** An append loop is a map. *)
Lemma foldl_append_map {A B} (f : A → B) acc l : foldl (λ ys x, ys ++ [f x]) acc l = acc ++ map f l.
Proof.
  revert acc. induction l as [|x l IH]; intros acc; simpl; [by rewrite app_nil_r|].
  by rewrite IH, <-app_assoc.
Qed.

Lemma asffTypes_eq f :
  asffTypes f = "Software and Configuration Checks/AWS Security Best Practices"
    :: map (String.append "TTPs/") (distinct ∅ (map cr_ID (List.filter is_technique (f_Refs f)))).
Proof.
  unfold asffTypes, asffTechniques. rewrite technique_fold.
  apply (foldl_append_map (String.append "TTPs/")).
Qed.

Lemma BuildASFF_lookup r opts k :
  BuildASFF r opts !! k = asff_finding r opts k <$> rep_Findings r !! k.
Proof. apply asff_from_lookup. Qed.

Lemma BuildASFF_elem r opts a :
  a ∈ BuildASFF r opts → ∃ i f, rep_Findings r !! i = Some f ∧ a = asff_finding r opts i f.
Proof.
  intros [i Hi]%list_elem_of_lookup. rewrite BuildASFF_lookup in Hi.
  destruct (rep_Findings r !! i) as [f|] eqn:E; [|done]. injection Hi as <-. eauto.
Qed.

(** What Security Hub accepts of the requirements: at most 32, sorted, distinct, none empty. *)
Definition requirements_ok (reqs : list string) : Prop :=
  length reqs <= asffMaxRequirements ∧ NoDup reqs ∧ sorted_by String.ltb reqs ∧ "" ∉ reqs.

Lemma asffRequirements_eq f :
  asffRequirements f
  = sort_strings (take asffMaxRequirements
      (distinct ∅ (List.filter (λ s, s <>s "") (map requirement_text (f_Refs f))))).
Proof. unfold asffRequirements. rewrite requirements_loop_spec; [done|]. vm_compute. lia. Qed.

Lemma asffRequirements_ok f : requirements_ok (asffRequirements f).
Proof.
  rewrite asffRequirements_eq. split_and!.
  - unfold sort_strings. rewrite length_slice_stable, length_take. lia.
  - rewrite sort_strings_perm. eapply sublist_NoDup; [apply (NoDup_distinct ∅)|apply sublist_take].
  - by apply slice_stable_sorted, _.
  - intros H. rewrite elem_of_sort_strings in H. apply elem_of_take in H as (i & Hi & _).
    apply list_elem_of_lookup_2 in Hi.
    apply elem_of_distinct in Hi as [Hi _]. apply elem_of_list_filter in Hi as [_ ?]. done.
Qed.


(** The labels and the normalised scores are in the order of the severity ranks. *)
Lemma asffSeverity_monotone s t :
  (Rank s < Rank t)%Z → s = SeverityInfo ∨ Rank s ≠ 0%Z → s ≠ SeverityInfo →
  (as_Normalized (asffSeverityFor s) < as_Normalized (asffSeverityFor t))%Z.
Proof. unfold asffSeverityFor, Rank. repeat case_str; simpl; try lia; naive_solver. Qed.

(** An explicit identity: the placeholders make a well-formed ARN when nothing is set. *)
Example asffOptions_default : asffOptionsFromEnv (λ _, "")
  = mkASFFOptions "us-east-1" "000000000000" "arn:aws:securityhub:us-east-1:000000000000:product/000000000000/default".
Proof. vm_compute. reflexivity. Qed.

(** Any id of four bytes that starts with a T counts as a technique. *)
Example technique_shape : is_technique (mkControlRef "CIS" "TLS-1.2" "") = true.
Proof. vm_compute. reflexivity. Qed.
