(* ===== verification/ReportJson.v ===== *)
(** The JSON of reports and evidence packs (the struct tags of pkg/api/types.go), the writers [JSON]
    and [EvidenceJSON] of internal/report, and reading a report back with [json.Unmarshal].

    A codec of a type is what encoding/json does with its values; those of the structs are built
    from the members in the order of their fields.  The slices of a report are nil when they are
    empty, so an empty one is null; its BySeverity is never nil. *)

From Stdlib Require Import Ascii SpecFloat.
From S2P Require Import Prelude GoStrings GoFloat GoFmt GoJson GoJsonText Api.
From S2P Require Import Compliance Asff.

(** * Codecs *)

Class JsonCodec (A : Type) := {
  to_json : A → json;
  of_json : decoder A;
  zero_value : A;
  empty_value : A → bool;
  (** What can be written and read back. *)
  fits : A → bool;
  of_to_json a : fits a = true → of_json zero_value (to_json a) = (a, false);
  to_json_ok a : fits a = true → json_ok (to_json a) = true;
  empty_zero a : fits a = true → empty_value a = true → a = zero_value
}.
#[export] Hint Mode JsonCodec ! : typeclass_instances.
#[global] Arguments of_json : simpl never.
#[global] Arguments to_json : simpl never.
#[global] Arguments zero_value : simpl never.
#[global] Arguments fits : simpl never.
#[global] Arguments empty_value : simpl never.

(** A member of a struct with [omitempty]. *)
Definition omit_empty `{JsonCodec A} (k : string) (a : A) : list (string * json) :=
  if empty_value a then [] else [(k, to_json a)].

#[export] Program Instance string_codec : JsonCodec string := {
  to_json := JStr; of_json := dec_string; zero_value := ""; empty_value s := s =s ""; fits := utf8_valid
}.
Next Obligation. done. Qed.
Next Obligation. done. Qed.
Next Obligation. intros s _ H. by apply String.eqb_eq. Qed.

#[export] Program Instance int_codec : JsonCodec Z := {
  to_json := JInt; of_json := dec_int; zero_value := 0%Z; empty_value z := (z =? 0)%Z; fits := in_int64
}.
Next Obligation. intros z H. cbn. by rewrite H. Qed.
Next Obligation. done. Qed.
Next Obligation. intros z _ H. by apply Z.eqb_eq. Qed.

#[export] Program Instance bool_codec : JsonCodec bool := {
  to_json := JBool; of_json := dec_bool; zero_value := false; empty_value := negb; fits _ := true
}.
Next Obligation. done. Qed.
Next Obligation. done. Qed.
Next Obligation. by intros [] _. Qed.

Definition float_is_zero (x : float64) : bool := match x with S754_zero _ => true | _ => false end.

#[export] Program Instance float_codec : JsonCodec float64 := {
  to_json := float_member; of_json := dec_float; zero_value := fzero;
  empty_value := float_is_zero;
  fits x := float_prints x && negb (float_same x (S754_zero true))
}.
Next Obligation.
  intros x [H _]%andb_true_iff. destruct (json_float_reads x H) as (j & E & _ & Hd). unfold float_member. by rewrite E, Hd.
Qed.
Next Obligation.
  intros x [H _]%andb_true_iff. destruct (json_float_reads x H) as (j & E & Hok & _). unfold float_member. by rewrite E.
Qed.
Next Obligation. intros [[]| | |] [_ H]%andb_true_iff; done. Qed.

(** A nil slice is null. *)
Definition slice_json `{JsonCodec A} (l : list A) : json :=
  match l with [] => JNull | _ => JArr (map to_json l) end.

Lemma dec_elems_json `{JsonCodec A} (l : list A) :
  forallb fits l = true → dec_elems zero_value of_json [] (map to_json l) = (l, false).
Proof.
  induction l as [|x l IH]; [done|]. cbn [forallb map]. intros [Hx Hl]%andb_true_iff. cbn [dec_elems hd tl].
  by rewrite of_to_json, (IH Hl).
Qed.

Definition no_elems {A} (l : list A) : bool := match l with [] => true | _ => false end.

#[export] Program Instance slice_codec `{JsonCodec A} : JsonCodec (list A) := {
  to_json := slice_json; of_json := dec_slice zero_value of_json; zero_value := [];
  empty_value := no_elems; fits := forallb fits
}.
Next Obligation. intros A HA l Hl. destruct l as [|x l]; [done|]. by apply (dec_elems_json (x :: l)). Qed.
Next Obligation.
  intros A HA l Hl. destruct l as [|x l]; [done|]. cbn [slice_json json_ok].
  rewrite forallb_forall in Hl |- *. intros j (y & <- & Hy)%in_map_iff. by apply to_json_ok, Hl.
Qed.
Next Obligation. by intros A HA []. Qed.

(** A nil pointer is null. *)
Definition ptr_json `{JsonCodec A} (o : option A) : json := match o with None => JNull | Some a => to_json a end.

Definition is_null (j : json) : bool := match j with JNull => true | _ => false end.

Definition ptr_fits `{JsonCodec A} (o : option A) : bool :=
  match o with None => true | Some a => fits a && negb (is_null (to_json a)) end.

Definition nil_ptr {A} (o : option A) : bool := match o with None => true | Some _ => false end.

#[export] Program Instance ptr_codec `{JsonCodec A} : JsonCodec (option A) := {
  to_json := ptr_json; of_json := dec_ptr zero_value of_json; zero_value := None;
  empty_value := nil_ptr; fits := ptr_fits
}.
Next Obligation.
  intros A HA [a|]; [|done]. cbn [ptr_fits ptr_json]. intros [Ha Hn]%andb_true_iff. pose proof (of_to_json a Ha) as E.
  unfold dec_ptr. cbn [default from_option]. destruct (to_json a); [done|by rewrite E..].
Qed.
Next Obligation. intros A HA [a|]; [|done]. intros [Ha _]%andb_true_iff. by apply to_json_ok. Qed.
Next Obligation. by intros A HA []. Qed.

(** ** Maps *)

(** The members of a map in key order. *)
Definition int_map_json (m : gmap string Z) : json :=
  JObj (by_key (map (λ kv : string * Z, (kv.1, to_json kv.2)) (map_to_list m))).

Definition dec_int_map : decoder (gmap string Z) := λ old j,
  match j with
  | JNull => (∅, false)
  | JObj l => foldl (λ acc kv, let '(v, e) := of_json (zero_value : Z) kv.2 in (<[kv.1 := v]> acc.1, acc.2 || e)) (old, false) (by_key l)
  | _ => (old, true)
  end.

Definition int_map_fits (m : gmap string Z) : bool := forallb (λ kv : string * Z, fits kv.1 && fits kv.2) (map_to_list m).

Lemma foldl_insert (l : list (string * Z)) acc : NoDup l.*1 → (∀ k, k ∈ l.*1 → acc !! k = None) →
  foldl (λ (acc : gmap string Z) kv, <[kv.1 := kv.2]> acc) acc l = list_to_map l ∪ acc.
Proof.
  revert acc. induction l as [|[k v] l IH]; intros acc Hnd Hacc; cbn; [by rewrite (left_id_L ∅ (∪))|].
  apply NoDup_cons in Hnd as [Hk Hnd]. rewrite IH; [|done|].
  - rewrite <-insert_union_l, <-insert_union_r; [done|]. by apply not_elem_of_list_to_map_1.
  - intros k' Hk'. rewrite lookup_insert_ne by (by intros ->). apply Hacc. by right.
Qed.

Lemma dec_members_map l acc : forallb (λ kv : string * Z, fits kv.1 && fits kv.2) l = true →
  foldl (λ (acc : gmap string Z * bool) kv, let '(v, e) := of_json (zero_value : Z) kv.2 in (<[kv.1 := v]> acc.1, acc.2 || e)) (acc, false)
    (map (λ kv : string * Z, (kv.1, to_json kv.2)) l)
  = (foldl (λ (acc : gmap string Z) kv, <[kv.1 := kv.2]> acc) acc l, false).
Proof.
  revert acc. induction l as [|[k v] l IH]; intros acc; [done|]. cbn [forallb map foldl fst snd].
  intros [[_ Hv]%andb_true_iff Hl]%andb_true_iff. rewrite of_to_json by done. by apply IH.
Qed.

#[export] Program Instance int_map_codec : JsonCodec (gmap string Z) := {
  to_json := int_map_json; of_json := dec_int_map; zero_value := ∅;
  empty_value m := bool_decide (m = ∅); fits := int_map_fits
}.
Next Obligation.
  intros m Hm. unfold dec_int_map, int_map_json.
  assert (by_key (by_key (map (λ kv : string * Z, (kv.1, to_json kv.2)) (map_to_list m)))
    ≡ₚ map (λ kv : string * Z, (kv.1, to_json kv.2)) (map_to_list m)) as Hp
    by (unfold by_key; by rewrite !slice_stable_perm).
  apply Permutation_map_inv in Hp as (l & -> & Hl). rewrite dec_members_map.
  - assert (NoDup l.*1) as Hnd by (rewrite <-Hl; apply NoDup_fst_map_to_list).
    f_equal. rewrite foldl_insert, (right_id_L ∅ (∪)) by done. rewrite (list_to_map_proper _ _ Hnd (symmetry Hl)).
    apply list_to_map_to_list.
  - unfold int_map_fits in Hm. rewrite forallb_forall in Hm |- *. intros kv Hkv. apply Hm. by rewrite Hl.
Qed.
Next Obligation.
  intros m Hm. unfold int_map_json. cbn [json_ok]. apply forallb_forall. intros kv Hkv%list_elem_of_In.
  unfold by_key in Hkv. apply elem_of_slice_stable, list_elem_of_In, in_map_iff in Hkv as ([k z] & <- & Hin).
  unfold int_map_fits in Hm. rewrite forallb_forall in Hm. apply Hm, andb_true_iff in Hin as [Hk _].
  apply andb_true_iff. by split.
Qed.
Next Obligation. intros m _ H. by apply bool_decide_eq_true in H. Qed.

(** * Structs *)

Ltac decide_names :=
  repeat match goal with
  | |- context [String.ltb ?a ?b] => let v := eval vm_compute in (String.ltb a b) in change (String.ltb a b) with v; cbn
  end.

(** The facts about the members of a value whose fields are variables. *)
Ltac member_facts :=
  repeat match goal with
  | H : andb _ _ = true |- _ => apply andb_true_iff in H as [? ?]
  | H : fits ?x = true |- _ =>
      let j := fresh "j" in
      pose proof (of_to_json x H); pose proof (to_json_ok x H); pose proof (empty_zero x H); clear H;
      set (j := to_json x) in *; clearbody j
  end.

(** Splits on which members are omitted. *)
Ltac omit_cases :=
  repeat match goal with
  | |- context [empty_value ?x] =>
      destruct (empty_value x);
      match goal with
      | Z : true = true → ?y = _ |- _ => specialize (Z eq_refl); subst y
      | Z : false = true → _ |- _ => clear Z
      end
  end.

Lemma dec_field {S} (fields : list (field S)) (o s : S) k j rest f :
  find_field fields k = Some f → f.2 o j = (s, false) →
  foldl (dec_member fields) (o, false) ((k, j) :: rest) = foldl (dec_member fields) (s, false) rest.
Proof. intros Hf Hs. cbn [foldl]. f_equal. unfold dec_member. cbn [fst snd]. by rewrite Hf, Hs. Qed.

(** Sorts members whose names are constants. *)
Ltac sort_names :=
  match goal with |- context [by_key ?l] => let v := eval vm_compute in (by_key l) in change (by_key l) with v end.

(** The codec laws of a struct from those of its members. *)
Ltac struct_members Hr fits_def json_def :=
  unfold fits_def in Hr; unfold json_def, omit_empty; cbn in Hr; cbn -[dec_struct json_ok]; member_facts; omit_cases;
  cbn [app].

Ltac members_decode :=
  unfold dec_struct; sort_names;
  repeat match goal with
  | |- foldl _ _ (_ :: _) = _ =>
      erewrite dec_field;
        [|reflexivity|cbn; match goal with D : of_json zero_value ?j = _ |- context [of_json _ ?j] => rewrite D end; reflexivity]
  end;
  reflexivity.

Ltac members_ok :=
  cbn -[utf8_valid];
  repeat match goal with K : json_ok ?j = true |- context [json_ok ?j] => rewrite K end; vm_compute; reflexivity.

Ltac struct_decode fits_def json_def :=
  intros r Hr; destruct r; struct_members Hr fits_def json_def; members_decode.

Ltac struct_ok fits_def json_def :=
  intros r Hr; destruct r; struct_members Hr fits_def json_def; members_ok.

Definition ref_json (r : ResourceRef) : json :=
  JObj ([("kind", to_json (rr_Kind r))]
    ++ omit_empty "namespace" (rr_Namespace r)
    ++ [("name", to_json (rr_Name r))]).

Definition ref_fields : list (field ResourceRef) :=
  [fld "kind" rr_Kind (λ r v, mkResourceRef v (rr_Namespace r) (rr_Name r)) of_json;
   fld "namespace" rr_Namespace (λ r v, mkResourceRef (rr_Kind r) v (rr_Name r)) of_json;
   fld "name" rr_Name (λ r v, mkResourceRef (rr_Kind r) (rr_Namespace r) v) of_json].

Definition zero_ref : ResourceRef := mkResourceRef zero_value zero_value zero_value.

Definition ref_fits (r : ResourceRef) : bool :=
  fits (rr_Kind r) && fits (rr_Namespace r) && fits (rr_Name r).

#[export] Program Instance ref_codec : JsonCodec ResourceRef := {
  to_json := ref_json; of_json := dec_struct ref_fields; zero_value := zero_ref; empty_value _ := false; fits := ref_fits
}.
Next Obligation. struct_decode ref_fits ref_json. Qed.
Next Obligation. struct_ok ref_fits ref_json. Qed.
Next Obligation. done. Qed.

Definition evidence_json (r : Evidence) : json :=
  JObj ([("path", to_json (ev_Path r))]
    ++ omit_empty "value" (ev_Value r)).

Definition evidence_fields : list (field Evidence) :=
  [fld "path" ev_Path (λ r v, mkEvidence v (ev_Value r)) of_json;
   fld "value" ev_Value (λ r v, mkEvidence (ev_Path r) v) of_json].

Definition zero_evidence : Evidence := mkEvidence zero_value zero_value.

Definition evidence_fits (r : Evidence) : bool :=
  fits (ev_Path r) && fits (ev_Value r).

#[export] Program Instance evidence_codec : JsonCodec Evidence := {
  to_json := evidence_json; of_json := dec_struct evidence_fields; zero_value := zero_evidence; empty_value _ := false; fits := evidence_fits
}.
Next Obligation. struct_decode evidence_fits evidence_json. Qed.
Next Obligation. struct_ok evidence_fits evidence_json. Qed.
Next Obligation. done. Qed.

Definition remediation_json (r : Remediation) : json :=
  JObj ([("summary", to_json (rem_Summary r))]
    ++ omit_empty "snippet" (rem_Snippet r)).

Definition remediation_fields : list (field Remediation) :=
  [fld "summary" rem_Summary (λ r v, mkRemediation v (rem_Snippet r)) of_json;
   fld "snippet" rem_Snippet (λ r v, mkRemediation (rem_Summary r) v) of_json].

Definition zero_remediation : Remediation := mkRemediation zero_value zero_value.

Definition remediation_fits (r : Remediation) : bool :=
  fits (rem_Summary r) && fits (rem_Snippet r).

#[export] Program Instance remediation_codec : JsonCodec Remediation := {
  to_json := remediation_json; of_json := dec_struct remediation_fields; zero_value := zero_remediation; empty_value _ := false; fits := remediation_fits
}.
Next Obligation. struct_decode remediation_fits remediation_json. Qed.
Next Obligation. struct_ok remediation_fits remediation_json. Qed.
Next Obligation. done. Qed.

Definition control_ref_json (r : ControlRef) : json :=
  JObj ([("framework", to_json (cr_Framework r)); ("id", to_json (cr_ID r))]
    ++ omit_empty "title" (cr_Title r)).

Definition control_ref_fields : list (field ControlRef) :=
  [fld "framework" cr_Framework (λ r v, mkControlRef v (cr_ID r) (cr_Title r)) of_json;
   fld "id" cr_ID (λ r v, mkControlRef (cr_Framework r) v (cr_Title r)) of_json;
   fld "title" cr_Title (λ r v, mkControlRef (cr_Framework r) (cr_ID r) v) of_json].

Definition zero_control_ref : ControlRef := mkControlRef zero_value zero_value zero_value.

Definition control_ref_fits (r : ControlRef) : bool :=
  fits (cr_Framework r) && fits (cr_ID r) && fits (cr_Title r).

#[export] Program Instance control_ref_codec : JsonCodec ControlRef := {
  to_json := control_ref_json; of_json := dec_struct control_ref_fields; zero_value := zero_control_ref; empty_value _ := false; fits := control_ref_fits
}.
Next Obligation. struct_decode control_ref_fits control_ref_json. Qed.
Next Obligation. struct_ok control_ref_fits control_ref_json. Qed.
Next Obligation. done. Qed.

Definition finding_json (r : Finding) : json :=
  JObj ([("id", to_json (f_ID r)); ("title", to_json (f_Title r)); ("severity", to_json (f_Severity r));
       ("category", to_json (f_Category r)); ("resource", to_json (f_Resource r))]
    ++ omit_empty "evidence" (f_Evidence r)
    ++ [("remediation", to_json (f_Remediation r))]
    ++ omit_empty "grants" (f_Grants r)
    ++ omit_empty "refs" (f_Refs r)).

Definition finding_fields : list (field Finding) :=
  [fld "id" f_ID
     (λ r v, mkFinding v (f_Title r) (f_Severity r) (f_Category r) (f_Resource r) (f_Evidence r)
              (f_Remediation r) (f_Grants r) (f_Refs r)) of_json;
   fld "title" f_Title
     (λ r v, mkFinding (f_ID r) v (f_Severity r) (f_Category r) (f_Resource r) (f_Evidence r) (f_Remediation r)
              (f_Grants r) (f_Refs r)) of_json;
   fld "severity" f_Severity
     (λ r v, mkFinding (f_ID r) (f_Title r) v (f_Category r) (f_Resource r) (f_Evidence r) (f_Remediation r)
              (f_Grants r) (f_Refs r)) of_json;
   fld "category" f_Category
     (λ r v, mkFinding (f_ID r) (f_Title r) (f_Severity r) v (f_Resource r) (f_Evidence r) (f_Remediation r)
              (f_Grants r) (f_Refs r)) of_json;
   fld "resource" f_Resource
     (λ r v, mkFinding (f_ID r) (f_Title r) (f_Severity r) (f_Category r) v (f_Evidence r) (f_Remediation r)
              (f_Grants r) (f_Refs r)) of_json;
   fld "evidence" f_Evidence
     (λ r v, mkFinding (f_ID r) (f_Title r) (f_Severity r) (f_Category r) (f_Resource r) v (f_Remediation r)
              (f_Grants r) (f_Refs r)) of_json;
   fld "remediation" f_Remediation
     (λ r v, mkFinding (f_ID r) (f_Title r) (f_Severity r) (f_Category r) (f_Resource r) (f_Evidence r) v
              (f_Grants r) (f_Refs r)) of_json;
   fld "grants" f_Grants
     (λ r v, mkFinding (f_ID r) (f_Title r) (f_Severity r) (f_Category r) (f_Resource r) (f_Evidence r)
              (f_Remediation r) v (f_Refs r)) of_json;
   fld "refs" f_Refs
     (λ r v, mkFinding (f_ID r) (f_Title r) (f_Severity r) (f_Category r) (f_Resource r) (f_Evidence r)
              (f_Remediation r) (f_Grants r) v) of_json].

Definition zero_finding : Finding := mkFinding zero_value zero_value zero_value zero_value zero_value zero_value zero_value zero_value zero_value.

Definition finding_fits (r : Finding) : bool :=
  fits (f_ID r) && fits (f_Title r) && fits (f_Severity r) && fits (f_Category r) && fits (f_Resource r) &&
  fits (f_Evidence r) && fits (f_Remediation r) && fits (f_Grants r) && fits (f_Refs r).

#[export] Program Instance finding_codec : JsonCodec Finding := {
  to_json := finding_json; of_json := dec_struct finding_fields; zero_value := zero_finding; empty_value _ := false; fits := finding_fits
}.
Next Obligation. struct_decode finding_fits finding_json. Qed.
Next Obligation. struct_ok finding_fits finding_json. Qed.
Next Obligation. done. Qed.

Definition hop_json (r : PathHop) : json :=
  JObj ([("order", to_json (h_Order r)); ("from", to_json (h_From r)); ("to", to_json (h_To r));
       ("enabledBy", to_json (h_EnabledBy r)); ("technique", to_json (h_Technique r));
       ("narrative", to_json (h_Narrative r))]).

Definition hop_fields : list (field PathHop) :=
  [fld "order" h_Order
     (λ r v, mkPathHop v (h_From r) (h_To r) (h_EnabledBy r) (h_Technique r) (h_Narrative r)) of_json;
   fld "from" h_From
     (λ r v, mkPathHop (h_Order r) v (h_To r) (h_EnabledBy r) (h_Technique r) (h_Narrative r)) of_json;
   fld "to" h_To
     (λ r v, mkPathHop (h_Order r) (h_From r) v (h_EnabledBy r) (h_Technique r) (h_Narrative r)) of_json;
   fld "enabledBy" h_EnabledBy
     (λ r v, mkPathHop (h_Order r) (h_From r) (h_To r) v (h_Technique r) (h_Narrative r)) of_json;
   fld "technique" h_Technique
     (λ r v, mkPathHop (h_Order r) (h_From r) (h_To r) (h_EnabledBy r) v (h_Narrative r)) of_json;
   fld "narrative" h_Narrative
     (λ r v, mkPathHop (h_Order r) (h_From r) (h_To r) (h_EnabledBy r) (h_Technique r) v) of_json].

Definition zero_hop : PathHop := mkPathHop zero_value zero_value zero_value zero_value zero_value zero_value.

Definition hop_fits (r : PathHop) : bool :=
  fits (h_Order r) && fits (h_From r) && fits (h_To r) && fits (h_EnabledBy r) && fits (h_Technique r) &&
  fits (h_Narrative r).

#[export] Program Instance hop_codec : JsonCodec PathHop := {
  to_json := hop_json; of_json := dec_struct hop_fields; zero_value := zero_hop; empty_value _ := false; fits := hop_fits
}.
Next Obligation. struct_decode hop_fits hop_json. Qed.
Next Obligation. struct_ok hop_fits hop_json. Qed.
Next Obligation. done. Qed.

Definition path_json (r : AttackPath) : json :=
  JObj ([("id", to_json (p_ID r)); ("title", to_json (p_Title r)); ("severity", to_json (p_Severity r));
       ("entry", to_json (p_Entry r)); ("hops", to_json (p_Hops r)); ("summary", to_json (p_Summary r))]).

Definition path_fields : list (field AttackPath) :=
  [fld "id" p_ID
     (λ r v, mkAttackPath v (p_Title r) (p_Severity r) (p_Entry r) (p_Hops r) (p_Summary r)) of_json;
   fld "title" p_Title
     (λ r v, mkAttackPath (p_ID r) v (p_Severity r) (p_Entry r) (p_Hops r) (p_Summary r)) of_json;
   fld "severity" p_Severity
     (λ r v, mkAttackPath (p_ID r) (p_Title r) v (p_Entry r) (p_Hops r) (p_Summary r)) of_json;
   fld "entry" p_Entry
     (λ r v, mkAttackPath (p_ID r) (p_Title r) (p_Severity r) v (p_Hops r) (p_Summary r)) of_json;
   fld "hops" p_Hops
     (λ r v, mkAttackPath (p_ID r) (p_Title r) (p_Severity r) (p_Entry r) v (p_Summary r)) of_json;
   fld "summary" p_Summary
     (λ r v, mkAttackPath (p_ID r) (p_Title r) (p_Severity r) (p_Entry r) (p_Hops r) v) of_json].

Definition zero_path : AttackPath := mkAttackPath zero_value zero_value zero_value zero_value zero_value zero_value.

Definition path_fits (r : AttackPath) : bool :=
  fits (p_ID r) && fits (p_Title r) && fits (p_Severity r) && fits (p_Entry r) && fits (p_Hops r) &&
  fits (p_Summary r).

#[export] Program Instance path_codec : JsonCodec AttackPath := {
  to_json := path_json; of_json := dec_struct path_fields; zero_value := zero_path; empty_value _ := false; fits := path_fits
}.
Next Obligation. struct_decode path_fits path_json. Qed.
Next Obligation. struct_ok path_fits path_json. Qed.
Next Obligation. done. Qed.

Definition breach_json (r : ControlBreach) : json :=
  JObj ([("controlId", to_json (cb_ControlID r))]
    ++ omit_empty "title" (cb_Title r)
    ++ [("findings", to_json (cb_Findings r))]).

Definition breach_fields : list (field ControlBreach) :=
  [fld "controlId" cb_ControlID (λ r v, mkControlBreach v (cb_Title r) (cb_Findings r)) of_json;
   fld "title" cb_Title (λ r v, mkControlBreach (cb_ControlID r) v (cb_Findings r)) of_json;
   fld "findings" cb_Findings (λ r v, mkControlBreach (cb_ControlID r) (cb_Title r) v) of_json].

Definition zero_breach : ControlBreach := mkControlBreach zero_value zero_value zero_value.

Definition breach_fits (r : ControlBreach) : bool :=
  fits (cb_ControlID r) && fits (cb_Title r) && fits (cb_Findings r).

#[export] Program Instance breach_codec : JsonCodec ControlBreach := {
  to_json := breach_json; of_json := dec_struct breach_fields; zero_value := zero_breach; empty_value _ := false; fits := breach_fits
}.
Next Obligation. struct_decode breach_fits breach_json. Qed.
Next Obligation. struct_ok breach_fits breach_json. Qed.
Next Obligation. done. Qed.

Definition framework_json (r : FrameworkResult) : json :=
  JObj ([("framework", to_json (fr_Framework r))]
    ++ omit_empty "version" (fr_Version r)
    ++ [("assessed", to_json (fr_Assessed r)); ("breached", to_json (fr_Breached r));
       ("passed", to_json (fr_Passed r)); ("passRate", to_json (fr_PassRate r))]
    ++ omit_empty "breaches" (fr_Breaches r)
    ++ [("disclaimer", to_json (fr_Disclaimer r))]).

Definition framework_fields : list (field FrameworkResult) :=
  [fld "framework" fr_Framework
     (λ r v, mkFrameworkResult v (fr_Version r) (fr_Assessed r) (fr_Breached r) (fr_Passed r) (fr_PassRate r)
              (fr_Breaches r) (fr_Disclaimer r)) of_json;
   fld "version" fr_Version
     (λ r v, mkFrameworkResult (fr_Framework r) v (fr_Assessed r) (fr_Breached r) (fr_Passed r) (fr_PassRate r)
              (fr_Breaches r) (fr_Disclaimer r)) of_json;
   fld "assessed" fr_Assessed
     (λ r v, mkFrameworkResult (fr_Framework r) (fr_Version r) v (fr_Breached r) (fr_Passed r) (fr_PassRate r)
              (fr_Breaches r) (fr_Disclaimer r)) of_json;
   fld "breached" fr_Breached
     (λ r v, mkFrameworkResult (fr_Framework r) (fr_Version r) (fr_Assessed r) v (fr_Passed r) (fr_PassRate r)
              (fr_Breaches r) (fr_Disclaimer r)) of_json;
   fld "passed" fr_Passed
     (λ r v, mkFrameworkResult (fr_Framework r) (fr_Version r) (fr_Assessed r) (fr_Breached r) v (fr_PassRate r)
              (fr_Breaches r) (fr_Disclaimer r)) of_json;
   fld "passRate" fr_PassRate
     (λ r v, mkFrameworkResult (fr_Framework r) (fr_Version r) (fr_Assessed r) (fr_Breached r) (fr_Passed r) v
              (fr_Breaches r) (fr_Disclaimer r)) of_json;
   fld "breaches" fr_Breaches
     (λ r v, mkFrameworkResult (fr_Framework r) (fr_Version r) (fr_Assessed r) (fr_Breached r) (fr_Passed r)
              (fr_PassRate r) v (fr_Disclaimer r)) of_json;
   fld "disclaimer" fr_Disclaimer
     (λ r v, mkFrameworkResult (fr_Framework r) (fr_Version r) (fr_Assessed r) (fr_Breached r) (fr_Passed r)
              (fr_PassRate r) (fr_Breaches r) v) of_json].

Definition zero_framework : FrameworkResult := mkFrameworkResult zero_value zero_value zero_value zero_value zero_value zero_value zero_value zero_value.

Definition framework_fits (r : FrameworkResult) : bool :=
  fits (fr_Framework r) && fits (fr_Version r) && fits (fr_Assessed r) && fits (fr_Breached r) &&
  fits (fr_Passed r) && fits (fr_PassRate r) && fits (fr_Breaches r) && fits (fr_Disclaimer r).

#[export] Program Instance framework_codec : JsonCodec FrameworkResult := {
  to_json := framework_json; of_json := dec_struct framework_fields; zero_value := zero_framework; empty_value _ := false; fits := framework_fits
}.
Next Obligation. struct_decode framework_fits framework_json. Qed.
Next Obligation. struct_ok framework_fits framework_json. Qed.
Next Obligation. done. Qed.

Definition posture_json (r : PostureSummary) : json :=
  JObj ([("totalFindings", to_json (ps_TotalFindings r)); ("bySeverity", to_json (ps_BySeverity r));
       ("criticalPaths", to_json (ps_CriticalPaths r));
       ("controlsAssessed", to_json (ps_ControlsAssessed r));
       ("controlsBreached", to_json (ps_ControlsBreached r));
       ("overallPassRate", to_json (ps_OverallPassRate r))]).

Definition posture_fields : list (field PostureSummary) :=
  [fld "totalFindings" ps_TotalFindings
     (λ r v, mkPostureSummary v (ps_BySeverity r) (ps_CriticalPaths r) (ps_ControlsAssessed r) (ps_ControlsBreached r)
              (ps_OverallPassRate r)) of_json;
   fld "bySeverity" ps_BySeverity
     (λ r v, mkPostureSummary (ps_TotalFindings r) v (ps_CriticalPaths r) (ps_ControlsAssessed r)
              (ps_ControlsBreached r) (ps_OverallPassRate r)) of_json;
   fld "criticalPaths" ps_CriticalPaths
     (λ r v, mkPostureSummary (ps_TotalFindings r) (ps_BySeverity r) v (ps_ControlsAssessed r) (ps_ControlsBreached r)
              (ps_OverallPassRate r)) of_json;
   fld "controlsAssessed" ps_ControlsAssessed
     (λ r v, mkPostureSummary (ps_TotalFindings r) (ps_BySeverity r) (ps_CriticalPaths r) v (ps_ControlsBreached r)
              (ps_OverallPassRate r)) of_json;
   fld "controlsBreached" ps_ControlsBreached
     (λ r v, mkPostureSummary (ps_TotalFindings r) (ps_BySeverity r) (ps_CriticalPaths r) (ps_ControlsAssessed r) v
              (ps_OverallPassRate r)) of_json;
   fld "overallPassRate" ps_OverallPassRate
     (λ r v, mkPostureSummary (ps_TotalFindings r) (ps_BySeverity r) (ps_CriticalPaths r) (ps_ControlsAssessed r)
              (ps_ControlsBreached r) v) of_json].

Definition posture_zero : PostureSummary := mkPostureSummary zero_value zero_value zero_value zero_value zero_value zero_value.

Definition posture_fits (r : PostureSummary) : bool :=
  fits (ps_TotalFindings r) && fits (ps_BySeverity r) && fits (ps_CriticalPaths r) &&
  fits (ps_ControlsAssessed r) && fits (ps_ControlsBreached r) && fits (ps_OverallPassRate r).

#[export] Program Instance posture_codec : JsonCodec PostureSummary := {
  to_json := posture_json; of_json := dec_struct posture_fields; zero_value := posture_zero; empty_value _ := false; fits := posture_fits
}.
Next Obligation. struct_decode posture_fits posture_json. Qed.
Next Obligation. struct_ok posture_fits posture_json. Qed.
Next Obligation. done. Qed.

Definition coverage_json (r : CoverageBreakdown) : json :=
  JObj ([("discovered", to_json (cov_Discovered r)); ("assessable", to_json (cov_Assessable r));
       ("skipped", to_json (cov_Skipped r)); ("rate", to_json (cov_Rate r))]
    ++ omit_empty "skippedByKind" (cov_SkippedByKind r)).

Definition coverage_fields : list (field CoverageBreakdown) :=
  [fld "discovered" cov_Discovered
     (λ r v, mkCoverage v (cov_Assessable r) (cov_Skipped r) (cov_Rate r) (cov_SkippedByKind r)) of_json;
   fld "assessable" cov_Assessable
     (λ r v, mkCoverage (cov_Discovered r) v (cov_Skipped r) (cov_Rate r) (cov_SkippedByKind r)) of_json;
   fld "skipped" cov_Skipped
     (λ r v, mkCoverage (cov_Discovered r) (cov_Assessable r) v (cov_Rate r) (cov_SkippedByKind r)) of_json;
   fld "rate" cov_Rate
     (λ r v, mkCoverage (cov_Discovered r) (cov_Assessable r) (cov_Skipped r) v (cov_SkippedByKind r)) of_json;
   fld "skippedByKind" cov_SkippedByKind
     (λ r v, mkCoverage (cov_Discovered r) (cov_Assessable r) (cov_Skipped r) (cov_Rate r) v) of_json].

Definition zero_coverage : CoverageBreakdown := mkCoverage zero_value zero_value zero_value zero_value zero_value.

Definition coverage_fits (r : CoverageBreakdown) : bool :=
  fits (cov_Discovered r) && fits (cov_Assessable r) && fits (cov_Skipped r) && fits (cov_Rate r) &&
  fits (cov_SkippedByKind r).

#[export] Program Instance coverage_codec : JsonCodec CoverageBreakdown := {
  to_json := coverage_json; of_json := dec_struct coverage_fields; zero_value := zero_coverage; empty_value _ := false; fits := coverage_fits
}.
Next Obligation. struct_decode coverage_fits coverage_json. Qed.
Next Obligation. struct_ok coverage_fits coverage_json. Qed.
Next Obligation. done. Qed.

Definition factor_json (r : RiskFactor) : json :=
  JObj ([("name", to_json (rf_Name r)); ("points", to_json (rf_Points r)); ("detail", to_json (rf_Detail r))]).

Definition factor_fields : list (field RiskFactor) :=
  [fld "name" rf_Name (λ r v, mkRiskFactor v (rf_Points r) (rf_Detail r)) of_json;
   fld "points" rf_Points (λ r v, mkRiskFactor (rf_Name r) v (rf_Detail r)) of_json;
   fld "detail" rf_Detail (λ r v, mkRiskFactor (rf_Name r) (rf_Points r) v) of_json].

Definition zero_factor : RiskFactor := mkRiskFactor zero_value zero_value zero_value.

Definition factor_fits (r : RiskFactor) : bool :=
  fits (rf_Name r) && fits (rf_Points r) && fits (rf_Detail r).

#[export] Program Instance factor_codec : JsonCodec RiskFactor := {
  to_json := factor_json; of_json := dec_struct factor_fields; zero_value := zero_factor; empty_value _ := false; fits := factor_fits
}.
Next Obligation. struct_decode factor_fits factor_json. Qed.
Next Obligation. struct_ok factor_fits factor_json. Qed.
Next Obligation. done. Qed.

Definition risk_json (r : RiskScore) : json :=
  JObj ([("findingId", to_json (rs_FindingID r)); ("title", to_json (rs_Title r));
       ("severity", to_json (rs_Severity r)); ("resource", to_json (rs_Resource r));
       ("score", to_json (rs_Score r)); ("factors", to_json (rs_Factors r))]).

Definition risk_fields : list (field RiskScore) :=
  [fld "findingId" rs_FindingID
     (λ r v, mkRiskScore v (rs_Title r) (rs_Severity r) (rs_Resource r) (rs_Score r) (rs_Factors r)) of_json;
   fld "title" rs_Title
     (λ r v, mkRiskScore (rs_FindingID r) v (rs_Severity r) (rs_Resource r) (rs_Score r) (rs_Factors r)) of_json;
   fld "severity" rs_Severity
     (λ r v, mkRiskScore (rs_FindingID r) (rs_Title r) v (rs_Resource r) (rs_Score r) (rs_Factors r)) of_json;
   fld "resource" rs_Resource
     (λ r v, mkRiskScore (rs_FindingID r) (rs_Title r) (rs_Severity r) v (rs_Score r) (rs_Factors r)) of_json;
   fld "score" rs_Score
     (λ r v, mkRiskScore (rs_FindingID r) (rs_Title r) (rs_Severity r) (rs_Resource r) v (rs_Factors r)) of_json;
   fld "factors" rs_Factors
     (λ r v, mkRiskScore (rs_FindingID r) (rs_Title r) (rs_Severity r) (rs_Resource r) (rs_Score r) v) of_json].

Definition zero_risk : RiskScore := mkRiskScore zero_value zero_value zero_value zero_value zero_value zero_value.

Definition risk_fits (r : RiskScore) : bool :=
  fits (rs_FindingID r) && fits (rs_Title r) && fits (rs_Severity r) && fits (rs_Resource r) &&
  fits (rs_Score r) && fits (rs_Factors r).

#[export] Program Instance risk_codec : JsonCodec RiskScore := {
  to_json := risk_json; of_json := dec_struct risk_fields; zero_value := zero_risk; empty_value _ := false; fits := risk_fits
}.
Next Obligation. struct_decode risk_fits risk_json. Qed.
Next Obligation. struct_ok risk_fits risk_json. Qed.
Next Obligation. done. Qed.

(** The ranking is left out or has an element. *)
Definition risks_fit (o : option (list RiskScore)) : bool :=
  match o with None => true | Some l => fits l && negb (empty_value l) end.

Definition report_json (r : Report) : json :=
  JObj ([("generatedAt", to_json (rep_GeneratedAt r)); ("source", to_json (rep_Source r));
       ("profile", to_json (rep_Profile r)); ("findings", to_json (rep_Findings r))]
    ++ omit_empty "paths" (rep_Paths r)
    ++ [("posture", to_json (rep_Posture r))]
    ++ omit_empty "compliance" (rep_Compliance r)
    ++ omit_empty "coverage" (rep_Coverage r)
    ++ match rep_TopRisks r with None => [] | Some l => omit_empty "topRisks" l end).

Definition report_fields : list (field Report) :=
  [fld "generatedAt" rep_GeneratedAt
     (λ r v, mkReport v (rep_Source r) (rep_Profile r) (rep_Findings r) (rep_Paths r) (rep_Posture r)
              (rep_Compliance r) (rep_Coverage r) (rep_TopRisks r)) of_json;
   fld "source" rep_Source
     (λ r v, mkReport (rep_GeneratedAt r) v (rep_Profile r) (rep_Findings r) (rep_Paths r) (rep_Posture r)
              (rep_Compliance r) (rep_Coverage r) (rep_TopRisks r)) of_json;
   fld "profile" rep_Profile
     (λ r v, mkReport (rep_GeneratedAt r) (rep_Source r) v (rep_Findings r) (rep_Paths r) (rep_Posture r)
              (rep_Compliance r) (rep_Coverage r) (rep_TopRisks r)) of_json;
   fld "findings" rep_Findings
     (λ r v, mkReport (rep_GeneratedAt r) (rep_Source r) (rep_Profile r) v (rep_Paths r) (rep_Posture r)
              (rep_Compliance r) (rep_Coverage r) (rep_TopRisks r)) of_json;
   fld "paths" rep_Paths
     (λ r v, mkReport (rep_GeneratedAt r) (rep_Source r) (rep_Profile r) (rep_Findings r) v (rep_Posture r)
              (rep_Compliance r) (rep_Coverage r) (rep_TopRisks r)) of_json;
   fld "posture" rep_Posture
     (λ r v, mkReport (rep_GeneratedAt r) (rep_Source r) (rep_Profile r) (rep_Findings r) (rep_Paths r) v
              (rep_Compliance r) (rep_Coverage r) (rep_TopRisks r)) of_json;
   fld "compliance" rep_Compliance
     (λ r v, mkReport (rep_GeneratedAt r) (rep_Source r) (rep_Profile r) (rep_Findings r) (rep_Paths r)
              (rep_Posture r) v (rep_Coverage r) (rep_TopRisks r)) of_json;
   fld "coverage" rep_Coverage
     (λ r v, mkReport (rep_GeneratedAt r) (rep_Source r) (rep_Profile r) (rep_Findings r) (rep_Paths r)
              (rep_Posture r) (rep_Compliance r) v (rep_TopRisks r)) of_json;
   fld "topRisks" (λ r, default zero_value (rep_TopRisks r))
     (λ r v, mkReport (rep_GeneratedAt r) (rep_Source r) (rep_Profile r) (rep_Findings r) (rep_Paths r)
              (rep_Posture r) (rep_Compliance r) (rep_Coverage r) (Some v)) of_json].

Definition report_zero : Report := mkReport zero_value zero_value zero_value zero_value zero_value zero_value zero_value zero_value None.

Definition report_fits (r : Report) : bool :=
  fits (rep_GeneratedAt r) && fits (rep_Source r) && fits (rep_Profile r) && fits (rep_Findings r) &&
  fits (rep_Paths r) && fits (rep_Posture r) && fits (rep_Compliance r) && fits (rep_Coverage r) &&
  risks_fit (rep_TopRisks r).

#[export] Program Instance report_codec : JsonCodec Report := {
  to_json := report_json; of_json := dec_struct report_fields; zero_value := report_zero; empty_value _ := false; fits := report_fits
}.
Next Obligation.
  intros r Hr. destruct r as [? ? ? ? ? ? ? ? [l|]]; unfold risks_fit in Hr; struct_members Hr report_fits report_json;
    first [discriminate|members_decode].
Qed.
Next Obligation.
  intros r Hr. destruct r as [? ? ? ? ? ? ? ? [l|]]; unfold risks_fit in Hr; struct_members Hr report_fits report_json;
    first [discriminate|members_ok].
Qed.
Next Obligation. done. Qed.

Definition ev_control_json (r : EvidenceControl) : json :=
  JObj ([("controlId", to_json (ec_ControlID r))]
    ++ omit_empty "title" (ec_Title r)
    ++ [("mapsTo", to_json (ec_MapsTo r)); ("breached", to_json (ec_Breached r))]
    ++ omit_empty "findings" (ec_Findings r)).

Definition ev_control_fields : list (field EvidenceControl) :=
  [fld "controlId" ec_ControlID
     (λ r v, mkEvidenceControl v (ec_Title r) (ec_MapsTo r) (ec_Breached r) (ec_Findings r)) of_json;
   fld "title" ec_Title
     (λ r v, mkEvidenceControl (ec_ControlID r) v (ec_MapsTo r) (ec_Breached r) (ec_Findings r)) of_json;
   fld "mapsTo" ec_MapsTo
     (λ r v, mkEvidenceControl (ec_ControlID r) (ec_Title r) v (ec_Breached r) (ec_Findings r)) of_json;
   fld "breached" ec_Breached
     (λ r v, mkEvidenceControl (ec_ControlID r) (ec_Title r) (ec_MapsTo r) v (ec_Findings r)) of_json;
   fld "findings" ec_Findings
     (λ r v, mkEvidenceControl (ec_ControlID r) (ec_Title r) (ec_MapsTo r) (ec_Breached r) v) of_json].

Definition zero_ev_control : EvidenceControl := mkEvidenceControl zero_value zero_value zero_value zero_value zero_value.

Definition ev_control_fits (r : EvidenceControl) : bool :=
  fits (ec_ControlID r) && fits (ec_Title r) && fits (ec_MapsTo r) && fits (ec_Breached r) &&
  fits (ec_Findings r).

#[export] Program Instance ev_control_codec : JsonCodec EvidenceControl := {
  to_json := ev_control_json; of_json := dec_struct ev_control_fields; zero_value := zero_ev_control; empty_value _ := false; fits := ev_control_fits
}.
Next Obligation. struct_decode ev_control_fits ev_control_json. Qed.
Next Obligation. struct_ok ev_control_fits ev_control_json. Qed.
Next Obligation. done. Qed.

Definition ev_pack_json (r : EvidencePack) : json :=
  JObj ([("generatedAt", to_json (ep_GeneratedAt r)); ("source", to_json (ep_Source r));
       ("profile", to_json (ep_Profile r)); ("id", to_json (ep_ID r));
       ("framework", to_json (ep_Framework r))]
    ++ omit_empty "version" (ep_Version r)
    ++ [("assessed", to_json (ep_Assessed r)); ("breached", to_json (ep_Breached r));
       ("passed", to_json (ep_Passed r)); ("passRate", to_json (ep_PassRate r));
       ("controls", to_json (ep_Controls r)); ("disclaimer", to_json (ep_Disclaimer r))]).

Definition ev_pack_fields : list (field EvidencePack) :=
  [fld "generatedAt" ep_GeneratedAt
     (λ r v, mkEvidencePack v (ep_Source r) (ep_Profile r) (ep_ID r) (ep_Framework r) (ep_Version r) (ep_Assessed r)
              (ep_Breached r) (ep_Passed r) (ep_PassRate r) (ep_Controls r) (ep_Disclaimer r)) of_json;
   fld "source" ep_Source
     (λ r v, mkEvidencePack (ep_GeneratedAt r) v (ep_Profile r) (ep_ID r) (ep_Framework r) (ep_Version r)
              (ep_Assessed r) (ep_Breached r) (ep_Passed r) (ep_PassRate r) (ep_Controls r)
              (ep_Disclaimer r)) of_json;
   fld "profile" ep_Profile
     (λ r v, mkEvidencePack (ep_GeneratedAt r) (ep_Source r) v (ep_ID r) (ep_Framework r) (ep_Version r)
              (ep_Assessed r) (ep_Breached r) (ep_Passed r) (ep_PassRate r) (ep_Controls r)
              (ep_Disclaimer r)) of_json;
   fld "id" ep_ID
     (λ r v, mkEvidencePack (ep_GeneratedAt r) (ep_Source r) (ep_Profile r) v (ep_Framework r) (ep_Version r)
              (ep_Assessed r) (ep_Breached r) (ep_Passed r) (ep_PassRate r) (ep_Controls r)
              (ep_Disclaimer r)) of_json;
   fld "framework" ep_Framework
     (λ r v, mkEvidencePack (ep_GeneratedAt r) (ep_Source r) (ep_Profile r) (ep_ID r) v (ep_Version r)
              (ep_Assessed r) (ep_Breached r) (ep_Passed r) (ep_PassRate r) (ep_Controls r)
              (ep_Disclaimer r)) of_json;
   fld "version" ep_Version
     (λ r v, mkEvidencePack (ep_GeneratedAt r) (ep_Source r) (ep_Profile r) (ep_ID r) (ep_Framework r) v
              (ep_Assessed r) (ep_Breached r) (ep_Passed r) (ep_PassRate r) (ep_Controls r)
              (ep_Disclaimer r)) of_json;
   fld "assessed" ep_Assessed
     (λ r v, mkEvidencePack (ep_GeneratedAt r) (ep_Source r) (ep_Profile r) (ep_ID r) (ep_Framework r) (ep_Version r)
              v (ep_Breached r) (ep_Passed r) (ep_PassRate r) (ep_Controls r) (ep_Disclaimer r)) of_json;
   fld "breached" ep_Breached
     (λ r v, mkEvidencePack (ep_GeneratedAt r) (ep_Source r) (ep_Profile r) (ep_ID r) (ep_Framework r) (ep_Version r)
              (ep_Assessed r) v (ep_Passed r) (ep_PassRate r) (ep_Controls r) (ep_Disclaimer r)) of_json;
   fld "passed" ep_Passed
     (λ r v, mkEvidencePack (ep_GeneratedAt r) (ep_Source r) (ep_Profile r) (ep_ID r) (ep_Framework r) (ep_Version r)
              (ep_Assessed r) (ep_Breached r) v (ep_PassRate r) (ep_Controls r) (ep_Disclaimer r)) of_json;
   fld "passRate" ep_PassRate
     (λ r v, mkEvidencePack (ep_GeneratedAt r) (ep_Source r) (ep_Profile r) (ep_ID r) (ep_Framework r) (ep_Version r)
              (ep_Assessed r) (ep_Breached r) (ep_Passed r) v (ep_Controls r) (ep_Disclaimer r)) of_json;
   fld "controls" ep_Controls
     (λ r v, mkEvidencePack (ep_GeneratedAt r) (ep_Source r) (ep_Profile r) (ep_ID r) (ep_Framework r) (ep_Version r)
              (ep_Assessed r) (ep_Breached r) (ep_Passed r) (ep_PassRate r) v (ep_Disclaimer r)) of_json;
   fld "disclaimer" ep_Disclaimer
     (λ r v, mkEvidencePack (ep_GeneratedAt r) (ep_Source r) (ep_Profile r) (ep_ID r) (ep_Framework r) (ep_Version r)
              (ep_Assessed r) (ep_Breached r) (ep_Passed r) (ep_PassRate r) (ep_Controls r) v) of_json].

Definition zero_ev_pack : EvidencePack := mkEvidencePack zero_value zero_value zero_value zero_value zero_value zero_value zero_value zero_value zero_value zero_value zero_value zero_value.

Definition ev_pack_fits (r : EvidencePack) : bool :=
  fits (ep_GeneratedAt r) && fits (ep_Source r) && fits (ep_Profile r) && fits (ep_ID r) &&
  fits (ep_Framework r) && fits (ep_Version r) && fits (ep_Assessed r) && fits (ep_Breached r) &&
  fits (ep_Passed r) && fits (ep_PassRate r) && fits (ep_Controls r) && fits (ep_Disclaimer r).

#[export] Program Instance ev_pack_codec : JsonCodec EvidencePack := {
  to_json := ev_pack_json; of_json := dec_struct ev_pack_fields; zero_value := zero_ev_pack; empty_value _ := false; fits := ev_pack_fits
}.
Next Obligation. struct_decode ev_pack_fits ev_pack_json. Qed.
Next Obligation. struct_ok ev_pack_fits ev_pack_json. Qed.
Next Obligation. done. Qed.

(** * ASFF (internal/report/asff.go) *)

Definition str_map_json (m : gmap string string) : json :=
  JObj (by_key (map (λ kv : string * string, (kv.1, JStr kv.2)) (map_to_list m))).

Definition asff_resource_json (a : asffResource) : json :=
  JObj ([("Type", JStr (ar_Type a)); ("Id", JStr (ar_ID a))]
    ++ omit_empty "Region" (ar_Region a)
    ++ [("Details", JObj [("Other", str_map_json (ar_Other a))])]).

Definition asff_finding_json (a : ASFFFinding) : json :=
  JObj ([("SchemaVersion", JStr (af_SchemaVersion a)); ("Id", JStr (af_ID a)); ("ProductArn", JStr (af_ProductArn a));
         ("GeneratorId", JStr (af_GeneratorID a)); ("AwsAccountId", JStr (af_AwsAccountID a))]
    ++ omit_empty "Region" (af_Region a)
    ++ [("Types", to_json (af_Types a)); ("CreatedAt", JStr (af_CreatedAt a)); ("UpdatedAt", JStr (af_UpdatedAt a));
        ("Severity", JObj [("Label", JStr (as_Label (af_Severity a))); ("Normalized", JInt (as_Normalized (af_Severity a)))]);
        ("Title", JStr (af_Title a)); ("Description", JStr (af_Description a));
        ("Remediation", JObj [("Recommendation", JObj [("Text", JStr (af_Remediation a))])])]
    ++ (if decide (af_ProductFields a = ∅) then [] else [("ProductFields", str_map_json (af_ProductFields a))])
    ++ [("Resources", JArr (map asff_resource_json (af_Resources a)));
        ("Compliance", JObj ([("Status", JStr (ac_Status (af_Compliance a)))]
           ++ omit_empty "RelatedRequirements" (ac_RelatedRequirements (af_Compliance a))));
        ("RecordState", JStr (af_RecordState a)); ("Workflow", JObj [("Status", JStr (af_Workflow a))])]).

(** The slice of the document is never nil. *)
Definition asff_document (l : list ASFFFinding) : json := JObj [("Findings", JArr (map asff_finding_json l))].

(** * Writers *)

(** [enc.SetIndent], [enc.SetEscapeHTML(false)], [enc.Encode] *)
Definition encode_indented (j : json) : res string := go_encode false "  " j.

Definition JSON (r : Report) : res string := wrap_err "encode json report: " (encode_indented (to_json r)).

Definition EvidenceJSON (ep : EvidencePack) : res string := wrap_err "encode evidence json: " (encode_indented (to_json ep)).

Definition ASFFWithOptions (r : Report) (opts : ASFFOptions) : res string :=
  wrap_err "encode asff: " (encode_indented (asff_document (buildASFF r opts))).

Definition ASFF (env : string → string) (r : Report) : res string := ASFFWithOptions r (asffOptionsFromEnv env).

(** [json.Marshal] of a report as a JSON value, and [json.Unmarshal] into a new one. *)
Definition marshal_report (r : Report) : option json :=
  match unsupported (to_json r) with Some _ => None | None => Some (to_json r) end.

Definition unmarshal_report (j : json) : option Report :=
  match of_json zero_report j with (r, false) => Some r | _ => None end.

(** * Properties *)

Lemma report_of_json r : fits r = true → of_json zero_report (to_json r) = (r, false).
Proof. exact (of_to_json r). Qed.

(** What reading a report back gives: a ranking that is empty is not written, and comes back nil. *)
Definition as_read (r : Report) : Report :=
  mkReport (rep_GeneratedAt r) (rep_Source r) (rep_Profile r) (rep_Findings r) (rep_Paths r) (rep_Posture r)
    (rep_Compliance r) (rep_Coverage r) (match rep_TopRisks r with Some [] => None | o => o end).

Lemma as_read_json r : to_json (as_read r) = to_json r.
Proof. by destruct r as [? ? ? ? ? ? ? ? [[|]|]]. Qed.

Lemma as_read_ok r : fits (as_read r) = true → json_ok (to_json r) = true ∧ unmarshal_report (to_json r) = Some (as_read r).
Proof.
  intros H. rewrite <-as_read_json. split; [by apply to_json_ok|]. unfold unmarshal_report. by rewrite report_of_json.
Qed.

(** A report that can be written survives its JSON column. *)
Lemma report_column_kept r : fits (as_read r) = true →
  ∃ j, marshal_report r = Some j ∧ unmarshal_report j = Some (as_read r).
Proof.
  intros [Hok Hr]%as_read_ok. exists (to_json r). unfold marshal_report. by rewrite (json_ok_supported _ Hok).
Qed.

Lemma encode_indented_ok j : json_ok j = true → ∃ text, encode_indented j = Ok text ∧ Unmarshal text = Some j.
Proof.
  intros H. exists (Encode false "  " j). unfold encode_indented, go_encode, supported.
  rewrite (json_ok_supported j H). split; [done|by apply Unmarshal_Encode].
Qed.

Lemma encode_indented_Err j e : encode_indented j = Err e →
  ∃ t, unsupported j = Some t ∧ e = "json: unsupported value: " +:+ t.
Proof. unfold encode_indented, go_encode, supported. destruct (unsupported j) as [t|]; [|done]. intros [= <-]. by exists t. Qed.

(** Values without numbers that are not integers. *)
Lemma str_map_supported m : unsupported (str_map_json m) = None.
Proof.
  unfold str_map_json. cbn [unsupported]. apply first_some_None. intros kv Hkv. unfold by_key in Hkv.
  apply elem_of_slice_stable, list_elem_of_In, in_map_iff in Hkv as ([k s] & <- & _). done.
Qed.

Lemma strings_supported l : unsupported (to_json (l : list string)) = None.
Proof.
  destruct l as [|s l]; [done|]. change (to_json (s :: l)) with (JArr (map JStr (s :: l))). cbn [unsupported].
  apply first_some_None. by intros j (x & <- & _)%list_elem_of_In%in_map_iff.
Qed.

Lemma object_supported m : Forall (λ kv : string * json, unsupported kv.2 = None) m → unsupported (JObj m) = None.
Proof. intros H. cbn [unsupported]. apply first_some_None. intros kv Hkv. rewrite Forall_forall in H. by apply H. Qed.

Lemma omit_empty_supported `{JsonCodec A} k (a : A) : unsupported (to_json a) = None →
  Forall (λ kv : string * json, unsupported kv.2 = None) (omit_empty k a).
Proof. intros Ha. unfold omit_empty. destruct (empty_value a); by repeat constructor. Qed.

Lemma asff_resource_supported a : unsupported (asff_resource_json a) = None.
Proof.
  apply object_supported. rewrite !Forall_app. split_and!; [by repeat constructor|by apply omit_empty_supported|].
  repeat constructor. apply object_supported. repeat constructor. apply str_map_supported.
Qed.

Lemma asff_finding_supported a : unsupported (asff_finding_json a) = None.
Proof.
  apply object_supported. rewrite !Forall_app. split_and!; [by repeat constructor|by apply omit_empty_supported| | |].
  - repeat constructor; cbn [snd]; apply strings_supported.
  - destruct (decide _); repeat constructor. apply str_map_supported.
  - repeat constructor; cbn [snd].
    + cbn [unsupported]. apply first_some_None. intros j (x & <- & _)%list_elem_of_In%in_map_iff. apply asff_resource_supported.
    + apply object_supported. rewrite Forall_app. split; [by repeat constructor|]. apply omit_empty_supported, strings_supported.
Qed.

(** The report, evidence and ASFF files of a scan can be read by the programs they are for.
    The error is that of a rate that is not a number. *)
Lemma asff_written r opts : ∃ text, ASFFWithOptions r opts = Ok text.
Proof.
  unfold ASFFWithOptions, encode_indented, go_encode, supported.
  assert (unsupported (asff_document (buildASFF r opts)) = None) as ->; [|by eexists].
  apply object_supported. repeat constructor. cbn [snd unsupported]. apply first_some_None.
  intros j (x & <- & _)%list_elem_of_In%in_map_iff. apply asff_finding_supported.
Qed.


Definition ex_finding : Finding :=
  mkFinding "KG-001" "Privileged — <b>container</b>" SeverityHigh "host-access" (mkResourceRef "Pod" "" "app")
    [mkEvidence "spec.containers[0]" ""] (mkRemediation "drop it" "") ["node-root"] [mkControlRef "ATT&CK" "T1611" ""].

Definition ex_report : Report :=
  mkReport "2026-01-02T03:04:05Z" "m.yaml" "cis" [ex_finding] []
    (mkPostureSummary 1 {["high" := 1%Z]} 0 3 1 (fdiv (float_of_int 2) (float_of_int 3)))
    [mkFrameworkResult "CIS" "" 3 1 2 (fdiv (float_of_int 2) (float_of_int 3)) [mkControlBreach "5.2" "t" ["KG-001"]] "d"]
    (Some (mkCoverage 2 1 1 (fdiv fone (float_of_int 2)) {["Secret" := 1%Z]})) (Some [mkRiskScore "KG-001" "t" "high"
      (mkResourceRef "Pod" "" "app") 40 [mkRiskFactor "severity" 40 "d"]]).

Definition ex_pack : EvidencePack :=
  mkEvidencePack "2026-01-02T03:04:05Z" "m.yaml" "cis" "cis" "CIS" "1" 3 1 2 (fdiv (float_of_int 2) (float_of_int 3))
    [mkEvidenceControl "5.2" "t" ["KG-001"] true [ex_finding]; mkEvidenceControl "5.3" "" ["KG-002"] false []] "d".

(** A report without findings says null, not an empty array. *)
Example no_findings_null :
  member "findings" (as_map (Some (to_json zero_report))) = Some JNull.
Proof. reflexivity. Qed.

