(* ===== verification/Server.v ===== *)
(** The REST service (internal/server/server.go): scans, the cached report, metrics, history and
    the handlers.

    A successful scan is a sequence of atomic actions on the shared state: the swap of the cached
    report under the mutex, the updates of the single gauges, the append to the history.  Scans of
    concurrent requests interleave at the granularity of these actions.  Parameters: the framework
    packs, the loader's result and the clock of each scan, and the history backend, which is used
    through its interface.  The Prometheus registry is the map of its gauges.  The schedule, the
    listener and the texts of the answers are in ServeCmd.v. *)

From S2P Require Import Prelude GoStrings GoFloat Api Model Compliance Analyzer.
From S2P Require Import History Reports.

Section server.
Context {St IO : Type} `{HistoryStore St IO}.
Variable packs : res (list Pack).

(** * State *)

Record Config := mkConfig {
  cf_Profile : string;
  cf_AssumeBreach : bool
}.

(** [New]: [loader] tells whether a loader was given. *)
Definition New (loader : bool) (cfg : Config) : res Config :=
  if negb loader then Err "server: a Loader is required"
  else Ok (if cf_Profile cfg =s "" then mkConfig "zeal-default" (cf_AssumeBreach cfg) else cfg).

(** The gauges: findings by severity, pass rate by framework, and the number of attack paths. *)
Record gauges := mkGauges {
  g_findings : gmap string float64;
  g_passRate : gmap string float64;
  g_paths : float64
}.

Record Server := mkServer {
  s_latest : Report;
  s_hasScan : bool;
  s_gauges : gauges;
  s_store : option St
}.

Definition start (store : option St) : Server := mkServer zero_report false (mkGauges ∅ ∅ fzero) store.

(** * Scans *)

(** What one scan gets from its environment: the loader's resources and source, and the time. *)
Record scan_env := mkScanEnv {
  se_load : res (list Resource * string);
  se_now : string
}.

(** [ScanOnce] up to the lock. *)
Definition scan_report (cfg : Config) (e : scan_env) : res Report :=
  '(resources, source) ← se_load e;
  rep ← Analyze packs resources (cf_Profile cfg) (cf_AssumeBreach cfg) [];
  Ok (stamp_report (se_now e) source rep).

Inductive action : Type :=
| Swap (rep : Report)
| ResetFindings
| SetFindings (sev : string) (v : float64)
| ResetPassRate
| SetPassRate (fw : string) (v : float64)
| SetPaths (v : float64)
| AppendHistory (r : ScanRecord).

Definition updateMetrics (rep : Report) : list action :=
  [ResetFindings]
  ++ map (λ sev, SetFindings sev (float_of_int (map_get 0%Z (ps_BySeverity (rep_Posture rep)) sev)))
       [SeverityCritical; SeverityHigh; SeverityMedium; SeverityLow]
  ++ [ResetPassRate]
  ++ map (λ fw, SetPassRate (fr_Framework fw) (fr_PassRate fw)) (rep_Compliance rep)
  ++ [SetPaths (float_of_int (Z.of_nat (length (rep_Paths rep))))].

(** The actions of a scan that got a report. *)
Definition scan_actions (rep : Report) : list action :=
  Swap rep :: updateMetrics rep ++ [AppendHistory (FromReport rep)].

Definition set_gauges (f : gauges → gauges) (s : Server) : Server :=
  mkServer (s_latest s) (s_hasScan s) (f (s_gauges s)) (s_store s).

(** One action; [io] is the environment of the history backend, whose error is only logged. *)
Definition apply_action (io : IO) (a : action) (s : Server) : Server :=
  match a with
  | Swap rep => mkServer rep true (s_gauges s) (s_store s)
  | ResetFindings => set_gauges (λ g, mkGauges ∅ (g_passRate g) (g_paths g)) s
  | SetFindings sev v => set_gauges (λ g, mkGauges (<[sev := v]> (g_findings g)) (g_passRate g) (g_paths g)) s
  | ResetPassRate => set_gauges (λ g, mkGauges (g_findings g) ∅ (g_paths g)) s
  | SetPassRate fw v => set_gauges (λ g, mkGauges (g_findings g) (<[fw := v]> (g_passRate g)) (g_paths g)) s
  | SetPaths v => set_gauges (λ g, mkGauges (g_findings g) (g_passRate g) v) s
  | AppendHistory r =>
      mkServer (s_latest s) (s_hasScan s) (s_gauges s)
        (match s_store s with None => None | Some st => Some (store_Append io r st).1 end)
  end.

Definition apply_actions (io : IO) (acts : list action) (s : Server) : Server :=
  foldl (λ s a, apply_action io a s) s acts.

(** [ScanOnce] when no other scan runs. *)
Definition ScanOnce (cfg : Config) (io : IO) (e : scan_env) (s : Server) : Server * res Report :=
  match scan_report cfg e with
  | Err er => (s, Err er)
  | Ok rep => (apply_actions io (scan_actions rep) s, Ok rep)
  end.

(** * Handlers *)

Inductive body : Type :=
| BError (msg : string)
| BReport (rep : Report)
| BFindings (fs : list Finding)
| BPosture (p : PostureSummary) (c : list FrameworkResult)
| BText (t : string)
| BMetrics (g : gauges)
| BHtml (d : htmlData).

Definition response : Type := Z * body.

Definition snapshot (s : Server) : option Report := if s_hasScan s then Some (s_latest s) else None.

Definition with_snapshot (f : Report → body) (none : body) (s : Server) : response :=
  match snapshot s with None => (503%Z, none) | Some rep => (200%Z, f rep) end.

Definition handleFindings : Server → response := with_snapshot (λ rep, BFindings (rep_Findings rep)) (BError "no scan yet").
Definition handlePosture : Server → response :=
  with_snapshot (λ rep, BPosture (rep_Posture rep) (rep_Compliance rep)) (BError "no scan yet").
Definition handleReport : Server → response := with_snapshot BReport (BError "no scan yet").
Definition handleReadyz : Server → response := with_snapshot (λ _, BText "ready") (BText "no scan yet").

Definition handleDashboard (io : IO) (path : string) (s : Server) : response :=
  if path <>s "/" then (404%Z, BText "404 page not found")
  else with_snapshot (λ rep,
    let hist := match s_store s with
                | None => []
                | Some st => match store_All io st with Ok recs => recs | Err _ => [] end
                end in
    BHtml (html_data rep hist)) (BText "no scan yet") s.

Definition handleScan (cfg : Config) (io : IO) (e : scan_env) (s : Server) : Server * response :=
  match ScanOnce cfg io e s with
  | (s', Err er) => (s', (500%Z, BError er))
  | (s', Ok rep) => (s', (200%Z, BReport rep))
  end.

(** The mux, for a cleaned path; no route looks at the method. *)
Definition handle (cfg : Config) (io : IO) (e : scan_env) (path : string) (s : Server) : Server * response :=
  if path =s "/v1/scan" then handleScan cfg io e s
  else (s,
    if path =s "/v1/findings" then handleFindings s
    else if path =s "/v1/posture" then handlePosture s
    else if path =s "/v1/report" then handleReport s
    else if path =s "/healthz" then (200%Z, BText "ok")
    else if path =s "/readyz" then handleReadyz s
    else if path =s "/metrics" then (200%Z, BMetrics (s_gauges s))
    else handleDashboard io path s).

(** * Concurrent scans

    A state with the scans in flight, each the actions it still has to do.  A scan that fails
    before the lock does nothing. *)

Definition cstate : Type := Server * list (list action).

Inductive cstep (cfg : Config) (io : IO) : cstate → cstate → Prop :=
| CScan e rep s ts : scan_report cfg e = Ok rep → cstep cfg io (s, ts) (s, scan_actions rep :: ts)
| CAct a acts s ts1 ts2 :
    cstep cfg io (s, ts1 ++ (a :: acts) :: ts2) (apply_action io a s, ts1 ++ acts :: ts2)
| CDone s ts1 ts2 : cstep cfg io (s, ts1 ++ [] :: ts2) (s, ts1 ++ ts2).

Definition creachable (cfg : Config) (io : IO) (store : option St) : cstate → Prop :=
  rtc (cstep cfg io) (start store, []).

(** * The gauges of a report *)

Definition gauges_of (rep : Report) : gauges :=
  mkGauges
    (foldl (λ m sev, <[sev := float_of_int (map_get 0%Z (ps_BySeverity (rep_Posture rep)) sev)]> m) ∅
       [SeverityCritical; SeverityHigh; SeverityMedium; SeverityLow])
    (foldl (λ m fw, <[fr_Framework fw := fr_PassRate fw]> m) ∅ (rep_Compliance rep))
    (float_of_int (Z.of_nat (length (rep_Paths rep)))).

Lemma apply_actions_app io l1 l2 s : apply_actions io (l1 ++ l2) s = apply_actions io l2 (apply_actions io l1 s).
Proof. apply foldl_app. Qed.

(** Setting gauges one by one. *)
Lemma apply_SetFindings io (v : string → float64) l s :
  apply_actions io (map (λ sev, SetFindings sev (v sev)) l) s
  = set_gauges (λ g, mkGauges (foldl (λ m sev, <[sev := v sev]> m) (g_findings g) l) (g_passRate g) (g_paths g)) s.
Proof.
  revert s. induction l as [|sev l IH]; intros s; [by destruct s as [? ? []]|].
  cbn [map]. change (apply_actions io (?a :: ?l) s) with (apply_actions io l (apply_action io a s)).
  by rewrite IH.
Qed.

Lemma apply_SetPassRate io l s :
  apply_actions io (map (λ fw, SetPassRate (fr_Framework fw) (fr_PassRate fw)) l) s
  = set_gauges (λ g, mkGauges (g_findings g)
      (foldl (λ m fw, <[fr_Framework fw := fr_PassRate fw]> m) (g_passRate g) l) (g_paths g)) s.
Proof.
  revert s. induction l as [|fw l IH]; intros s; [by destruct s as [? ? []]|].
  cbn [map]. change (apply_actions io (?a :: ?l) s) with (apply_actions io l (apply_action io a s)).
  by rewrite IH.
Qed.

(** The updates leave the gauges of the report, whatever they were before. *)
Lemma apply_updateMetrics io rep s :
  apply_actions io (updateMetrics rep) s
  = mkServer (s_latest s) (s_hasScan s) (gauges_of rep) (s_store s).
Proof.
  unfold updateMetrics. rewrite !apply_actions_app, apply_SetFindings, apply_SetPassRate. reflexivity.
Qed.

Lemma apply_scan_actions io rep s :
  apply_actions io (scan_actions rep) s
  = mkServer rep true (gauges_of rep)
      (match s_store s with None => None | Some st => Some (store_Append io (FromReport rep) st).1 end).
Proof.
  unfold scan_actions. change (apply_actions io (?a :: ?l) s) with (apply_actions io l (apply_action io a s)).
  rewrite apply_actions_app, apply_updateMetrics. reflexivity.
Qed.

(** * Specification of a service that handles its requests one after the other

    Its state is the list of the reports of the successful scans. *)

Definition views (path : string) : option ((Report → list ScanRecord → body) * body) :=
  if path =s "/v1/findings" then Some (λ rep _, BFindings (rep_Findings rep), BError "no scan yet")
  else if path =s "/v1/posture" then Some (λ rep _, BPosture (rep_Posture rep) (rep_Compliance rep), BError "no scan yet")
  else if path =s "/v1/report" then Some (λ rep _, BReport rep, BError "no scan yet")
  else if path =s "/readyz" then Some (λ _ _, BText "ready", BText "no scan yet")
  else if path =s "/" then Some (λ rep hist, BHtml (html_data rep hist), BText "no scan yet")
  else None.

Definition spec_response (path : string) (hist : list ScanRecord) (done : list Report) : response :=
  if path =s "/healthz" then (200%Z, BText "ok")
  else if path =s "/metrics"
  then (200%Z, BMetrics (match last done with None => mkGauges ∅ ∅ fzero | Some rep => gauges_of rep end))
  else match views path with
       | None => (404%Z, BText "404 page not found")
       | Some (view, none) =>
           match last done with None => (503%Z, none) | Some rep => (200%Z, view rep hist) end
       end.

(** The history the dashboard shows: the records stored before and one per report; nothing when no
    history is configured. *)
Definition shown (rs0 : option (list ScanRecord)) (done : list Report) : list ScanRecord :=
  match rs0 with None => [] | Some rs => rs ++ map FromReport done end.

Definition spec_step (cfg : Config) (rs0 : option (list ScanRecord)) (e : scan_env) (path : string) (done : list Report)
    : list Report * response :=
  if path =s "/v1/scan" then
    match scan_report cfg e with
    | Ok rep => (done ++ [rep], (200%Z, BReport rep))
    | Err er => (done, (500%Z, BError er))
    end
  else (done, spec_response path (shown rs0 done) done).

(** A list of requests: what each scan would find, and the path. *)
Fixpoint run (cfg : Config) (io : IO) (reqs : list (scan_env * string)) (s : Server) : Server * list response :=
  match reqs with
  | [] => (s, [])
  | (e, path) :: reqs' =>
      let '(s', r) := handle cfg io e path s in
      let '(s'', rs) := run cfg io reqs' s' in (s'', r :: rs)
  end.

Fixpoint spec_run (cfg : Config) (rs0 : option (list ScanRecord)) (reqs : list (scan_env * string)) (done : list Report)
    : list Report * list response :=
  match reqs with
  | [] => (done, [])
  | (e, path) :: reqs' =>
      let '(done', r) := spec_step cfg rs0 e path done in
      let '(done'', rs) := spec_run cfg rs0 reqs' done' in (done'', r :: rs)
  end.

Context `{!HistoryLaws St IO}.

(** What the refinement asks of the history: no call fails, and reports can be stored. *)
Definition history_works (io : IO) : Prop :=
  readable io ∧ (∀ rs st r, holds rs st → representable r → (store_Append io r st).2 = None) ∧
  (∀ cfg e rep, scan_report cfg e = Ok rep → representable (FromReport rep)).

(** The simulation relation. *)
Record simulates (rs0 : option (list ScanRecord)) (s : Server) (done : list Report) : Prop := {
  sim_snapshot : snapshot s = last done;
  sim_gauges : s_gauges s = match last done with None => mkGauges ∅ ∅ fzero | Some rep => gauges_of rep end;
  sim_store : match s_store s, rs0 with
              | None, None => True
              | Some st, Some rs => holds (rs ++ map FromReport done) st
              | _, _ => False
              end
}.

Lemma handle_simulated cfg io rs0 e path s done s' r :
  history_works io → simulates rs0 s done → handle cfg io e path s = (s', r) →
  simulates rs0 s' (spec_step cfg rs0 e path done).1 ∧ r = (spec_step cfg rs0 e path done).2.
Proof.
  intros (Hread & Happ & Hrep) [Hs Hg Hst]. unfold handle, spec_step.
  destruct (path =s "/v1/scan").
  - unfold handleScan, ScanOnce. destruct (scan_report cfg e) as [rep|er] eqn:E; [|by intros [= <- <-]].
    rewrite apply_scan_actions. intros [= <- <-]. split; [|done]. cbn [fst]. split.
    + by rewrite last_snoc.
    + by rewrite last_snoc.
    + cbn [s_store]. destruct (s_store s) as [st|], rs0 as [rs|]; try done.
      rewrite map_app, app_assoc. cbn [map].
      destruct (store_Append io (FromReport rep) st) as [st' err] eqn:Ea. cbn [fst].
      pose proof (Happ _ _ _ Hst (Hrep _ _ _ E)) as Hnone. rewrite Ea in Hnone. cbn [snd] in Hnone. subst err.
      eapply Append_holds; eauto.
  - intros [= <- <-]. split; [done|]. cbn [snd].
    assert (match s_store s with
            | None => []
            | Some st => match store_All io st with Ok recs => recs | Err _ => [] end
            end = shown rs0 done) as Hhist.
    { destruct (s_store s) as [st|], rs0 as [rs|]; try done. by rewrite (All_holds _ _ _ Hst Hread). }
    unfold handleFindings, handlePosture, handleReport, handleReadyz, handleDashboard, with_snapshot.
    rewrite Hs, Hg, Hhist. unfold spec_response, views.
    repeat case_str; subst; try done; by destruct (last done).
Qed.

(** A service that handles its requests one after the other refines its specification: every
    response is the one the list of the successful scans so far determines.  Until the first
    success the report pages answer 503; after it they show the last successful report, also when
    later scans fail; the metrics are that report's; the dashboard's history is the stored records
    followed by one per successful scan; an unknown path is 404; and a scan request, whatever its
    method, answers with its own report or its error. *)
Theorem serve_refines cfg io st rs0 reqs s' rs :
  history_works io →
  match st, rs0 with None, None => True | Some st, Some rs => holds rs st | _, _ => False end →
  run cfg io reqs (start st) = (s', rs) →
  rs = (spec_run cfg rs0 reqs []).2 ∧ snapshot s' = last (spec_run cfg rs0 reqs []).1.
Proof.
  intros Hw Hst.
  assert (simulates rs0 (start st) []) as Hsim.
  { split; [done|done|]. simpl. destruct st, rs0; try done. by rewrite app_nil_r. }
  revert Hsim. generalize (start st) as s, (@nil Report) as done. revert rs.
  induction reqs as [|[e path] reqs IH]; intros rs s dn Hsim; cbn [run spec_run].
  - intros [= <- <-]. split; [done|]. apply Hsim.
  - destruct (handle cfg io e path s) as [s1 r] eqn:Eh.
    destruct (handle_simulated _ _ _ _ _ _ _ _ _ Hw Hsim Eh) as [Hsim1 ->].
    destruct (spec_step cfg rs0 e path dn) as [dn1 r1]. cbn [fst snd] in *.
    destruct (run cfg io reqs s1) as [s2 rs2] eqn:Er. intros [= <- <-].
    destruct (IH _ _ _ Hsim1 Er) as [-> Hlast]. by destruct (spec_run cfg rs0 reqs dn1).
Qed.

(** * Concurrent scans *)

(** An action comes from a report some scan produced. *)
Definition scanned (cfg : Config) (rep : Report) : Prop := ∃ e, scan_report cfg e = Ok rep.

Definition from_scan (cfg : Config) (a : action) : Prop := ∃ rep, scanned cfg rep ∧ a ∈ scan_actions rep.

Lemma elem_of_scan_actions a rep :
  a ∈ scan_actions rep →
  match a with
  | Swap r => r = rep
  | SetFindings sev v => v = float_of_int (map_get 0%Z (ps_BySeverity (rep_Posture rep)) sev)
  | SetPassRate fw v => ∃ r, r ∈ rep_Compliance rep ∧ fr_Framework r = fw ∧ fr_PassRate r = v
  | SetPaths v => v = float_of_int (Z.of_nat (length (rep_Paths rep)))
  | AppendHistory r => r = FromReport rep
  | ResetFindings | ResetPassRate => True
  end.
Proof.
  unfold scan_actions, updateMetrics. rewrite elem_of_cons, !elem_of_app, !list_elem_of_fmap.
  rewrite !list_elem_of_singleton. intros Ha. destruct a; naive_solver.
Qed.

Record cinv (cfg : Config) (rs0 : list ScanRecord) (c : cstate) : Prop := {
  ci_actions acts a : acts ∈ c.2 → a ∈ acts → from_scan cfg a;
  ci_latest : s_hasScan c.1 = true → scanned cfg (s_latest c.1);
  ci_findings sev v : g_findings (s_gauges c.1) !! sev = Some v →
    ∃ rep, scanned cfg rep ∧ v = float_of_int (map_get 0%Z (ps_BySeverity (rep_Posture rep)) sev);
  ci_passRate fw v : g_passRate (s_gauges c.1) !! fw = Some v →
    ∃ rep r, scanned cfg rep ∧ r ∈ rep_Compliance rep ∧ fr_Framework r = fw ∧ fr_PassRate r = v;
  ci_paths : g_paths (s_gauges c.1) = fzero ∨
    ∃ rep, scanned cfg rep ∧ g_paths (s_gauges c.1) = float_of_int (Z.of_nat (length (rep_Paths rep)));
  ci_store : match s_store c.1 with
             | None => True
             | Some st => ∃ reps, Forall (scanned cfg) reps ∧ holds (rs0 ++ map FromReport reps) st
             end
}.

(** One action of a scan preserves what the state promises. *)
Lemma apply_action_cinv cfg io rs0 a s ts :
  history_works io → from_scan cfg a → cinv cfg rs0 (s, ts) → cinv cfg rs0 (apply_action io a s, ts).
Proof.
  intros (_ & Happ & Hrep) (rep & Hscan & Ha%elem_of_scan_actions) [Hacts Hl Hf Hp Hpa Hst].
  split; [exact Hacts|..]; cbn [fst snd] in *; destruct a; cbn [apply_action set_gauges s_latest s_hasScan
    s_gauges s_store g_findings g_passRate g_paths] in *; try assumption.
  - intros _. by subst.
  - intros s' v'. by rewrite lookup_empty.
  - intros s' v'. rewrite lookup_insert. case_decide as Hs; [|apply Hf]. subst s'. intros [= <-]. eauto.
  - intros s' v'. by rewrite lookup_empty.
  - intros s' v'. rewrite lookup_insert. case_decide as Hs; [|apply Hp]. subst s'. intros [= <-].
    destruct Ha as (r & ? & ? & ?). eauto 8.
  - right. eauto.
  - destruct (s_store s) as [st|]; [|done]. destruct Hst as (reps & Hreps & Hh). subst r.
    destruct Hscan as [e He]. exists (reps ++ [rep]). split.
    { apply Forall_app_2; [done|]. constructor; [by exists e|constructor]. }
    destruct (store_Append io (FromReport rep) st) as [st' err] eqn:Ea. cbn [fst].
    pose proof (Happ _ _ _ Hh (Hrep _ _ _ He)) as Hnone. rewrite Ea in Hnone. cbn [snd] in Hnone. subst err.
    rewrite map_app, app_assoc. cbn [map]. eapply Append_holds; eauto.
Qed.

Lemma cinv_threads cfg rs0 s ts ts' :
  cinv cfg rs0 (s, ts) → (∀ acts a, acts ∈ ts' → a ∈ acts → from_scan cfg a) → cinv cfg rs0 (s, ts').
Proof. intros [] ?. by split. Qed.

Lemma cstep_cinv cfg io rs0 c c' :
  history_works io → cinv cfg rs0 c → cstep cfg io c c' → cinv cfg rs0 c'.
Proof.
  intros Hw Hinv Hstep. destruct Hstep as [e rep s ts He|a acts s ts1 ts2|s ts1 ts2].
  - apply (cinv_threads _ _ _ _ _ Hinv). intros acts a [-> |Hin]%elem_of_cons Ha.
    + exists rep. split; [by exists e|done].
    + by eapply (ci_actions _ _ _ Hinv).
  - assert (from_scan cfg a) as Hfrom.
    { eapply (ci_actions _ _ _ Hinv (a :: acts)); cbn [snd]; [|left]. rewrite elem_of_app. right. left. }
    eapply (cinv_threads _ _ _ (ts1 ++ (a :: acts) :: ts2)); [by apply apply_action_cinv|].
    intros acts' a' Hin Ha'. pose proof (ci_actions _ _ _ Hinv) as Hold. cbn [snd] in Hold.
    rewrite elem_of_app, elem_of_cons in Hin. destruct Hin as [?|[-> |?]].
    + apply (Hold acts'); [rewrite elem_of_app; by left|done].
    + apply (Hold (a :: acts)); [rewrite elem_of_app; right; left|by right].
    + apply (Hold acts'); [rewrite elem_of_app; right; by right|done].
  - apply (cinv_threads _ _ _ _ _ Hinv). intros acts' a' Hin Ha'.
    eapply (ci_actions _ _ _ Hinv acts'); [cbn [snd]|done].
    rewrite elem_of_app in *. destruct Hin; [by left|]. right. by right.
Qed.

Lemma cstep_ready cfg io c c' : cstep cfg io c c' → s_hasScan c.1 = true → s_hasScan c'.1 = true.
Proof. intros [] Hr; cbn [fst] in *; [done| |done]. by destruct a. Qed.

Lemma creachable_cinv cfg io st rs0 c :
  history_works io → match st with None => True | Some st => holds rs0 st end →
  creachable cfg io st c → cinv cfg rs0 c.
Proof.
  intros Hw Hst Hr. unfold creachable in Hr. remember (start st, []) as c0 eqn:E0.
  assert (cinv cfg rs0 c0) as H0.
  { subst. split; cbn; [by intros ? ? []%not_elem_of_nil|done|..].
    - intros sev v. by rewrite lookup_empty.
    - intros fw v. by rewrite lookup_empty.
    - by left.
    - destruct st; [|done]. exists []. by rewrite app_nil_r. }
  clear E0. induction Hr as [|c1 c2 c3 Hstep _ IH]; [done|]. apply IH. by eapply cstep_cinv.
Qed.


(** A scan in flight does its next actions while the others wait. *)
Lemma run_thread cfg io l1 l2 s ts1 ts2 :
  rtc (cstep cfg io) (s, ts1 ++ (l1 ++ l2) :: ts2) (apply_actions io l1 s, ts1 ++ l2 :: ts2).
Proof.
  revert s. induction l1 as [|a l1 IH]; intros s; [apply rtc_refl|].
  eapply rtc_l; [apply CAct|]. apply IH.
Qed.

(** The gauges are updated outside the lock: two overlapping scans can leave the metrics of the
    first beside the report of the second, with no scan in flight any more. *)
Lemma metrics_can_be_stale cfg io st e1 e2 rep1 rep2 :
  scan_report cfg e1 = Ok rep1 → scan_report cfg e2 = Ok rep2 →
  ∃ s, creachable cfg io st (s, []) ∧ s_latest s = rep2 ∧ s_gauges s = gauges_of rep1.
Proof.
  intros H1 H2. pose (s1 := apply_action io (Swap rep1) (start st)).
  pose (s2 := apply_actions io (scan_actions rep2) s1).
  pose (rest := updateMetrics rep1 ++ [AppendHistory (FromReport rep1)]).
  exists (apply_actions io rest s2). split.
  - unfold creachable.
    eapply rtc_l; [exact (CScan cfg io e1 rep1 (start st) [] H1)|].
    eapply rtc_l; [exact (CAct cfg io (Swap rep1) rest (start st) [] [])|].
    eapply rtc_l; [exact (CScan cfg io e2 rep2 s1 _ H2)|].
    etransitivity; [rewrite <-(app_nil_r (scan_actions rep2));
                    exact (run_thread cfg io (scan_actions rep2) [] s1 [] [rest])|].
    eapply rtc_l; [exact (CDone cfg io s2 [] [rest])|].
    etransitivity; [cbn [app]; rewrite <-(app_nil_r rest) at 1; exact (run_thread cfg io rest [] s2 [] [])|].
    eapply rtc_l; [exact (CDone cfg io _ [] [])|]. apply rtc_refl.
  - unfold rest. rewrite apply_actions_app, apply_updateMetrics. unfold s2.
    rewrite apply_scan_actions. done.
Qed.
End server.

(** * Witnesses: on the history in memory, scans of which the second fails *)

Definition ex_cfg : Config := mkConfig "cis" false.
Definition ex_scan : scan_env := mkScanEnv (Ok ([], "dir")) "2024-01-01T00:00:00Z".
Definition ex_fail : scan_env := mkScanEnv (Err "unreachable") "2024-01-02T00:00:00Z".

Lemma list_history_works packs : history_works (St := list ScanRecord) packs tt.
Proof. split_and!; done. Qed.

Definition ex_reqs : list (scan_env * string) :=
  [(ex_fail, "/readyz"); (ex_fail, "/v1/scan"); (ex_scan, "/v1/scan"); (ex_fail, "/v1/scan");
   (ex_fail, "/readyz"); (ex_fail, "/nope")].

Lemma serve_refines_witness :
  map fst (spec_run (Ok []) ex_cfg (Some []) ex_reqs []).2 = [503; 500; 200; 500; 200; 404]%Z ∧
  (run (Ok []) ex_cfg tt ex_reqs (start (Some ([] : list ScanRecord)))).2
  = (spec_run (Ok []) ex_cfg (Some []) ex_reqs []).2.
Proof.
  split; [vm_compute; reflexivity|].
  destruct (run (Ok []) ex_cfg tt ex_reqs (start (Some ([] : list ScanRecord)))) as [s' rs] eqn:E.
  exact (proj1 (serve_refines (Ok []) ex_cfg tt (Some []) (Some []) ex_reqs s' rs
                  (list_history_works (Ok [])) eq_refl E)).
Defined.

