(* ===== verification/Harden.v ===== *)
(** The hardened baseline (internal/harden) and the promise it makes: loading the bundle and
    scanning it finds nothing.

    The templates are text; the part of [text/template] they use is the action that prints a
    field.  In the template texts below, ['] stands for the double quote, which [dq] puts back; no
    template of the source has a single quote.  Reading the rendered text is the loader's YAML
    decoder, a parameter: [bundle_trees] is the content of each file as YAML defines it. *)

From Stdlib Require Import Ascii.
From S2P Require Import Prelude GoStrings GoJson GoFmt Api Model Normalize Graph.
From S2P Require Import Checks Attack Compliance Analyzer History Offline.

(** * Options: bundle.go *)

Record Options := mkOptions {
  o_Namespace : string;
  o_App : string;
  o_Image : string;
  o_ServiceAccount : string
}.

Definition Default : Options :=
  mkOptions "secure-app" "app" ("registry.example.com/app:1.0.0@sha256:" +:+ repeat_char "a" 64) "app-sa".

Definition withDefaults (o : Options) : Options :=
  let or v d := if v =s "" then d else v in
  mkOptions (or (o_Namespace o) (o_Namespace Default)) (or (o_App o) (o_App Default))
    (or (o_Image o) (o_Image Default)) (or (o_ServiceAccount o) (o_ServiceAccount Default)).

(** * Templates *)

Definition dq (s : string) : string :=
  replace_bytes (λ c, if Ascii.eqb c "'" then Some dquote else None) s.

Inductive tmpl_state := TText | TBrace | TAction (acc : string) | TClose (acc : string).

(** The field an action prints. *)
Definition field_of (o : Options) (action : string) : res string :=
  if action =s ".Namespace" then Ok (o_Namespace o)
  else if action =s ".App" then Ok (o_App o)
  else if action =s ".Image" then Ok (o_Image o)
  else if action =s ".ServiceAccount" then Ok (o_ServiceAccount o)
  else Err ("unsupported action " +:+ action).

(** Parsing and executing a template whose actions are fields. *)
Fixpoint exec (o : Options) (st : tmpl_state) (s : string) : res string :=
  match s with
  | EmptyString =>
      match st with TText => Ok EmptyString | TBrace => Ok "{" | _ => Err "unclosed action" end
  | String c s' =>
      match st with
      | TText => if Ascii.eqb c "{" then exec o TBrace s'
                 else r ← exec o TText s'; Ok (c ::: r)
      | TBrace => if Ascii.eqb c "{" then exec o (TAction EmptyString) s'
                  else r ← exec o TText s'; Ok ("{"%char ::: c ::: r)
      | TAction acc => if Ascii.eqb c "}" then exec o (TClose acc) s'
                       else exec o (TAction (acc +:+ c ::: EmptyString)) s'
      | TClose acc => if Ascii.eqb c "}"
                      then v ← field_of o acc; r ← exec o TText s'; Ok (v +:+ r)
                      else Err "unexpected } in action"
      end
  end.

Definition nsTemplate : string := dq "apiVersion: v1
kind: Namespace
metadata:
  name: {{.Namespace}}
  labels:
    pod-security.kubernetes.io/enforce: restricted
    pod-security.kubernetes.io/enforce-version: latest
    pod-security.kubernetes.io/warn: restricted
".

Definition denyTemplate : string := dq "apiVersion: networking.k8s.io/v1
kind: NetworkPolicy
metadata:
  name: default-deny
  namespace: {{.Namespace}}
spec:
  podSelector: {}
  policyTypes:
    - Ingress
    - Egress
".

Definition dnsTemplate : string := dq "apiVersion: networking.k8s.io/v1
kind: NetworkPolicy
metadata:
  name: allow-dns
  namespace: {{.Namespace}}
spec:
  podSelector: {}
  policyTypes:
    - Egress
  egress:
    - to:
        - namespaceSelector: {}
      ports:
        - protocol: UDP
          port: 53
        - protocol: TCP
          port: 53
".

Definition saTemplate : string := dq "apiVersion: v1
kind: ServiceAccount
metadata:
  name: {{.ServiceAccount}}
  namespace: {{.Namespace}}
automountServiceAccountToken: false
".

Definition rbacTemplate : string := dq "apiVersion: rbac.authorization.k8s.io/v1
kind: Role
metadata:
  name: {{.App}}-reader
  namespace: {{.Namespace}}
rules:
  - apiGroups: ['']
    resources: ['configmaps']
    verbs: ['get']
---
apiVersion: rbac.authorization.k8s.io/v1
kind: RoleBinding
metadata:
  name: {{.App}}-reader-binding
  namespace: {{.Namespace}}
roleRef:
  apiGroup: rbac.authorization.k8s.io
  kind: Role
  name: {{.App}}-reader
subjects:
  - kind: ServiceAccount
    name: {{.ServiceAccount}}
    namespace: {{.Namespace}}
".

Definition deployTemplate : string := dq "apiVersion: apps/v1
kind: Deployment
metadata:
  name: {{.App}}
  namespace: {{.Namespace}}
  labels:
    app: {{.App}}
spec:
  replicas: 2
  selector:
    matchLabels:
      app: {{.App}}
  template:
    metadata:
      labels:
        app: {{.App}}
    spec:
      serviceAccountName: {{.ServiceAccount}}
      automountServiceAccountToken: false
      securityContext:
        runAsNonRoot: true
        seccompProfile:
          type: RuntimeDefault
      containers:
        - name: {{.App}}
          image: {{.Image}}
          ports:
            - containerPort: 8080
          resources:
            requests:
              cpu: '100m'
              memory: '128Mi'
            limits:
              cpu: '500m'
              memory: '256Mi'
          securityContext:
            privileged: false
            runAsNonRoot: true
            runAsUser: 1000
            allowPrivilegeEscalation: false
            readOnlyRootFilesystem: true
            capabilities:
              drop: ['ALL']
            seccompProfile:
              type: RuntimeDefault
".

Definition svcTemplate : string := dq "apiVersion: v1
kind: Service
metadata:
  name: {{.App}}
  namespace: {{.Namespace}}
spec:
  type: ClusterIP
  selector:
    app: {{.App}}
  ports:
    - port: 80
      targetPort: 8080
".

Definition kyvernoTemplate : string := dq "apiVersion: kyverno.io/v1
kind: ClusterPolicy
metadata:
  name: kubeguard-baseline
spec:
  validationFailureAction: Enforce
  background: true
  rules:
    - name: disallow-privileged
      match:
        any:
          - resources:
              kinds: ['Pod']
      validate:
        message: 'Privileged containers are not allowed.'
        pattern:
          spec:
            =(securityContext):
              =(privileged): 'false'
            containers:
              - =(securityContext):
                  =(privileged): 'false'
    - name: require-runasnonroot
      match:
        any:
          - resources:
              kinds: ['Pod']
      validate:
        message: 'Containers must run as non-root.'
        pattern:
          spec:
            containers:
              - securityContext:
                  runAsNonRoot: true
".

Definition gatekeeperTemplate : string := dq "apiVersion: templates.gatekeeper.sh/v1
kind: ConstraintTemplate
metadata:
  name: k8sdisallowprivileged
spec:
  crd:
    spec:
      names:
        kind: K8sDisallowPrivileged
  targets:
    - target: admission.k8s.gatekeeper.sh
      rego: |
        package k8sdisallowprivileged
        violation[{'msg': msg}] {
          c := input.review.object.spec.containers[_]
          c.securityContext.privileged
          msg := 'Privileged containers are not allowed'
        }
---
apiVersion: constraints.gatekeeper.sh/v1beta1
kind: K8sDisallowPrivileged
metadata:
  name: disallow-privileged
spec:
  match:
    kinds:
      - apiGroups: ['']
        kinds: ['Pod']
".

Definition checklistTemplate : string := dq "# KubeGuard hardening checklist — namespace `{{.Namespace}}`

Apply the bundle in order (`kubectl apply -f .`), then re-scan with
`kubeguard scan -i .` to confirm zero findings.

- [ ] **Namespace PSA** (`00-namespace.yaml`) — enforce `restricted` Pod Security.
- [ ] **Default-deny NetworkPolicy** (`10-…`) + **DNS egress** (`11-…`).
- [ ] **Dedicated ServiceAccount**, token auto-mount disabled (`20-serviceaccount.yaml`).
- [ ] **Least-privilege RBAC** — no secrets, no pod-create, no wildcards (`21-rbac.yaml`).
- [ ] **Hardened Deployment** — non-root, read-only rootfs, drop ALL caps, seccomp
      RuntimeDefault, resource limits, digest-pinned image (`30-deployment.yaml`).
- [ ] **ClusterIP Service** — no direct LoadBalancer/NodePort exposure (`40-service.yaml`).
- [ ] **Admission policy** — Kyverno (`50-…`) and/or Gatekeeper (`51-…`).
- [ ] Replace the placeholder image digest with your signed image.
".

(** * The bundle *)

Definition bundleTemplates : list (string * string) :=
  [("00-namespace.yaml", nsTemplate);
   ("10-networkpolicy-default-deny.yaml", denyTemplate);
   ("11-networkpolicy-allow-dns.yaml", dnsTemplate);
   ("20-serviceaccount.yaml", saTemplate);
   ("21-rbac.yaml", rbacTemplate);
   ("30-deployment.yaml", deployTemplate);
   ("40-service.yaml", svcTemplate);
   ("50-kyverno-policies.yaml", kyvernoTemplate);
   ("51-gatekeeper.yaml", gatekeeperTemplate);
   ("CHECKLIST.md", checklistTemplate)].

(** [File]: name and content. *)
Notation File := (string * string)%type.

Definition Generate (o : Options) : res (list File) :=
  let o := withDefaults o in
  map_res (λ bt, c ← wrap_err ("render " +:+ bt.1 +:+ ": ") (exec o TText bt.2); Ok (bt.1, c)) bundleTemplates.

(** [Write]: the files written and the result, with the errors of the operating system.  The
    directory is a cleaned, non-empty path, so [filepath.Join] only puts the separator. *)
Record write_env := mkWriteEnv {
  we_mkdir : option string;
  we_write : string → option string
}.

Fixpoint write_files (e : write_env) (dir : string) (files : list File) (paths : list string)
    : list File * res (list string) :=
  match files with
  | [] => ([], Ok paths)
  | f :: files' =>
      let path := dir +:+ "/" +:+ f.1 in
      match we_write e path with
      | Some er => ([], Err ("write " +:+ fmt_quote path +:+ ": " +:+ er))
      | None => let '(done, r) := write_files e dir files' (paths ++ [path]) in ((path, f.2) :: done, r)
      end
  end.

Definition Write (e : write_env) (dir : string) (o : Options) : list File * res (list string) :=
  match Generate o with
  | Err er => ([], Err er)
  | Ok files =>
      match we_mkdir e with
      | Some er => ([], Err ("create " +:+ fmt_quote dir +:+ ": " +:+ er))
      | None => write_files e dir files []
      end
  end.

(** The harden command (internal/cli/harden.go): the files and the text on standard output. *)
Definition harden_command (e : write_env) (outDir : string) (opts : Options) : list File * res string :=
  let '(files, r) := Write e outDir opts in
  (files,
   written ← wrap_err "emit bundle: " r;
   Ok ("Wrote " +:+ fmt_int (Z.of_nat (length written)) +:+ " files to " +:+ outDir +:+ ":" +:+ newline :::
       String.concat "" (map (λ p, "  " +:+ p +:+ newline ::: EmptyString) written))).

(** * What the files say

    A document as a tree with the style of each node: plain, quoted and literal scalars, flow
    sequences of quoted scalars, and block mappings and sequences.  [doc_text] writes it in YAML's
    block style, two columns per level; [to_json] is the value it stands for. *)

Definition lines_text (ls : list string) : string :=
  String.concat "" (map (λ l, l +:+ newline ::: EmptyString) ls).

Inductive ytree : Type :=
| YStr (s : string)
| YCat (s t : string)
| YQuoted (s : string)
| YInt (z : Z)
| YBool (b : bool)
| YEmptyMap
| YFlow (l : list string)
| YText (ls : list string)
| YMap (m : list (string * ytree))
| YSeq (l : list ytree).

Fixpoint to_json (t : ytree) : json :=
  match t with
  | YStr s | YQuoted s => JStr s
  | YCat s t => JStr (s +:+ t)
  | YInt z => JInt z
  | YBool b => JBool b
  | YEmptyMap => JObj []
  | YFlow l => JArr (map JStr l)
  | YText ls => JStr (lines_text ls)
  | YMap m => JObj (map (λ kv, (kv.1, to_json kv.2)) m)
  | YSeq l => JArr (map to_json l)
  end.

Definition members (t : ytree) : json_members := as_map (Some (to_json t)).

Definition eol (k : string) : string := newline ::: k.
Definition pad (n : nat) (k : string) : string := repeat_char " " n +:+ k.
Definition quoted (s k : string) : string := dquote +:+ s +:+ dquote +:+ k.

(** The text of a value after its key or dash, for children at column [n], before the text [k]. *)
Fixpoint value_text (n : nat) (t : ytree) (k : string) : string :=
  match t with
  | YStr s => " " +:+ s +:+ eol k
  | YCat s t => " " +:+ s +:+ t +:+ eol k
  | YQuoted s => " " +:+ quoted s (eol k)
  | YInt z => " " +:+ fmt_int z +:+ eol k
  | YBool b => " " +:+ (if b then "true" else "false") +:+ eol k
  | YEmptyMap => " {}" +:+ eol k
  | YFlow l => " [" +:+ join ", " (map (λ s, quoted s "") l) +:+ "]" +:+ eol k
  | YText ls => " |" +:+ eol (foldr (λ l k, if l =s "" then eol k else pad n (l +:+ eol k)) k ls)
  | YMap m => eol (foldr (λ kv k, pad n (kv.1 +:+ ":" +:+ value_text (n + 2) kv.2 k)) k m)
  | YSeq l =>
      eol (foldr (λ x k, pad n ("-" +:+
        match x with
        | YMap ((key, v) :: m) =>
            " " +:+ key +:+ ":" +:+ value_text (n + 4) v
              (foldr (λ kv k, pad (n + 2) (kv.1 +:+ ":" +:+ value_text (n + 4) kv.2 k)) k m)
        | _ => value_text (n + 2) x k
        end)) k l)
  end.

Definition doc_text (t : ytree) (k : string) : string :=
  match t with
  | YMap m => foldr (λ kv k, kv.1 +:+ ":" +:+ value_text 2 kv.2 k) k m
  | _ => k
  end.

(** The documents of a file, separated by a marker line. *)
Fixpoint stream_text (ts : list ytree) : string :=
  match ts with
  | [] => ""
  | [t] => doc_text t ""
  | t :: ts' => doc_text t ("---" +:+ eol (stream_text ts'))
  end.

Definition manifest (apiVersion kind : string) (metadata : list (string * ytree)) (rest : list (string * ytree))
    : ytree :=
  YMap ([("apiVersion", YStr apiVersion); ("kind", YStr kind); ("metadata", YMap metadata)] ++ rest).

Definition ns_tree (o : Options) : ytree :=
  manifest "v1" "Namespace"
    [("name", YStr (o_Namespace o));
     ("labels", YMap [("pod-security.kubernetes.io/enforce", YStr "restricted");
                      ("pod-security.kubernetes.io/enforce-version", YStr "latest");
                      ("pod-security.kubernetes.io/warn", YStr "restricted")])] [].

Definition deny_tree (o : Options) : ytree :=
  manifest "networking.k8s.io/v1" "NetworkPolicy"
    [("name", YStr "default-deny"); ("namespace", YStr (o_Namespace o))]
    [("spec", YMap [("podSelector", YEmptyMap); ("policyTypes", YSeq [YStr "Ingress"; YStr "Egress"])])].

Definition dns_tree (o : Options) : ytree :=
  let port proto := YMap [("protocol", YStr proto); ("port", YInt 53)] in
  manifest "networking.k8s.io/v1" "NetworkPolicy"
    [("name", YStr "allow-dns"); ("namespace", YStr (o_Namespace o))]
    [("spec", YMap [("podSelector", YEmptyMap); ("policyTypes", YSeq [YStr "Egress"]);
       ("egress", YSeq [YMap [("to", YSeq [YMap [("namespaceSelector", YEmptyMap)]]);
                              ("ports", YSeq [port "UDP"; port "TCP"])]])])].

Definition sa_tree (o : Options) : ytree :=
  manifest "v1" "ServiceAccount" [("name", YStr (o_ServiceAccount o)); ("namespace", YStr (o_Namespace o))]
    [("automountServiceAccountToken", YBool false)].

Definition role_tree (o : Options) : ytree :=
  manifest "rbac.authorization.k8s.io/v1" "Role"
    [("name", YCat (o_App o) "-reader"); ("namespace", YStr (o_Namespace o))]
    [("rules", YSeq [YMap [("apiGroups", YFlow [""]); ("resources", YFlow ["configmaps"]); ("verbs", YFlow ["get"])]])].

Definition binding_tree (o : Options) : ytree :=
  manifest "rbac.authorization.k8s.io/v1" "RoleBinding"
    [("name", YCat (o_App o) "-reader-binding"); ("namespace", YStr (o_Namespace o))]
    [("roleRef", YMap [("apiGroup", YStr "rbac.authorization.k8s.io"); ("kind", YStr "Role");
                       ("name", YCat (o_App o) "-reader")]);
     ("subjects", YSeq [YMap [("kind", YStr "ServiceAccount"); ("name", YStr (o_ServiceAccount o));
                              ("namespace", YStr (o_Namespace o))]])].

Definition container_tree (o : Options) : ytree :=
  YMap [("name", YStr (o_App o)); ("image", YStr (o_Image o));
    ("ports", YSeq [YMap [("containerPort", YInt 8080)]]);
    ("resources", YMap [("requests", YMap [("cpu", YQuoted "100m"); ("memory", YQuoted "128Mi")]);
                        ("limits", YMap [("cpu", YQuoted "500m"); ("memory", YQuoted "256Mi")])]);
    ("securityContext", YMap [("privileged", YBool false); ("runAsNonRoot", YBool true);
       ("runAsUser", YInt 1000); ("allowPrivilegeEscalation", YBool false);
       ("readOnlyRootFilesystem", YBool true); ("capabilities", YMap [("drop", YFlow ["ALL"])]);
       ("seccompProfile", YMap [("type", YStr "RuntimeDefault")])])].

Definition deploy_tree (o : Options) : ytree :=
  manifest "apps/v1" "Deployment"
    [("name", YStr (o_App o)); ("namespace", YStr (o_Namespace o)); ("labels", YMap [("app", YStr (o_App o))])]
    [("spec", YMap [("replicas", YInt 2);
       ("selector", YMap [("matchLabels", YMap [("app", YStr (o_App o))])]);
       ("template", YMap [("metadata", YMap [("labels", YMap [("app", YStr (o_App o))])]);
         ("spec", YMap [("serviceAccountName", YStr (o_ServiceAccount o));
            ("automountServiceAccountToken", YBool false);
            ("securityContext", YMap [("runAsNonRoot", YBool true);
               ("seccompProfile", YMap [("type", YStr "RuntimeDefault")])]);
            ("containers", YSeq [container_tree o])])])])].

Definition svc_tree (o : Options) : ytree :=
  manifest "v1" "Service" [("name", YStr (o_App o)); ("namespace", YStr (o_Namespace o))]
    [("spec", YMap [("type", YStr "ClusterIP"); ("selector", YMap [("app", YStr (o_App o))]);
       ("ports", YSeq [YMap [("port", YInt 80); ("targetPort", YInt 8080)]])])].

(** The policies of the admission controllers, which no check reads. *)
Definition pods_match : ytree := YMap [("any", YSeq [YMap [("resources", YMap [("kinds", YFlow ["Pod"])])]])].

Definition kyverno_tree : ytree :=
  manifest "kyverno.io/v1" "ClusterPolicy" [("name", YStr "kubeguard-baseline")]
    [("spec", YMap [("validationFailureAction", YStr "Enforce"); ("background", YBool true);
       ("rules", YSeq
         [YMap [("name", YStr "disallow-privileged"); ("match", pods_match);
            ("validate", YMap [("message", YQuoted "Privileged containers are not allowed.");
               ("pattern", YMap [("spec", YMap
                  [("=(securityContext)", YMap [("=(privileged)", YQuoted "false")]);
                   ("containers", YSeq [YMap [("=(securityContext)", YMap [("=(privileged)", YQuoted "false")])]])])])])];
          YMap [("name", YStr "require-runasnonroot"); ("match", pods_match);
            ("validate", YMap [("message", YQuoted "Containers must run as non-root.");
               ("pattern", YMap [("spec", YMap
                  [("containers", YSeq [YMap [("securityContext", YMap [("runAsNonRoot", YBool true)])]])])])])]])])].

Definition rego : list string :=
  ["package k8sdisallowprivileged";
   dq "violation[{'msg': msg}] {";
   "  c := input.review.object.spec.containers[_]";
   "  c.securityContext.privileged";
   dq "  msg := 'Privileged containers are not allowed'";
   "}"].

Definition constraint_template_tree : ytree :=
  manifest "templates.gatekeeper.sh/v1" "ConstraintTemplate" [("name", YStr "k8sdisallowprivileged")]
    [("spec", YMap
       [("crd", YMap [("spec", YMap [("names", YMap [("kind", YStr "K8sDisallowPrivileged")])])]);
        ("targets", YSeq [YMap [("target", YStr "admission.k8s.gatekeeper.sh"); ("rego", YText rego)]])])].

Definition constraint_tree : ytree :=
  manifest "constraints.gatekeeper.sh/v1beta1" "K8sDisallowPrivileged" [("name", YStr "disallow-privileged")]
    [("spec", YMap [("match", YMap [("kinds", YSeq [YMap [("apiGroups", YFlow [""]); ("kinds", YFlow ["Pod"])]])])])].

(** The documents of each file of the bundle, in order; the checklist is not a manifest. *)
Definition bundle_trees (o : Options) : list (list ytree) :=
  [[ns_tree o]; [deny_tree o]; [dns_tree o]; [sa_tree o]; [role_tree o; binding_tree o]; [deploy_tree o];
   [svc_tree o]; [kyverno_tree]; [constraint_template_tree; constraint_tree]].

Definition bundle_resources (o : Options) : list Resource :=
  resourcesFromMaps (map members (concat (bundle_trees o))).

(** * Generation *)

(** The contents of the files, by their templates. *)
Definition rendered (o : Options) (body : string) : string :=
  match exec (withDefaults o) TText body with Ok c => c | Err _ => "" end.

Lemma Generate_ok o : Generate o = Ok (map (λ bt, (bt.1, rendered o bt.2)) bundleTemplates).
Proof. reflexivity. Qed.

(** The rendered files are the texts of their documents. *)
Lemma bundle_texts o :
  map (λ bt, rendered o bt.2) (take 9 bundleTemplates) = map stream_text (bundle_trees (withDefaults o)).
Proof. reflexivity. Qed.

(** Writing the bundle succeeds when the operating system does, and writes every file in order. *)
Lemma write_files_ok e dir files paths :
  (∀ p, we_write e p = None) →
  write_files e dir files paths
  = (map (λ f, (dir +:+ "/" +:+ f.1, f.2)) files, Ok (paths ++ map (λ f, dir +:+ "/" +:+ f.1) files)).
Proof.
  intros He. revert paths. induction files as [|f files IH]; intros paths; simpl; [by rewrite app_nil_r|].
  rewrite He, IH. by rewrite <-app_assoc.
Qed.

(** * The graph of the bundle *)

Definition hardened_container (o : Options) : ContainerView :=
  {| c_Name := o_App o; c_Image := o_Image o; c_Role := "container"; c_Privileged := false;
     c_AllowPrivEsc := Some false; c_RunAsUser := Some 1000%Z; c_RunAsNonRoot := Some true;
     c_ReadOnlyRootFS := Some true; c_CapsAdd := []; c_CapsDrop := ["ALL"];
     c_SeccompProfile := "RuntimeDefault"; c_EnvSecretKeys := []; c_Limits := mkLimits "500m" "256Mi" |}.

Definition hardened_pod (o : Options) : PodSpecView :=
  {| HostNetwork := false; HostPID := false; HostIPC := false; AutomountSAToken := Some false;
     Volumes := []; Containers := [hardened_container o];
     SecurityContext := mkSecurityContextView None (Some true) "RuntimeDefault" |}.

Definition resource_of (m : json_members) : Resource :=
  match toResource m with Some r => r | None => mkResource "" "" "" "" "" ∅ ∅ [] end.

Lemma bundle_resources_eq o :
  bundle_resources o = map (λ t, resource_of (members t)) (concat (bundle_trees o)).
Proof. reflexivity. Qed.

Definition hardened_workload (o : Options) : Workload :=
  mkWorkload (resource_of (members (deploy_tree o))) 2 (if o_ServiceAccount o =s "" then "default" else o_ServiceAccount o)
    {["app" := o_App o]} (hardened_pod o).

Lemma deploy_workload o : toWorkload (resource_of (members (deploy_tree o))) = Some (hardened_workload o).
Proof. reflexivity. Qed.

Definition hardened_graph (o : Options) (namespaces : list string) : Graph :=
  {| g_Resources := bundle_resources o;
     g_Workloads := [hardened_workload o];
     g_ServiceAccounts := [toServiceAccount (resource_of (members (sa_tree o)))];
     g_Roles := [mkRole (resource_of (members (role_tree o))) [mkPolicyRule [""] ["configmaps"] ["get"] []]];
     g_ClusterRoles := [];
     g_RoleBindings := [mkRoleBinding (resource_of (members (binding_tree o)))
       (mkRoleRef "Role" (o_App o +:+ "-reader") "rbac.authorization.k8s.io")
       [mkSubject "ServiceAccount" (o_ServiceAccount o) (o_Namespace o)]];
     g_ClusterRoleBindings := [];
     g_Services := [toService (resource_of (members (svc_tree o)))];
     g_NetworkPolicies := [toNetworkPolicy (resource_of (members (deny_tree o))); toNetworkPolicy (resource_of (members (dns_tree o)))];
     g_Namespaces := namespaces |}.

Lemma Build_bundle o : ∃ namespaces, Build (bundle_resources o) = hardened_graph o namespaces.
Proof.
  destruct (Build_closed (bundle_resources o)) as (nsSet & _ & ->). exists (sort_strings (elements nsSet)).
  unfold hardened_graph. f_equal; reflexivity.
Qed.

(** The namespace of the bundle has its default-deny policy. *)
Lemma bundle_default_deny o ns : HasDefaultDeny (hardened_graph o ns) (o_Namespace o) = true.
Proof.
  unfold HasDefaultDeny, NetworkPoliciesInNamespace. cbn [hardened_graph g_NetworkPolicies List.filter].
  change (Namespace (np_Resource (toNetworkPolicy (resource_of (members (deny_tree o)))))) with (o_Namespace o).
  by rewrite String.eqb_refl.
Qed.

(** The conditions on the options: the image is pinned and names its registry, and the
    ServiceAccount is a dedicated one. *)
Record good_options (o : Options) : Prop := {
  go_pinned : isMutableImage (o_Image o) = false;
  go_registry : implicitRegistry (o_Image o) = false;
  go_sa : o_ServiceAccount o ≠ "default";
  go_sa_set : o_ServiceAccount o ≠ ""
}.

Lemma flat_map_nil {A B} (f : A → list B) l : (∀ x, x ∈ l → f x = []) → flat_map f l = [].
Proof. induction l as [|x l IH]; intros H; [done|]. simpl. rewrite H by left. apply IH. set_solver. Qed.

(** The only role of the bundle, by name. *)
Lemma bundle_role_rules o ns :
  findRoleRules (hardened_graph o ns) "Role" (o_App o +:+ "-reader")
  = Some [mkPolicyRule [""] ["configmaps"] ["get"] []].
Proof.
  unfold findRoleRules. change ("Role" =s "ClusterRole") with false. change ("Role" =s "Role") with true.
  cbn [hardened_graph g_Roles List.find].
  change (Name (r_Resource (mkRole (resource_of (members (role_tree o))) _))) with (o_App o +:+ "-reader").
  by rewrite String.eqb_refl.
Qed.

Lemma bundle_role_check o ns m p e :
  existsb p [mkPolicyRule [""] ["configmaps"] ["get"] []] = false →
  ck_Run (role_check m p e) (hardened_graph o ns) = [].
Proof.
  intros Hp. unfold role_check. cbn [ck_Run]. unfold allRoles. cbn [hardened_graph g_Roles g_ClusterRoles map app flat_map].
  unfold rulesOf. change (Kind (r_Resource (mkRole (resource_of (members (role_tree o))) _))) with "Role".
  change (Name (r_Resource (mkRole (resource_of (members (role_tree o))) _))) with (o_App o +:+ "-reader").
  fold (hardened_graph o ns). rewrite bundle_role_rules.
  change (default [] (Some ?l)) with l. by rewrite Hp.
Qed.

Lemma bundle_no_admin_binding o ns : ck_Run clusterAdminBindingCheck (hardened_graph o ns) = [].
Proof.
  cbn [clusterAdminBindingCheck ck_Run hardened_graph g_ClusterRoleBindings g_RoleBindings flat_map app].
  rewrite app_nil_r. unfold check_binding. change (negb (hasPrivSubject _)) with false.
  unfold adminReason. fold (hardened_graph o ns). cbn [rref_Kind rref_Name rb_RoleRef].
  change (("Role" =s "ClusterRole") && _) with false. by rewrite bundle_role_rules.
Qed.

Lemma bundle_network o ns : ck_Run networkPolicyCheck (hardened_graph o ns) = [].
Proof.
  cbn [networkPolicyCheck ck_Run]. apply flat_map_nil. intros n Hn.
  assert (n = o_Namespace o) as ->; [|by rewrite bundle_default_deny].
  apply elem_of_sort_strings, elem_of_elements in Hn. unfold workload_namespaces in Hn.
  apply elem_of_list_to_set, elem_of_list_filter in Hn as [Hn _]. cbn in Hn.
  by apply list_elem_of_singleton in Hn.
Qed.

Lemma bundle_sa_name o : good_options o → w_ServiceAccountName (hardened_workload o) = o_ServiceAccount o.
Proof. intros H. cbn. destruct (String.eqb_spec (o_ServiceAccount o) ""); [|done]. by destruct (go_sa_set o H). Qed.

(** Every check finds nothing in the bundle. *)
Lemma bundle_checks_clean o ns c : good_options o → c ∈ Registry → ck_Run c (hardened_graph o ns) = [].
Proof.
  intros Ho. unfold Registry. rewrite !elem_of_cons. intros Hc.
  repeat (destruct Hc as [-> |Hc]); [..|by apply not_elem_of_nil in Hc];
    try reflexivity; try (by apply bundle_role_check).
  - apply bundle_no_admin_binding.
  - cbn [defaultSACheck ck_Run]. unfold per_workload. cbn [hardened_graph g_Workloads flat_map].
    rewrite (bundle_sa_name o Ho), app_nil_r.
    destruct (String.eqb_spec (o_ServiceAccount o) "default"); [|done]. by destruct (go_sa o Ho).
  - apply bundle_network.
  - cbn. by rewrite (go_pinned o Ho).
  - cbn. by rewrite (go_registry o Ho).
Qed.

Lemma bundle_scan_clean o ns p : good_options o → Scan (hardened_graph o ns) p = [].
Proof.
  intros Ho. unfold Scan.
  assert (scan_raw (hardened_graph o ns) p = []) as ->; [|reflexivity].
  unfold scan_raw. apply flat_map_nil. intros c Hc.
  destruct (negb _); [done|]. by rewrite (bundle_checks_clean o ns c).
Qed.

(** No attack path either, even from a foothold in the cluster. *)
Lemma bundle_no_paths o ns ab : BuildPaths (hardened_graph o ns) ab = [].
Proof.
  assert (buildForWorkload (hardened_graph o ns) (hardened_workload o) ab = None) as H.
  { unfold buildForWorkload. unfold entry.
    change (exposingService (hardened_graph o ns) (hardened_workload o)) with (@None string).
    change (workloadEscape (hardened_workload o)) with false.
    destruct ab; cbn [orb]; [|done].
    unfold lateral_hop. change (w_Namespace (hardened_workload o)) with (o_Namespace o).
    rewrite bundle_default_deny. reflexivity. }
  unfold BuildPaths. cbn [hardened_graph g_Workloads omap list_omap]. fold (hardened_graph o ns). by rewrite H.
Qed.

(** * Loading the bundle *)

(** A directory that holds exactly the given files, as [Write] leaves it. *)
Definition dir_fs (dir : string) (written : list File) : FileSystem :=
  mkFileSystem (λ p, Ok (p =s dir))
    (λ p, match List.find (λ f, p =s f.1) written with Some f => Ok f.2 | None => Err "no such file" end)
    (λ _, (dir, Ok true) :: map (λ f, (f.1, Ok false)) written).

Lemma str_eqb_app s a b : String.eqb (s +:+ a) (s +:+ b) = String.eqb a b.
Proof.
  destruct (String.eqb_spec a b) as [->|Hne]; [apply String.eqb_refl|].
  apply String.eqb_neq. intros H%str_app_inj_l. done.
Qed.

Lemma ext_from_dir best d n : ext_from best (d +:+ "/" +:+ n) = file_ext n.
Proof.
  revert best. induction d as [|c d IH]; intros best; [done|]. rewrite str_app_cons. cbn [ext_from].
  by repeat case_match.
Qed.

Lemma hasManifestExt_dir d n : hasManifestExt (d +:+ "/" +:+ n) = hasManifestExt n.
Proof. unfold hasManifestExt, file_ext at 1. by rewrite ext_from_dir. Qed.

Lemma not_array_text c s : is_space c = false → is_array_text (trim_space (c ::: s)) = Ascii.eqb c "[".
Proof.
  intros Hc. unfold trim_space. cbn [trim_left]. rewrite Hc. cbn [trim_right_by]. rewrite Hc.
  by destruct (trim_right_by is_space s).
Qed.

Lemma decode_loop_all src idx raws out :
  decode_loop src idx (map Ok raws) out = Ok (out ++ flat_map expand raws).
Proof.
  revert idx out. induction raws as [|raw raws IH]; intros idx out; simpl; [by rewrite app_nil_r|].
  destruct (Nat.eqb_spec (length raw) 0) as [E|_]; rewrite IH; [by destruct raw|by rewrite <-app_assoc].
Qed.

Definition in_dir (dir : string) (f : File) : File := (dir +:+ "/" +:+ f.1, f.2).
Definition bundle_files (o : Options) : list File := map (λ bt, (bt.1, rendered o bt.2)) bundleTemplates.

(** What the YAML decoder is asked to do: read the block-style text of the bundle's documents. *)
Definition reads_bundle (yaml_docs : string → list (res json_members)) (o : Options) : Prop :=
  ∀ ts, ts ∈ bundle_trees o → yaml_docs (stream_text ts) = map (λ t, Ok (members t)) ts.

Section bundle.
Variable parse_json : string → res json.
Variable yaml_docs : string → list (res json_members).

Lemma walk_files fs dir files docs rest out :
  Forall2 (λ f d, hasManifestExt f.1 = true ∧
    loadFile parse_json yaml_docs fs (dir +:+ "/" +:+ f.1) = Ok (flat_map expand d)) files docs →
  walk_loop parse_json yaml_docs fs (map (λ f : File, (dir +:+ "/" +:+ f.1, Ok false)) files ++ rest) out
  = walk_loop parse_json yaml_docs fs rest (out ++ flat_map (flat_map expand) docs).
Proof.
  intros H. revert out. induction H as [|f d files docs [Hext Hload] _ IH]; intros out.
  - by rewrite app_nil_r.
  - cbn [map app walk_loop]. rewrite hasManifestExt_dir, Hext, Hload. cbn [orb negb mbind res_bind].
    rewrite IH. simpl. by rewrite <-app_assoc.
Qed.

(** The rendered texts start with a letter: none is a snapshot array. *)
Lemma rendered_not_array o bt :
  bt ∈ bundleTemplates → hasManifestExt bt.1 = true → is_array_text (trim_space (rendered o bt.2)) = false.
Proof.
  unfold bundleTemplates. rewrite !elem_of_cons. intros Hbt Hext.
  repeat (destruct Hbt as [-> |Hbt]); [..|by apply not_elem_of_nil in Hbt]; try discriminate Hext;
    match goal with |- context [rendered ?o ?b] =>
      assert (∃ s, rendered o b = "a"%char ::: s) as [s ->] by (eexists; reflexivity) end;
    by rewrite not_array_text.
Qed.

Lemma find_in_dir dir (files : list File) n :
  List.find (λ f : File, (dir +:+ "/" +:+ n) =s f.1) (map (in_dir dir) files)
  = option_map (in_dir dir) (List.find (λ f, n =s f.1) files).
Proof.
  induction files as [|f files IH]; [done|]. cbn [map List.find in_dir fst]. rewrite !str_eqb_app, IH.
  by destruct (n =s f.1).
Qed.

Lemma bundle_file_lookup o i f :
  take 9 (bundle_files o) !! i = Some f →
  hasManifestExt f.1 = true ∧ List.find (λ g : File, f.1 =s g.1) (bundle_files o) = Some f ∧
  is_array_text (trim_space f.2) = false.
Proof.
  intros Hf. assert (∃ bt, bundleTemplates !! i = Some bt ∧ f = (bt.1, rendered o bt.2)) as (bt & Hbt & ->).
  { apply lookup_take_Some in Hf as [Hf _]. unfold bundle_files in Hf. rewrite list_lookup_map in Hf.
    destruct (bundleTemplates !! i) as [bt|]; [|done]. injection Hf as <-. by exists bt. }
  cbn [fst snd]. assert (hasManifestExt bt.1 = true) as Hext.
  { apply lookup_take_Some in Hf as [_ Hi].
    do 9 (destruct i as [|i]; [injection Hbt as <-; reflexivity|]). lia. }
  split_and!; [done| |].
  - apply lookup_take_Some in Hf as [_ Hi].
    do 9 (destruct i as [|i]; [injection Hbt as <-; reflexivity|]). lia.
  - apply rendered_not_array; [by eapply list_elem_of_lookup_2|done].
Qed.

Lemma bundle_loads o e dir written paths :
  Write e dir o = (written, Ok paths) → (∀ p, we_write e p = None) →
  reads_bundle yaml_docs (withDefaults o) →
  Load parse_json yaml_docs (dir_fs dir written) dir = Ok (bundle_resources (withDefaults o)).
Proof.
  intros HW He Hy.
  assert (written = map (in_dir dir) (bundle_files o)) as ->.
  { unfold Write in HW. rewrite Generate_ok in HW. destruct (we_mkdir e); [done|].
    rewrite (write_files_ok _ _ _ _ He) in HW. apply (f_equal fst) in HW. exact (eq_sym HW). }
  clear HW. unfold Load. cbn [dir_fs fs_stat]. rewrite String.eqb_refl. cbn [wrap_err mbind res_bind].
  unfold loadDir. set (fs := dir_fs dir (map (in_dir dir) (bundle_files o))).
  assert (fs_walk fs dir = (dir, Ok true) :: (map (λ f : File, (dir +:+ "/" +:+ f.1, Ok false)) (take 9 (bundle_files o))
    ++ [(dir +:+ "/" +:+ "CHECKLIST.md", Ok false)])) as -> by reflexivity.
  cbn [walk_loop orb].
  rewrite (walk_files fs dir (take 9 (bundle_files o)) (map (map members) (bundle_trees (withDefaults o)))).
  - cbn [walk_loop]. rewrite hasManifestExt_dir. reflexivity.
  - apply Forall2_same_length_lookup_2; [reflexivity|]. intros i f docs Hf Hdocs.
    destruct (bundle_file_lookup o i f Hf) as (Hext & Hfind & Htext). split; [done|].
    assert (yaml_docs f.2 = map Ok docs) as Hdoc.
    { rewrite list_lookup_map in Hdocs. destruct (bundle_trees (withDefaults o) !! i) as [ts|] eqn:Hts; [|done].
      injection Hdocs as <-. rewrite map_map. rewrite <-(Hy ts) by (by eapply list_elem_of_lookup_2).
      f_equal. pose proof (bundle_texts o) as Htexts. apply (f_equal (λ l, l !! i)) in Htexts.
      rewrite list_lookup_map in Htexts. rewrite list_lookup_map, Hts in Htexts.
      unfold bundle_files in Hf. rewrite firstn_map, list_lookup_map in Hf.
      destruct (take 9 bundleTemplates !! i) as [bt|]; [|done]. injection Hf as <-. by injection Htexts. }
    unfold loadFile, fs. cbn [dir_fs fs_readFile]. rewrite find_in_dir, Hfind.
    cbn [option_map in_dir snd wrap_err mbind res_bind]. unfold decodeDocuments.
    by rewrite Htext, Hdoc, decode_loop_all.
Qed.
End bundle.

(** C6: The hardened baseline keeps its promise.  For all options whose image is pinned and names its
    registry and whose ServiceAccount is a dedicated one (the defaults do), and when writing
    succeeds and the YAML decoder reads block-style text as the documents it spells, the written
    directory loads, and its analysis, with any profile and also from a foothold inside the cluster, has no
    finding and no attack path. *)
Theorem bundle_scans_clean parse_json yaml_docs o e dir written paths ps profile ab rep :
  good_options (withDefaults o) →
  Write e dir o = (written, Ok paths) → (∀ p, we_write e p = None) →
  reads_bundle yaml_docs (withDefaults o) →
  ∃ resources, Load parse_json yaml_docs (dir_fs dir written) dir = Ok resources ∧ resources ≠ [] ∧
    (Analyze (Ok ps) resources profile ab [] = Ok rep → rep_Findings rep = [] ∧ rep_Paths rep = []).
Proof.
  intros Ho HW He Hy. exists (bundle_resources (withDefaults o)).
  split_and!; [by eapply bundle_loads|done|]. destruct (Build_bundle (withDefaults o)) as [ns Hg].
  intros (pr & ps' & _ & _ & Hrep)%Analyze_Ok. cbv zeta in Hrep. rewrite Hg in Hrep.
  destruct Hrep as (_ & Hf & Hp & _). rewrite Hf, Hp, bundle_no_paths. split; [|done].
  by rewrite bundle_scan_clean.
Qed.

(** The defaults satisfy the conditions, and a decoder for the default bundle exists. *)
Lemma default_options_good : good_options (withDefaults (mkOptions "" "" "" "")).
Proof. split; [vm_compute; done..|discriminate|discriminate]. Qed.

Definition no_options : Options := mkOptions "" "" "" "".
Definition ex_env : write_env := mkWriteEnv None (λ _, None).
Definition ex_yaml (data : string) : list (res json_members) :=
  match List.find (λ ts, data =s stream_text ts) (bundle_trees Default) with
  | Some ts => map (λ t, Ok (members t)) ts
  | None => [Err "unknown text"]
  end.

Lemma bundle_scans_clean_witness :
  ∃ resources, Load (λ _, Err "") ex_yaml (dir_fs "out" (Write ex_env "out" no_options).1) "out" = Ok resources ∧
    resources ≠ [] ∧
    ∀ rep, Analyze (Ok []) resources "cis" true [] = Ok rep → rep_Findings rep = [] ∧ rep_Paths rep = [].
Proof.
  destruct (Write ex_env "out" no_options) as [written [paths|]] eqn:E;
    [|apply (f_equal snd) in E; vm_compute in E; discriminate E].
  assert (∀ rep, ∃ resources, Load (λ _, Err "") ex_yaml (dir_fs "out" written) "out" = Ok resources ∧
    resources ≠ [] ∧
    (Analyze (Ok []) resources "cis" true [] = Ok rep → rep_Findings rep = [] ∧ rep_Paths rep = [])) as H.
  { intros rep.
    refine (bundle_scans_clean _ ex_yaml no_options ex_env "out" written paths [] "cis" true rep
              default_options_good E (λ _, eq_refl) _).
    assert (Forall (λ ts, ex_yaml (stream_text ts) = map (λ t, Ok (members t)) ts) (bundle_trees Default)) as Hall.
    { repeat (apply Forall_cons; split; [vm_compute; reflexivity|]). apply Forall_nil. done. }
    rewrite Forall_forall in Hall. exact Hall. }
  cbn [fst]. destruct (H zero_report) as (rs & HL & Hne & _). exists rs. split_and!; [done|done|].
  intros rep. destruct (H rep) as (rs' & HL' & _ & Hrep). rewrite HL in HL'. injection HL' as <-. exact Hrep.
Defined.

(** The conditions are needed: a digest-pinned image of the default registry is reported. *)
Lemma bundle_implicit_registry :
  let o := withDefaults (mkOptions "" "" ("nginx@sha256:" +:+ repeat_char "b" 64) "") in
  isMutableImage (o_Image o) = false ∧
  map f_ID (Scan (Build (bundle_resources o)) zealDefault) = ["KG-022"].
Proof. vm_compute. done. Qed.
