(* ===== verification/Webhook.v ===== *)
(** The validating admission webhook (internal/webhook): a pod is denied when it violates a
    restricted-profile check that no active waiver covers. *)

From S2P Require Import Prelude GoStrings GoJson GoTime Api Model Normalize Graph Checks Waiver.

(** The fields of [corev1.Pod] the webhook reads. *)
Record Pod := mkPod {
  pod_Name : string;
  pod_GenerateName : string;
  pod_Namespace : string;
  pod_Labels : gmap string string;
  pod_UID : string
}.

(** [admission.Response]: [Allowed], [Denied] and [Errored] build the three kinds. *)
Inductive response : Type :=
| Allowed (reason : string) (warnings : list string)
| Denied (reason : string) (warnings : list string)
| Errored (code : Z) (msg : string).

Definition denyChecks : list string :=
  ["KG-001"; "KG-002"; "KG-003"; "KG-004"; "KG-005"; "KG-006"; "KG-008"].

Record Config := mkConfig {
  FailOpen : bool;
  Waivers : WaiverSet
}.

(** [podResource], once [json.Marshal] of the pod and [json.Unmarshal] into a map have
    returned [marshalled]. *)
Definition podResource (pod : Pod) (marshalled : res json_members) : res Resource :=
  raw ← marshalled;
  let raw := set_member "apiVersion" (JStr "v1") (set_member "kind" (JStr "Pod") raw) in
  let name := if pod_Name pod =s "" then pod_GenerateName pod +:+ "(generated)" else pod_Name pod in
  Ok (mkResource "v1" "Pod" (pod_Namespace pod) name (pod_UID pod) (pod_Labels pod) ∅ raw).

Definition Violations (pod : Pod) (marshalled : res json_members) : res (list Finding) :=
  r ← podResource pod marshalled;
  Ok (List.filter (λ f, mem_str (f_ID f) denyChecks) (Scan (Build [r]) zealDefault)).

Definition waived_warning (wf : WaivedFinding) : string :=
  "kubeguard: waived " +:+ f_ID (wf_Finding wf) +:+ " (" +:+ en_Justification (wf_Entry wf)
  +:+ ", until " +:+ en_Expires (wf_Entry wf) +:+ ")".

(** [Handle]; [decoded] is what the decoder makes of the request, with the pod's JSON. *)
Definition Handle (cfg : Config) (decoded : res (Pod * res json_members)) (now : instant) : response :=
  match decoded with
  | Err e =>
      if FailOpen cfg then Allowed "kubeguard: could not decode pod (fail-open)" []
      else Denied ("kubeguard: could not decode pod (fail-closed): " +:+ e) []
  | Ok (pod, marshalled) =>
      match Violations pod marshalled with
      | Err e =>
          if FailOpen cfg then Allowed "kubeguard: evaluation error (fail-open)" []
          else Errored 500 e
      | Ok violations =>
          if Nat.eqb (length violations) 0
          then Allowed "kubeguard: no restricted-profile violations" []
          else
            let '(blocking, waived) :=
              if negb (Empty (Waivers cfg)) then Partition (Waivers cfg) violations now
              else (violations, []) in
            let warnings := map waived_warning waived in
            if Nat.eqb (length blocking) 0
            then Allowed "kubeguard: all violations covered by active waivers" warnings
            else Denied ("kubeguard denied pod: "
                         +:+ join "; " (map (λ f, f_ID f +:+ " " +:+ f_Title f) blocking)) warnings
      end
  end.

Definition is_allowed (r : response) : bool := match r with Allowed _ _ => true | _ => false end.
Definition warnings_of (r : response) : list string :=
  match r with Allowed _ ws | Denied _ ws => ws | Errored _ _ => [] end.

(** * Helper lemmas *)

Lemma nil_length {A} (l : list A) : Nat.eqb (length l) 0 = true ↔ l = [].
Proof. by destruct l. Qed.

(** The blocking violations, with or without waivers. *)
Lemma blocking_spec s fs now f :
  f ∈ (if negb (Empty s) then Partition s fs now else (fs, [])).1 ↔
  f ∈ fs ∧ ∀ e, e ∈ entries s → ¬ covers e f now.
Proof.
  destruct s as [[|e0 es]|]; simpl.
  - set_solver.
  - rewrite Partition_closed. cbn [fst]. rewrite elem_of_list_filter, <-(Match_None (Some (e0 :: es))).
    destruct (Match (Some (e0 :: es)) f now); split; intros [? ?]; done.
  - set_solver.
Qed.

Lemma Violations_elem pod raw f vs :
  Violations pod (Ok raw) = Ok vs →
  f ∈ vs ↔ ∃ r, podResource pod (Ok raw) = Ok r ∧ f ∈ Scan (Build [r]) zealDefault ∧ f_ID f ∈ denyChecks.
Proof.
  unfold Violations. simpl. intros [= <-]. rewrite elem_of_list_filter, mem_str_spec. naive_solver.
Qed.

Lemma podResource_Ok pod raw : ∃ r, podResource pod (Ok raw) = Ok r ∧ Kind r = "Pod".
Proof. by eexists. Qed.

(** A cluster of one pod has no roles. *)
Lemma single_pod_roles r : Kind r = "Pod" → unique_roles (Build [r]).
Proof.
  intros Hk. destruct (Build_closed [r]) as (ns & _ & ->). unfold unique_roles, of_kind. simpl.
  rewrite Hk. simpl. split; constructor.
Qed.

Lemma single_pod_workloads r : g_Workloads (Build [r]) = omap toWorkload [r].
Proof. by destruct (Build_closed [r]) as (ns & _ & ->). Qed.

(** The rules the webhook enforces are rules on workloads. *)
Lemma deny_violation g id ref :
  id ∈ denyChecks → violation g id ref ↔
  ∃ w, w ∈ g_Workloads g ∧ ref = Checks.ref (w_Resource w) ∧ workload_rule g w id.
Proof.
  intros Hid. apply violation_workload. unfold denyChecks in Hid.
  rewrite !elem_of_cons, elem_of_nil in Hid. set_solver.
Qed.

(** * Properties *)

(** C19: Admission is exact.  With the default fail-closed setting a pod is allowed if and only
    if it decodes and, for every restricted rule its workload violates, the finding is covered
    by an active waiver; and the finding is exactly what the scanner reports for that pod, so
    the two never diverge. *)
Theorem Handle_exact cfg decoded now :
  FailOpen cfg = false →
  is_allowed (Handle cfg decoded now) = true ↔
  ∃ pod raw r, decoded = Ok (pod, Ok raw) ∧ podResource pod (Ok raw) = Ok r ∧
    ∀ f, f ∈ Scan (Build [r]) zealDefault → f_ID f ∈ denyChecks →
         ∃ e, e ∈ entries (Waivers cfg) ∧ covers e f now.
Proof.
  intros Hfo. unfold Handle. rewrite Hfo. destruct decoded as [[pod [raw|e]]|e].
  - destruct (podResource_Ok pod raw) as (r & Er & _).
    unfold Violations. rewrite Er. cbn [mbind res_bind].
    set (vs := List.filter _ _).
    assert (∀ f, f ∈ vs ↔ f ∈ Scan (Build [r]) zealDefault ∧ f_ID f ∈ denyChecks) as Hvs.
    { intros f. unfold vs. by rewrite elem_of_list_filter, mem_str_spec. }
    pose proof (blocking_spec (Waivers cfg) vs now) as Hb.
    destruct (if negb (Empty (Waivers cfg)) then _ else _) as [blocking waived]. simpl in Hb.
    assert (is_allowed (if Nat.eqb (length vs) 0 then Allowed "kubeguard: no restricted-profile violations" []
      else if Nat.eqb (length blocking) 0
        then Allowed "kubeguard: all violations covered by active waivers" (map waived_warning waived)
        else Denied ("kubeguard denied pod: "
               +:+ join "; " (map (λ f, f_ID f +:+ " " +:+ f_Title f) blocking)) (map waived_warning waived))
      = true ↔ blocking = []) as ->.
    { destruct (Nat.eqb (length vs) 0) eqn:Ev.
      - split; [|done]. intros _. apply nil_length in Ev. destruct blocking as [|f bs]; [done|].
        destruct (proj1 (Hb f)) as [Hf _]; [left|]. rewrite Ev in Hf. by apply not_elem_of_nil in Hf.
      - rewrite <-nil_length. by destruct (Nat.eqb (length blocking) 0). }
    split.
    + intros ->. exists pod, raw, r. split; [done|]. split; [done|]. intros f Hf Hid.
      destruct (Match (Waivers cfg) f now) as [e|] eqn:Em; [exists e; by eapply Match_Some|].
      exfalso. apply (not_elem_of_nil f). apply Hb. split; [by apply Hvs|]. by apply Match_None.
    + intros (pod' & raw' & r' & [= <- <-] & Er' & H).
      assert (r' = r) as -> by congruence. clear Er'.
      destruct blocking as [|f bs]; [done|]. exfalso.
      destruct (proj1 (Hb f)) as [[Hf Hid]%Hvs Hn]; [left|].
      destruct (H f Hf Hid) as (e & He & Hc). by destruct (Hn e He).
  - split; [done|]. intros (pod' & raw' & r' & [=] & _).
  - split; [done|]. intros (pod' & raw' & r' & [=] & _).
Qed.

(** A pod that runs privileged in namespace [shop], and a decoder result for it. *)
Definition ex_admission : res (Pod * res json_members) :=
  Ok (mkPod "web" "" "shop" ∅ "",
      Ok [("spec", JObj [("containers", JArr [JObj [("name", JStr "c");
            ("securityContext", JObj [("privileged", JBool true); ("runAsNonRoot", JBool true)])]])])]).

Lemma Handle_exact_witness :
  is_allowed (Handle (mkConfig false ex_waivers) ex_admission 0%Z) = true ∧
  is_allowed (Handle (mkConfig false ex_waivers) ex_admission 1767225600000000000%Z) = false ∧
  ∃ pod raw r, ex_admission = Ok (pod, Ok raw) ∧ podResource pod (Ok raw) = Ok r ∧
    ∀ f, f ∈ Scan (Build [r]) zealDefault → f_ID f ∈ denyChecks →
         ∃ e, e ∈ entries ex_waivers ∧ covers e f 0%Z.
Proof.
  assert (is_allowed (Handle (mkConfig false ex_waivers) ex_admission 0%Z) = true) as H
    by (vm_compute; reflexivity).
  split; [exact H|]. split; [vm_compute; reflexivity|].
  exact (proj1 (Handle_exact (mkConfig false ex_waivers) ex_admission 0%Z eq_refl) H).
Defined.

(** Without waivers, the fail-closed webhook admits exactly the pods that decode and whose
    workload satisfies the restricted profile: not privileged, no host path, no host network,
    PID or IPC namespace, not running as root, no dangerous capability. *)
Theorem admitted_iff_restricted cfg pod raw now :
  FailOpen cfg = false → Empty (Waivers cfg) = true →
  is_allowed (Handle cfg (Ok (pod, Ok raw)) now) = true ↔
  ∀ r w id, podResource pod (Ok raw) = Ok r → toWorkload r = Some w → id ∈ denyChecks →
    ¬ workload_rule (Build [r]) w id.
Proof.
  intros Hfo Hemp. unfold Handle. rewrite Hfo, Hemp. cbn [negb].
  destruct (podResource_Ok pod raw) as (r & Er & Hk).
  unfold Violations. rewrite Er. cbn [mbind res_bind]. set (vs := List.filter _ _).
  transitivity (vs = []).
  { rewrite <-nil_length. by destruct (Nat.eqb (length vs) 0). }
  assert (∀ id, id ∈ denyChecks →
    (∃ f, f ∈ vs ∧ f_ID f = id) ↔ ∃ w, toWorkload r = Some w ∧ workload_rule (Build [r]) w id) as Hid.
  { intros id Hid. split.
    - intros (f & Hf & <-). apply elem_of_list_filter in Hf as [Hf _].
      assert (violation (Build [r]) (f_ID f) (f_Resource f)) as Hv
        by (apply Scan_violations_iff; [by apply single_pod_roles|eauto]).
      apply deny_violation in Hv as (w & Hw & _ & Hr); [|done].
      rewrite single_pod_workloads in Hw. apply list_elem_of_omap in Hw as (r' & Hr' & Hw).
      apply list_elem_of_singleton in Hr' as ->. eauto.
    - intros (w & Hw & Hr). assert (violation (Build [r]) id (ref (w_Resource w))) as Hv.
      { apply deny_violation; [done|]. exists w. split; [|done].
        rewrite single_pod_workloads. apply list_elem_of_omap. exists r. split; [left|done]. }
      apply Scan_violations_iff in Hv as (f & Hf & <- & _); [|by apply single_pod_roles].
      exists f. split; [|done]. apply elem_of_list_filter. split; [done|]. by apply mem_str_spec. }
  split.
  - intros Hnil r' w id Er' Hw Hdeny Hr. assert (r' = r) as -> by congruence.
    destruct (proj2 (Hid id Hdeny)) as (f & Hf & _); [eauto|]. rewrite Hnil in Hf.
    by apply not_elem_of_nil in Hf.
  - intros H. destruct vs as [|f l] eqn:Ev; [done|]. exfalso.
    assert (f ∈ vs) as Hf by (rewrite Ev; left). unfold vs in Hf.
    apply elem_of_list_filter in Hf as [_ Hdeny%mem_str_spec].
    destruct (proj1 (Hid (f_ID f) Hdeny)) as (w & Hw & Hr); [exists f; split; [left|done]|].
    by apply (H r w (f_ID f)).
Qed.

Lemma admitted_iff_restricted_witness :
  is_allowed (Handle (mkConfig false None) ex_admission 0%Z) = false ∧
  ∃ pod raw, ex_admission = Ok (pod, Ok raw) ∧
    ¬ ∀ r w id, podResource pod (Ok raw) = Ok r → toWorkload r = Some w → id ∈ denyChecks →
        ¬ workload_rule (Build [r]) w id.
Proof.
  assert (is_allowed (Handle (mkConfig false None) ex_admission 0%Z) = false) as H
    by (vm_compute; reflexivity).
  split; [exact H|]. eexists _, _. split; [reflexivity|]. intros Hr.
  apply (admitted_iff_restricted (mkConfig false None) _ _ 0%Z eq_refl eq_refl) in Hr.
  vm_compute in Hr. discriminate Hr.
Defined.
