(* ===== verification/Lifecycle.v ===== *)
(** The findings lifecycle (internal/dashboard/lifecycle.go): triage states, time-boxed risk
    acceptance, the stable identity of a finding and the mean time to resolve. *)

From Stdlib Require Import Ascii.
From S2P Require Import Prelude GoStrings GoFloat GoTime GoSha Api.

(** * States *)

(** [FindingState] is a string type: a value outside the constants is possible. *)
Definition StateOpen : string := "open".
Definition StateAcknowledged : string := "acknowledged".
Definition StateInProgress : string := "in-progress".
Definition StateResolved : string := "resolved".
Definition StateRiskAccepted : string := "risk-accepted".

Definition triageStates : list string :=
  [StateOpen; StateAcknowledged; StateInProgress; StateResolved].

(** [Waiver] of the dashboard; a [*Waiver] is an option. *)
Record LWaiver := mkLWaiver {
  lw_Justification : string;
  lw_ApprovedBy : string;
  lw_CreatedAt : string;
  lw_ExpiresAt : string
}.

Definition Active (w : option LWaiver) (now : instant) : bool :=
  match w with
  | None => false
  | Some w =>
      if lw_ExpiresAt w =s "" then false
      else match parse_rfc3339 (lw_ExpiresAt w) with
      | None => false
      | Some exp => Before now exp
      end
  end.

Record FindingLifecycle := mkLifecycle {
  lc_Key : string;
  lc_ClusterID : string;
  lc_FindingID : string;
  lc_Resource : ResourceRef;
  lc_State : string;
  lc_Assignee : string;
  lc_Waiver : option LWaiver;
  lc_FirstSeen : string;
  lc_LastUpdated : string;
  lc_ResolvedAt : string
}.

(** [FindingLifecycle{}] *)
Definition zero_lifecycle : FindingLifecycle :=
  mkLifecycle "" "" "" (mkResourceRef "" "" "") "" "" None "" "" "".

Definition EffectiveState (lc : FindingLifecycle) (now : instant) : string :=
  if (lc_State lc =s StateRiskAccepted) && negb (Active (lc_Waiver lc) now)
  then StateOpen else lc_State lc.

Definition IsActivelyWaived (lc : FindingLifecycle) (now : instant) : bool :=
  (lc_State lc =s StateRiskAccepted) && Active (lc_Waiver lc) now.

(** * The stable identity *)

(** The NUL byte that ends each field of the preimage. *)
Definition NUL : string := String (ascii_of_N 0) EmptyString.

Definition key_preimage (clusterID : string) (f : Finding) : string :=
  foldr (λ s acc, s +:+ NUL +:+ acc) EmptyString
    [clusterID; f_ID f; rr_Kind (f_Resource f); rr_Namespace (f_Resource f); rr_Name (f_Resource f)].

Definition LifecycleKey (clusterID : string) (f : Finding) : string :=
  sha256_hex (key_preimage clusterID f).

(** * Mean time to resolve *)

Record MTTRSummary := mkMTTR {
  mt_Open : Z;
  mt_Acknowledged : Z;
  mt_InProgress : Z;
  mt_Resolved : Z;
  mt_RiskAccepted : Z;
  mt_MeanTimeToResolveHours : float64
}.

(** [t.Sub(u)] for [t] not before [u]: the largest duration on overflow. *)
Definition Sub (t u : instant) : Z := Z.min (t - u) (2 ^ 63 - 1).

(** [Duration.Hours] of a non-negative duration. *)
Definition Hours (d : Z) : float64 :=
  fadd (float_of_int (d / hour)) (fdiv (float_of_int (d mod hour)) (float_of_int hour)).

(** The resolution time of a row that counts in the mean. *)
Definition resolve_time (lc : FindingLifecycle) : option Z :=
  if (lc_State lc =s StateResolved) && (lc_FirstSeen lc <>s "") && (lc_ResolvedAt lc <>s "") then
    match parse_rfc3339 (lc_FirstSeen lc), parse_rfc3339 (lc_ResolvedAt lc) with
    | Some seen, Some done_ => if negb (Before done_ seen) then Some (Sub done_ seen) else None
    | _, _ => None
    end
  else None.

(** The counters and the accumulators [totalHours] and [measured], after one row. *)
Definition mttr_step (now : instant) (acc : MTTRSummary * float64 * Z) (lc : FindingLifecycle)
    : MTTRSummary * float64 * Z :=
  let '(s, totalHours, measured) := acc in
  let 'mkMTTR o a i r ra m := s in
  let st := EffectiveState lc now in
  let s := if st =s StateOpen then mkMTTR (o + 1) a i r ra m
           else if st =s StateAcknowledged then mkMTTR o (a + 1) i r ra m
           else if st =s StateInProgress then mkMTTR o a (i + 1) r ra m
           else if st =s StateResolved then mkMTTR o a i (r + 1) ra m
           else if st =s StateRiskAccepted then mkMTTR o a i r (ra + 1) m
           else s in
  match resolve_time lc with
  | Some d => (s, fadd totalHours (Hours d), (measured + 1)%Z)
  | None => (s, totalHours, measured)
  end.

Definition ComputeMTTR (rows : list FindingLifecycle) (now : instant) : MTTRSummary :=
  let '(s, totalHours, measured) := foldl (mttr_step now) (mkMTTR 0 0 0 0 0 fzero, fzero, 0%Z) rows in
  if (measured >? 0)%Z
  then mkMTTR (mt_Open s) (mt_Acknowledged s) (mt_InProgress s) (mt_Resolved s) (mt_RiskAccepted s)
         (fdiv totalHours (float_of_int measured))
  else s.

(** The [less] of [sortLifecycle]. *)
Definition lifecycle_less (a b : FindingLifecycle) : bool :=
  if lc_FindingID a <>s lc_FindingID b then lc_FindingID a <s lc_FindingID b
  else lc_Key a <s lc_Key b.

Definition sortLifecycle (rows : list FindingLifecycle) : list FindingLifecycle :=
  slice_stable lifecycle_less rows.

(** * Helper lemmas *)

#[export] Instance lifecycle_less_strict_weak : StrictWeak lifecycle_less.
Proof.
  unfold lifecycle_less. chain_link lc_FindingID String.eqb String.ltb String.eqb_eq.
  split; intros *; [apply sw_irrefl|apply sw_trans|apply sw_negtrans].
Qed.

(** The order of [sortLifecycle] separates rows with distinct keys. *)
Lemma lifecycle_tied_key a b : tied lifecycle_less a b = true → lc_Key a = lc_Key b.
Proof.
  unfold tied, lifecycle_less.
  destruct (String.eqb_spec (lc_FindingID a) (lc_FindingID b)) as [->|Hne]; simpl.
  + rewrite String.eqb_refl. simpl. intros H. boolify.
    destruct (decide (lc_Key a = lc_Key b)) as [|Hk]; [done|].
    destruct (st_total (lt := String.ltb) _ _ Hk); congruence.
  + rewrite (proj2 (String.eqb_neq _ _) (not_eq_sym Hne)). simpl. intros H. boolify.
    destruct (st_total (lt := String.ltb) _ _ Hne); congruence.
Qed.

(** When a waiver is active: it has a parseable expiry in the future. *)
Lemma Active_spec w now :
  Active w now = true ↔
  ∃ lw exp, w = Some lw ∧ parse_rfc3339 (lw_ExpiresAt lw) = Some exp ∧ (now < exp)%Z.
Proof.
  unfold Active, Before. split.
  - destruct w as [lw|]; [|done]. destruct (_ =s ""); [done|].
    destruct (parse_rfc3339 _) as [exp|] eqn:E; [|done]. intros H%Z.ltb_lt. eauto.
  - intros (lw & exp & -> & E & H). destruct (String.eqb_spec (lw_ExpiresAt lw) "") as [Ee|_].
    + by rewrite Ee in E.
    + rewrite E. by apply Z.ltb_lt.
Qed.

Lemma Active_monotone w now now' :
  (now <= now')%Z → Active w now' = true → Active w now = true.
Proof. rewrite !Active_spec. intros Hle (lw & exp & ? & ? & ?). exists lw, exp. repeat split; auto; lia. Qed.

Lemma EffectiveState_spec lc now :
  (lc_State lc = StateRiskAccepted ∧ Active (lc_Waiver lc) now = false ∧ EffectiveState lc now = StateOpen) ∨
  (¬ (lc_State lc = StateRiskAccepted ∧ Active (lc_Waiver lc) now = false) ∧ EffectiveState lc now = lc_State lc).
Proof.
  unfold EffectiveState. destruct (String.eqb_spec (lc_State lc) StateRiskAccepted), (Active _ _); simpl;
    naive_solver.
Qed.

(** A field of a key has no NUL byte. *)
Definition no_nul (s : string) : bool := str_all (λ c, negb (Ascii.eqb c (ascii_of_N 0))) s.

Lemma key_fields_inj l1 l2 :
  length l1 = length l2 → Forall (λ s, no_nul s = true) l1 → Forall (λ s, no_nul s = true) l2 →
  foldr (λ s acc, s +:+ NUL +:+ acc) EmptyString l1 = foldr (λ s acc, s +:+ NUL +:+ acc) EmptyString l2 →
  l1 = l2.
Proof.
  revert l2. induction l1 as [|s1 l1 IH]; intros [|s2 l2] Hlen H1 H2 Heq; simpl in *; try done.
  apply Forall_cons in H1 as [Hs1 H1]. apply Forall_cons in H2 as [Hs2 H2].
  apply (split_at_inj (λ c, negb (Ascii.eqb c (ascii_of_N 0))) _ s1 s2) in Heq as [-> Heq];
    [|reflexivity|exact Hs1|exact Hs2].
  f_equal. apply IH; auto.
Qed.

(** A collision of SHA-256. *)
Definition sha256_collision : Prop := ∃ x y, x ≠ y ∧ sha256_hex x = sha256_hex y.

Lemma LifecycleKey_collision c1 f1 c2 f2 :
  LifecycleKey c1 f1 = LifecycleKey c2 f2 →
  key_preimage c1 f1 = key_preimage c2 f2 ∨ sha256_collision.
Proof.
  intros H. destruct (decide (key_preimage c1 f1 = key_preimage c2 f2)) as [|Hne]; [by left|].
  right. by eexists _, _.
Qed.

Lemma mttr_fold now rows acc :
  let '(s, t, m) := acc in
  let '(s', t', m') := foldl (mttr_step now) acc rows in
  mt_Open s' = (mt_Open s + count (λ lc, EffectiveState lc now =s StateOpen) rows)%Z ∧
  mt_Acknowledged s' = (mt_Acknowledged s + count (λ lc, EffectiveState lc now =s StateAcknowledged) rows)%Z ∧
  mt_InProgress s' = (mt_InProgress s + count (λ lc, EffectiveState lc now =s StateInProgress) rows)%Z ∧
  mt_Resolved s' = (mt_Resolved s + count (λ lc, EffectiveState lc now =s StateResolved) rows)%Z ∧
  mt_RiskAccepted s' = (mt_RiskAccepted s + count (λ lc, EffectiveState lc now =s StateRiskAccepted) rows)%Z ∧
  mt_MeanTimeToResolveHours s' = mt_MeanTimeToResolveHours s ∧
  t' = foldl (λ t d, fadd t (Hours d)) t (omap resolve_time rows) ∧
  m' = (m + Z.of_nat (length (omap resolve_time rows)))%Z.
Proof.
  revert acc. induction rows as [|lc rows IH]; intros [[s t] m].
  - simpl. rewrite !count_nil, !Z.add_0_r. done.
  - cbn [foldl]. specialize (IH (mttr_step now (s, t, m) lc)).
    destruct (mttr_step now (s, t, m) lc) as [[s1 t1] m1] eqn:E1.
    destruct (foldl _ _ rows) as [[s' t'] m']. rewrite !count_cons.
    unfold mttr_step in E1. destruct s as [o a i r ra mm].
    destruct IH as (-> & -> & -> & -> & -> & -> & -> & ->).
    change (omap resolve_time (lc :: rows)) with
      (match resolve_time lc with Some d => d :: omap resolve_time rows | None => omap resolve_time rows end).
    assert (t1 = (match resolve_time lc with Some d => fadd t (Hours d) | None => t end) ∧
            m1 = (match resolve_time lc with Some d => m + 1 | None => m end)%Z) as [-> ->]
      by (destruct (resolve_time lc); simplify_eq; done).
    assert (mt_MeanTimeToResolveHours s1 = mm ∧
      mt_Open s1 = (o + if EffectiveState lc now =s StateOpen then 1 else 0)%Z ∧
      mt_Acknowledged s1 = (a + if EffectiveState lc now =s StateAcknowledged then 1 else 0)%Z ∧
      mt_InProgress s1 = (i + if EffectiveState lc now =s StateInProgress then 1 else 0)%Z ∧
      mt_Resolved s1 = (r + if EffectiveState lc now =s StateResolved then 1 else 0)%Z ∧
      mt_RiskAccepted s1 = (ra + if EffectiveState lc now =s StateRiskAccepted then 1 else 0)%Z)
      as (-> & -> & -> & -> & -> & ->).
    { destruct (resolve_time lc); injection E1 as <-; repeat case_str; subst; simpl;
        try (match goal with H : EffectiveState lc now = _, H' : EffectiveState lc now = _ |- _ =>
               rewrite H in H'; discriminate H' end); (split; [done|]); lia. }
    simpl. destruct (resolve_time lc); cbn [length foldl]; repeat split; try done; lia.
Qed.

(** * Properties *)

(** A lifecycle key identifies the finding: for fields without NUL bytes (cluster ids and
    Kubernetes names have none), two findings have the same key exactly when they have the
    same cluster, check and resource, unless the two preimages collide under SHA-256; neither
    severity, title nor evidence is part of the identity. *)
Theorem LifecycleKey_identity c1 f1 c2 f2 :
  Forall (λ s, no_nul s = true)
    [c1; f_ID f1; rr_Kind (f_Resource f1); rr_Namespace (f_Resource f1); rr_Name (f_Resource f1)] →
  Forall (λ s, no_nul s = true)
    [c2; f_ID f2; rr_Kind (f_Resource f2); rr_Namespace (f_Resource f2); rr_Name (f_Resource f2)] →
  (c1 = c2 ∧ f_ID f1 = f_ID f2 ∧ f_Resource f1 = f_Resource f2 →
     LifecycleKey c1 f1 = LifecycleKey c2 f2) ∧
  (LifecycleKey c1 f1 = LifecycleKey c2 f2 →
     c1 = c2 ∧ f_ID f1 = f_ID f2 ∧ f_Resource f1 = f_Resource f2 ∨
     key_preimage c1 f1 ≠ key_preimage c2 f2 ∧
     sha256_hex (key_preimage c1 f1) = sha256_hex (key_preimage c2 f2)).
Proof.
  intros H1 H2. split.
  - intros (-> & Hid & Hr). unfold LifecycleKey, key_preimage. by rewrite Hid, Hr.
  - intros Hk. destruct (decide (key_preimage c1 f1 = key_preimage c2 f2)) as [Hp|Hne]; [left|by right].
    apply key_fields_inj in Hp; [|done..]. injection Hp as -> -> Hk' Hns Hn.
    split; [done|]. split; [done|]. destruct (f_Resource f1), (f_Resource f2). simpl in *. by subst.
Qed.

Lemma LifecycleKey_identity_witness :
  let f1 := mkFinding "KG-001" "a" "high" "" (mkResourceRef "Pod" "shop" "web") [] (mkRemediation "" "") [] [] in
  let f2 := mkFinding "KG-001" "b" "low" "" (mkResourceRef "Pod" "shop" "web") [] (mkRemediation "" "") [] [] in
  LifecycleKey "prod" f1 = "01eda7cee226b6f2dc2d56413a12944edfa10057b31d8e15eda0a6e00439f54c" ∧
  LifecycleKey "prod" f1 = LifecycleKey "prod" f2.
Proof.
  intros f1 f2. split; [vm_compute; reflexivity|].
  apply (LifecycleKey_identity "prod" f1 "prod" f2);
    [repeat constructor|repeat constructor|split; [reflexivity|split; reflexivity]].
Defined.

(** A risk acceptance is time-boxed: a finding counts as waived exactly when its state is
    risk-accepted and its waiver's expiry parses and lies in the future; otherwise a
    risk-accepted finding is open again, every other state is shown as it is, and a waiver
    that has lapsed never becomes active again. *)
Theorem waiver_expiry lc now :
  (IsActivelyWaived lc now = true ↔
     lc_State lc = StateRiskAccepted ∧
     ∃ w exp, lc_Waiver lc = Some w ∧ parse_rfc3339 (lw_ExpiresAt w) = Some exp ∧ (now < exp)%Z) ∧
  EffectiveState lc now =
    (if (lc_State lc =s StateRiskAccepted) && negb (IsActivelyWaived lc now)
     then StateOpen else lc_State lc) ∧
  (∀ now', (now <= now')%Z → IsActivelyWaived lc now = false → IsActivelyWaived lc now' = false).
Proof.
  unfold IsActivelyWaived, EffectiveState. split; [|split].
  - by rewrite andb_true_iff, String.eqb_eq, Active_spec.
  - by destruct (lc_State lc =s StateRiskAccepted).
  - intros now' Hle. destruct (lc_State lc =s StateRiskAccepted); [|done]. simpl.
    intros H. destruct (Active (lc_Waiver lc) now') eqn:E; [|done].
    by rewrite (Active_monotone _ now now' Hle E) in H.
Qed.

(** The triage summary counts every row in its effective state, and the mean time to
    resolve is the float mean over exactly the resolved rows that carry two parseable
    timestamps in order; rows without them are left out of the denominator. *)
Theorem ComputeMTTR_spec rows now :
  let s := ComputeMTTR rows now in
  let times := omap resolve_time rows in
  mt_Open s = count (λ lc, EffectiveState lc now =s StateOpen) rows ∧
  mt_Acknowledged s = count (λ lc, EffectiveState lc now =s StateAcknowledged) rows ∧
  mt_InProgress s = count (λ lc, EffectiveState lc now =s StateInProgress) rows ∧
  mt_Resolved s = count (λ lc, EffectiveState lc now =s StateResolved) rows ∧
  mt_RiskAccepted s = count (λ lc, EffectiveState lc now =s StateRiskAccepted) rows ∧
  mt_MeanTimeToResolveHours s =
    (if Nat.eqb (length times) 0 then fzero
     else fdiv (foldl (λ t d, fadd t (Hours d)) fzero times) (float_of_int (Z.of_nat (length times)))) ∧
  (∀ lc d, resolve_time lc = Some d →
     lc_State lc = StateResolved ∧
     ∃ seen done_, parse_rfc3339 (lc_FirstSeen lc) = Some seen ∧
       parse_rfc3339 (lc_ResolvedAt lc) = Some done_ ∧ (seen <= done_)%Z ∧ d = Sub done_ seen).
Proof.
  intros s times. unfold s, ComputeMTTR.
  pose proof (mttr_fold now rows (mkMTTR 0 0 0 0 0 fzero, fzero, 0%Z)) as H. cbv beta iota in H.
  destruct (foldl (mttr_step now) _ rows) as [[s' t'] m'].
  destruct H as (Ho & Ha & Hi & Hr & Hra & Hm & Ht & Hn). simpl in Hm. cbn [mt_Open mt_Acknowledged mt_InProgress mt_Resolved mt_RiskAccepted] in Ho, Ha, Hi, Hr, Hra.
  rewrite Z.add_0_l in Ho, Ha, Hi, Hr, Hra, Hn.
  subst t' m'. fold times. rewrite <-Ho, <-Ha, <-Hi, <-Hr, <-Hra.
  assert (∀ b : bool, let x := if b then mkMTTR (mt_Open s') (mt_Acknowledged s') (mt_InProgress s')
      (mt_Resolved s') (mt_RiskAccepted s') (fdiv (foldl (λ t d, fadd t (Hours d)) fzero times)
        (float_of_int (Z.of_nat (length times)))) else s' in
    mt_Open x = mt_Open s' ∧ mt_Acknowledged x = mt_Acknowledged s' ∧ mt_InProgress x = mt_InProgress s' ∧
    mt_Resolved x = mt_Resolved s' ∧ mt_RiskAccepted x = mt_RiskAccepted s') as Hx by (by intros []).
  destruct (Hx (Z.of_nat (length times) >? 0)%Z) as (-> & -> & -> & -> & ->).
  repeat (split; [done|]). split.
  - destruct times as [|d ts]; [done|]. done.
  - intros lc d. unfold resolve_time. destruct (String.eqb_spec (lc_State lc) StateResolved); simpl; [|done].
    destruct (_ && _); [|done]. destruct (parse_rfc3339 (lc_FirstSeen lc)) as [seen|]; [|done].
    destruct (parse_rfc3339 (lc_ResolvedAt lc)) as [done_|]; [|done]. unfold Before.
    destruct (Z.ltb_spec done_ seen); simpl; [done|]. intros [= <-]. eauto 7.
Qed.
