(* ===== verification/MemStore.v ===== *)
(** The in-memory store of the dashboard (internal/dashboard/store.go, memstore.go): clusters,
    scans, history and lifecycle rows, partitioned by tenant.

    A map of pointers is a finite map; a query that would dereference a nil pointer or slice
    out of bounds panics, which is [None]. *)

From S2P Require Import Prelude GoStrings GoFloat Api Risk Lifecycle.

(** * Records: store.go *)

Record Cluster := mkCluster {
  cl_ID : string;
  cl_Name : string;
  cl_Environment : string;
  cl_LastScanAt : string;
  cl_TotalFindings : Z;
  cl_OverallPassRate : float64
}.

Definition ScanQueued : string := "queued".
Definition ScanRunning : string := "running".
Definition ScanSucceeded : string := "succeeded".
Definition ScanFailed : string := "failed".

Record Scan := mkScan {
  sn_ID : string;
  sn_ClusterID : string;
  sn_Status : string;
  sn_StartedAt : string;
  sn_FinishedAt : string;
  sn_TotalFindings : Z
}.

Record HistorySnapshot := mkSnapshot {
  hs_ScanID : string;
  hs_At : string;
  hs_TotalFindings : Z;
  hs_ControlsAssessed : Z;
  hs_ControlsBreached : Z;
  hs_OverallPassRate : float64;
  hs_BySeverity : gmap string Z
}.

(** * State: memstore.go *)

Record clusterState := mkClusterState {
  cs_meta : Cluster;
  cs_latest : Report;
  cs_hasScan : bool;
  cs_scans : list Scan;
  cs_history : list HistorySnapshot
}.

Record tenantState := mkTenantState {
  ts_clusters : gmap string clusterState;
  ts_order : list string;
  ts_displayName : string
}.

Record MemStore := mkMemStore {
  ms_tenants : gmap string tenantState;
  ms_lifecycle : gmap string (gmap string FindingLifecycle)
}.

Definition NewMemStore : MemStore := mkMemStore ∅ ∅.

Definition new_tenant : tenantState := mkTenantState ∅ [] "".
Definition new_cluster (c : Cluster) : clusterState := mkClusterState c zero_report false [] [].

(** [m.tenant(t)]: the partition, created when absent. *)
Definition tenant (m : MemStore) (t : string) : tenantState := map_get new_tenant (ms_tenants m) t.

Definition put_tenant (t : string) (ts : tenantState) (m : MemStore) : MemStore :=
  mkMemStore (<[t := ts]> (ms_tenants m)) (ms_lifecycle m).

Definition put_rows (t : string) (rows : gmap string FindingLifecycle) (m : MemStore) : MemStore :=
  mkMemStore (ms_tenants m) (<[t := rows]> (ms_lifecycle m)).

(** [m.lifecycle[t]]: a nil map reads as the empty one. *)
Definition rows_of (m : MemStore) (t : string) : gmap string FindingLifecycle :=
  map_get ∅ (ms_lifecycle m) t.

(** * Operations that write *)

Definition RegisterCluster (t : string) (c : Cluster) (m : MemStore) : MemStore :=
  let ts := tenant m t in
  match ts_clusters ts !! cl_ID c with
  | Some _ => put_tenant t ts m
  | None =>
      put_tenant t (mkTenantState (<[cl_ID c := new_cluster c]> (ts_clusters ts))
                      (ts_order ts ++ [cl_ID c]) (ts_displayName ts)) m
  end.

(** The loop that cuts the first occurrence of an id out of the order. *)
Fixpoint remove_first (id : string) (l : list string) : list string :=
  match l with
  | [] => []
  | x :: l' => if x =s id then l' else x :: remove_first id l'
  end.

Definition DeleteCluster (t clusterID : string) (m : MemStore) : MemStore * bool :=
  match ms_tenants m !! t with
  | None => (m, false)
  | Some ts =>
      match ts_clusters ts !! clusterID with
      | None => (m, false)
      | Some _ =>
          let m := put_tenant t (mkTenantState (delete clusterID (ts_clusters ts))
                                   (remove_first clusterID (ts_order ts)) (ts_displayName ts)) m in
          (match ms_lifecycle m !! t with
           | None => m
           | Some rows => put_rows t (filter (λ kv, lc_ClusterID kv.2 ≠ clusterID) rows) m
           end, true)
      end
  end.

Definition postureControls (rep : Report) : Z * Z :=
  let p := rep_Posture rep in
  if (ps_ControlsAssessed p >? 0)%Z then (ps_ControlsAssessed p, ps_ControlsBreached p)
  else foldl (λ '(a, b) fw, ((a + fr_Assessed fw)%Z, (b + fr_Breached fw)%Z)) (0%Z, 0%Z)
         (rep_Compliance rep).

(** [severityMap] copies the map; severities are strings. *)
Definition severityMap (rep : Report) : gmap string Z := ps_BySeverity (rep_Posture rep).

Definition RecordScan (t clusterID scanID : string) (rep : Report) (at_ : string) (m : MemStore)
    : MemStore * Scan :=
  let ts := tenant m t in
  let '(cs, order) :=
    match ts_clusters ts !! clusterID with
    | Some cs => (cs, ts_order ts)
    | None => (new_cluster (mkCluster clusterID clusterID "" "" 0 fzero), ts_order ts ++ [clusterID])
    end in
  let '(assessed, breached) := postureControls rep in
  let total := Z.of_nat (length (rep_Findings rep)) in
  let rate := ps_OverallPassRate (rep_Posture rep) in
  let scan := mkScan scanID clusterID ScanSucceeded at_ at_ total in
  let snap := mkSnapshot scanID at_ total assessed breached rate (severityMap rep) in
  let meta := cs_meta cs in
  let cs := mkClusterState
    (mkCluster (cl_ID meta) (cl_Name meta) (cl_Environment meta) at_ total rate)
    rep true (scan :: cs_scans cs) (cs_history cs ++ [snap]) in
  (put_tenant t (mkTenantState (<[clusterID := cs]> (ts_clusters ts)) order (ts_displayName ts)) m,
   scan).

Definition ProvisionTenant (t displayName : string) (m : MemStore) : MemStore :=
  let ts := tenant m t in
  put_tenant t (if displayName <>s "" then mkTenantState (ts_clusters ts) (ts_order ts) displayName
                else ts) m.

Definition DeleteTenant (t : string) (m : MemStore) : MemStore :=
  mkMemStore (delete t (ms_tenants m)) (delete t (ms_lifecycle m)).

(** The loop body of [SeedFindings]. *)
Definition seed_finding (clusterID now : string) (byKey : gmap string FindingLifecycle) (f : Finding)
    : gmap string FindingLifecycle :=
  let key := LifecycleKey clusterID f in
  match byKey !! key with
  | Some _ => byKey
  | None => <[key := mkLifecycle key clusterID (f_ID f) (f_Resource f) StateOpen "" None now now ""]> byKey
  end.

Definition SeedFindings (t clusterID : string) (findings : list Finding) (now : string) (m : MemStore)
    : MemStore :=
  put_rows t (foldl (seed_finding clusterID now) (rows_of m t) findings) m.

Definition UpsertLifecycle (t : string) (lc : FindingLifecycle) (m : MemStore) : MemStore :=
  put_rows t (<[lc_Key lc := lc]> (rows_of m t)) m.

(** * Merging reports *)

(** [for sev, n := range ns { m[sev] += n }] *)
Definition add_severities (m ns : gmap string Z) : gmap string Z :=
  foldl (λ m kv, <[kv.1 := (map_get 0 m kv.1 + kv.2)%Z]> m) m (map_to_list ns).

Definition add_framework (a b : FrameworkResult) : FrameworkResult :=
  mkFrameworkResult (fr_Framework a) (fr_Version a) (fr_Assessed a + fr_Assessed b)
    (fr_Breached a + fr_Breached b) (fr_Passed a + fr_Passed b) (fr_PassRate a)
    (fr_Breaches a ++ fr_Breaches b) (fr_Disclaimer a).

(** The variables [seenFw] and [merged.Compliance], after one framework of one report. *)
Definition merge_framework (st : gmap string nat * list FrameworkResult) (fw : FrameworkResult)
    : gmap string nat * list FrameworkResult :=
  let '(seen, out) := st in
  match seen !! fr_Framework fw with
  | Some idx => (seen, alter (λ a, add_framework a fw) idx out)
  | None => (<[fr_Framework fw := length out]> seen, out ++ [fw])
  end.

Definition merge_posture (p q : PostureSummary) : PostureSummary :=
  mkPostureSummary (ps_TotalFindings p + ps_TotalFindings q)
    (add_severities (ps_BySeverity p) (ps_BySeverity q))
    (ps_CriticalPaths p + ps_CriticalPaths q)
    (ps_ControlsAssessed p + ps_ControlsAssessed q)
    (ps_ControlsBreached p + ps_ControlsBreached q)
    (ps_OverallPassRate p).

Definition recompute_rate (fw : FrameworkResult) : FrameworkResult :=
  mkFrameworkResult (fr_Framework fw) (fr_Version fw) (fr_Assessed fw) (fr_Breached fw) (fr_Passed fw)
    (if (fr_Assessed fw >? 0)%Z then fdiv (float_of_int (fr_Passed fw)) (float_of_int (fr_Assessed fw))
     else fr_PassRate fw)
    (fr_Breaches fw) (fr_Disclaimer fw).

Definition MergeReports (reps : list Report) : Report :=
  let findings := flat_map rep_Findings reps in
  let paths := flat_map rep_Paths reps in
  let p := foldl (λ p r, merge_posture p (rep_Posture r)) zero_posture reps in
  let '(_, fws) := foldl merge_framework (∅, []) (flat_map rep_Compliance reps) in
  let p := if (ps_ControlsAssessed p >? 0)%Z
           then mkPostureSummary (ps_TotalFindings p) (ps_BySeverity p) (ps_CriticalPaths p)
                  (ps_ControlsAssessed p) (ps_ControlsBreached p)
                  (fdiv (float_of_int (ps_ControlsAssessed p - ps_ControlsBreached p))
                     (float_of_int (ps_ControlsAssessed p)))
           else p in
  let merged := mkReport "" "" "" findings paths p (map recompute_rate fws) None None in
  if Nat.ltb 0 (length findings)
  then mkReport "" "" "" findings paths p (map recompute_rate fws) None (Some (Score merged))
  else merged.

(** * Queries *)

(** [ts.clusters[id]] with the pointer dereferenced. *)
Definition deref (ts : tenantState) (id : string) : option clusterState := ts_clusters ts !! id.

Definition ListClusters (m : MemStore) (t : string) : option (list Cluster) :=
  match ms_tenants m !! t with
  | None => Some []
  | Some ts => mapM (λ id, cs_meta <$> deref ts id) (ts_order ts)
  end.

Definition GetCluster (m : MemStore) (t clusterID : string) : option Cluster :=
  match ms_tenants m !! t with
  | None => None
  | Some ts => cs_meta <$> ts_clusters ts !! clusterID
  end.

(** The ids the loops over [ts.order] do not skip. *)
Definition selected (ts : tenantState) (clusterID : string) : list string :=
  List.filter (λ id, (clusterID =s "") || (id =s clusterID)) (ts_order ts).

(** [offset + limit] on 64-bit integers. *)
Definition wrap64 (z : Z) : Z := (z + 2 ^ 63) mod 2 ^ 64 - 2 ^ 63.

(** The clamping of [ListScans] and [paginate], and the slice expression: [None] panics. *)
Definition page {A} (all : list A) (limit offset : Z) : option (list A) :=
  let total := Z.of_nat (length all) in
  let offset := if (offset >? total)%Z then total else offset in
  let end_ := wrap64 (offset + limit) in
  let end_ := if (limit <=? 0)%Z || (end_ >? total)%Z then total else end_ in
  if (0 <=? offset)%Z && (offset <=? end_)%Z
  then Some (take (Z.to_nat (end_ - offset)) (drop (Z.to_nat offset) all)) else None.

Definition ListScans (m : MemStore) (t clusterID : string) (limit offset : Z) : option (list Scan * Z) :=
  match ms_tenants m !! t with
  | None => Some ([], 0%Z)
  | Some ts =>
      all ← mapM (λ id, cs_scans <$> deref ts id) (selected ts clusterID);
      let all := slice_stable (λ a b, sn_StartedAt b <s sn_StartedAt a) (concat all) in
      p ← page all limit offset;
      Some (p, Z.of_nat (length all))
  end.

(** The report and whether there is one; the outer [None] panics. *)
Definition ReportOf (m : MemStore) (t clusterID : string) : option (option Report) :=
  match ms_tenants m !! t with
  | None => Some None
  | Some ts =>
      if clusterID <>s "" then
        Some (match ts_clusters ts !! clusterID with
              | Some cs => if cs_hasScan cs then Some (cs_latest cs) else None
              | None => None
              end)
      else
        css ← mapM (deref ts) (ts_order ts);
        Some (Some (MergeReports (map cs_latest (List.filter cs_hasScan css))))
  end.

Definition History (m : MemStore) (t clusterID : string) : option (list HistorySnapshot) :=
  match ms_tenants m !! t with
  | None => Some []
  | Some ts =>
      hs ← mapM (λ id, cs_history <$> deref ts id) (selected ts clusterID);
      Some (slice_stable (λ a b, hs_At a <s hs_At b) (concat hs))
  end.

Definition GetLifecycle (m : MemStore) (t key : string) : option FindingLifecycle := rows_of m t !! key.

(** [ListLifecycle] when the map is iterated in the order [rows]. *)
Definition list_rows (rows : list FindingLifecycle) (clusterID : string) : list FindingLifecycle :=
  sortLifecycle (List.filter (λ lc, (clusterID =s "") || (lc_ClusterID lc =s clusterID)) rows).

Definition ListLifecycle (m : MemStore) (t clusterID : string) : list FindingLifecycle :=
  list_rows (map snd (map_to_list (rows_of m t))) clusterID.

(** * Reachable stores

    A trace of the writing operations from [NewMemStore]; the lock makes each of them one step. *)

Inductive op :=
| OpRegister (t : string) (c : Cluster)
| OpDeleteCluster (t clusterID : string)
| OpRecordScan (t clusterID scanID : string) (rep : Report) (at_ : string)
| OpProvision (t displayName : string)
| OpDeleteTenant (t : string)
| OpSeed (t clusterID : string) (findings : list Finding) (now : string)
| OpUpsert (t : string) (lc : FindingLifecycle).

Definition op_tenant (o : op) : string :=
  match o with
  | OpRegister t _ | OpDeleteCluster t _ | OpRecordScan t _ _ _ _ | OpProvision t _
  | OpDeleteTenant t | OpSeed t _ _ _ | OpUpsert t _ => t
  end.

Definition apply_op (o : op) (m : MemStore) : MemStore :=
  match o with
  | OpRegister t c => RegisterCluster t c m
  | OpDeleteCluster t id => fst (DeleteCluster t id m)
  | OpRecordScan t id sid rep at_ => fst (RecordScan t id sid rep at_ m)
  | OpProvision t n => ProvisionTenant t n m
  | OpDeleteTenant t => DeleteTenant t m
  | OpSeed t id fs now => SeedFindings t id fs now m
  | OpUpsert t lc => UpsertLifecycle t lc m
  end.

Inductive reachable : MemStore → Prop :=
| reachable_new : reachable NewMemStore
| reachable_op o m : reachable m → reachable (apply_op o m).

(** The well-formedness of a partition. *)
Record cluster_ok (id : string) (cs : clusterState) : Prop := mkClusterOk {
  co_meta : cl_ID (cs_meta cs) = id;
  co_scans : Forall (λ sn, sn_ClusterID sn = id ∧ sn_Status sn = ScanSucceeded) (cs_scans cs);
  co_history : map hs_ScanID (cs_history cs) = rev (map sn_ID (cs_scans cs));
  co_hasScan : cs_hasScan cs = negb (Nat.eqb (length (cs_scans cs)) 0);
  co_latest : ∀ sn rest, cs_scans cs = sn :: rest →
    cl_LastScanAt (cs_meta cs) = sn_FinishedAt sn ∧
    cl_TotalFindings (cs_meta cs) = sn_TotalFindings sn ∧
    sn_TotalFindings sn = Z.of_nat (length (rep_Findings (cs_latest cs)))
}.

Record tenant_ok (ts : tenantState) : Prop := mkTenantOk {
  to_nodup : NoDup (ts_order ts);
  to_order id : id ∈ ts_order ts ↔ is_Some (ts_clusters ts !! id);
  to_clusters id cs : ts_clusters ts !! id = Some cs → cluster_ok id cs
}.

Record store_ok (m : MemStore) : Prop := mkStoreOk {
  so_tenants t ts : ms_tenants m !! t = Some ts → tenant_ok ts;
  so_rows t k lc : rows_of m t !! k = Some lc → lc_Key lc = k
}.

(** What a tenant can see of the store. *)
Definition view (t : string) (m : MemStore) : option tenantState * gmap string FindingLifecycle :=
  (ms_tenants m !! t, rows_of m t).

(** * The invariant *)

Lemma new_tenant_ok : tenant_ok new_tenant.
Proof.
  split; simpl; [constructor| |].
  - intros id. rewrite lookup_empty. split; [by intros ?%elem_of_nil|by intros []].
  - intros id cs. by rewrite lookup_empty.
Qed.

Lemma tenant_is_ok m t : store_ok m → tenant_ok (tenant m t).
Proof.
  intros [H _]. unfold tenant, map_get. destruct (ms_tenants m !! t) eqn:E; simpl; [eauto|].
  apply new_tenant_ok.
Qed.

Lemma rows_of_put_tenant t ts m t' : rows_of (put_tenant t ts m) t' = rows_of m t'.
Proof. done. Qed.

Lemma rows_of_put_rows t rows m t' :
  rows_of (put_rows t rows m) t' = if t =s t' then rows else rows_of m t'.
Proof. unfold rows_of. simpl. apply map_get_insert. Qed.

Lemma tenants_put_tenant t ts m t' :
  ms_tenants (put_tenant t ts m) !! t' = if t =s t' then Some ts else ms_tenants m !! t'.
Proof.
  simpl. rewrite lookup_insert. destruct (String.eqb_spec t t'); case_decide; done.
Qed.

#[export] Hint Rewrite rows_of_put_tenant rows_of_put_rows tenants_put_tenant : kgrw.

Lemma put_tenant_ok t ts m : store_ok m → tenant_ok ts → store_ok (put_tenant t ts m).
Proof.
  intros [H1 H2] Hts. split.
  - intros t' ts'. rewrite tenants_put_tenant. case_str; [by intros [= <-]|eauto].
  - intros t' k lc. rewrite rows_of_put_tenant. eauto.
Qed.

Lemma put_rows_ok t rows m :
  store_ok m → (∀ k lc, rows !! k = Some lc → lc_Key lc = k) → store_ok (put_rows t rows m).
Proof.
  intros [H1 H2] Hr. split; [eauto|].
  intros t' k lc. rewrite rows_of_put_rows. case_str; eauto.
Qed.

(** Adding or replacing a cluster. *)
Lemma insert_cluster_ok ts id cs :
  tenant_ok ts → cluster_ok id cs →
  tenant_ok (mkTenantState (<[id := cs]> (ts_clusters ts))
    (if ts_clusters ts !! id then ts_order ts else ts_order ts ++ [id]) (ts_displayName ts)).
Proof.
  intros [H1 H2 H3] Hcs. split; simpl.
  - destruct (ts_clusters ts !! id) eqn:E; [done|]. apply NoDup_app. split; [done|].
    split; [|apply NoDup_singleton]. intros x [y Hy]%H2 ->%list_elem_of_singleton. congruence.
  - intros x. rewrite lookup_insert_is_Some. destruct (ts_clusters ts !! id) eqn:E.
    + rewrite H2. destruct (decide (id = x)) as [->|]; [|naive_solver]. rewrite E. naive_solver.
    + rewrite elem_of_app, list_elem_of_singleton, H2. destruct (decide (id = x)); naive_solver.
  - intros x cs'. rewrite lookup_insert. case_decide; [|eauto]. subst. by intros [= <-].
Qed.

Lemma elem_of_remove_first x id l : NoDup l → x ∈ remove_first id l ↔ x ∈ l ∧ x ≠ id.
Proof.
  induction 1 as [|y l Hy Hl IH]; simpl; [set_solver|].
  destruct (String.eqb_spec y id) as [->|]; set_solver.
Qed.

Lemma NoDup_remove_first id l : NoDup l → NoDup (remove_first id l).
Proof.
  induction 1 as [|y l Hy Hl IH]; simpl; [constructor|].
  case_str; [done|]. constructor; [|done]. rewrite elem_of_remove_first; naive_solver.
Qed.

Lemma delete_cluster_ok ts id :
  tenant_ok ts →
  tenant_ok (mkTenantState (delete id (ts_clusters ts)) (remove_first id (ts_order ts)) (ts_displayName ts)).
Proof.
  intros [H1 H2 H3]. split; simpl.
  - by apply NoDup_remove_first.
  - intros x. rewrite elem_of_remove_first, H2, lookup_delete_is_Some by done. naive_solver.
  - intros x cs [_ ?]%lookup_delete_Some. eauto.
Qed.

Lemma seed_fold_lookup cid now fs rows k :
  foldl (seed_finding cid now) rows fs !! k =
  match rows !! k with
  | Some lc => Some lc
  | None => first_some (λ f, if LifecycleKey cid f =s k then
      Some (mkLifecycle k cid (f_ID f) (f_Resource f) StateOpen "" None now now "") else None) fs
  end.
Proof.
  revert rows. induction fs as [|f fs IH]; intros rows; simpl; [by destruct (rows !! k)|].
  rewrite IH. unfold seed_finding. destruct (rows !! LifecycleKey cid f) eqn:E.
  - destruct (rows !! k) eqn:E2; [done|]. case_str; [congruence|done].
  - rewrite lookup_insert. destruct (String.eqb_spec (LifecycleKey cid f) k) as [Hk|];
      case_decide; try congruence. by rewrite <-Hk, E.
Qed.

(** The record that a scan of [clusterID] replaces, and the result of a scan. *)
Definition scanned (m : MemStore) (t clusterID : string) : clusterState :=
  match ts_clusters (tenant m t) !! clusterID with
  | Some cs => cs
  | None => new_cluster (mkCluster clusterID clusterID "" "" 0 fzero)
  end.

Definition after_scan (cs : clusterState) (clusterID scanID : string) (rep : Report) (at_ : string)
    : clusterState :=
  let total := Z.of_nat (length (rep_Findings rep)) in
  let meta := cs_meta cs in
  mkClusterState
    (mkCluster (cl_ID meta) (cl_Name meta) (cl_Environment meta) at_ total
       (ps_OverallPassRate (rep_Posture rep)))
    rep true
    (mkScan scanID clusterID ScanSucceeded at_ at_ total :: cs_scans cs)
    (cs_history cs ++ [mkSnapshot scanID at_ total (fst (postureControls rep)) (snd (postureControls rep))
       (ps_OverallPassRate (rep_Posture rep)) (severityMap rep)]).

Lemma RecordScan_eq t id sid rep at_ m :
  RecordScan t id sid rep at_ m =
  (put_tenant t (mkTenantState
     (<[id := after_scan (scanned m t id) id sid rep at_]> (ts_clusters (tenant m t)))
     (if ts_clusters (tenant m t) !! id then ts_order (tenant m t) else ts_order (tenant m t) ++ [id])
     (ts_displayName (tenant m t))) m,
   mkScan sid id ScanSucceeded at_ at_ (Z.of_nat (length (rep_Findings rep)))).
Proof.
  unfold RecordScan, scanned, after_scan. destruct (ts_clusters (tenant m t) !! id);
    by destruct (postureControls rep).
Qed.

Lemma new_cluster_ok c : cluster_ok (cl_ID c) (new_cluster c).
Proof. by split. Qed.

Lemma after_scan_ok cs id sid rep at_ : cluster_ok id cs → cluster_ok id (after_scan cs id sid rep at_).
Proof.
  intros [H1 H2 H3 H4 H5]. split; simpl; [done|by constructor| |done|by intros ? ? [= <- <-]].
  by rewrite map_app, H3.
Qed.

Lemma scanned_ok m t id : store_ok m → cluster_ok id (scanned m t id).
Proof.
  intros H. unfold scanned. destruct (_ !! id) eqn:E; [|by split].
  by eapply to_clusters; [apply tenant_is_ok|].
Qed.

Lemma apply_op_ok o m : store_ok m → store_ok (apply_op o m).
Proof.
  intros Hm. destruct o as [t c|t id|t id sid rep at_|t n|t|t id fs now|t lc]; simpl.
  - unfold RegisterCluster. destruct (ts_clusters (tenant m t) !! cl_ID c) eqn:E.
    + apply put_tenant_ok; [done|by apply tenant_is_ok].
    + apply put_tenant_ok; [done|].
      pose proof (insert_cluster_ok _ _ _ (tenant_is_ok m t Hm) (new_cluster_ok c)) as H.
      by rewrite E in H.
  - unfold DeleteCluster. destruct (ms_tenants m !! t) as [ts|] eqn:Et; [|done].
    destruct (ts_clusters ts !! id) eqn:E; [|done]. simpl.
    assert (tenant_ok ts) as Hts by (by eapply so_tenants).
    destruct (ms_lifecycle m !! t) as [rows|] eqn:El;
      [|by apply put_tenant_ok, delete_cluster_ok].
    apply put_rows_ok; [by apply put_tenant_ok, delete_cluster_ok|].
    intros k lc [Hk _]%map_lookup_filter_Some. apply (so_rows m Hm t).
    unfold rows_of, map_get. by rewrite El.
  - rewrite RecordScan_eq. apply put_tenant_ok; [done|].
    apply insert_cluster_ok; [by apply tenant_is_ok|by apply after_scan_ok, scanned_ok].
  - unfold ProvisionTenant. apply put_tenant_ok; [done|].
    pose proof (tenant_is_ok m t Hm) as [H1 H2 H3]. by destruct (n <>s "").
  - destruct Hm as [H1 H2]. split; simpl.
    + intros t' ts [_ ?]%lookup_delete_Some. eauto.
    + intros t' k lc. unfold rows_of, map_get. simpl. rewrite lookup_delete.
      case_decide; simpl; [by rewrite lookup_empty|]. apply H2.
  - apply put_rows_ok; [done|]. intros k lc. rewrite seed_fold_lookup.
    destruct (rows_of m t !! k) eqn:E; [intros [= <-]; by eapply so_rows|].
    intros (f & _ & Hf)%first_some_elem. destruct (_ =s k); by simplify_eq.
  - apply put_rows_ok; [done|]. intros k lc'. rewrite lookup_insert.
    case_decide; [by intros [= <-]|]. by apply so_rows.
Qed.

Lemma reachable_ok m : reachable m → store_ok m.
Proof.
  induction 1; [|by apply apply_op_ok]. split; [intros t ts|intros t k lc].
  - done.
  - change (rows_of NewMemStore t) with (∅ : gmap string FindingLifecycle). by rewrite lookup_empty.
Qed.

(** * Tenants do not see each other *)

Lemma op_view o m t : op_tenant o ≠ t → view t (apply_op o m) = view t m.
Proof.
  intros Hne. unfold view. assert (∀ ts, ms_tenants (put_tenant (op_tenant o) ts m) !! t = ms_tenants m !! t) as Ht.
  { intros. rewrite tenants_put_tenant. by case_str. }
  assert (∀ rows m', rows_of (put_rows (op_tenant o) rows m') t = rows_of m' t) as Hr.
  { intros. rewrite rows_of_put_rows. by case_str. }
  destruct o as [t' c|t' id|t' id sid rep at_|t' n|t'|t' id fs now|t' lc]; cbn [op_tenant apply_op] in *.
  - unfold RegisterCluster. destruct (_ !! cl_ID c); by rewrite Ht.
  - unfold DeleteCluster. destruct (ms_tenants m !! t') as [ts|]; [|done].
    destruct (ts_clusters ts !! id); [|done]. simpl fst.
    destruct (ms_lifecycle _ !! t'); (apply pair_equal_spec; split; [apply Ht|]);
      [by etransitivity; [apply Hr|]|done].
  - rewrite RecordScan_eq. cbn [fst]. by rewrite Ht.
  - unfold ProvisionTenant. by rewrite Ht.
  - unfold DeleteTenant, rows_of, map_get. simpl. by rewrite !lookup_delete_ne by done.
  - unfold SeedFindings. by rewrite Hr.
  - unfold UpsertLifecycle. by rewrite Hr.
Qed.

(** Every query of a tenant is a function of what the tenant sees. *)
Lemma queries_of_view m1 m2 t :
  view t m1 = view t m2 →
  ListClusters m1 t = ListClusters m2 t ∧
  (∀ id, GetCluster m1 t id = GetCluster m2 t id) ∧
  (∀ id l o, ListScans m1 t id l o = ListScans m2 t id l o) ∧
  (∀ id, ReportOf m1 t id = ReportOf m2 t id) ∧
  (∀ id, History m1 t id = History m2 t id) ∧
  (∀ key, GetLifecycle m1 t key = GetLifecycle m2 t key) ∧
  (∀ id, ListLifecycle m1 t id = ListLifecycle m2 t id).
Proof.
  unfold view, ListClusters, GetCluster, ListScans, ReportOf, History, GetLifecycle, ListLifecycle.
  intros [= -> ->]. done.
Qed.

(** * Queries on well-formed stores *)

Lemma mapM_deref {A} (f : clusterState → A) ts l :
  tenant_ok ts → (∀ id, id ∈ l → id ∈ ts_order ts) →
  ∃ css, mapM (deref ts) l = Some css ∧ Forall2 (λ id cs, ts_clusters ts !! id = Some cs) l css ∧
    mapM (λ id, f <$> deref ts id) l = Some (map f css).
Proof.
  intros Hts. induction l as [|id l IH]; intros Hl; [by exists []; split; [|split]; [|constructor|]|].
  destruct IH as (css & H1 & H2 & H3); [set_solver|].
  destruct (ts_clusters ts !! id) as [cs|] eqn:E.
  - assert (deref ts id = Some cs) as E' by done.
    exists (cs :: css). simpl. rewrite E'. simpl. rewrite H1, H3. simpl.
    split; [done|]. split; [by constructor|done].
  - specialize (Hl id ltac:(left)). apply (to_order ts Hts) in Hl as [cs ?]. congruence.
Qed.

Lemma elem_of_selected ts clusterID id :
  id ∈ selected ts clusterID ↔ id ∈ ts_order ts ∧ (clusterID = "" ∨ id = clusterID).
Proof.
  unfold selected. rewrite elem_of_list_filter, orb_true_iff, !String.eqb_eq. done.
Qed.

Lemma selected_incl ts clusterID id : id ∈ selected ts clusterID → id ∈ ts_order ts.
Proof. by intros [? _]%elem_of_selected. Qed.

(** Selecting one registered cluster. *)
Lemma selected_one ts id :
  NoDup (ts_order ts) → id ≠ "" → selected ts id = if decide (id ∈ ts_order ts) then [id] else [].
Proof.
  intros Hnd Hid. unfold selected. induction Hnd as [|x l Hx Hl IH]; [done|]. cbn [List.filter].
  rewrite (proj2 (String.eqb_neq id "") Hid) in *. cbn [orb] in *. rewrite IH.
  destruct (String.eqb_spec x id) as [->|Hne].
  - rewrite decide_False by done. by rewrite decide_True by left.
  - repeat case_decide; set_solver.
Qed.

#[export] Hint Resolve selected_incl : kg.

Lemma wrap64_id z : (- 2 ^ 63 <= z < 2 ^ 63)%Z → wrap64 z = z.
Proof. intros H. unfold wrap64. rewrite Z.mod_small; lia. Qed.

#[export] Instance scan_order_strict_weak : StrictWeak (λ a b, sn_StartedAt b <s sn_StartedAt a).
Proof.
  split.
  - intros x. apply sw_irrefl.
  - intros x y z H1 H2. by eapply (sw_trans (less := String.ltb)).
  - intros x y z H. destruct (sw_negtrans (less := String.ltb) _ (sn_StartedAt y) _ H); auto.
Qed.

(** Where the slice expression of a page is in bounds, and what it yields. *)
Lemma page_spec {A} (all : list A) limit offset :
  (- 2 ^ 63 <= limit < 2 ^ 63)%Z → (- 2 ^ 63 <= offset < 2 ^ 63)%Z →
  (Z.of_nat (length all) < 2 ^ 63)%Z →
  let start := Z.min offset (Z.of_nat (length all)) in
  page all limit offset =
  if (offset <? 0)%Z || ((0 <? limit) && (2 ^ 63 <=? start + limit))%Z then None
  else Some (if (limit <=? 0)%Z then drop (Z.to_nat start) all
             else take (Z.to_nat limit) (drop (Z.to_nat start) all)).
Proof.
  intros Hl Ho Hn start. unfold page. set (n := Z.of_nat (length all)) in *.
  replace (if (offset >? n)%Z then n else offset) with start
    by (unfold start; destruct (Z.gtb_spec offset n); lia).
  destruct (Z.ltb_spec offset 0) as [Hneg|Hpos]; cbn [orb].
  { rewrite (proj2 (Z.leb_gt 0 start)) by lia. done. }
  rewrite (proj2 (Z.leb_le 0 start)) by lia. cbn [andb].
  destruct (Z.leb_spec limit 0) as [Hlim|Hlim]; cbn [orb].
  { rewrite (proj2 (Z.ltb_ge 0 limit)) by lia. cbn [andb].
    rewrite (proj2 (Z.leb_le start n)) by lia. rewrite take_ge; [done|].
    rewrite length_drop. unfold n. lia. }
  rewrite (proj2 (Z.ltb_lt 0 limit)) by lia. cbn [andb].
  destruct (Z.leb_spec (2 ^ 63) (start + limit)) as [Hov|Hov].
  - assert (wrap64 (start + limit) = start + limit - 2 ^ 64)%Z as ->.
    { unfold wrap64. rewrite <-(Z.mod_add (start + limit + 2 ^ 63) (-1) (2 ^ 64)) by lia.
      rewrite Z.mod_small; lia. }
    destruct (Z.gtb_spec (start + limit - 2 ^ 64) n); [lia|].
    rewrite (proj2 (Z.leb_gt start _)) by lia. done.
  - rewrite wrap64_id by lia. destruct (Z.gtb_spec (start + limit) n).
    + rewrite (proj2 (Z.leb_le start n)) by lia. f_equal.
      rewrite !take_ge; [done|..]; rewrite length_drop; unfold n in *; lia.
    + rewrite (proj2 (Z.leb_le start _)) by lia. do 2 f_equal. lia.
Qed.

(** The only windows that panic. *)
Lemma page_None {A} (all : list A) limit offset :
  (- 2 ^ 63 <= limit < 2 ^ 63)%Z → (- 2 ^ 63 <= offset < 2 ^ 63)%Z → page all limit offset = None →
  (offset < 0)%Z ∨ (0 < limit ∧ 2 ^ 63 <= offset + limit)%Z.
Proof.
  intros Hl Ho. unfold page. set (n := Z.of_nat (length all)).
  destruct (Z.ltb_spec offset 0) as [|Hpos]; [by left|].
  destruct (Z.ltb_spec (offset + limit) (2 ^ 63)) as [Hov|Hov].
  2: { intros _. right. lia. }
  set (start := if (offset >? n)%Z then n else offset).
  assert (0 <= start <= offset ∧ start <= n)%Z as Hs
    by (unfold start; destruct (Z.gtb_spec offset n); unfold n in *; lia).
  intros H. exfalso. revert H. destruct (Z.leb_spec limit 0); cbn [orb].
  - rewrite (proj2 (Z.leb_le 0 start)), (proj2 (Z.leb_le start n)) by lia. done.
  - rewrite wrap64_id by lia. rewrite (proj2 (Z.leb_le 0 start)) by lia.
    destruct (Z.gtb_spec (start + limit) n); rewrite (proj2 (Z.leb_le start _)) by lia; done.
Qed.

Lemma tenant_after_scan t id sid rep at_ m :
  ms_tenants (fst (RecordScan t id sid rep at_ m)) !! t = Some
    (mkTenantState (<[id := after_scan (scanned m t id) id sid rep at_]> (ts_clusters (tenant m t)))
       (if ts_clusters (tenant m t) !! id then ts_order (tenant m t) else ts_order (tenant m t) ++ [id])
       (ts_displayName (tenant m t))).
Proof. rewrite RecordScan_eq. cbn [fst]. rewrite tenants_put_tenant, String.eqb_refl. done. Qed.

(** The clusters of a tenant. *)
Definition clusters (m : MemStore) (t : string) : gmap string clusterState := ts_clusters (tenant m t).

Lemma GetCluster_clusters m t id : GetCluster m t id = cs_meta <$> clusters m t !! id.
Proof. unfold GetCluster, clusters, tenant, map_get. by destruct (ms_tenants m !! t). Qed.

Lemma ReportOf_clusters m t id : id ≠ "" →
  ReportOf m t id =
  Some (match clusters m t !! id with
        | Some cs => if cs_hasScan cs then Some (cs_latest cs) else None
        | None => None
        end).
Proof.
  intros Hid. unfold ReportOf, clusters, tenant, map_get. rewrite (proj2 (String.eqb_neq id "") Hid).
  by destruct (ms_tenants m !! t).
Qed.

Lemma tenant_put t ts m t' : tenant (put_tenant t ts m) t' = if t =s t' then ts else tenant m t'.
Proof. unfold tenant, map_get. rewrite tenants_put_tenant. by destruct (t =s t'). Qed.

Lemma History_one m t id :
  store_ok m → id ≠ "" →
  History m t id = Some (slice_stable (λ a b, hs_At a <s hs_At b)
    (match ms_tenants m !! t with
     | Some ts => match ts_clusters ts !! id with Some cs => cs_history cs | None => [] end
     | None => []
     end)).
Proof.
  intros Hm Hid. unfold History. destruct (ms_tenants m !! t) as [ts|] eqn:Et; [|done].
  pose proof (so_tenants m Hm t ts Et) as Hts. rewrite selected_one by (done || apply Hts).
  destruct (ts_clusters ts !! id) as [cs|] eqn:E.
  - rewrite decide_True by (apply (to_order ts Hts); eauto). simpl. unfold deref. rewrite E. simpl.
    by rewrite app_nil_r.
  - rewrite decide_False; [done|]. rewrite (to_order ts Hts), E. by intros [].
Qed.

Lemma ListClusters_total m t :
  store_ok m → ∃ cs, ListClusters m t = Some cs ∧ NoDup (map cl_ID cs) ∧
    ∀ id c, GetCluster m t id = Some c ↔ c ∈ cs ∧ cl_ID c = id.
Proof.
  intros Hm. unfold ListClusters, GetCluster. destruct (ms_tenants m !! t) as [ts|] eqn:Et.
  2: { exists []. split; [done|]. split; [constructor|]. intros id c. split; [done|]. by intros [?%elem_of_nil _]. }
  pose proof (so_tenants m Hm t ts Et) as Hts.
  destruct (mapM_deref cs_meta ts (ts_order ts) Hts) as (css & _ & Hall & ->); [done|].
  exists (map cs_meta css). split; [done|].
  assert (map cl_ID (map cs_meta css) = ts_order ts) as Hids.
  { rewrite map_map. apply list_eq_Forall2, Forall2_fmap_l.
    eapply Forall2_flip, Forall2_impl; [exact Hall|]. intros id cs Hcs.
    by apply co_meta, (to_clusters ts Hts). }
  split; [rewrite Hids; apply Hts|]. intros id c. split.
  - intros (cs & Hcs & ->)%fmap_Some. pose proof (to_clusters ts Hts id cs Hcs) as Hok.
    split; [|apply Hok]. apply list_elem_of_fmap. exists cs. split; [done|].
    assert (id ∈ ts_order ts) as [i Hi]%list_elem_of_lookup_1 by (apply (to_order ts Hts); eauto).
    destruct (Forall2_lookup_l _ _ _ _ _ Hall Hi) as (cs' & Hi' & Hcs').
    apply list_elem_of_lookup_2 with i. congruence.
  - intros [(cs & -> & [i Hi]%list_elem_of_lookup_1)%list_elem_of_fmap <-].
    destruct (Forall2_lookup_r _ _ _ _ _ Hall Hi) as (id' & _ & Hcs).
    pose proof (to_clusters ts Hts id' cs Hcs) as [-> _ _ _ _]. by rewrite Hcs.
Qed.

Lemma ReportOf_total m t id : store_ok m → is_Some (ReportOf m t id).
Proof.
  intros Hm. unfold ReportOf. destruct (ms_tenants m !! t) as [ts|] eqn:Et; [|eauto].
  destruct (id <>s ""); [eauto|].
  destruct (mapM_deref (λ x, x) ts (ts_order ts) (so_tenants m Hm t ts Et)) as (css & -> & _); eauto.
Qed.

(** The rows of a tenant have distinct keys. *)
Lemma rows_keys m t : store_ok m → NoDup (map lc_Key (map snd (map_to_list (rows_of m t)))).
Proof.
  intros Hm. rewrite map_map. rewrite (list_fmap_ext _ fst).
  - apply NoDup_fst_map_to_list.
  - intros i [k lc] H%list_elem_of_lookup_2%elem_of_map_to_list. simpl. by apply (so_rows m Hm t).
Qed.

Lemma History_total m t id : store_ok m → is_Some (History m t id).
Proof.
  intros Hm. unfold History. destruct (ms_tenants m !! t) as [ts|] eqn:Et; [|eauto].
  destruct (mapM_deref cs_history ts (selected ts id) (so_tenants m Hm t ts Et)) as (css & _ & _ & ->);
    eauto with kg.
Qed.

Lemma ListScans_total m t id limit offset :
  store_ok m → ∃ all : list Scan,
    ListScans m t id limit offset = (p ← page all limit offset; Some (p, Z.of_nat (length all))) ∨
    ListScans m t id limit offset = Some ([], 0%Z).
Proof.
  intros Hm. unfold ListScans. destruct (ms_tenants m !! t) as [ts|] eqn:Et; [|exists []; by right].
  destruct (mapM_deref cs_scans ts (selected ts id) (so_tenants m Hm t ts Et)) as (css & _ & _ & ->);
    eauto with kg.
Qed.

(** * The merged report *)

Definition of_framework (n : string) (l : list FrameworkResult) : list FrameworkResult :=
  List.filter (λ fw, fr_Framework fw =s n) l.

(** A framework result that adds up the results [l] of one framework. *)
Definition adds_up (l : list FrameworkResult) (fw : FrameworkResult) : Prop :=
  fr_Assessed fw = sum_of fr_Assessed l ∧ fr_Breached fw = sum_of fr_Breached l ∧
  fr_Passed fw = sum_of fr_Passed l ∧ fr_Breaches fw = flat_map fr_Breaches l.

(** The state of the merging loop after the framework results [l]. *)
Record merged_ok (l : list FrameworkResult) (st : gmap string nat * list FrameworkResult) : Prop := {
  mo_index n i : st.1 !! n = Some i ↔ ∃ fw, st.2 !! i = Some fw ∧ fr_Framework fw = n;
  mo_names n : n ∈ map fr_Framework st.2 ↔ n ∈ map fr_Framework l;
  mo_adds i fw : st.2 !! i = Some fw → adds_up (of_framework (fr_Framework fw) l) fw
}.

Lemma adds_up_snoc l fw x :
  adds_up (of_framework (fr_Framework fw) l) fw →
  adds_up (of_framework (fr_Framework fw) (l ++ [x]))
    (if fr_Framework x =s fr_Framework fw then add_framework fw x else fw).
Proof.
  intros (H1 & H2 & H3 & H4). unfold adds_up, of_framework in *. rewrite List.filter_app. cbn [List.filter].
  destruct (fr_Framework x =s fr_Framework fw); [|by rewrite app_nil_r].
  rewrite !sum_of_app, flat_map_app. simpl. rewrite H1, H2, H3, H4, app_nil_r.
  repeat split; lia.
Qed.

Lemma of_framework_none n l : n ∉ map fr_Framework l → of_framework n l = [].
Proof.
  intros Hn. unfold of_framework. induction l as [|x l IH]; [done|]. simpl in *.
  rewrite (proj2 (String.eqb_neq _ _)) by set_solver. apply IH. set_solver.
Qed.

Lemma merge_framework_ok l st x : merged_ok l st → merged_ok (l ++ [x]) (merge_framework st x).
Proof.
  destruct st as [seen out]. intros [Hi Hn Ha]. simpl in *.
  assert (∀ i fw, out !! i = Some fw → adds_up (of_framework (fr_Framework fw) (l ++ [x]))
    (if fr_Framework x =s fr_Framework fw then add_framework fw x else fw)) as Ha' by eauto using adds_up_snoc.
  destruct (seen !! fr_Framework x) as [idx|] eqn:E.
  - pose proof E as (fw0 & Hfw0 & Hname)%Hi.
    assert (∀ i fw, out !! i = Some fw → fr_Framework fw = fr_Framework x → i = idx) as Huniq.
    { intros i fw H H'. assert (seen !! fr_Framework x = Some i) by (apply Hi; eauto). congruence. }
    assert (∀ i, alter (λ a, add_framework a x) idx out !! i =
      (λ fw, if fr_Framework x =s fr_Framework fw then add_framework fw x else fw) <$> out !! i) as Hl.
    { intros i. destruct (decide (i = idx)) as [->|Hne].
      - rewrite list_lookup_alter_eq, Hfw0. simpl. by rewrite Hname, String.eqb_refl.
      - rewrite list_lookup_alter_ne by done. destruct (out !! i) as [fw|] eqn:Eo; simpl; [|done].
        case_str; [|done]. destruct Hne. eauto. }
    assert (map fr_Framework (alter (λ a, add_framework a x) idx out) = map fr_Framework out) as Hm.
    { apply list_eq. intros i. rewrite !list_lookup_map, Hl. destruct (out !! i); simpl; [|done]. by case_str. }
    split; simpl.
    + intros n i. rewrite Hi, Hl. destruct (out !! i) as [fw|]; simpl; [|naive_solver]. split.
      * intros (fw' & [= <-] & <-). eexists. split; [done|]. by case_str.
      * intros (fw' & [= <-] & <-). exists fw. split; [done|]. by case_str.
    + intros n. rewrite Hm, map_app, elem_of_app, Hn. simpl. rewrite list_elem_of_singleton.
      split; [by left|]. intros [?| ->]; [done|]. apply Hn, list_elem_of_fmap. eauto using list_elem_of_lookup_2.
    + intros i fw. rewrite Hl. destruct (out !! i) as [fw'|] eqn:Eo; simpl; [|done]. intros [= <-].
      specialize (Ha' i fw' Eo). revert Ha'. by case_str.
  - assert (fr_Framework x ∉ map fr_Framework l) as Hno.
    { rewrite <-Hn. intros (fw & Hfw & [i Ho]%list_elem_of_lookup_1)%list_elem_of_fmap.
      assert (seen !! fr_Framework x = Some i) by (apply Hi; eauto). congruence. }
    split; simpl.
    + intros n i. rewrite lookup_insert. case_decide as Hd.
      * subst n. split; [intros [= <-]; exists x; rewrite lookup_app_r, Nat.sub_diag; done|].
        intros (fw & Hfw & Hname). apply lookup_app_Some in Hfw as [Hfw|[Hlen Hfw]].
        -- assert (seen !! fr_Framework x = Some i) by (apply Hi; eauto). congruence.
        -- apply list_lookup_singleton_Some in Hfw as [? _]. f_equal. lia.
      * rewrite Hi. setoid_rewrite lookup_app_Some. setoid_rewrite list_lookup_singleton_Some. naive_solver.
    + intros n. rewrite !map_app, !elem_of_app, Hn. done.
    + intros i fw [Hfw|[_ Hfw]]%lookup_app_Some.
      * specialize (Ha' i fw Hfw). destruct (String.eqb_spec (fr_Framework x) (fr_Framework fw)) as [He|]; [|done].
        destruct Hno. rewrite He, <-Hn. apply list_elem_of_fmap. eauto using list_elem_of_lookup_2.
      * apply list_lookup_singleton_Some in Hfw as [_ <-]. unfold of_framework.
        rewrite List.filter_app. fold (of_framework (fr_Framework x) l). rewrite of_framework_none by done.
        simpl. rewrite String.eqb_refl. unfold adds_up. simpl. rewrite app_nil_r. repeat split; lia.
Qed.

Lemma merge_frameworks_ok l : merged_ok l (foldl merge_framework (∅, []) l).
Proof.
  induction l as [|x l IH] using rev_ind.
  - split; simpl; [|done|done]. intros n i. rewrite lookup_empty. naive_solver.
  - rewrite foldl_app. by apply merge_framework_ok.
Qed.

Lemma recompute_rate_fields fw :
  fr_Framework (recompute_rate fw) = fr_Framework fw ∧ fr_Assessed (recompute_rate fw) = fr_Assessed fw ∧
  fr_Breached (recompute_rate fw) = fr_Breached fw ∧ fr_Passed (recompute_rate fw) = fr_Passed fw ∧
  fr_Breaches (recompute_rate fw) = fr_Breaches fw.
Proof. done. Qed.

Lemma add_severities_get m ns k : map_get 0%Z (add_severities m ns) k = (map_get 0 m k + map_get 0 ns k)%Z.
Proof.
  unfold add_severities.
  assert (∀ kvs m, NoDup (map fst kvs) →
    map_get 0%Z (foldl (λ m kv, <[kv.1 := (map_get 0 m kv.1 + kv.2)%Z]> m) m kvs) k =
    (map_get 0 m k + default 0 (list_to_map (M := gmap string Z) kvs !! k))%Z) as H.
  { clear. intros kvs. induction kvs as [|[k' v] kvs IH]; intros m Hnd; simpl.
    - rewrite lookup_empty. simpl. lia.
    - apply NoDup_cons in Hnd as [Hk Hnd]. rewrite IH by done. rewrite map_get_insert, lookup_insert.
      destruct (String.eqb_spec k' k) as [->|Hne]; case_decide; try congruence.
      rewrite (not_elem_of_list_to_map_1 kvs k Hk). simpl. lia. }
  rewrite H by apply NoDup_fst_map_to_list. by rewrite list_to_map_to_list.
Qed.

Lemma merge_postures reps p :
  let q := foldl (λ p r, merge_posture p (rep_Posture r)) p reps in
  ps_TotalFindings q = (ps_TotalFindings p + sum_of (λ r, ps_TotalFindings (rep_Posture r)) reps)%Z ∧
  ps_CriticalPaths q = (ps_CriticalPaths p + sum_of (λ r, ps_CriticalPaths (rep_Posture r)) reps)%Z ∧
  ps_ControlsAssessed q = (ps_ControlsAssessed p + sum_of (λ r, ps_ControlsAssessed (rep_Posture r)) reps)%Z ∧
  ps_ControlsBreached q = (ps_ControlsBreached p + sum_of (λ r, ps_ControlsBreached (rep_Posture r)) reps)%Z ∧
  (∀ s, map_get 0%Z (ps_BySeverity q) s =
     (map_get 0 (ps_BySeverity p) s + sum_of (λ r, map_get 0%Z (ps_BySeverity (rep_Posture r)) s) reps)%Z).
Proof.
  revert p. induction reps as [|r reps IH]; intros p; simpl.
  - repeat split; intros; lia.
  - destruct (IH (merge_posture p (rep_Posture r))) as (-> & -> & -> & -> & Hs). simpl.
    repeat split; try lia. intros s. rewrite Hs. simpl. rewrite add_severities_get. lia.
Qed.

(** * Properties *)

(** A tenant never sees another's data: no operation on one tenant changes the answer of
    any query of a different tenant, whatever the state of the store. *)
Theorem tenant_isolation o m t :
  op_tenant o ≠ t →
  ListClusters (apply_op o m) t = ListClusters m t ∧
  (∀ id, GetCluster (apply_op o m) t id = GetCluster m t id) ∧
  (∀ id l off, ListScans (apply_op o m) t id l off = ListScans m t id l off) ∧
  (∀ id, ReportOf (apply_op o m) t id = ReportOf m t id) ∧
  (∀ id, History (apply_op o m) t id = History m t id) ∧
  (∀ key, GetLifecycle (apply_op o m) t key = GetLifecycle m t key) ∧
  (∀ id, ListLifecycle (apply_op o m) t id = ListLifecycle m t id).
Proof. intros H. by apply queries_of_view, op_view. Qed.

Lemma tenant_isolation_witness :
  let m := RegisterCluster "a" (mkCluster "prod" "Prod" "" "" 0 fzero) NewMemStore in
  ListClusters m "b" = Some [] ∧
  ListClusters (apply_op (OpDeleteTenant "b") m) "a" = Some [mkCluster "prod" "Prod" "" "" 0 fzero].
Proof.
  intros m. split; [reflexivity|].
  destruct (tenant_isolation (OpDeleteTenant "b") m "a" ltac:(discriminate)) as [H _].
  etransitivity; [exact H|reflexivity].
Defined.

(** On every store the operations can reach, the queries of a tenant succeed (no nil
    cluster pointer is followed): the clusters are listed once each, exactly those that
    [GetCluster] finds; the fleet report, every cluster's report and every history are
    defined; a scanned cluster's summary is that of its latest report, and a cluster's
    history holds its scans in the opposite order. *)
Theorem reachable_queries m t :
  reachable m →
  (∃ cs, ListClusters m t = Some cs ∧ NoDup (map cl_ID cs) ∧
     ∀ id c, GetCluster m t id = Some c ↔ c ∈ cs ∧ cl_ID c = id) ∧
  (∀ id, is_Some (ReportOf m t id)) ∧
  (∀ id, is_Some (History m t id)) ∧
  (∀ id c rep, id ≠ "" → GetCluster m t id = Some c → ReportOf m t id = Some (Some rep) →
     cl_TotalFindings c = Z.of_nat (length (rep_Findings rep))) ∧
  (∀ ts id cs, ms_tenants m !! t = Some ts → ts_clusters ts !! id = Some cs →
     map hs_ScanID (cs_history cs) = rev (map sn_ID (cs_scans cs))).
Proof.
  intros Hm%reachable_ok. split; [by apply ListClusters_total|].
  split; [intros; by apply ReportOf_total|]. split; [intros; by apply History_total|].
  unfold ReportOf, GetCluster. split.
  - destruct (ms_tenants m !! t) as [ts|] eqn:Et; [|done].
    intros id c rep Hid%String.eqb_neq (cs & Hcs & ->)%fmap_Some. rewrite Hid, Hcs. simpl.
    destruct (to_clusters ts (so_tenants m Hm t ts Et) id cs Hcs) as [_ _ _ Hhas Hlatest].
    destruct (cs_hasScan cs); [|done]. intros [= <-].
    destruct (cs_scans cs) as [|sn rest]; [done|].
    destruct (Hlatest sn rest eq_refl) as (_ & -> & ->). done.
  - intros ts id cs Et Hcs. by apply (to_clusters ts (so_tenants m Hm t ts Et) id cs Hcs).
Qed.

Lemma reachable_queries_witness :
  let m := fst (RecordScan "a" "prod" "scan-1" zero_report "2026-01-01T00:00:00Z" NewMemStore) in
  reachable m ∧ is_Some (ReportOf m "a" "").
Proof.
  intros m. assert (reachable m) as Hm
    by exact (reachable_op (OpRecordScan "a" "prod" "scan-1" zero_report "2026-01-01T00:00:00Z") _ reachable_new).
  split; [exact Hm|]. destruct (reachable_queries m "a" Hm) as (_ & H & _). apply H.
Defined.

(** A page of scans: for a non-negative offset and no overflow of offset plus limit the
    result is the window of the scans, newest first, with the unpaginated total; for a negative
    offset, or a limit so large that the sum wraps, the slice expression is out of
    bounds and the request panics. *)
Theorem ListScans_page m t clusterID limit offset ts :
  reachable m → ms_tenants m !! t = Some ts →
  (- 2 ^ 63 <= limit < 2 ^ 63)%Z → (- 2 ^ 63 <= offset < 2 ^ 63)%Z →
  ∃ all, sorted_by (λ a b, sn_StartedAt b <s sn_StartedAt a) all ∧
    (∀ sn, sn ∈ all ↔ ∃ id cs, ts_clusters ts !! id = Some cs ∧ sn ∈ cs_scans cs ∧
       (clusterID = "" ∨ id = clusterID)) ∧
    ((Z.of_nat (length all) < 2 ^ 63)%Z →
     let start := Z.min offset (Z.of_nat (length all)) in
     ListScans m t clusterID limit offset =
       if (offset <? 0)%Z || ((0 <? limit) && (2 ^ 63 <=? start + limit))%Z then None
       else Some (if (limit <=? 0)%Z then drop (Z.to_nat start) all
                  else take (Z.to_nat limit) (drop (Z.to_nat start) all), Z.of_nat (length all))).
Proof.
  intros Hm%reachable_ok Et Hl Ho. pose proof (so_tenants m Hm t ts Et) as Hts.
  destruct (mapM_deref cs_scans ts (selected ts clusterID) Hts) as (css & _ & Hall & Hmap); [eauto with kg|].
  set (all := slice_stable (λ a b, sn_StartedAt b <s sn_StartedAt a) (concat (map cs_scans css))).
  exists all. split; [|split].
  - apply slice_stable_sorted, (scan_order_strict_weak).
  - intros sn. unfold all. rewrite elem_of_slice_stable, <-flat_map_concat_map, elem_of_flat_map. split.
    + intros (cs & [i Hi]%list_elem_of_lookup_1 & Hsn).
      destruct (Forall2_lookup_r _ _ _ _ _ Hall Hi) as (id & Hid%list_elem_of_lookup_2 & Hcs).
      apply elem_of_selected in Hid as [_ Hid]. eauto 6.
    + intros (id & cs & Hcs & Hsn & Hid).
      assert (id ∈ selected ts clusterID) as [i Hi]%list_elem_of_lookup_1.
      { apply elem_of_selected. split; [|tauto]. apply (to_order ts Hts). eauto. }
      destruct (Forall2_lookup_l _ _ _ _ _ Hall Hi) as (cs' & Hi' & Hcs').
      exists cs'. split; [by eapply list_elem_of_lookup_2|]. congruence.
  - intros Hn start. unfold ListScans. rewrite Et, Hmap. cbn [mbind option_bind]. fold all.
    rewrite page_spec by done. fold start. by destruct (_ || _).
Qed.

Lemma ListScans_page_witness :
  let m := apply_op (OpRecordScan "a" "prod" "scan-1" zero_report "2026-01-01T00:00:00Z") NewMemStore in
  ListScans m "a" "" 10 (-1) = None ∧ ∃ all, length all = 1 ∧ ListScans m "a" "" 10 0 = Some (all, 1%Z).
Proof.
  intros m. split; [reflexivity|].
  destruct (ListScans_page m "a" "" 10 0 (tenant m "a")
              (reachable_op _ _ reachable_new) eq_refl ltac:(lia) ltac:(lia)) as (all & _ & Hall & Hpage).
  eexists. split; [|reflexivity]. reflexivity.
Defined.

(** A finished scan is visible at once and only where it belongs: its report becomes the
    cluster's latest, the cluster's summary is refreshed (name and environment kept), its
    history gains the snapshot, and every other cluster of the tenant is as it was. *)
Theorem RecordScan_effect m t id sid rep at_ :
  reachable m → id ≠ "" →
  let r := RecordScan t id sid rep at_ m in
  let m' := fst r in
  let c := default (mkCluster id id "" "" 0 fzero) (GetCluster m t id) in
  let total := Z.of_nat (length (rep_Findings rep)) in
  let rate := ps_OverallPassRate (rep_Posture rep) in
  snd r = mkScan sid id ScanSucceeded at_ at_ total ∧
  ReportOf m' t id = Some (Some rep) ∧
  GetCluster m' t id = Some (mkCluster id (cl_Name c) (cl_Environment c) at_ total rate) ∧
  (∃ old, History m t id = Some (slice_stable (λ a b, hs_At a <s hs_At b) old) ∧
     History m' t id = Some (slice_stable (λ a b, hs_At a <s hs_At b)
       (old ++ [mkSnapshot sid at_ total (fst (postureControls rep)) (snd (postureControls rep)) rate
                  (severityMap rep)]))) ∧
  (∀ id', id' ≠ "" → id' ≠ id →
     GetCluster m' t id' = GetCluster m t id' ∧ ReportOf m' t id' = ReportOf m t id' ∧
     History m' t id' = History m t id').
Proof.
  intros Hr Hid r m' c total rate. pose proof (reachable_ok m Hr) as Hm.
  pose proof (reachable_ok m' (reachable_op (OpRecordScan t id sid rep at_) m Hr)) as Hm'.
  pose proof (tenant_after_scan t id sid rep at_ m) as Ht. fold r m' in Ht.
  assert (∀ id', match ms_tenants m !! t with Some ts => ts_clusters ts !! id' | None => None end
                 = ts_clusters (tenant m t) !! id') as Hold.
  { intros id'. unfold tenant, map_get. by destruct (ms_tenants m !! t). }
  split; [|split; [|split; [|split]]].
  - unfold r. by rewrite RecordScan_eq.
  - unfold ReportOf. rewrite Ht, (proj2 (String.eqb_neq id "") Hid). simpl.
    by rewrite lookup_insert_eq.
  - unfold GetCluster. rewrite Ht. cbn [ts_clusters]. rewrite lookup_insert_eq. cbn [fmap option_fmap option_map].
    pose proof (co_meta id _ (scanned_ok m t id Hm)) as Hmeta.
    assert (c = cs_meta (scanned m t id)) as ->.
    { unfold c, scanned, GetCluster. rewrite <-Hold.
      destruct (ms_tenants m !! t) as [ts|]; [|done]. by destruct (ts_clusters ts !! id). }
    simpl. by rewrite Hmeta.
  - exists (cs_history (scanned m t id)). split.
    + rewrite (History_one m t id Hm Hid). do 2 f_equal. unfold scanned. rewrite <-Hold.
      destruct (ms_tenants m !! t) as [ts|]; [|done]. by destruct (ts_clusters ts !! id).
    + rewrite (History_one m' t id Hm' Hid), Ht. cbn [ts_clusters]. by rewrite lookup_insert_eq.
  - intros id' Hid' Hne. split; [|split].
    + unfold GetCluster. rewrite Ht. cbn [ts_clusters]. rewrite lookup_insert_ne, <-Hold by done.
      by destruct (ms_tenants m !! t).
    + unfold ReportOf. rewrite Ht, (proj2 (String.eqb_neq id' "") Hid'). cbn [negb ts_clusters].
      rewrite lookup_insert_ne, <-Hold by done. by destruct (ms_tenants m !! t).
    + rewrite !History_one, Ht by done. cbn [ts_clusters]. rewrite lookup_insert_ne, <-Hold by done.
      by destruct (ms_tenants m !! t).
Qed.

Lemma RecordScan_effect_witness :
  let r := RecordScan "a" "prod" "scan-1" zero_report "2026-01-01T00:00:00Z" NewMemStore in
  ReportOf (fst r) "a" "prod" = Some (Some zero_report).
Proof.
  intros r. apply (RecordScan_effect NewMemStore "a" "prod" "scan-1" zero_report "2026-01-01T00:00:00Z");
    [exact reachable_new|discriminate].
Defined.

(** Erasure is complete at the moment it happens (after [DeleteTenant] every query of the
    tenant answers as on an empty store, and no other tenant is touched), but it is not final: a
    scan that was still running when the tenant was deleted records its report and
    recreates the partition. *)
Theorem erasure_undone m t id sid rep at_ :
  let m' := DeleteTenant t m in
  view t m' = view t NewMemStore ∧
  (∀ t', t' ≠ t → view t' m' = view t' m) ∧
  (id ≠ "" →
   GetCluster m' t id = None ∧
   ReportOf (fst (RecordScan t id sid rep at_ m')) t id = Some (Some rep) ∧
   is_Some (GetCluster (fst (RecordScan t id sid rep at_ m')) t id)).
Proof.
  intros m'. split; [|split].
  - unfold view, rows_of, map_get, m'. simpl. by rewrite !lookup_delete_eq.
  - intros t' Hne. by apply (op_view (OpDeleteTenant t)).
  - intros Hid. unfold GetCluster, ReportOf. rewrite tenant_after_scan. cbn [ts_clusters].
    rewrite (proj2 (String.eqb_neq id "") Hid). cbn [negb]. rewrite lookup_insert_eq. simpl.
    rewrite lookup_delete_eq. eauto.
Qed.

(** Seeding tracks every finding of a scan and never overwrites triage: an existing row is
    kept as it is, a finding without one gets an open row dated now that carries the
    finding's identity, no other row appears, and a second seeding changes nothing. *)
Theorem SeedFindings_spec m t id fs now key :
  let m' := SeedFindings t id fs now m in
  (∀ lc, GetLifecycle m t key = Some lc → GetLifecycle m' t key = Some lc) ∧
  (GetLifecycle m t key = None →
   (∀ f, f ∈ fs → LifecycleKey id f = key →
      ∃ f', f' ∈ fs ∧ LifecycleKey id f' = key ∧
        GetLifecycle m' t key =
          Some (mkLifecycle key id (f_ID f') (f_Resource f') StateOpen "" None now now "")) ∧
   ((∀ f, f ∈ fs → LifecycleKey id f ≠ key) → GetLifecycle m' t key = None)) ∧
  (∀ now', GetLifecycle (SeedFindings t id fs now' m') t key = GetLifecycle m' t key).
Proof.
  intros m'. unfold GetLifecycle, m', SeedFindings.
  rewrite !rows_of_put_rows, String.eqb_refl. split; [|split].
  - intros lc H. by rewrite seed_fold_lookup, H.
  - intros H. rewrite seed_fold_lookup, H. split.
    + intros f Hf Hk. destruct (first_some _ fs) as [lc|] eqn:E.
      * apply first_some_elem in E as (f' & Hf' & E). exists f'.
        destruct (String.eqb_spec (LifecycleKey id f') key); [|done]. by simplify_eq.
      * apply first_some_None with (x := f) in E; [|done]. subst. by rewrite String.eqb_refl in E.
    + intros Hno. apply first_some_None. intros f Hf. rewrite (proj2 (String.eqb_neq _ _) (Hno f Hf)). done.
  - intros now'. rewrite !rows_of_put_rows, !String.eqb_refl, !seed_fold_lookup.
    destruct (rows_of m t !! key); [done|]. destruct (first_some _ fs) as [lc|] eqn:E; [done|].
    apply first_some_None. rewrite first_some_None in E. intros f Hf. specialize (E f Hf). by destruct (_ =s key).
Qed.

(** The triage listing does not depend on the iteration order of the map: any order of the
    stored rows gives the same list, which holds exactly the rows of the requested cluster. *)
Theorem ListLifecycle_deterministic m t clusterID rows :
  reachable m →
  rows ≡ₚ map snd (map_to_list (rows_of m t)) →
  list_rows rows clusterID = ListLifecycle m t clusterID ∧
  (∀ lc, lc ∈ ListLifecycle m t clusterID ↔
     GetLifecycle m t (lc_Key lc) = Some lc ∧ (clusterID = "" ∨ lc_ClusterID lc = clusterID)).
Proof.
  intros Hm%reachable_ok Hp.
  assert (∀ lc, lc ∈ map snd (map_to_list (rows_of m t)) ↔ rows_of m t !! lc_Key lc = Some lc) as Hin.
  { intros lc. rewrite list_elem_of_fmap. split.
    - intros ([k lc'] & -> & H%elem_of_map_to_list). simpl. by rewrite (so_rows m Hm t k lc' H).
    - intros H. exists (lc_Key lc, lc). by rewrite elem_of_map_to_list. }
  split.
  - unfold ListLifecycle, list_rows, sortLifecycle. rewrite !slice_stable_filter by apply _. f_equal.
    apply (slice_stable_perm_key _ lc_Key); [apply lifecycle_tied_key|done|rewrite Hp; by apply rows_keys].
  - intros lc. unfold ListLifecycle, list_rows, sortLifecycle, GetLifecycle.
    rewrite elem_of_slice_stable, elem_of_list_filter, Hin, orb_true_iff, !String.eqb_eq. done.
Qed.

(** C38: The fleet report neither loses nor double-counts: findings and paths are concatenated,
    posture and per-severity counts are the sums over the clusters, every framework occurs once
    with the summed controls and all breaches, and each rate is recomputed from the summed
    counts rather than averaged. *)
Theorem MergeReports_sums reps :
  let m := MergeReports reps in
  let sum f := sum_of (λ r, f (rep_Posture r)) reps in
  let all := flat_map rep_Compliance reps in
  rep_Findings m = flat_map rep_Findings reps ∧ rep_Paths m = flat_map rep_Paths reps ∧
  ps_TotalFindings (rep_Posture m) = sum ps_TotalFindings ∧
  ps_CriticalPaths (rep_Posture m) = sum ps_CriticalPaths ∧
  ps_ControlsAssessed (rep_Posture m) = sum ps_ControlsAssessed ∧
  ps_ControlsBreached (rep_Posture m) = sum ps_ControlsBreached ∧
  (∀ s, map_get 0%Z (ps_BySeverity (rep_Posture m)) s = sum (λ p, map_get 0%Z (ps_BySeverity p) s)) ∧
  ps_OverallPassRate (rep_Posture m) =
    (if (sum ps_ControlsAssessed >? 0)%Z
     then fdiv (float_of_int (sum ps_ControlsAssessed - sum ps_ControlsBreached)) (float_of_int (sum ps_ControlsAssessed))
     else fzero) ∧
  NoDup (map fr_Framework (rep_Compliance m)) ∧
  (∀ n, n ∈ map fr_Framework (rep_Compliance m) ↔ n ∈ map fr_Framework all) ∧
  (∀ fw, fw ∈ rep_Compliance m →
     adds_up (of_framework (fr_Framework fw) all) fw ∧
     ((0 < fr_Assessed fw)%Z → fr_PassRate fw = fdiv (float_of_int (fr_Passed fw)) (float_of_int (fr_Assessed fw)))).
Proof.
  intros m sum all. unfold m, MergeReports. fold all.
  destruct (merge_postures reps zero_posture) as (H1 & H2 & H3 & H4 & H5).
  assert (ps_OverallPassRate (foldl (λ p r, merge_posture p (rep_Posture r)) zero_posture reps) = fzero) as H6.
  { generalize (eq_refl : ps_OverallPassRate zero_posture = fzero). generalize zero_posture.
    clear. induction reps as [|r reps IH]; intros p Hp; simpl; [done|]. by apply IH. }
  destruct (merge_frameworks_ok all) as [Hi Hn Ha].
  destruct (foldl merge_framework (∅, []) all) as [seen fws]. simpl in Hi, Hn, Ha.
  set (p := foldl _ zero_posture reps) in *.
  assert (map fr_Framework (map recompute_rate fws) = map fr_Framework fws) as Hmap by (by rewrite map_map).
  match goal with |- context [if Nat.ltb ?a ?b then ?x else ?y] =>
    assert (∀ A (f : Report → A), (∀ r ts, f (mkReport (rep_GeneratedAt r) (rep_Source r) (rep_Profile r)
      (rep_Findings r) (rep_Paths r) (rep_Posture r) (rep_Compliance r) (rep_Coverage r) ts) = f r) →
      f (if Nat.ltb a b then x else y) = f y) as Hf
      by (intros A f H; destruct (Nat.ltb a b); [exact (H y _)|done]) end.
  rewrite !(Hf _ rep_Findings), !(Hf _ rep_Paths), !(Hf _ rep_Posture), !(Hf _ rep_Compliance) by done. clear Hf.
  cbn [rep_Findings rep_Paths rep_Posture rep_Compliance]. rewrite Hmap.
  change (0 + ?z)%Z with z in *. simpl in H1, H2, H3, H4.
  repeat (split; [first [done|destruct (_ >? 0)%Z; done|destruct (_ >? 0)%Z; intros s; by rewrite H5|
    rewrite H3, H4; by destruct (_ >? 0)%Z]|]).
  split; [|split; [exact Hn|]].
  - apply NoDup_alt. intros i j n. rewrite !list_lookup_map.
    intros (fw1 & Hf1 & ->)%fmap_Some (fw2 & Hf2 & He)%fmap_Some.
    assert (seen !! fr_Framework fw1 = Some i) by (apply Hi; eauto).
    assert (seen !! fr_Framework fw1 = Some j) by (apply Hi; eauto). congruence.
  - intros fw (fw' & -> & [i Hfw]%list_elem_of_lookup_1)%list_elem_of_fmap.
    split; [exact (Ha i fw' Hfw)|]. simpl. by destruct (Z.gtb_spec (fr_Assessed fw') 0); [|lia].
Qed.
