(* ===== verification/Auth.v ===== *)
(** Authentication, roles and the audit log of the dashboard (internal/dashboard/auth.go, jwt.go,
    audit.go).

    The verification of a JSON web token is the jwt library's: [Section jwt] takes it as a
    parameter that, for the options the code passes, returns the claims of a valid token. *)

From S2P Require Import Prelude GoStrings GoJson.

(** * Roles and principals *)

Definition RoleViewer : string := "viewer".
Definition RoleAnalyst : string := "analyst".
Definition RoleAdmin : string := "admin".
Definition roleSuperAdmin : string := "super-admin".

Definition roleRank (r : string) : Z :=
  if r =s RoleAdmin then 3
  else if r =s RoleAnalyst then 2
  else if r =s RoleViewer then 1
  else 0.

Record Principal := mkPrincipal {
  p_Subject : string;
  p_Tenant : string;
  p_Role : string;
  p_SuperAdmin : bool
}.

#[export] Instance Principal_eq_dec : EqDecision Principal.
Proof. solve_decision. Defined.

(** * Authenticators

    A request enters through its [Authorization] header, [""] when absent. *)

Definition Authenticator : Type := string → option Principal.

Definition bearerToken (h : string) : string :=
  if has_prefix (to_lower h) "bearer " then trim_space (str_from 7 h) else "".

Definition StaticAuth (tokens : gmap string Principal) : Authenticator := λ h,
  let tok := bearerToken h in
  if tok =s "" then None else tokens !! tok.

Definition ChainAuth (auths : list Authenticator) : Authenticator := λ h,
  first_some (λ a, a h) auths.

Record JWTConfig := mkJWTConfig {
  jc_Issuer : string;
  jc_Audience : string;
  jc_TenantClaim : string;
  jc_RoleClaim : string
}.

(** The parser options: algorithms, required expiry, and the issuer and audience that are set. *)
Record ParserOptions := mkParserOptions {
  po_ValidMethods : list string;
  po_ExpirationRequired : bool;
  po_Issuer : option string;
  po_Audience : option string
}.

(** The defaults of [NewJWTAuth]. *)
Definition NewJWTAuth (cfg : JWTConfig) : JWTConfig :=
  mkJWTConfig (jc_Issuer cfg) (jc_Audience cfg)
    (if jc_TenantClaim cfg =s "" then "tenant" else jc_TenantClaim cfg)
    (if jc_RoleClaim cfg =s "" then "role" else jc_RoleClaim cfg).

Definition jwt_options (cfg : JWTConfig) : ParserOptions :=
  mkParserOptions ["RS256"; "ES256"; "RS384"; "ES384"; "RS512"; "ES512"] true
    (if jc_Issuer cfg <>s "" then Some (jc_Issuer cfg) else None)
    (if jc_Audience cfg <>s "" then Some (jc_Audience cfg) else None).

Definition parseRole (s : string) : string :=
  if s =s RoleAdmin then RoleAdmin
  else if s =s RoleAnalyst then RoleAnalyst
  else RoleViewer.

Section jwt.
(** [jwt.ParseWithClaims] with the configured keys: the claims of a valid token. *)
Variable ParseWithClaims : ParserOptions → string → option json_members.

Definition JWTAuth (cfg : JWTConfig) : Authenticator := λ h,
  let raw := bearerToken h in
  if raw =s "" then None
  else match ParseWithClaims (jwt_options cfg) raw with
  | None => None
  | Some claims =>
      let tenant := as_string (member (jc_TenantClaim cfg) claims) in
      if tenant =s "" then None
      else
        let sub := as_string (member "sub" claims) in
        let roleClaim := as_string (member (jc_RoleClaim cfg) claims) in
        let role := parseRole roleClaim in
        let super := roleClaim =s roleSuperAdmin in
        let role := if super then RoleAdmin else role in
        Some (mkPrincipal sub tenant role super)
  end.
End jwt.

(** * The key cache: jwt.go

    Keys and key sets are the jose library's: a set answers the keys of an id, in order.  A fetch
    is the result of the request for the current set. *)

Section jwks.
Context {key keyset : Type}.
Variable Key : keyset → string → list key.

(** [jwksCache.keys] *)
Definition jwksCache : Type := option keyset.

Definition lookup_key (c : jwksCache) (kid : string) : option key :=
  match c with None => None | Some ks => hd_error (Key ks kid) end.

Definition refresh (fetch : res keyset) (c : jwksCache) : res jwksCache := ks ← fetch; Ok (Some ks).

(** The cache afterwards, and the verifying key of a token with this [kid] header. *)
Definition keyfunc (fetch : res keyset) (kid : string) (c : jwksCache) : jwksCache * res key :=
  match lookup_key c kid with
  | Some k => (c, Ok k)
  | None =>
      match refresh fetch c with
      | Err e => (c, Err e)
      | Ok c' =>
          match lookup_key c' kid with
          | Some k => (c', Ok k)
          | None => (c', Err ("no JWKS key for kid " +:+ fmt_quote kid))
          end
      end
  end.

(** A key comes from the cached set or from one fetch; a failing fetch changes nothing; and a set
    that lacks the id is cached all the same. *)
Lemma keyfunc_spec fetch kid c :
  match keyfunc fetch kid c with
  | (c', Ok k) => lookup_key c' kid = Some k ∧ (c' = c ∨ lookup_key c kid = None ∧ ∃ ks, fetch = Ok ks ∧ c' = Some ks)
  | (c', Err _) => lookup_key c kid = None ∧
      ((∃ e, fetch = Err e) ∧ c' = c ∨ ∃ ks, fetch = Ok ks ∧ c' = Some ks ∧ lookup_key c' kid = None)
  end.
Proof.
  unfold keyfunc. destruct (lookup_key c kid) as [k|] eqn:E; [auto|].
  unfold refresh. destruct fetch as [ks|e]; cbn [mbind res_bind]; [|by eauto].
  destruct (lookup_key (Some ks) kid) eqn:E'; eauto 8.
Qed.

(** A cached key keeps verifying tokens after the issuer has withdrawn it: only an unknown id
    makes the cache look again. *)
Lemma withdrawn_key_trusted fetch kid c k : lookup_key c kid = Some k → keyfunc fetch kid c = (c, Ok k).
Proof. unfold keyfunc. by intros ->. Qed.
End jwks.

(** * The audit log: audit.go *)

Record AuditEntry := mkAuditEntry {
  ae_At : string;
  ae_Subject : string;
  ae_Tenant : string;
  ae_Action : string;
  ae_Resource : string;
  ae_Result : string
}.

(** [entries], by tenant. *)
Notation MemAuditLog := (gmap string (list AuditEntry)).

Definition AuditList (a : MemAuditLog) (tenant : string) : list AuditEntry := map_get [] a tenant.

Definition AuditWrite (e : AuditEntry) (a : MemAuditLog) : MemAuditLog :=
  <[ae_Tenant e := map_get [] a (ae_Tenant e) ++ [e]]> a.

Definition PurgeTenant (tenant : string) (a : MemAuditLog) : MemAuditLog := delete tenant a.

(** * Lemmas *)

Lemma AuditList_write e a t :
  AuditList (AuditWrite e a) t = if ae_Tenant e =s t then AuditList a t ++ [e] else AuditList a t.
Proof.
  unfold AuditList, AuditWrite. rewrite map_get_insert.
  by destruct (String.eqb_spec (ae_Tenant e) t) as [->|].
Qed.

Lemma AuditList_purge t a t' : AuditList (PurgeTenant t a) t' = if t =s t' then [] else AuditList a t'.
Proof.
  unfold AuditList, PurgeTenant, map_get. rewrite lookup_delete.
  destruct (String.eqb_spec t t'); case_decide; done.
Qed.

#[export] Hint Rewrite AuditList_write AuditList_purge : kgrw.

Lemma parseRole_valid s : parseRole s = RoleAdmin ∨ parseRole s = RoleAnalyst ∨ parseRole s = RoleViewer.
Proof. unfold parseRole. repeat case_str; auto. Qed.

(** * Properties *)

(** An OIDC principal carries no more authority than its verified claims: a request is
    authenticated exactly when its bearer token verifies under the asymmetric algorithms with a
    required expiry (and the configured issuer and audience) and names a tenant; the role is one
    of the three, unknown roles fall to viewer, and the operator flag is set only by the literal
    super-admin claim, which also makes the role admin. *)
Theorem JWTAuth_exact (P : ParserOptions → string → option json_members) cfg h :
  let verified := P (mkParserOptions ["RS256"; "ES256"; "RS384"; "ES384"; "RS512"; "ES512"] true
         (if jc_Issuer cfg =s "" then None else Some (jc_Issuer cfg))
         (if jc_Audience cfg =s "" then None else Some (jc_Audience cfg))) (bearerToken h) in
  (is_Some (JWTAuth P cfg h) ↔
   bearerToken h ≠ "" ∧
   ∃ claims t, verified = Some claims ∧ t ≠ "" ∧ member (jc_TenantClaim cfg) claims = Some (JStr t)) ∧
  (∀ p claims, JWTAuth P cfg h = Some p → verified = Some claims →
   member (jc_TenantClaim cfg) claims = Some (JStr (p_Tenant p)) ∧
   p_Subject p = as_string (member "sub" claims) ∧
   (p_SuperAdmin p = true ↔ member (jc_RoleClaim cfg) claims = Some (JStr "super-admin")) ∧
   (p_Role p = RoleAdmin ↔ member (jc_RoleClaim cfg) claims = Some (JStr "admin") ∨
                           member (jc_RoleClaim cfg) claims = Some (JStr "super-admin")) ∧
   (p_Role p = RoleAnalyst ↔ member (jc_RoleClaim cfg) claims = Some (JStr "analyst")) ∧
   (p_Role p = RoleAdmin ∨ p_Role p = RoleAnalyst ∨ p_Role p = RoleViewer)).
Proof.
  assert (∀ o s, s ≠ "" → o = Some (JStr s) ↔ as_string o = s) as Has.
  { intros o s Hs. destruct o as [[]|]; simpl; naive_solver. }
  intros verified. unfold JWTAuth.
  assert (∀ s, (if s <>s "" then Some s else None) = if s =s "" then None else Some s) as Hn
    by (intros s; by destruct (s =s "")).
  unfold jwt_options. rewrite !Hn. fold verified.
  destruct (String.eqb_spec (bearerToken h) "") as [He|He];
    [split; [split; [by intros []|naive_solver]|done]|].
  destruct verified as [claims|]; [|split; [split; [by intros []|naive_solver]|done]].
  destruct (String.eqb_spec (as_string (member (jc_TenantClaim cfg) claims)) "") as [Ht|Ht].
  { split; [|done]. split; [by intros []|]. intros (_ & cl & t & [= <-] & Hne & Hm).
    rewrite Hm in Ht. done. }
  split.
  - split; [|eauto]. intros _. split; [done|]. eexists _, _. split; [done|]. split; [exact Ht|].
    by apply Has.
  - intros p cl [= <-] [= <-]. cbn [p_Tenant p_Subject p_SuperAdmin p_Role].
    rewrite !Has by done. unfold roleSuperAdmin, parseRole, RoleAdmin, RoleAnalyst, RoleViewer.
    rewrite String.eqb_eq. generalize (as_string (member (jc_RoleClaim cfg) claims)). intros rc.
    split; [done|]. split; [done|]. split; [done|].
    repeat case_str; subst; naive_solver.
Qed.

(** Authenticators compose fail-closed: the chain's principal is that of the first
    authenticator in order that accepts; a request none of them accepts is not authenticated; and
    a static token authenticates only a non-empty bearer token that is configured. *)
Theorem ChainAuth_spec auths h tokens :
  (ChainAuth auths h = None ↔ ∀ a, a ∈ auths → a h = None) ∧
  (∀ p, ChainAuth auths h = Some p ↔
     ∃ l1 a l2, auths = l1 ++ a :: l2 ∧ a h = Some p ∧ ∀ b, b ∈ l1 → b h = None) ∧
  (∀ p, StaticAuth tokens h = Some p ↔ bearerToken h ≠ "" ∧ tokens !! bearerToken h = Some p).
Proof.
  unfold ChainAuth. split; [apply first_some_None|]. split.
  - intros p. split; [by intros ?%first_some_Some|]. intros (l1 & a & l2 & -> & Ha & Hl).
    induction l1 as [|b l1 IH]; simpl; [by rewrite Ha|].
    rewrite (Hl b ltac:(left)). apply IH. set_solver.
  - intros p. unfold StaticAuth. destruct (String.eqb_spec (bearerToken h) ""); naive_solver.
Qed.
