(* ===== verification/PgStore.v ===== *)
(** The Postgres store of the dashboard (internal/dashboard/pg/pg.go); PgSim.v relates it to the
    in-memory store.

    A table is the list of its rows in the order of its identity column, or a finite map by its
    primary key where no identity column orders it; a statement is what SQL defines it to do on
    them.  [ok i] says whether the i-th statement of a method succeeds; one that fails changes
    nothing, and the method goes on as the code does.  Text orders bytewise (the C collation), and
    [order_by] is a sort whose treatment of ties is the database's.  A [jsonb] column of a map or
    a waiver holds the value; the report column goes through [marshal] and [unmarshal].  Opening the
    store is in DashboardRun.v; the table of users is written by no statement but the erasure. *)

From S2P Require Import Prelude GoStrings GoJson GoFloat Api Risk Lifecycle MemStore Auth.

(** * Tables: migrations/*.sql *)

Record cluster_row := mkClusterRow {
  cr_tenant : string;
  cr_id : string;
  cr_name : string;
  cr_environment : option string;
  cr_last_scan_at : option string;
  cr_total_findings : Z;
  cr_overall_pass_rate : float64
}.

Record scan_row := mkScanRow {
  sr_tenant : string;
  sr_id : string;
  sr_cluster_id : string;
  sr_status : string;
  sr_started_at : option string;
  sr_finished_at : option string;
  sr_total_findings : Z;
  sr_is_latest : bool;
  sr_report : json
}.

Record history_row := mkHistoryRow {
  hr_tenant : string;
  hr_cluster_id : string;
  hr_scan_id : string;
  hr_at : string;
  hr_total_findings : Z;
  hr_controls_assessed : Z;
  hr_controls_breached : Z;
  hr_overall_pass_rate : float64;
  hr_by_severity : gmap string Z
}.

Record audit_row := mkAuditRow {
  ar_tenant : string;
  ar_at : string;
  ar_subject : string;
  ar_action : string;
  ar_resource : option string;
  ar_result : string
}.

(** [finding_lifecycle] without its primary key. *)
Record lifecycle_row := mkLifecycleRow {
  lr_cluster_id : string;
  lr_finding_id : string;
  lr_resource_kind : option string;
  lr_resource_namespace : option string;
  lr_resource_name : option string;
  lr_state : string;
  lr_assignee : option string;
  lr_waiver : option LWaiver;
  lr_first_seen : option string;
  lr_last_updated : option string;
  lr_resolved_at : option string
}.

Record db := mkDb {
  tb_tenants : gmap string (option string);
  tb_clusters : list cluster_row;
  tb_scans : list scan_row;
  tb_history : list history_row;
  tb_audit : list audit_row;
  tb_lifecycle : gmap (string * string) lifecycle_row
}.

Definition empty_db : db := mkDb ∅ [] [] [] [] ∅.

Definition set_tenants v d := mkDb v (tb_clusters d) (tb_scans d) (tb_history d) (tb_audit d) (tb_lifecycle d).
Definition set_clusters v d := mkDb (tb_tenants d) v (tb_scans d) (tb_history d) (tb_audit d) (tb_lifecycle d).
Definition set_scans v d := mkDb (tb_tenants d) (tb_clusters d) v (tb_history d) (tb_audit d) (tb_lifecycle d).
Definition set_history v d := mkDb (tb_tenants d) (tb_clusters d) (tb_scans d) v (tb_audit d) (tb_lifecycle d).
Definition set_audit v d := mkDb (tb_tenants d) (tb_clusters d) (tb_scans d) (tb_history d) v (tb_lifecycle d).
Definition set_lifecycle v d := mkDb (tb_tenants d) (tb_clusters d) (tb_scans d) (tb_history d) (tb_audit d) v.

Definition nullStr (s : string) : option string := if s =s "" then None else Some s.

(** [COALESCE(column, default)] with the empty string. *)
Definition coalesce (o : option string) : string := default "" o.

(** The i-th statement of a method, when it succeeds. *)
Definition exec (ok : nat → bool) (i : nat) (stmt : db → db) (d : db) : db := if ok i then stmt d else d.

(** * Statements *)

Definition is_cluster (t id : string) (r : cluster_row) : bool := (cr_tenant r =s t) && (cr_id r =s id).
Definition is_scan_of (t id : string) (r : scan_row) : bool := (sr_tenant r =s t) && (sr_cluster_id r =s id).
Definition is_history_of (t id : string) (r : history_row) : bool := (hr_tenant r =s t) && (hr_cluster_id r =s id).

(** [INSERT INTO clusters ... ON CONFLICT (tenant, id) DO NOTHING] *)
Definition insert_cluster (r : cluster_row) (d : db) : db :=
  if existsb (is_cluster (cr_tenant r) (cr_id r)) (tb_clusters d) then d
  else set_clusters (tb_clusters d ++ [r]) d.

(** [INSERT INTO finding_lifecycle ... ON CONFLICT (tenant, key) DO NOTHING] *)
Definition insert_lifecycle (t key : string) (r : lifecycle_row) (d : db) : db :=
  match tb_lifecycle d !! (t, key) with
  | Some _ => d
  | None => set_lifecycle (<[(t, key) := r]> (tb_lifecycle d)) d
  end.

Definition delete_lifecycle_of (t id : string) (d : db) : db :=
  set_lifecycle (filter (λ kv, ¬ (kv.1.1 = t ∧ lr_cluster_id kv.2 = id)) (tb_lifecycle d)) d.
Definition delete_history_of (t id : string) (d : db) : db :=
  set_history (List.filter (λ r, negb (is_history_of t id r)) (tb_history d)) d.
Definition delete_scans_of (t id : string) (d : db) : db :=
  set_scans (List.filter (λ r, negb (is_scan_of t id r)) (tb_scans d)) d.
Definition delete_cluster (t id : string) (d : db) : db :=
  set_clusters (List.filter (λ r, negb (is_cluster t id r)) (tb_clusters d)) d.

(** * Methods that write *)

Definition RegisterCluster (ok : nat → bool) (t : string) (c : Cluster) (d : db) : db :=
  let d := exec ok 0 (λ d, match tb_tenants d !! t with
                           | Some _ => d
                           | None => set_tenants (<[t := None]> (tb_tenants d)) d
                           end) d in
  exec ok 1 (insert_cluster (mkClusterRow t (cl_ID c) (cl_Name c) (nullStr (cl_Environment c)) None 0 fzero)) d.

Definition DeleteCluster (ok : nat → bool) (t id : string) (d : db) : db * bool :=
  if negb (ok 0) then (d, false) else
  let d := delete_lifecycle_of t id d in
  if negb (ok 1) then (d, false) else
  let d := delete_history_of t id d in
  if negb (ok 2) then (d, false) else
  let d := delete_scans_of t id d in
  if negb (ok 3) then (d, false) else
  (delete_cluster t id d, existsb (is_cluster t id) (tb_clusters d)).

Section reports.
Variable marshal : Report → option json.
Variable unmarshal : json → option Report.

(** The five statements of the transaction in [RecordScan]. *)
Definition clear_latest (t id : string) (r : scan_row) : scan_row :=
  if is_scan_of t id r
  then mkScanRow (sr_tenant r) (sr_id r) (sr_cluster_id r) (sr_status r) (sr_started_at r) (sr_finished_at r)
         (sr_total_findings r) false (sr_report r)
  else r.

Definition record_clear (t id : string) (d : db) : db := set_scans (map (clear_latest t id) (tb_scans d)) d.

Definition scan_key_taken (t sid : string) (d : db) : bool :=
  existsb (λ r, (sr_tenant r =s t) && (sr_id r =s sid)) (tb_scans d).

Definition record_insert (t id sid : string) (rep : Report) (at_ : string) (j : json) (d : db) : db :=
  set_scans (tb_scans d ++ [mkScanRow t sid id ScanSucceeded (Some at_) (Some at_)
                              (Z.of_nat (length (rep_Findings rep))) true j]) d.

Definition record_history (t id sid : string) (rep : Report) (at_ : string) (d : db) : db :=
  let '(assessed, breached) := postureControls rep in
  set_history (tb_history d ++ [mkHistoryRow t id sid at_ (Z.of_nat (length (rep_Findings rep))) assessed breached
                                  (ps_OverallPassRate (rep_Posture rep)) (severityMap rep)]) d.

Definition record_meta (t id : string) (rep : Report) (at_ : string) (d : db) : db :=
  set_clusters (map (λ r, if is_cluster t id r
                          then mkClusterRow (cr_tenant r) (cr_id r) (cr_name r) (cr_environment r) (Some at_)
                                 (Z.of_nat (length (rep_Findings rep))) (ps_OverallPassRate (rep_Posture rep))
                          else r) (tb_clusters d)) d.

(** The transaction: [None] when a statement or the commit fails, and everything is rolled back. *)
Definition record_tx (ok : nat → bool) (t id sid : string) (rep : Report) (at_ : string) (d : db) : option db :=
  if negb (forallb ok [0; 1; 2]) then None else
  let d := record_clear t id (insert_cluster (mkClusterRow t id id None None 0 fzero) d) in
  if scan_key_taken t sid d || negb (forallb ok [3; 4; 5; 6]) then None
  else j ← marshal rep;
       Some (record_meta t id rep at_ (record_history t id sid rep at_ (record_insert t id sid rep at_ j d))).

Definition RecordScan (ok : nat → bool) (t id sid : string) (rep : Report) (at_ : string) (d : db) : db * Scan :=
  (default d (record_tx ok t id sid rep at_ d),
   mkScan sid id ScanSucceeded at_ at_ (Z.of_nat (length (rep_Findings rep)))).

Definition ProvisionTenant (ok : nat → bool) (t displayName : string) (d : db) : db * bool :=
  (exec ok 0 (λ d, set_tenants (<[t := match tb_tenants d !! t with
                                       | None => nullStr displayName
                                       | Some old => match nullStr displayName with Some n => Some n | None => old end
                                       end]> (tb_tenants d)) d) d, ok 0).

(** The loop over the tables; the first failure ends it, and what is erased stays erased. *)
Definition delete_tables (t : string) : list (db → db) :=
  [λ d, set_lifecycle (filter (λ kv, kv.1.1 ≠ t) (tb_lifecycle d)) d;
   λ d, set_audit (List.filter (λ r, ar_tenant r <>s t) (tb_audit d)) d;
   λ d, set_history (List.filter (λ r, hr_tenant r <>s t) (tb_history d)) d;
   λ d, set_scans (List.filter (λ r, sr_tenant r <>s t) (tb_scans d)) d;
   λ d, set_clusters (List.filter (λ r, cr_tenant r <>s t) (tb_clusters d)) d;
   λ d, d;
   λ d, set_tenants (delete t (tb_tenants d)) d].

Fixpoint run_tables (ok : nat → bool) (i : nat) (stmts : list (db → db)) (d : db) : db * bool :=
  match stmts with
  | [] => (d, true)
  | s :: stmts' => if ok i then run_tables ok (S i) stmts' (s d) else (d, false)
  end.

Definition DeleteTenant (ok : nat → bool) (t : string) (d : db) : db * bool := run_tables ok 0 (delete_tables t) d.

(** The loop of [SeedFindings]; a failing insert ends it. *)
Fixpoint seed_rows (ok : nat → bool) (i : nat) (t id now : string) (fs : list Finding) (d : db) : db :=
  match fs with
  | [] => d
  | f :: fs' =>
      if ok i then
        seed_rows ok (S i) t id now fs'
          (insert_lifecycle t (LifecycleKey id f)
             (mkLifecycleRow id (f_ID f) (nullStr (rr_Kind (f_Resource f))) (nullStr (rr_Namespace (f_Resource f)))
                (nullStr (rr_Name (f_Resource f))) StateOpen None None (Some now) (Some now) None) d)
      else d
  end.

Definition SeedFindings (ok : nat → bool) (t id : string) (fs : list Finding) (now : string) (d : db) : db :=
  seed_rows ok 0 t id now fs d.

Definition lifecycle_to_row (lc : FindingLifecycle) : lifecycle_row :=
  mkLifecycleRow (lc_ClusterID lc) (lc_FindingID lc) (nullStr (rr_Kind (lc_Resource lc)))
    (nullStr (rr_Namespace (lc_Resource lc))) (nullStr (rr_Name (lc_Resource lc))) (lc_State lc)
    (nullStr (lc_Assignee lc)) (lc_Waiver lc) (nullStr (lc_FirstSeen lc)) (nullStr (lc_LastUpdated lc))
    (nullStr (lc_ResolvedAt lc)).

Definition UpsertLifecycle (ok : nat → bool) (t : string) (lc : FindingLifecycle) (d : db) : db :=
  exec ok 0 (λ d, set_lifecycle (<[(t, lc_Key lc) := lifecycle_to_row lc]> (tb_lifecycle d)) d) d.

(** [Write] of the audit log. *)
Definition AuditInsert (ok : nat → bool) (e : AuditEntry) (d : db) : db :=
  exec ok 0 (λ d, set_audit (tb_audit d ++ [mkAuditRow (ae_Tenant e) (ae_At e) (ae_Subject e) (ae_Action e)
                                             (nullStr (ae_Resource e)) (ae_Result e)]) d) d.

Definition old_scan (cutoff : string) (r : scan_row) : bool :=
  negb (sr_is_latest r) && match sr_started_at r with Some s => s <s cutoff | None => false end.
Definition old_history (cutoff : string) (r : history_row) : bool := hr_at r <s cutoff.

(** [Retention]: the rows removed, when both statements succeed. *)
Definition Retention (ok : nat → bool) (cutoff : string) (d : db) : db * option Z :=
  if negb (ok 0) then (d, None) else
  let n := count (old_scan cutoff) (tb_scans d) in
  let d := set_scans (List.filter (λ r, negb (old_scan cutoff r)) (tb_scans d)) d in
  if negb (ok 1) then (d, None) else
  (set_history (List.filter (λ r, negb (old_history cutoff r)) (tb_history d)) d, Some (n + count (old_history cutoff) (tb_history d))%Z).

(** * Queries, when the statements succeed *)

Variable order_by : ∀ A, (A → A → bool) → list A → list A.
Arguments order_by {A}.

Definition to_cluster (r : cluster_row) : Cluster :=
  mkCluster (cr_id r) (cr_name r) (coalesce (cr_environment r)) (coalesce (cr_last_scan_at r)) (cr_total_findings r)
    (cr_overall_pass_rate r).

Definition ListClusters (d : db) (t : string) : list Cluster :=
  map to_cluster (List.filter (λ r, cr_tenant r =s t) (tb_clusters d)).

Definition GetCluster (d : db) (t id : string) : option Cluster :=
  to_cluster <$> List.find (is_cluster t id) (tb_clusters d).

Definition to_scan (r : scan_row) : Scan :=
  mkScan (sr_id r) (sr_cluster_id r) (sr_status r) (coalesce (sr_started_at r)) (coalesce (sr_finished_at r))
    (sr_total_findings r).

Definition sanitizeLimit (limit : Z) : Z := if (limit <=? 0)%Z || (limit >? 1000)%Z then 1000 else limit.
Definition max0 (n : Z) : Z := if (n <? 0)%Z then 0 else n.

(** The [WHERE] of the scan and history queries. *)
Definition where_cluster {A} (tenant cluster : A → string) (t id : string) (l : list A) : list A :=
  List.filter (λ r, (tenant r =s t) && ((id =s "") || (cluster r =s id))) l.

Definition started_desc (a b : scan_row) : bool := coalesce (sr_started_at b) <s coalesce (sr_started_at a).

Definition ListScans (d : db) (t id : string) (limit offset : Z) : list Scan * Z :=
  let rows := where_cluster sr_tenant sr_cluster_id t id (tb_scans d) in
  (map to_scan (take (Z.to_nat (sanitizeLimit limit)) (drop (Z.to_nat (max0 offset)) (order_by started_desc rows))),
   Z.of_nat (length rows)).

(** [Report]: a report that does not decode counts as none; the fleet's reports come in no
    specified order, here the table's. *)
Definition ReportOf (d : db) (t id : string) : option Report :=
  if id <>s "" then
    r ← List.find (λ r, is_scan_of t id r && sr_is_latest r) (tb_scans d);
    unmarshal (sr_report r)
  else
    let reps := omap (λ r, unmarshal (sr_report r))
                  (List.filter (λ r, (sr_tenant r =s t) && sr_is_latest r) (tb_scans d)) in
    match reps with [] => None | _ => Some (MergeReports reps) end.

Definition to_snapshot (r : history_row) : HistorySnapshot :=
  mkSnapshot (hr_scan_id r) (hr_at r) (hr_total_findings r) (hr_controls_assessed r) (hr_controls_breached r)
    (hr_overall_pass_rate r) (hr_by_severity r).

Definition History (d : db) (t id : string) : list HistorySnapshot :=
  map to_snapshot (order_by (λ a b, hr_at a <s hr_at b) (where_cluster hr_tenant hr_cluster_id t id (tb_history d))).

(** [scanLifecycle] *)
Definition scanLifecycle (key : string) (r : lifecycle_row) : FindingLifecycle :=
  mkLifecycle key (lr_cluster_id r) (lr_finding_id r)
    (mkResourceRef (coalesce (lr_resource_kind r)) (coalesce (lr_resource_namespace r)) (coalesce (lr_resource_name r)))
    (lr_state r) (coalesce (lr_assignee r)) (lr_waiver r) (coalesce (lr_first_seen r)) (coalesce (lr_last_updated r))
    (coalesce (lr_resolved_at r)).

Definition GetLifecycle (d : db) (t key : string) : option FindingLifecycle :=
  scanLifecycle key <$> tb_lifecycle d !! (t, key).

(** The rows of a tenant, and of a cluster of it when one is given. *)
Definition tenant_rows (d : db) (t : string) : list FindingLifecycle :=
  map (λ kv, scanLifecycle kv.1.2 kv.2) (List.filter (λ kv, kv.1.1 =s t) (map_to_list (tb_lifecycle d))).

Definition ListLifecycle (d : db) (t id : string) : list FindingLifecycle :=
  order_by lifecycle_less (List.filter (λ lc, (id =s "") || (lc_ClusterID lc =s id)) (tenant_rows d t)).

Definition AuditOf (d : db) (t : string) : list AuditEntry :=
  map (λ r, mkAuditEntry (ar_at r) (ar_subject r) (ar_tenant r) (ar_action r) (coalesce (ar_resource r)) (ar_result r))
    (List.filter (λ r, ar_tenant r =s t) (tb_audit d)).
End reports.

(** * Filters *)

Lemma list_filter_sublist {A} (p : A → bool) l : List.filter p l `sublist_of` l.
Proof. induction l as [|x l IH]; simpl; [done|]. destruct (p x); by constructor. Qed.

Lemma list_nodup_map_filter {A B} (f : A → B) (p : A → bool) l : NoDup (map f l) → NoDup (map f (List.filter p l)).
Proof. intros H. eapply sublist_NoDup; [exact H|]. apply (fmap_sublist f), list_filter_sublist. Qed.

Lemma list_nodup_filter {A} (p : A → bool) l : NoDup l → NoDup (List.filter p l).
Proof. intros H. eapply sublist_NoDup; [exact H|apply list_filter_sublist]. Qed.

(** * Operations *)

Lemma insert_cluster_scans r d : tb_scans (insert_cluster r d) = tb_scans d.
Proof. unfold insert_cluster. by destruct (existsb _ _). Qed.

Lemma is_scan_clear t id t' id' r : is_scan_of t' id' (clear_latest t id r) = is_scan_of t' id' r.
Proof. unfold clear_latest, is_scan_of. by destruct ((sr_tenant r =s t) && (sr_cluster_id r =s id)). Qed.

Lemma to_scan_clear t id r : to_scan (clear_latest t id r) = to_scan r.
Proof. unfold clear_latest. by destruct (is_scan_of t id r). Qed.

Lemma report_clear t id r : sr_report (clear_latest t id r) = sr_report r.
Proof. unfold clear_latest. by destruct (is_scan_of t id r). Qed.

Lemma is_scan_of_true t id r : is_scan_of t id r = true ↔ sr_tenant r = t ∧ sr_cluster_id r = id.
Proof. unfold is_scan_of. by rewrite andb_true_iff, !String.eqb_eq. Qed.

(** The rows of each cluster once a scan of [id] has cleared the latest pointer. *)
Lemma latest_clear t id t' id' l :
  List.filter (λ r, is_scan_of t' id' r && sr_is_latest r) (map (clear_latest t id) l) =
  if (t =s t') && (id =s id') then []
  else map (clear_latest t id) (List.filter (λ r, is_scan_of t' id' r && sr_is_latest r) l).
Proof.
  rewrite list_filter_map. destruct ((t =s t') && (id =s id')) eqn:E.
  - apply andb_true_iff in E as [->%String.eqb_eq ->%String.eqb_eq]. rewrite list_filter_none; [done|]. intros r _.
    rewrite is_scan_clear. unfold clear_latest. destruct (is_scan_of t' id' r); [done|by rewrite andb_false_l].
  - f_equal. apply list_filter_ext. intros r _. rewrite is_scan_clear.
    destruct (is_scan_of t' id' r) eqn:Er; [|done]. cbn [andb]. apply is_scan_of_true in Er as [<- <-].
    unfold clear_latest, is_scan_of. by rewrite (String.eqb_sym _ t), (String.eqb_sym _ id), E.
Qed.

(** The tables that a scan of a registered cluster leaves. *)
Definition recorded (t id sid : string) (rep : Report) (at_ : string) (j : json) (d : db) : db :=
  record_meta t id rep at_ (record_history t id sid rep at_ (record_insert t id sid rep at_ j (record_clear t id d))).

Lemma seed_rows_tables ok i t id now fs d :
  tb_clusters (seed_rows ok i t id now fs d) = tb_clusters d ∧ tb_scans (seed_rows ok i t id now fs d) = tb_scans d ∧
  tb_history (seed_rows ok i t id now fs d) = tb_history d.
Proof.
  revert i d. induction fs as [|f fs IH]; intros i d; cbn [seed_rows]; [done|]. destruct (ok i); [|done].
  destruct (IH (S i) (insert_lifecycle t (LifecycleKey id f)
    (mkLifecycleRow id (f_ID f) (nullStr (rr_Kind (f_Resource f))) (nullStr (rr_Namespace (f_Resource f)))
       (nullStr (rr_Name (f_Resource f))) StateOpen None None (Some now) (Some now) None) d)) as (-> & -> & ->).
  unfold insert_lifecycle. by destruct (tb_lifecycle d !! _).
Qed.

Definition ok_all : nat → bool := λ _, true.

Definition pg_op (marshal : Report → option json) (ok : nat → bool) (o : op) (d : db) : db :=
  match o with
  | OpRegister t c => RegisterCluster ok t c d
  | OpDeleteCluster t id => (DeleteCluster ok t id d).1
  | OpRecordScan t id sid rep at_ => (RecordScan marshal ok t id sid rep at_ d).1
  | OpProvision t n => (ProvisionTenant ok t n d).1
  | OpDeleteTenant t => (DeleteTenant ok t d).1
  | OpSeed t id fs now => SeedFindings ok t id fs now d
  | OpUpsert t lc => UpsertLifecycle ok t lc d
  end.

(** * The keys of the schema, whatever fails *)

Record schema_ok (d : db) : Prop := {
  sc_clusters : NoDup (map (λ r, (cr_tenant r, cr_id r)) (tb_clusters d));
  sc_scans : NoDup (map (λ r, (sr_tenant r, sr_id r)) (tb_scans d));
  sc_latest t id : length (List.filter (λ r, is_scan_of t id r && sr_is_latest r) (tb_scans d)) ≤ 1;
  sc_scan_cluster r : r ∈ tb_scans d → existsb (is_cluster (sr_tenant r) (sr_cluster_id r)) (tb_clusters d) = true;
  sc_history_cluster r : r ∈ tb_history d → existsb (is_cluster (hr_tenant r) (hr_cluster_id r)) (tb_clusters d) = true
}.

(** A database that the methods have written, with any statements failing. *)
Inductive stored (marshal : Report → option json) : db → Prop :=
| stored_new : stored marshal empty_db
| stored_op ok o d : stored marshal d → stored marshal (pg_op marshal ok o d)
| stored_audit ok e d : stored marshal d → stored marshal (AuditInsert ok e d)
| stored_retention ok cutoff d : stored marshal d → stored marshal (Retention ok cutoff d).1.

Lemma schema_ext d d' :
  tb_clusters d' = tb_clusters d → tb_scans d' = tb_scans d → tb_history d' = tb_history d →
  schema_ok d → schema_ok d'.
Proof. intros E1 E2 E3 [H1 H2 H3 H4 H5]. split; rewrite ?E1, ?E2, ?E3; auto. Qed.

(** Rows go, and none stays whose cluster goes. *)
Lemma schema_filter pc ps ph d d' :
  tb_clusters d' = List.filter pc (tb_clusters d) → tb_scans d' = List.filter ps (tb_scans d) →
  tb_history d' = List.filter ph (tb_history d) →
  (∀ r c, ps r = true → is_cluster (sr_tenant r) (sr_cluster_id r) c = true → pc c = true) →
  (∀ r c, ph r = true → is_cluster (hr_tenant r) (hr_cluster_id r) c = true → pc c = true) →
  schema_ok d → schema_ok d'.
Proof.
  intros E1 E2 E3 Hps Hph [H1 H2 H3 H4 H5].
  assert (∀ t id, (∀ c, is_cluster t id c = true → pc c = true) → existsb (is_cluster t id) (tb_clusters d) = true →
    existsb (is_cluster t id) (tb_clusters d') = true) as Hex.
  { intros t id Hpc. rewrite !existsb_elem. intros (c & Hc & Hid). exists c. rewrite E1, elem_of_list_filter. auto. }
  split; rewrite ?E1, ?E2, ?E3.
  - by apply list_nodup_map_filter.
  - by apply list_nodup_map_filter.
  - intros t id. etransitivity; [|exact (H3 t id)]. rewrite list_filter_filter.
    rewrite (list_filter_ext _ (λ r, (is_scan_of t id r && sr_is_latest r) && ps r)) by (intros; apply andb_comm).
    rewrite <-list_filter_filter. apply sublist_length, list_filter_sublist.
  - intros r [Hr Hp]%elem_of_list_filter. rewrite <-E1. eauto.
  - intros r [Hr Hp]%elem_of_list_filter. rewrite <-E1. eauto.
Qed.

Lemma list_filter_true {A} (l : list A) : List.filter (λ _, true) l = l.
Proof. induction l as [|x l IH]; [done|]. simpl. by f_equal. Qed.

(** Which filters a deletion applies. *)
Ltac filtered pc ps ph :=
  eapply (schema_filter pc ps ph); [cbn; rewrite ?list_filter_true; done..| | |eassumption];
  intros ? ?; unfold is_cluster, is_scan_of, is_history_of;
  rewrite ?andb_true_iff, ?negb_true_iff, ?andb_false_iff, ?String.eqb_eq, ?String.eqb_neq; naive_solver congruence.

Lemma delete_cluster_schema ok t id d : schema_ok d → schema_ok (DeleteCluster ok t id d).1.
Proof.
  intros H. unfold DeleteCluster. destruct (ok 0); cbn [negb fst]; [|done].
  destruct (ok 1); cbn [negb fst]; [|by eapply schema_ext; [..|exact H]].
  destruct (ok 2); cbn [negb fst].
  2: { filtered (λ _ : cluster_row, true) (λ _ : scan_row, true) (λ r, negb (is_history_of t id r)). }
  destruct (ok 3); cbn [negb fst].
  2: { filtered (λ _ : cluster_row, true) (λ r, negb (is_scan_of t id r)) (λ r, negb (is_history_of t id r)). }
  filtered (λ r, negb (is_cluster t id r)) (λ r, negb (is_scan_of t id r)) (λ r, negb (is_history_of t id r)).
Qed.

Lemma delete_tenant_schema ok t d : schema_ok d → schema_ok (DeleteTenant ok t d).1.
Proof.
  intros H. unfold DeleteTenant, delete_tables. cbn [run_tables]. destruct (ok 0); [|done].
  destruct (ok 1); [|by eapply schema_ext; [..|exact H]].
  destruct (ok 2); [|by eapply schema_ext; [..|exact H]].
  destruct (ok 3).
  2: { filtered (λ _ : cluster_row, true) (λ _ : scan_row, true) (λ r, hr_tenant r <>s t). }
  destruct (ok 4).
  2: { filtered (λ _ : cluster_row, true) (λ r, sr_tenant r <>s t) (λ r, hr_tenant r <>s t). }
  destruct (ok 5), (ok 6); filtered (λ r, cr_tenant r <>s t) (λ r, sr_tenant r <>s t) (λ r, hr_tenant r <>s t).
Qed.

Lemma retention_schema ok cutoff d : schema_ok d → schema_ok (Retention ok cutoff d).1.
Proof.
  intros H. unfold Retention. destruct (ok 0); cbn [negb fst]; [|done].
  destruct (ok 1); cbn [negb fst]; (eapply (schema_filter (λ _, true)); [cbn; by rewrite list_filter_true|done|..]);
    try done; cbn; symmetry; apply list_filter_true.
Qed.

Lemma existsb_app_l {A} (p : A → bool) l l' : existsb p l = true → existsb p (l ++ l') = true.
Proof. rewrite existsb_app. by intros ->. Qed.

Lemma NoDup_snoc {A} (x : A) l : NoDup l → x ∉ l → NoDup (l ++ [x]).
Proof. intros Hl Hx. apply NoDup_app. split; [done|]. split; [set_solver|apply NoDup_singleton]. Qed.

Lemma existsb_insert r t id d :
  cr_tenant r = t → cr_id r = id → existsb (is_cluster t id) (tb_clusters (insert_cluster r d)) = true.
Proof.
  intros <- <-. unfold insert_cluster.
  destruct (existsb (is_cluster (cr_tenant r) (cr_id r)) (tb_clusters d)) eqn:E; [done|].
  cbn [tb_clusters set_clusters]. rewrite existsb_app. cbn. unfold is_cluster at 2.
  by rewrite !String.eqb_refl, orb_true_r.
Qed.

Lemma insert_cluster_schema r d : schema_ok d → schema_ok (insert_cluster r d).
Proof.
  intros H. unfold insert_cluster. destruct (existsb _ _) eqn:E; [done|]. destruct H as [H1 H2 H3 H4 H5].
  split; cbn [tb_clusters tb_scans tb_history set_clusters]; [|done|done|intros; by apply existsb_app_l, H4|intros; by apply existsb_app_l, H5].
  rewrite map_app. apply NoDup_snoc; [done|]. intros (r' & Hk & Hr')%list_elem_of_fmap. injection Hk as Ht Hid.
  apply not_true_iff_false in E. apply E, existsb_elem. exists r'. split; [done|]. unfold is_cluster.
  by rewrite Ht, Hid, !String.eqb_refl.
Qed.

Lemma existsb_meta t id rep at_ p d :
  (∀ a b : cluster_row, cr_tenant a = cr_tenant b → cr_id a = cr_id b → p a = p b) →
  existsb p (tb_clusters (record_meta t id rep at_ d)) = existsb p (tb_clusters d).
Proof.
  intros Hp. cbn. induction (tb_clusters d) as [|r l IH]; [done|]. cbn [map existsb]. rewrite IH. f_equal.
  destruct (is_cluster t id r); [by apply Hp|done].
Qed.

Lemma recorded_schema t id sid rep at_ j d :
  schema_ok d → existsb (is_cluster t id) (tb_clusters d) = true → scan_key_taken t sid d = false →
  schema_ok (recorded t id sid rep at_ j d).
Proof.
  intros [H1 H2 H3 H4 H5] Hcl Hk. unfold recorded, record_history. destruct (postureControls rep) as [a b].
  split; rewrite ?existsb_meta.
  - cbn. rewrite map_map. erewrite map_ext; [exact H1|]. intros r. cbn. by destruct (is_cluster t id r).
  - cbn. rewrite map_app, map_map. apply NoDup_snoc.
    + erewrite map_ext; [exact H2|]. intros r. unfold clear_latest. by destruct (is_scan_of t id r).
    + intros (r & E & Hr)%list_elem_of_fmap. apply not_true_iff_false in Hk. apply Hk, existsb_elem. exists r.
      split; [done|]. unfold clear_latest in E. destruct (is_scan_of t id r); cbn in E; injection E as -> ->;
        by rewrite !String.eqb_refl.
  - intros t' id'. cbn [tb_scans record_meta set_clusters set_history record_insert set_scans record_clear].
    rewrite List.filter_app, length_app, latest_clear. cbn [List.filter].
    match goal with |- context [is_scan_of t' id' ?r] => change (is_scan_of t' id' r) with ((t =s t') && (id =s id')) end.
    destruct ((t =s t') && (id =s id')); cbn; [done|]. rewrite length_map, Nat.add_0_r. apply H3.
  - intros r Hr. rewrite existsb_meta by (unfold is_cluster; by intros ?? -> ->).
    cbn in Hr. apply elem_of_app in Hr as [(r' & -> & Hr)%list_elem_of_fmap| ->%list_elem_of_singleton]; [|exact Hcl].
    replace (is_cluster _ _) with (is_cluster (sr_tenant r') (sr_cluster_id r')); [by apply H4|].
    unfold clear_latest. by destruct (is_scan_of t id r').
  - intros r Hr. rewrite existsb_meta by (unfold is_cluster; by intros ?? -> ->).
    cbn in Hr. apply elem_of_app in Hr as [Hr| ->%list_elem_of_singleton]; [by apply H5|exact Hcl].
Qed.

Section schema.
Variable marshal : Report → option json.

(** A scan is recorded as a whole or not at all. *)
Lemma record_tx_spec ok t id sid rep at_ d :
  record_tx marshal ok t id sid rep at_ d = None ∨
  ∃ j, marshal rep = Some j ∧ scan_key_taken t sid d = false ∧
    record_tx marshal ok t id sid rep at_ d =
    Some (recorded t id sid rep at_ j (insert_cluster (mkClusterRow t id id None None 0 fzero) d)).
Proof.
  unfold record_tx. destruct (negb (forallb ok [0; 1; 2])); [by left|]. set (d1 := insert_cluster _ d).
  assert (scan_key_taken t sid (record_clear t id d1) = scan_key_taken t sid d) as ->.
  { unfold scan_key_taken. cbn. unfold d1. rewrite insert_cluster_scans. induction (tb_scans d) as [|r l IH]; [done|]. cbn. rewrite IH.
    unfold clear_latest. by destruct (is_scan_of t id r). }
  destruct (scan_key_taken t sid d); [by left|]. cbn [orb]. destruct (negb _); [by left|].
  destruct (marshal rep) as [j|]; [right; by exists j|by left].
Qed.

Lemma record_scan_schema ok t id sid rep at_ d : schema_ok d → schema_ok (RecordScan marshal ok t id sid rep at_ d).1.
Proof.
  intros H. unfold RecordScan. cbn [fst]. destruct (record_tx_spec ok t id sid rep at_ d) as [->|(j & _ & Hk & ->)]; [done|].
  cbn [default from_option]. apply recorded_schema; [by apply insert_cluster_schema| |].
  - by apply existsb_insert.
  - rewrite <-Hk. unfold scan_key_taken. by rewrite insert_cluster_scans.
Qed.

(** C36: Whatever statements fail and in whatever order the methods run, the tables keep the keys
    the code counts on: cluster ids and scan ids are unique in a tenant, a cluster has at most one
    latest scan, and no scan or history row is left without its cluster. *)
Theorem schema_kept d : stored marshal d → schema_ok d.
Proof.
  induction 1 as [|ok o d _ IH|ok e d _ IH|ok cutoff d _ IH].
  - split; [apply NoDup_nil_2|apply NoDup_nil_2|intros; cbn; lia|by intros ? ?%elem_of_nil..].
  - destruct o as [t c|t id|t id sid rep at_|t n|t|t id fs now|t lc]; cbn [pg_op].
    + unfold RegisterCluster, exec. destruct (ok 1); [apply insert_cluster_schema|];
        (destruct (ok 0); [|done]; destruct (tb_tenants d !! t); [done|by eapply schema_ext; [..|exact IH]]).
    + by apply delete_cluster_schema.
    + by apply record_scan_schema.
    + unfold ProvisionTenant, exec. cbn [fst]. destruct (ok 0); [by eapply schema_ext; [..|exact IH]|done].
    + by apply delete_tenant_schema.
    + destruct (seed_rows_tables ok 0 t id now fs d) as (E1 & E2 & E3). by eapply schema_ext; [..|exact IH].
    + unfold UpsertLifecycle, exec. destruct (ok 0); [by eapply schema_ext; [..|exact IH]|done].
  - unfold AuditInsert, exec. destruct (ok 0); [by eapply schema_ext; [..|exact IH]|done].
  - by apply retention_schema.
Qed.

(** A scan whose transaction fails leaves no trace, yet the caller is told it succeeded. *)
Lemma unstored_scan_succeeds ok t id sid rep at_ d :
  ok 6 = false →
  RecordScan marshal ok t id sid rep at_ d =
  (d, mkScan sid id ScanSucceeded at_ at_ (Z.of_nat (length (rep_Findings rep)))).
Proof.
  intros H. unfold RecordScan. destruct (record_tx marshal ok t id sid rep at_ d) eqn:E; [|done].
  unfold record_tx in E. destruct (negb _); [done|]. cbn [forallb] in E. rewrite H, !andb_false_r in E.
  by rewrite orb_true_r in E.
Qed.

(** The deletion statements run before the code asks whether the cluster exists. *)
Lemma absent_cluster_loses_triage t id key row d :
  existsb (is_cluster t id) (tb_clusters d) = false → lr_cluster_id row = id → tb_lifecycle d !! (t, key) = Some row →
  (DeleteCluster ok_all t id d).2 = false ∧ GetLifecycle (DeleteCluster ok_all t id d).1 t key = None.
Proof.
  intros Hex Hid Hrow. split; [exact Hex|]. unfold GetLifecycle. cbn. rewrite map_lookup_filter, Hrow. cbn.
  case_guard as Hg; [|done]. by destruct Hg.
Qed.
End schema.

(** * Retention *)

Lemma latest_kept (p q : scan_row → bool) l :
  (∀ r, q r = true → sr_is_latest r = false) →
  List.filter (λ r, p r && sr_is_latest r) (List.filter (λ r, negb (q r)) l) = List.filter (λ r, p r && sr_is_latest r) l.
Proof.
  intros Hq. rewrite list_filter_filter. apply list_filter_ext. intros r _.
  destruct (q r) eqn:E; [|done]. by rewrite (Hq r E), andb_false_r.
Qed.

Lemma find_head {A} (p : A → bool) l : List.find p l = head (List.filter p l).
Proof. induction l as [|x l IH]; [done|]. simpl. by destruct (p x). Qed.

Lemma count_filtered {A} (p : A → bool) l : (count p l + Z.of_nat (length (List.filter (λ x, negb (p x)) l)) = Z.of_nat (length l))%Z.
Proof. unfold count. induction l as [|x l IH]; [done|]. simpl in *. destruct (p x); simpl in *; lia. Qed.

(** retention never takes a report away: whichever of its two statements fail, every cluster
    and every report, of one cluster or of the fleet, is as before; when both succeed, the rows that
    are left are those not older than the cutoff or still the latest of their cluster, and the
    number returned is how many are gone. *)
Theorem retention_keeps unmarshal ok cutoff d t :
  let r := Retention ok cutoff d in
  ListClusters r.1 t = ListClusters d t ∧
  (∀ id, ReportOf unmarshal r.1 t id = ReportOf unmarshal d t id) ∧
  (∀ n, r.2 = Some n →
     (∀ s, s ∈ tb_scans r.1 ↔
        s ∈ tb_scans d ∧ (sr_is_latest s = true ∨ sr_started_at s = None ∨ coalesce (sr_started_at s) <s cutoff = false)) ∧
     (∀ h, h ∈ tb_history r.1 ↔ h ∈ tb_history d ∧ hr_at h <s cutoff = false) ∧
     (n + Z.of_nat (length (tb_scans r.1)) + Z.of_nat (length (tb_history r.1)) =
      Z.of_nat (length (tb_scans d)) + Z.of_nat (length (tb_history d)))%Z).
Proof.
  assert (∀ s, old_scan cutoff s = true → sr_is_latest s = false) as Hold
    by (unfold old_scan; intros s; by destruct (sr_is_latest s)).
  assert (∀ d' id, tb_scans d' = List.filter (λ s, negb (old_scan cutoff s)) (tb_scans d) →
    ReportOf unmarshal d' t id = ReportOf unmarshal d t id) as Hrep.
  { intros d' id E. unfold ReportOf. by rewrite E, !find_head, !latest_kept by exact Hold. }
  unfold Retention. destruct (ok 0); cbn [negb fst snd]; [|done].
  destruct (ok 1); cbn [negb fst snd]; [|by split; [|split; [intros; by apply Hrep|]]].
  split; [done|]. split; [intros; by apply Hrep|]. intros n [= <-].
  cbn [tb_scans tb_history set_history set_scans]. split; [|split].
  - intros s. rewrite elem_of_list_filter. apply and_iff_compat_l. unfold old_scan.
    destruct (sr_is_latest s); cbn [negb andb]; [tauto|].
    destruct (sr_started_at s) as [a|]; cbn [negb coalesce default from_option]; [|tauto].
    rewrite negb_true_iff. unfold coalesce. cbn. split; [tauto|]. by intros [?|[?|?]].
  - intros h. rewrite elem_of_list_filter, negb_true_iff. done.
  - pose proof (count_filtered (old_scan cutoff) (tb_scans d)).
    pose proof (count_filtered (old_history cutoff) (tb_history d)). lia.
Qed.

(** * Witnesses *)

Lemma schema_kept_witness :
  let scan id := OpRecordScan "a" "prod" id zero_report "2026-01-01T00:00:00Z" in
  let marshal := λ _ : Report, Some JNull in
  let d := pg_op marshal ok_all (scan "scan-2") (pg_op marshal ok_all (scan "scan-1") empty_db) in
  schema_ok d ∧ map sr_is_latest (tb_scans d) = [false; true].
Proof.
  intros scan marshal d. split; [|reflexivity]. apply (schema_kept marshal).
  exact (stored_op _ _ _ _ (stored_op _ _ _ _ (stored_new _))).
Defined.

Lemma retention_keeps_witness :
  let marshal := λ _ : Report, Some JNull in
  let scan id at_ := OpRecordScan "a" "prod" id zero_report at_ in
  let d := pg_op marshal ok_all (scan "scan-2" "2026-02-01T00:00:00Z")
             (pg_op marshal ok_all (scan "scan-1" "2026-01-01T00:00:00Z") empty_db) in
  let r := Retention ok_all "2026-03-01T00:00:00Z" d in
  map sr_id (tb_scans r.1) = ["scan-2"] ∧ r.2 = Some 3%Z ∧
  ReportOf (λ _, Some zero_report) r.1 "a" "prod" = ReportOf (λ _, Some zero_report) d "a" "prod".
Proof. intros marshal scan d r. split_and!; [reflexivity|reflexivity|apply retention_keeps]. Defined.
