(* ===== verification/PgSim.v ===== *)
(** The agreement of the Postgres store with the in-memory store: a simulation between the tables
    and the partitions, kept by every operation of the [Store] interface when its statements
    succeed, and what it gives for the queries. *)

From S2P Require Import Prelude GoStrings GoJson GoFloat Api Risk ReportJson Lifecycle MemStore Auth PgStore.

Lemma remove_first_filter id l : NoDup l → remove_first id l = List.filter (λ x, x <>s id) l.
Proof.
  induction 1 as [|x l Hx Hl IH]; [done|]. simpl. destruct (String.eqb_spec x id) as [->|]; simpl; [|by rewrite IH].
  symmetry. rewrite (list_filter_ext _ (λ _, true)); [apply list_filter_true|].
  intros y Hy. apply negb_true_iff, String.eqb_neq. by intros ->.
Qed.

Lemma coalesce_nullStr s : coalesce (nullStr s) = s.
Proof. unfold coalesce, nullStr. by destruct (String.eqb_spec s ""). Qed.

(** * The simulation

    [sim_core d T]: the tables hold the partitions [T]. *)

Section sim.
Variable marshal : Report → option json.
Variable unmarshal : json → option Report.

Notation row_report := (λ r, unmarshal (sr_report r)).

Record sim_core (d : db) (T : string → tenantState) : Prop := {
  sim_order t : map cr_id (List.filter (λ r, cr_tenant r =s t) (tb_clusters d)) = ts_order (T t);
  sim_meta r : r ∈ tb_clusters d → cs_meta <$> ts_clusters (T (cr_tenant r)) !! cr_id r = Some (to_cluster r);
  sim_scans t id : map to_scan (List.filter (is_scan_of t id) (tb_scans d)) =
    match ts_clusters (T t) !! id with Some cs => rev (cs_scans cs) | None => [] end;
  sim_latest t id : map row_report (List.filter (λ r, is_scan_of t id r && sr_is_latest r) (tb_scans d)) =
    match ts_clusters (T t) !! id with
    | Some cs => if cs_hasScan cs then [Some (as_read (cs_latest cs))] else []
    | None => []
    end;
  sim_history t id : map to_snapshot (List.filter (is_history_of t id) (tb_history d)) =
    match ts_clusters (T t) !! id with Some cs => cs_history cs | None => [] end
}.

Definition sim_rows (d : db) (R : string → gmap string FindingLifecycle) : Prop :=
  ∀ t k, scanLifecycle k <$> tb_lifecycle d !! (t, k) = R t !! k.

Definition sim (d : db) (m : MemStore) : Prop := sim_core d (tenant m) ∧ sim_rows d (rows_of m).

Lemma existsb_cluster d T t id :
  sim_core d T → tenant_ok (T t) →
  existsb (is_cluster t id) (tb_clusters d) = true ↔ is_Some (ts_clusters (T t) !! id).
Proof.
  intros Hs Hok. rewrite <-(to_order _ Hok), <-(sim_order _ _ Hs), existsb_elem, list_elem_of_fmap.
  setoid_rewrite elem_of_list_filter. unfold is_cluster. setoid_rewrite andb_true_iff.
  setoid_rewrite String.eqb_eq. naive_solver.
Qed.

(** A cluster without scans is added. *)
Lemma insert_cluster_sim r d T :
  sim_core d T → tenant_ok (T (cr_tenant r)) →
  sim_core (insert_cluster r d) (λ t, if cr_tenant r =s t then
    match ts_clusters (T t) !! cr_id r with
    | Some _ => T t
    | None => mkTenantState (<[cr_id r := new_cluster (to_cluster r)]> (ts_clusters (T t)))
                (ts_order (T t) ++ [cr_id r]) (ts_displayName (T t))
    end else T t).
Proof.
  intros Hs Hok. pose proof (existsb_cluster _ _ _ (cr_id r) Hs Hok) as Hex. unfold insert_cluster.
  destruct (ts_clusters (T (cr_tenant r)) !! cr_id r) as [cs|] eqn:E.
  - rewrite (proj2 Hex) by eauto.
    assert (∀ t, (if cr_tenant r =s t then match ts_clusters (T t) !! cr_id r with
      | Some _ => T t | None => mkTenantState (<[cr_id r := new_cluster (to_cluster r)]> (ts_clusters (T t)))
          (ts_order (T t) ++ [cr_id r]) (ts_displayName (T t)) end else T t) = T t) as HT.
    { intros t. destruct (String.eqb_spec (cr_tenant r) t) as [<-|]; [by rewrite E|done]. }
    destruct Hs as [H1 H2 H3 H4 H5]. split; intros; rewrite HT; auto.
  - destruct (existsb _ _); [destruct (proj1 Hex eq_refl); congruence|]. clear Hex.
    destruct Hs as [H1 H2 H3 H4 H5]. split; cbn [tb_clusters tb_scans tb_history set_clusters].
    + intros t. rewrite List.filter_app, map_app, H1. cbn [List.filter].
      destruct (String.eqb_spec (cr_tenant r) t) as [<-|]; [by rewrite E|by rewrite app_nil_r].
    + intros r' [Hr'| ->%list_elem_of_singleton]%elem_of_app.
      * specialize (H2 r' Hr'). destruct (String.eqb_spec (cr_tenant r) (cr_tenant r')) as [Ht|]; [|done].
        rewrite <-Ht in *. rewrite E. cbn [ts_clusters]. rewrite lookup_insert_ne; [done|].
        intros Hid. rewrite <-Hid, E in H2. done.
      * rewrite String.eqb_refl, E. cbn [ts_clusters]. by rewrite lookup_insert_eq.
    + intros t id. rewrite H3. destruct (String.eqb_spec (cr_tenant r) t) as [<-|]; [|done]. rewrite E.
      cbn [ts_clusters]. rewrite lookup_insert. case_decide as Hid; [|done]. by rewrite <-Hid, E.
    + intros t id. rewrite H4. destruct (String.eqb_spec (cr_tenant r) t) as [<-|]; [|done]. rewrite E.
      cbn [ts_clusters]. rewrite lookup_insert. case_decide as Hid; [|done]. by rewrite <-Hid, E.
    + intros t id. rewrite H5. destruct (String.eqb_spec (cr_tenant r) t) as [<-|]; [|done]. rewrite E.
      cbn [ts_clusters]. rewrite lookup_insert. case_decide as Hid; [|done]. by rewrite <-Hid, E.
Qed.

Lemma recorded_sim t id sid rep at_ j d T cs :
  sim_core d T → ts_clusters (T t) !! id = Some cs → unmarshal j = Some (as_read rep) →
  sim_core (recorded t id sid rep at_ j d) (λ t', if t =s t'
    then mkTenantState (<[id := after_scan cs id sid rep at_]> (ts_clusters (T t'))) (ts_order (T t')) (ts_displayName (T t'))
    else T t').
Proof.
  intros [H1 H2 H3 H4 H5] Hcs Hj.
  assert (∀ t' id', is_scan_of t' id' (mkScanRow t sid id ScanSucceeded (Some at_) (Some at_)
    (Z.of_nat (length (rep_Findings rep))) true j) = (t =s t') && (id =s id')) as Hnew by done.
  unfold recorded, record_history. destruct (postureControls rep) as [a b] eqn:Epc.
  split; cbn [tb_clusters tb_scans tb_history record_meta set_clusters set_history record_insert set_scans record_clear].
  - intros t'. rewrite list_filter_map, map_map.
    erewrite map_ext; [erewrite list_filter_ext|]; [rewrite (H1 t'); by destruct (t =s t')| |].
    + intros r _. simpl. by destruct (is_cluster t id r).
    + intros r. simpl. by destruct (is_cluster t id r).
  - intros r' (r & -> & Hr)%list_elem_of_fmap. specialize (H2 r Hr).
    destruct (is_cluster t id r) eqn:Ec; cbn [cr_tenant cr_id].
    + unfold is_cluster in Ec. apply andb_true_iff in Ec as [Ht%String.eqb_eq Hid%String.eqb_eq].
      rewrite Ht, Hid, Hcs in H2. rewrite Ht, Hid, String.eqb_refl. cbn [ts_clusters]. rewrite lookup_insert_eq.
      change (Some (cs_meta cs) = Some (to_cluster r)) in H2. injection H2 as H2.
      change (Some (cs_meta (after_scan cs id sid rep at_)) = Some (to_cluster
        (mkClusterRow t id (cr_name r) (cr_environment r) (Some at_) (Z.of_nat (length (rep_Findings rep)))
           (ps_OverallPassRate (rep_Posture rep))))).
      unfold after_scan. cbn [cs_meta]. rewrite H2. cbn. by rewrite Hid.
    + destruct (String.eqb_spec t (cr_tenant r)) as [Ht|]; [|done]. cbn [ts_clusters].
      rewrite lookup_insert_ne; [done|]. intros Hid. unfold is_cluster in Ec.
      by rewrite <-Ht, Hid, !String.eqb_refl in Ec.
  - intros t' id'. rewrite List.filter_app, map_app, list_filter_map, map_map.
    rewrite (map_ext _ _ (to_scan_clear t id)), (list_filter_ext _ _ _ (λ r _, is_scan_clear t id t' id' r)), H3.
    cbn [List.filter]. rewrite Hnew. destruct (String.eqb_spec t t') as [<-|]; cbn [andb]; [|by rewrite app_nil_r].
    cbn [ts_clusters]. rewrite lookup_insert. destruct (String.eqb_spec id id') as [<-|];
      [rewrite decide_True by done|rewrite decide_False by done; by rewrite app_nil_r].
    by rewrite Hcs.
  - intros t' id'. rewrite List.filter_app, map_app, latest_clear. cbn [List.filter]. rewrite Hnew.
    assert (∀ l, map row_report (map (clear_latest t id) l) = map row_report l) as Hrep.
    { intros l. rewrite map_map. apply map_ext. intros r. by rewrite report_clear. }
    destruct (String.eqb_spec t t') as [<-|Ht]; cbn [andb]; [|by rewrite Hrep, app_nil_r].
    cbn [ts_clusters]. rewrite lookup_insert. destruct (String.eqb_spec id id') as [<-|Hid]; cbn [andb].
    + rewrite decide_True by done. cbn. by rewrite Hj.
    + rewrite decide_False by done. by rewrite Hrep, app_nil_r.
  - intros t' id'. rewrite List.filter_app, map_app, H5. cbn [List.filter].
    match goal with |- context [is_history_of t' id' ?r] =>
      change (is_history_of t' id' r) with ((t =s t') && (id =s id')) end.
    destruct (String.eqb_spec t t') as [<-|]; cbn [andb]; [|by rewrite app_nil_r].
    cbn [ts_clusters]. rewrite lookup_insert. destruct (String.eqb_spec id id') as [<-|];
      [rewrite decide_True by done|rewrite decide_False by done; by rewrite app_nil_r].
    rewrite Hcs. cbn. unfold after_scan. by rewrite Epc.
Qed.

(** A row of one cluster is none of another. *)
Ltac row_off :=
  let r := fresh "r" in let Hr := fresh "Hr" in
  intros r Hr; unfold is_cluster, is_scan_of, is_history_of in *;
  rewrite ?andb_true_iff, ?String.eqb_eq in Hr; apply andb_false_iff; rewrite !String.eqb_neq;
  repeat match type of Hr with _ ∧ _ => let H := fresh in destruct Hr as [Hr H] end;
  first [left; congruence | right; congruence].

(** A cluster is removed with its scans and history. *)
Lemma delete_cluster_sim t id d T :
  sim_core d T → NoDup (ts_order (T t)) →
  sim_core (delete_cluster t id (delete_scans_of t id (delete_history_of t id d))) (λ t', if t =s t'
    then mkTenantState (delete id (ts_clusters (T t'))) (remove_first id (ts_order (T t'))) (ts_displayName (T t'))
    else T t').
Proof.
  intros [H1 H2 H3 H4 H5] Hnd.
  assert (∀ {A B} (f : A → B) (p q : A → bool) (l : list A), (∀ x, p x = true → q x = true) →
    map f (List.filter p (List.filter (λ x, negb (q x)) l)) = []) as Hgone.
  { intros A B f p q l Hpq. rewrite list_filter_filter, list_filter_none; [done|]. intros x _.
    destruct (q x) eqn:E; [done|]. simpl. destruct (p x) eqn:E'; [|done]. by rewrite (Hpq x E') in E. }
  assert (∀ {A B} (f : A → B) (p q : A → bool) (l : list A), (∀ x, p x = true → q x = false) →
    map f (List.filter p (List.filter (λ x, negb (q x)) l)) = map f (List.filter p l)) as Hkept.
  { intros A B f p q l Hpq. rewrite list_filter_filter. f_equal. apply list_filter_ext. intros x _.
    destruct (p x) eqn:E'; [by rewrite (Hpq x E')|by rewrite andb_false_r]. }
  split; cbn [tb_clusters tb_scans tb_history delete_cluster delete_scans_of delete_history_of set_clusters set_scans set_history].
  - intros t'. destruct (String.eqb_spec t t') as [<-|Ht]; cbn [ts_order].
    + rewrite (remove_first_filter _ _ Hnd), <-H1, list_filter_map, !list_filter_filter. f_equal.
      apply list_filter_ext. intros r _. unfold is_cluster.
      by destruct (cr_tenant r =s t), (cr_id r =s id).
    + rewrite <-H1. apply Hkept. row_off.
  - intros r [Hr Hc]%elem_of_list_filter. specialize (H2 r Hr). destruct (String.eqb_spec t (cr_tenant r)) as [Ht|]; [|done].
    cbn [ts_clusters]. rewrite lookup_delete_ne; [done|]. intros Hid. unfold is_cluster in Hc.
    by rewrite Ht, Hid, !String.eqb_refl in Hc.
  - intros t' id'. destruct (String.eqb_spec t t') as [<-|Ht]; cbn [ts_clusters]; [rewrite lookup_delete; case_decide as Hid|].
    + subst id'. by apply Hgone.
    + rewrite <-H3. apply Hkept. row_off.
    + rewrite <-H3. apply Hkept. row_off.
  - intros t' id'. destruct (String.eqb_spec t t') as [<-|Ht]; cbn [ts_clusters]; [rewrite lookup_delete; case_decide as Hid|].
    + subst id'. apply Hgone. by intros r [? _]%andb_true_iff.
    + rewrite <-H4. apply Hkept. row_off.
    + rewrite <-H4. apply Hkept. row_off.
  - intros t' id'. destruct (String.eqb_spec t t') as [<-|Ht]; cbn [ts_clusters]; [rewrite lookup_delete; case_decide as Hid|].
    + subst id'. by apply Hgone.
    + rewrite <-H5. apply Hkept. row_off.
    + rewrite <-H5. apply Hkept. row_off.
Qed.

(** A tenant is erased. *)
Lemma delete_tenant_sim t d T :
  sim_core d T → sim_core (DeleteTenant (λ _, true) t d).1 (λ t', if t =s t' then new_tenant else T t').
Proof.
  intros [H1 H2 H3 H4 H5].
  assert (∀ {A B} (f : A → B) (tn : A → string) (p : A → bool) (l : list A), (∀ x, p x = true → tn x = t) →
    map f (List.filter p (List.filter (λ x, tn x <>s t) l)) = []) as Hgone.
  { intros A B f tn p l Hp. rewrite list_filter_filter, list_filter_none; [done|]. intros x _.
    destruct (String.eqb_spec (tn x) t); [done|]. simpl. destruct (p x) eqn:E; [by apply Hp in E|done]. }
  assert (∀ {A B} (f : A → B) (tn : A → string) (p : A → bool) (l : list A), (∀ x, p x = true → tn x ≠ t) →
    map f (List.filter p (List.filter (λ x, tn x <>s t) l)) = map f (List.filter p l)) as Hkept.
  { intros A B f tn p l Hp. rewrite list_filter_filter. f_equal. apply list_filter_ext. intros x _.
    destruct (p x) eqn:E; [|by rewrite andb_false_r]. apply Hp in E. by rewrite (proj2 (String.eqb_neq _ _) E). }
  split; cbn [DeleteTenant run_tables delete_tables fst tb_clusters tb_scans tb_history set_lifecycle set_audit
                set_history set_scans set_clusters set_tenants].
  - intros t'. destruct (String.eqb_spec t t') as [<-|Ht].
    + apply Hgone. by intros r ->%String.eqb_eq.
    + rewrite <-H1. apply Hkept. intros r Hr%String.eqb_eq. congruence.
  - intros r [Hr Ht]%elem_of_list_filter. apply negb_true_iff, String.eqb_neq in Ht.
    rewrite (proj2 (String.eqb_neq t (cr_tenant r))) by congruence. by apply H2.
  - intros t' id. destruct (String.eqb_spec t t') as [<-|Ht].
    + apply Hgone. intros r Hr. unfold is_scan_of in Hr. boolify. done.
    + rewrite <-H3. apply Hkept. intros r Hr. unfold is_scan_of in Hr. boolify. congruence.
  - intros t' id. destruct (String.eqb_spec t t') as [<-|Ht].
    + apply Hgone. intros r Hr. unfold is_scan_of in Hr. boolify. done.
    + rewrite <-H4. apply Hkept. intros r Hr. unfold is_scan_of in Hr. boolify. congruence.
  - intros t' id. destruct (String.eqb_spec t t') as [<-|Ht].
    + apply Hgone. intros r Hr. unfold is_history_of in Hr. boolify. done.
    + rewrite <-H5. apply Hkept. intros r Hr. unfold is_history_of in Hr. boolify. congruence.
Qed.

(** Only three tables matter for [sim_core], and of a partition its clusters and their order. *)
Lemma sim_core_weak d d' T T' :
  tb_clusters d' = tb_clusters d → tb_scans d' = tb_scans d → tb_history d' = tb_history d →
  (∀ t, ts_clusters (T' t) = ts_clusters (T t) ∧ ts_order (T' t) = ts_order (T t)) → sim_core d T → sim_core d' T'.
Proof.
  intros E1 E2 E3 ET [H1 H2 H3 H4 H5].
  split; intros; rewrite ?E1, ?E2, ?E3, ?(proj1 (ET _)), ?(proj2 (ET _)) in *; auto.
Qed.

Lemma sim_core_ext d d' T T' :
  tb_clusters d' = tb_clusters d → tb_scans d' = tb_scans d → tb_history d' = tb_history d →
  (∀ t, T' t = T t) → sim_core d T → sim_core d' T'.
Proof. intros E1 E2 E3 ET. apply sim_core_weak; [done..|]. intros t. by rewrite ET. Qed.

Lemma scan_seed_row key id f now :
  scanLifecycle key (mkLifecycleRow id (f_ID f) (nullStr (rr_Kind (f_Resource f))) (nullStr (rr_Namespace (f_Resource f)))
    (nullStr (rr_Name (f_Resource f))) StateOpen None None (Some now) (Some now) None) =
  mkLifecycle key id (f_ID f) (f_Resource f) StateOpen "" None now now "".
Proof. unfold scanLifecycle. cbn. rewrite !coalesce_nullStr. by destruct (f_Resource f). Qed.

Lemma scan_lifecycle_row lc : scanLifecycle (lc_Key lc) (lifecycle_to_row lc) = lc.
Proof. unfold scanLifecycle. destruct lc as [? ? ? []]. cbn. by rewrite !coalesce_nullStr. Qed.

Lemma seed_rows_sim i t id now fs d R :
  sim_rows d R →
  sim_rows (seed_rows (λ _, true) i t id now fs d)
    (λ t', if t =s t' then foldl (seed_finding id now) (R t') fs else R t').
Proof.
  revert i d R. induction fs as [|f fs IH]; intros i d R H; cbn [seed_rows foldl].
  - intros t' k. rewrite H. by destruct (t =s t').
  - intros t' k.
    rewrite (IH (S i) _ (λ t', if t =s t' then seed_finding id now (R t') f else R t'));
      [by destruct (t =s t')|]. clear IH t' k. intros t' k. unfold insert_lifecycle, seed_finding.
    pose proof (H t (LifecycleKey id f)) as Hkey.
    destruct (tb_lifecycle d !! (t, LifecycleKey id f)) as [row|] eqn:E; cbn [fmap option_fmap option_map] in Hkey.
    + rewrite H. destruct (String.eqb_spec t t') as [<-|]; [by rewrite <-Hkey|done].
    + cbn [tb_lifecycle set_lifecycle]. rewrite lookup_insert.
      destruct (String.eqb_spec t t') as [<-|Ht].
      * rewrite <-Hkey, lookup_insert. destruct (decide (LifecycleKey id f = k)) as [<-|Hk].
        -- rewrite decide_True by done. cbn. by rewrite scan_seed_row.
        -- rewrite decide_False by congruence. apply H.
      * rewrite decide_False by congruence. apply H.
Qed.

(** * The same operation on both stores *)

(** What the two stores are used with: a cluster is registered without scan results; a cluster
    that is deleted exists, or has no triage rows; a scan has a new id, and its report survives its
    JSON encoding. *)
Definition fits (m : MemStore) (o : op) : Prop :=
  match o with
  | OpRegister _ c => cl_LastScanAt c = "" ∧ cl_TotalFindings c = 0%Z ∧ cl_OverallPassRate c = fzero
  | OpDeleteCluster t id =>
      is_Some (clusters m t !! id) ∨ ∀ k lc, rows_of m t !! k = Some lc → lc_ClusterID lc ≠ id
  | OpRecordScan t _ sid rep _ =>
      (∀ id cs sn, clusters m t !! id = Some cs → sn ∈ cs_scans cs → sn_ID sn ≠ sid) ∧
      ∃ j, marshal rep = Some j ∧ unmarshal j = Some (as_read rep)
  | _ => True
  end.

Lemma register_sim t c d m :
  store_ok m → fits m (OpRegister t c) → sim d m → sim (pg_op marshal ok_all (OpRegister t c) d) (apply_op (OpRegister t c) m).
Proof.
  intros Hm (Hs & Hf & Hr) [Hc Hrows]. cbn [pg_op apply_op]. unfold RegisterCluster, exec, ok_all.
  set (row := mkClusterRow t (cl_ID c) (cl_Name c) (nullStr (cl_Environment c)) None 0 fzero).
  assert (to_cluster row = c) as Hrow.
  { unfold to_cluster, row. cbn. rewrite coalesce_nullStr, <-Hs, <-Hf, <-Hr. by destruct c. }
  set (d0 := match tb_tenants d !! t with Some _ => d | None => _ end).
  assert (sim_core d0 (tenant m) ∧ tb_lifecycle d0 = tb_lifecycle d) as [Hc0 Hl0].
  { unfold d0. destruct (tb_tenants d !! t); [done|]. split; [|done]. by eapply sim_core_ext; [..|exact Hc]. }
  split.
  - eapply sim_core_ext; [..|apply (insert_cluster_sim row d0 _ Hc0); by apply tenant_is_ok]; try done.
    intros t'. rewrite Hrow. unfold MemStore.RegisterCluster. cbn [cr_tenant cr_id row].
    destruct (ts_clusters (tenant m t) !! cl_ID c) eqn:E; rewrite tenant_put;
      destruct (String.eqb_spec t t') as [<-|]; by rewrite ?E.
  - assert (tb_lifecycle (insert_cluster row d0) = tb_lifecycle d) as Hl.
    { unfold insert_cluster. rewrite <-Hl0. by destruct (existsb _ _). }
    intros t' k. rewrite Hl, Hrows. unfold MemStore.RegisterCluster.
    by destruct (ts_clusters (tenant m t) !! cl_ID c).
Qed.

Lemma record_sim t id sid rep at_ d m :
  store_ok m → fits m (OpRecordScan t id sid rep at_) → sim d m →
  sim (pg_op marshal ok_all (OpRecordScan t id sid rep at_) d) (apply_op (OpRecordScan t id sid rep at_) m).
Proof.
  intros Hm (Hfresh & j & Hj & Hj') [Hc Hrows]. cbn [pg_op apply_op]. unfold RecordScan, record_tx, ok_all.
  cbn [forallb negb andb].
  set (row := mkClusterRow t id id None None 0 fzero). set (d1 := insert_cluster row d).
  assert (tb_scans d1 = tb_scans d ∧ tb_lifecycle d1 = tb_lifecycle d) as [Hsc1 Hl1]
    by (unfold d1, insert_cluster; by destruct (existsb _ _)).
  assert (scan_key_taken t sid (record_clear t id d1) = false) as ->.
  { unfold scan_key_taken. apply not_true_iff_false. rewrite existsb_elem. cbn [tb_scans record_clear set_scans].
    intros (r' & (r & -> & Hr)%list_elem_of_fmap & Hk). rewrite Hsc1 in Hr.
    assert (sr_tenant r = t ∧ sr_id r = sid) as [Ht Hid] by (unfold clear_latest in Hk; destruct (is_scan_of t id r); simpl in Hk; boolify; done).
    pose proof (sim_scans _ _ Hc t (sr_cluster_id r)) as Hsim.
    assert (to_scan r ∈ map to_scan (List.filter (is_scan_of t (sr_cluster_id r)) (tb_scans d))) as Hin.
    { apply list_elem_of_fmap_2, elem_of_list_filter. split; [done|]. unfold is_scan_of.
      by rewrite Ht, !String.eqb_refl. }
    rewrite Hsim in Hin. destruct (ts_clusters (tenant m t) !! sr_cluster_id r) as [cs|] eqn:Ecs;
      [|by apply elem_of_nil in Hin].
    apply list_elem_of_In, in_rev, list_elem_of_In in Hin. destruct (Hfresh _ _ _ Ecs Hin Hid). }
  cbn [orb negb]. rewrite Hj. cbn [mbind option_bind fst].
  match goal with |- sim _ ?m' => change (sim (recorded t id sid rep at_ j d1) m') end.
  rewrite RecordScan_eq. cbn [fst]. split.
  - pose proof (insert_cluster_sim row d _ Hc (tenant_is_ok m t Hm)) as Hc1. fold d1 in Hc1.
    cbn [cr_tenant cr_id row] in Hc1. eapply sim_core_ext;
      [..|apply (recorded_sim t id sid rep at_ j d1 _ (scanned m t id) Hc1); [|exact Hj']]; try done.
    + intros t'. cbn beta. rewrite tenant_put. destruct (String.eqb_spec t t') as [<-|]; [|done].
      destruct (ts_clusters (tenant m t) !! id) eqn:E; cbn [ts_clusters ts_order ts_displayName]; [done|].
      by rewrite insert_insert_eq.
    + cbn beta. rewrite String.eqb_refl. unfold scanned.
      destruct (ts_clusters (tenant m t) !! id) eqn:E; [done|]. cbn [ts_clusters]. by rewrite lookup_insert_eq.
  - assert (tb_lifecycle (recorded t id sid rep at_ j d1) = tb_lifecycle d) as Hl.
    { rewrite <-Hl1. unfold recorded, record_history. by destruct (postureControls rep). }
    intros t' k. rewrite Hl. apply Hrows.
Qed.

Lemma delete_sim t id d m :
  store_ok m → fits m (OpDeleteCluster t id) → sim d m →
  sim (pg_op marshal ok_all (OpDeleteCluster t id) d) (apply_op (OpDeleteCluster t id) m).
Proof.
  intros Hm Hf [Hc Hrows]. cbn [pg_op apply_op]. unfold DeleteCluster, ok_all. cbn [negb fst].
  set (d0 := delete_lifecycle_of t id d).
  assert (sim_core d0 (tenant m)) as Hc0 by (by eapply sim_core_ext; [..|exact Hc]).
  pose proof (delete_cluster_sim t id d0 _ Hc0 (to_nodup _ (tenant_is_ok m t Hm))) as Hdel.
  assert (∀ t' k, scanLifecycle k <$> tb_lifecycle d0 !! (t', k) =
    if t =s t' then filter (λ kv : string * FindingLifecycle, lc_ClusterID kv.2 ≠ id) (rows_of m t) !! k
    else rows_of m t' !! k) as Hrow.
  { intros t' k. specialize (Hrows t' k). unfold d0, delete_lifecycle_of. cbn [tb_lifecycle set_lifecycle].
    rewrite !map_lookup_filter.
    destruct (tb_lifecycle d !! (t', k)) as [row|]; cbn [mbind option_bind fmap option_fmap option_map] in *.
    - destruct (String.eqb_spec t t') as [<-|Ht]; cbn [fst snd].
      + rewrite <-Hrows. cbn [mbind option_bind]. cbn. repeat case_guard; naive_solver.
      + rewrite <-Hrows. case_guard; naive_solver.
    - destruct (String.eqb_spec t t') as [<-|Ht]; [by rewrite <-Hrows|done]. }
  destruct (clusters m t !! id) as [cs|] eqn:Ecl.
  - assert (∃ ts, ms_tenants m !! t = Some ts ∧ tenant m t = ts ∧ ts_clusters ts !! id = Some cs) as (ts & Ets & Et & Ecs).
    { unfold clusters, tenant, map_get in *. destruct (ms_tenants m !! t) as [ts|]; [by exists ts|].
      cbn in Ecl. by rewrite lookup_empty in Ecl. }
    unfold MemStore.DeleteCluster. rewrite Ets, Ecs. cbn [fst]. split.
    + eapply sim_core_ext; [..|exact Hdel]; try done. intros t'.
      assert (∀ rows m', tenant (put_rows t rows m') t' = tenant m' t') as Hput by done.
      destruct (ms_lifecycle _ !! t); rewrite ?Hput, tenant_put;
        (destruct (String.eqb_spec t t') as [<-|]; [by rewrite Et|done]).
    + intros t' k. etransitivity; [exact (Hrow t' k)|]. cbn [ms_lifecycle put_tenant].
      destruct (ms_lifecycle m !! t) as [rows|] eqn:El.
      * rewrite rows_of_put_rows. destruct (String.eqb_spec t t') as [<-|]; [|done].
        unfold rows_of, map_get. by rewrite El.
      * rewrite rows_of_put_tenant. destruct (String.eqb_spec t t') as [<-|]; [|done].
        unfold rows_of, map_get. rewrite El. cbn. by rewrite map_filter_empty.
  - destruct Hf as [[? Hf]|Hf]; [congruence|].
    assert ((MemStore.DeleteCluster t id m).1 = m) as ->.
    { unfold MemStore.DeleteCluster, clusters, tenant, map_get in *. destruct (ms_tenants m !! t) as [ts|]; [|done].
      cbn in Ecl. by rewrite Ecl. }
    split.
    + eapply sim_core_ext; [..|exact Hdel]; try done. intros t'. cbn beta.
      destruct (String.eqb_spec t t') as [<-|]; [|done]. unfold clusters in Ecl. rewrite delete_id by done. rewrite remove_first_filter by apply tenant_is_ok, Hm.
      rewrite (list_filter_ext _ (λ _, true)).
      * rewrite list_filter_true. by destruct (tenant m t).
      * intros x Hx. apply negb_true_iff, String.eqb_neq. intros ->.
        apply (to_order _ (tenant_is_ok m t Hm)) in Hx as [? Hx]. congruence.
    + intros t' k. etransitivity; [exact (Hrow t' k)|]. destruct (String.eqb_spec t t') as [<-|]; [|done].
      rewrite map_filter_id; [done|]. intros k' lc Hk. by apply (Hf k').
Qed.

Lemma sim_step o d m :
  store_ok m → fits m o → sim d m → sim (pg_op marshal ok_all o d) (apply_op o m).
Proof.
  intros Hm Hf Hs. destruct o as [t c|t id|t id sid rep at_|t n|t|t id fs now|t lc].
  - by apply register_sim.
  - by apply delete_sim.
  - by apply record_sim.
  - destruct Hs as [Hc Hrows]. split; [|exact Hrows]. eapply sim_core_weak; [..|exact Hc]; try done. intros t'.
    cbn [apply_op]. unfold MemStore.ProvisionTenant. rewrite tenant_put.
    destruct (String.eqb_spec t t') as [<-|]; [|done]. by destruct (n <>s "").
  - destruct Hs as [Hc Hrows]. split.
    + eapply sim_core_ext; [..|exact (delete_tenant_sim t d _ Hc)]; try done. intros t'.
      cbn [apply_op]. unfold MemStore.DeleteTenant, tenant, map_get. cbn [ms_tenants]. rewrite lookup_delete.
      by destruct (String.eqb_spec t t'); case_decide.
    + intros t' k. specialize (Hrows t' k). cbn [pg_op apply_op].
      unfold DeleteTenant, run_tables, delete_tables, ok_all, MemStore.DeleteTenant, rows_of, map_get in *.
      cbn [fst tb_lifecycle set_lifecycle set_audit set_history set_scans set_clusters set_tenants ms_lifecycle].
      rewrite map_lookup_filter, lookup_delete. destruct (decide (t = t')) as [<-|].
      * etransitivity; [|symmetry; apply lookup_empty]. destruct (tb_lifecycle d !! (t, k)); cbn; [|done].
        by case_guard.
      * rewrite <-Hrows. destruct (tb_lifecycle d !! (t', k)); cbn; [|done]. case_guard as Hg; [done|]. by destruct Hg.
  - destruct Hs as [Hc Hrows]. destruct (seed_rows_tables ok_all 0 t id now fs d) as (E1 & E2 & E3). split.
    + by eapply sim_core_ext; [..|exact Hc].
    + intros t' k. etransitivity; [exact (seed_rows_sim 0 t id now fs d _ Hrows t' k)|].
      cbn [apply_op]. unfold MemStore.SeedFindings. rewrite rows_of_put_rows. by destruct (String.eqb_spec t t') as [<-|].
  - destruct Hs as [Hc Hrows]. split; [by eapply sim_core_ext; [..|exact Hc]|]. intros t' k.
    cbn [pg_op apply_op]. unfold UpsertLifecycle, exec, ok_all, MemStore.UpsertLifecycle.
    cbn [tb_lifecycle set_lifecycle]. rewrite rows_of_put_rows, lookup_insert.
    destruct (String.eqb_spec t t') as [<-|Ht].
    + rewrite lookup_insert. destruct (decide (lc_Key lc = k)) as [<-|Hk].
      * rewrite decide_True by done. cbn. by rewrite scan_lifecycle_row.
      * rewrite decide_False by congruence. apply Hrows.
    + rewrite decide_False by congruence. apply Hrows.
Qed.

(** Both stores after the same operations. *)
Inductive both : db → MemStore → Prop :=
| both_new : both empty_db NewMemStore
| both_op o d m : both d m → fits m o → both (pg_op marshal ok_all o d) (apply_op o m).

Lemma both_sim d m : both d m → reachable m ∧ sim d m.
Proof.
  induction 1 as [|o d m H [Hr Hs] Hf].
  - split; [constructor|]. split.
    + split; try done. by intros r ?%elem_of_nil.
    + intros t k. etransitivity; [|symmetry; apply lookup_empty]. cbn [tb_lifecycle empty_db]. by rewrite lookup_empty.
  - split; [by constructor|]. by apply sim_step; [apply reachable_ok|..].
Qed.

(** * Queries on both stores *)

Variable order_by : ∀ A, (A → A → bool) → list A → list A.
Arguments order_by {A}.
Hypothesis order_by_perm : ∀ A (less : A → A → bool) l, order_by less l ≡ₚ l.
Hypothesis order_by_sorted : ∀ A (less : A → A → bool) l, StrictWeak less → sorted_by less (order_by less l).

(** The two orders of a list by a time agree up to ties. *)
Lemma order_by_keys {A B} (f : A → B) (key : B → string) (lt : string → string → bool) `{!StrictTotal lt}
    (l : list A) (l' : list B) :
  map f l ≡ₚ l' →
  map f (order_by (λ a b, lt (key (f a)) (key (f b))) l) ≡ₚ slice_stable (λ a b, lt (key a) (key b)) l' ∧
  map key (map f (order_by (λ a b, lt (key (f a)) (key (f b))) l)) =
  map key (slice_stable (λ a b, lt (key a) (key b)) l').
Proof.
  intros Hp.
  pose proof (total_strict_weak lt) as Hlt.
  assert (StrictWeak (λ a b : B, lt (key a) (key b))) as HB by (split; intros *; [apply Hlt|apply Hlt|apply Hlt]).
  assert (StrictWeak (λ a b : A, lt (key (f a)) (key (f b)))) as HA by (split; intros *; [apply Hlt|apply Hlt|apply Hlt]).
  assert (map f (order_by (λ a b, lt (key (f a)) (key (f b))) l) ≡ₚ slice_stable (λ a b, lt (key a) (key b)) l') as H.
  { by rewrite order_by_perm, slice_stable_perm. }
  split; [done|]. apply (sorted_keys_unique key lt); [|by apply slice_stable_sorted|done].
  pose proof (order_by_sorted _ _ l HA) as Hs. clear -Hs. induction Hs as [|x l' Hl IH Hx]; simpl; constructor; [done|].
  by rewrite Forall_map.
Qed.

(** The rows of a cluster, or of every cluster of the tenant in turn. *)
Lemma where_cluster_perm {A} (tn cl : A → string) (l : list A) ts t id :
  NoDup (ts_order ts) → (∀ x, x ∈ l → tn x = t → cl x ∈ ts_order ts) →
  where_cluster tn cl t id l ≡ₚ
  concat (map (λ i, List.filter (λ x, (tn x =s t) && (cl x =s i)) l) (selected ts id)).
Proof.
  intros Hnd Hin. unfold where_cluster, selected. rewrite (filter_by_key _ cl (List.filter (λ i, (id =s "") || (i =s id)) (ts_order ts))).
  - apply reflexive_eq. f_equal. apply map_ext_in. intros i [_ Hi]%list_elem_of_In%elem_of_list_filter.
    apply list_filter_ext. intros x _. destruct (tn x =s t); [|done]. cbn [andb].
    destruct (String.eqb_spec (cl x) i) as [->|]; [|by rewrite andb_false_r].
    destruct (id =s ""); [done|]. cbn [orb] in *. by rewrite Hi.
  - by apply list_nodup_filter.
  - intros x Hx [Ht%String.eqb_eq Hi]%andb_true_iff. apply elem_of_list_filter. auto.
Qed.

Lemma per_cluster {A} (f : clusterState → list A) ts id :
  tenant_ok ts →
  mapM (λ i, f <$> deref ts i) (selected ts id) =
  Some (map (λ i, match ts_clusters ts !! i with Some cs => f cs | None => [] end) (selected ts id)).
Proof.
  intros Hts. destruct (mapM_deref f ts (selected ts id) Hts) as (css & _ & Hall & ->); [eauto with kg|].
  f_equal. induction Hall as [|i cs l css Hi Hall IH]; [done|]. cbn [map]. by rewrite Hi, IH.
Qed.

(** What the in-memory store lists of a tenant's clusters. *)
Definition fleet {A} (f : clusterState → list A) (m : MemStore) (t id : string) : list A :=
  concat (map (λ i, match clusters m t !! i with Some cs => f cs | None => [] end) (selected (tenant m t) id)).

Lemma History_fleet m t id :
  store_ok m → MemStore.History m t id = Some (slice_stable (λ a b, hs_At a <s hs_At b) (fleet cs_history m t id)).
Proof.
  intros Hm. unfold MemStore.History, fleet, clusters, tenant, map_get.
  destruct (ms_tenants m !! t) as [ts|] eqn:Et; [|done].
  by rewrite per_cluster by exact (so_tenants m Hm t ts Et).
Qed.

Lemma ListScans_fleet m t id limit offset :
  store_ok m → (0 < limit)%Z → (0 <= offset)%Z → (offset + limit < 2 ^ 63)%Z →
  let all := slice_stable (λ a b, sn_StartedAt b <s sn_StartedAt a) (fleet cs_scans m t id) in
  MemStore.ListScans m t id limit offset =
  Some (take (Z.to_nat limit) (drop (Z.to_nat offset) all), Z.of_nat (length all)).
Proof.
  intros Hm Hl Ho Hov. unfold MemStore.ListScans, fleet, clusters, tenant, map_get.
  destruct (ms_tenants m !! t) as [ts|] eqn:Et; [|cbn; by destruct (Z.to_nat offset), (Z.to_nat limit)].
  rewrite per_cluster by exact (so_tenants m Hm t ts Et). cbn [mbind option_bind default from_option].
  set (all := slice_stable _ _). cbn zeta. assert (page all limit offset = Some (take (Z.to_nat limit) (drop (Z.to_nat offset) all))) as ->; [|done].
  unfold page. set (n := Z.of_nat (length all)). set (start := if (offset >? n)%Z then n else offset).
  assert (start = Z.min offset n) as -> by (unfold start; destruct (Z.gtb_spec offset n); lia).
  rewrite wrap64_id by lia. rewrite (proj2 (Z.leb_gt limit 0)) by lia. cbn [orb].
  rewrite (proj2 (Z.leb_le 0 _)) by lia. cbn [andb].
  assert (drop (Z.to_nat (Z.min offset n)) all = drop (Z.to_nat offset) all) as ->.
  { destruct (Z.leb_spec offset n); [by rewrite Z.min_l by lia|]. rewrite !drop_ge by lia. done. }
  destruct (Z.gtb_spec (Z.min offset n + limit) n); rewrite (proj2 (Z.leb_le _ _)) by lia; f_equal.
  - rewrite !take_ge; [done|rewrite length_drop; lia..].
  - f_equal. lia.
Qed.

Section agreement.
Variable (d : db) (m : MemStore).
Hypothesis Hm : store_ok m.
Hypothesis Hsim : sim d m.

Lemma scans_registered t r : r ∈ tb_scans d → sr_tenant r = t → sr_cluster_id r ∈ ts_order (tenant m t).
Proof.
  intros Hr <-. apply (to_order _ (tenant_is_ok m _ Hm)). destruct Hsim as [Hc _].
  pose proof (sim_scans _ _ Hc (sr_tenant r) (sr_cluster_id r)) as E.
  destruct (ts_clusters _ !! _); [done|]. apply map_eq_nil in E.
  assert (r ∈ List.filter (is_scan_of (sr_tenant r) (sr_cluster_id r)) (tb_scans d)) as Hin; [|by rewrite E in Hin; apply elem_of_nil in Hin].
  apply elem_of_list_filter. unfold is_scan_of. by rewrite !String.eqb_refl.
Qed.

Lemma history_registered t r : r ∈ tb_history d → hr_tenant r = t → hr_cluster_id r ∈ ts_order (tenant m t).
Proof.
  intros Hr <-. apply (to_order _ (tenant_is_ok m _ Hm)). destruct Hsim as [Hc _].
  pose proof (sim_history _ _ Hc (hr_tenant r) (hr_cluster_id r)) as E.
  destruct (ts_clusters _ !! _); [done|]. apply map_eq_nil in E.
  assert (r ∈ List.filter (is_history_of (hr_tenant r) (hr_cluster_id r)) (tb_history d)) as Hin; [|by rewrite E in Hin; apply elem_of_nil in Hin].
  apply elem_of_list_filter. unfold is_history_of. by rewrite !String.eqb_refl.
Qed.

Lemma agree_clusters t : MemStore.ListClusters m t = Some (ListClusters d t).
Proof.
  destruct Hsim as [Hc _]. pose proof (sim_order _ _ Hc t) as Ho. pose proof (tenant_is_ok m t Hm) as Hts.
  assert (MemStore.ListClusters m t = mapM (λ id, cs_meta <$> deref (tenant m t) id) (ts_order (tenant m t))) as ->.
  { unfold MemStore.ListClusters, tenant, map_get. by destruct (ms_tenants m !! t). }
  destruct (mapM_deref cs_meta _ (ts_order (tenant m t)) Hts) as (css & _ & Hall & ->); [done|]. f_equal.
  unfold ListClusters. rewrite <-Ho in Hall. clear Ho.
  assert (∀ r, r ∈ List.filter (λ r, cr_tenant r =s t) (tb_clusters d) →
    cs_meta <$> ts_clusters (tenant m t) !! cr_id r = Some (to_cluster r)) as Hmeta.
  { intros r [Hr <-%String.eqb_eq]%elem_of_list_filter. by apply (sim_meta _ _ Hc). }
  revert css Hall. induction (List.filter _ _) as [|r l IH]; intros css Hall; cbn [map] in *.
  - by apply Forall2_nil_inv_l in Hall as ->.
  - apply Forall2_cons_inv_l in Hall as (cs & css' & Hcs & Hall & ->). cbn [map]. f_equal.
    + specialize (Hmeta r ltac:(left)). rewrite Hcs in Hmeta. by injection Hmeta.
    + apply IH; [|done]. intros r' Hr'. apply Hmeta. by right.
Qed.

Lemma agree_cluster t id : MemStore.GetCluster m t id = GetCluster d t id.
Proof.
  destruct Hsim as [Hc _]. rewrite GetCluster_clusters. unfold GetCluster, clusters.
  destruct (List.find (is_cluster t id) (tb_clusters d)) as [r|] eqn:E.
  - apply List.find_some in E as [Hr%list_elem_of_In [<-%String.eqb_eq <-%String.eqb_eq]%andb_true_iff].
    exact (sim_meta _ _ Hc r Hr).
  - pose proof (existsb_cluster d _ t id Hc (tenant_is_ok m t Hm)) as Hex.
    destruct (ts_clusters (tenant m t) !! id) eqn:Ecl; [|done]. destruct Hex as [_ Hex].
    apply existsb_elem in Hex as (r & Hr & Hk); [|eauto].
    by rewrite (List.find_none _ _ E r (proj1 (list_elem_of_In _ _) Hr)) in Hk.
Qed.

Lemma agree_deleted t id : (MemStore.DeleteCluster t id m).2 = (DeleteCluster ok_all t id d).2.
Proof.
  destruct Hsim as [Hc _]. cbn. unfold MemStore.DeleteCluster.
  pose proof (existsb_cluster d _ t id Hc (tenant_is_ok m t Hm)) as Hex. unfold tenant, map_get in Hex.
  change (existsb (is_cluster t id) (tb_clusters _)) with (existsb (is_cluster t id) (tb_clusters d)).
  destruct (ms_tenants m !! t) as [ts|]; cbn in Hex.
  - destruct (ts_clusters ts !! id) eqn:E.
    + cbn. symmetry. apply Hex. eauto.
    + destruct (existsb _ _); [|done]. destruct (proj1 Hex eq_refl). congruence.
  - destruct (existsb _ _); [|done]. destruct (proj1 Hex eq_refl) as [? H]. by rewrite lookup_empty in H.
Qed.

Lemma agree_report t id : id ≠ "" → ∃ o, MemStore.ReportOf m t id = Some o ∧ ReportOf unmarshal d t id = option_map as_read o.
Proof.
  intros Hid. rewrite ReportOf_clusters by done. eexists. split; [reflexivity|]. destruct Hsim as [Hc _].
  pose proof (sim_latest _ _ Hc t id) as E. unfold ReportOf, clusters. rewrite (proj2 (String.eqb_neq id "") Hid). cbn [negb].
  rewrite find_head.
  destruct (ts_clusters (tenant m t) !! id) as [cs|]; [destruct (cs_hasScan cs)|];
    destruct (List.filter _ _) as [|r l]; try done; by injection E.
Qed.

Lemma agree_lifecycle t key : MemStore.GetLifecycle m t key = GetLifecycle d t key.
Proof. destruct Hsim as [_ Hr]. symmetry. apply Hr. Qed.

Lemma agree_rows t id : MemStore.ListLifecycle m t id = ListLifecycle (@order_by) d t id.
Proof.
  destruct Hsim as [_ Hr].
  assert (∀ k lc, rows_of m t !! k = Some lc → lc_Key lc = k) as Hkey by (intros k lc; apply (so_rows m Hm t)).
  assert (tenant_rows d t ≡ₚ map snd (map_to_list (rows_of m t))) as Hp.
  { unfold tenant_rows. apply NoDup_Permutation.
    - apply (NoDup_fmap_1 lc_Key). rewrite <-list_fmap_compose. cbn.
      apply NoDup_fmap_2_strong; [|apply list_nodup_filter, NoDup_map_to_list].
      intros [[t1 k1] r1] [[t2 k2] r2] [H1 E1%String.eqb_eq]%elem_of_list_filter
        [H2 E2%String.eqb_eq]%elem_of_list_filter ?. cbn in *. subst.
      apply elem_of_map_to_list in H1, H2. congruence.
    - apply (NoDup_fmap_1 lc_Key). rewrite <-list_fmap_compose.
      rewrite (list_fmap_ext _ fst); [apply NoDup_fst_map_to_list|].
      intros i [k lc] H%list_elem_of_lookup_2%elem_of_map_to_list. cbn. by apply Hkey.
    - intros lc. rewrite !list_elem_of_fmap. split.
      + intros ([[t1 k1] r1] & -> & [H1 E1%String.eqb_eq]%elem_of_list_filter). apply elem_of_map_to_list in H1.
        cbn in *. subst t1. exists (k1, scanLifecycle k1 r1). split; [done|]. apply elem_of_map_to_list.
        rewrite <-Hr, H1. done.
      + intros ([k lc'] & -> & H%elem_of_map_to_list). cbn. specialize (Hr t k). rewrite H in Hr.
        destruct (tb_lifecycle d !! (t, k)) as [row|] eqn:Erow; [|done]. injection Hr as Hr.
        exists ((t, k), row). cbn. split; [done|]. apply elem_of_list_filter. cbn.
        by rewrite elem_of_map_to_list, String.eqb_refl. }
  unfold ListLifecycle. rewrite <-(slice_stable_id _ (order_by _ _)) by (apply order_by_sorted; apply _).
  unfold MemStore.ListLifecycle, list_rows, sortLifecycle.
  rewrite (slice_stable_perm_key _ lc_Key (order_by _ _) _ lifecycle_tied_key (order_by_perm _ _ _)).
  - rewrite !slice_stable_filter by apply _. f_equal. symmetry.
    apply (slice_stable_perm_key _ lc_Key); [apply lifecycle_tied_key|done|]. rewrite Hp. by apply rows_keys.
  - rewrite order_by_perm. eapply sublist_NoDup; [|apply fmap_sublist, list_filter_sublist].
    rewrite Hp. by apply rows_keys.
Qed.

Lemma agree_history t id :
  ∃ hs, MemStore.History m t id = Some hs ∧ History (@order_by) d t id ≡ₚ hs ∧
    map hs_At (History (@order_by) d t id) = map hs_At hs.
Proof.
  eexists. split; [by apply History_fleet|]. apply (order_by_keys to_snapshot hs_At String.ltb).
  rewrite (where_cluster_perm _ _ _ (tenant m t)); [|apply (tenant_is_ok m t Hm)|intros; by apply history_registered].
  unfold fleet. rewrite concat_map, map_map. apply reflexive_eq. f_equal. apply map_ext. intros i.
  destruct Hsim as [Hc _]. exact (sim_history _ _ Hc t i).
Qed.

Lemma agree_scans t id limit offset :
  (0 < limit <= 1000)%Z → (0 <= offset)%Z → (offset + limit < 2 ^ 63)%Z →
  ∃ ps, MemStore.ListScans m t id limit offset = Some (ps, (ListScans (@order_by) d t id limit offset).2) ∧
    map sn_StartedAt ps = map sn_StartedAt (ListScans (@order_by) d t id limit offset).1.
Proof.
  intros Hl Ho Hov. eexists. rewrite ListScans_fleet by (done || lia).
  destruct (order_by_keys to_scan sn_StartedAt (λ a b, b <s a) (where_cluster sr_tenant sr_cluster_id t id (tb_scans d))
    (fleet cs_scans m t id)) as [Hp Hk].
  { rewrite (where_cluster_perm _ _ _ (tenant m t)); [|apply (tenant_is_ok m t Hm)|intros; by apply scans_registered].
    unfold fleet. rewrite concat_map, map_map. destruct Hsim as [Hc _].
    assert (∀ i, map to_scan (List.filter (λ x, (sr_tenant x =s t) && (sr_cluster_id x =s i)) (tb_scans d)) ≡ₚ
      match clusters m t !! i with Some cs => cs_scans cs | None => [] end) as Hi.
    { intros i. etransitivity; [exact (reflexive_eq _ _ (sim_scans _ _ Hc t i))|]. unfold clusters. destruct (_ !! i); [symmetry; apply Permutation_rev|done]. }
    induction (selected (tenant m t) id) as [|i l IH]; [done|]. cbn [map concat]. by rewrite Hi, IH. }
  unfold ListScans. cbn [fst snd]. split.
  - do 2 f_equal. apply Permutation_length in Hp. rewrite <-Hp, length_map, (Permutation_length (order_by_perm _ _ _)). done.
  - change started_desc with (λ a b, sn_StartedAt (to_scan b) <s sn_StartedAt (to_scan a)).
    rewrite <-!firstn_map, <-!skipn_map. unfold sanitizeLimit, max0.
    rewrite (proj2 (Z.leb_gt limit 0)), (proj2 (Z.ltb_ge offset 0)) by lia.
    destruct (Z.gtb_spec limit 1000); [lia|]. cbn [orb]. by rewrite Hk.
Qed.
End agreement.

End sim.

(** The code's [Report] keeps no report for a fleet without scans; the in-memory store has an empty one. *)
Lemma fleet_report_differs unmarshal :
  let c := mkCluster "prod" "Prod" "" "" 0 fzero in
  ReportOf unmarshal (RegisterCluster ok_all "a" c empty_db) "a" "" = None ∧
  MemStore.ReportOf (MemStore.RegisterCluster "a" c NewMemStore) "a" "" = Some (Some (MergeReports [])).
Proof. split; reflexivity. Qed.

Definition prod_cluster : Cluster := mkCluster "prod" "Prod" "" "" 0 fzero.

(** The report of a scan without findings has a ranking that is empty, not nil; from Postgres it
    comes back nil, and the posture endpoint, which tests for nil, leaves the member out. *)
Definition clean_report : Report := mkReport "" "prod" "" [] [] zero_posture [] None (Some []).

