(* ===== verification/ScanIds.v ===== *)
(** The scan ids of the dashboard (seqID of internal/dashboard/api.go): a counter of the process and
    four random bytes, and why no two scans of a process get the same one. *)

From Stdlib Require Import Ascii.
From S2P Require Import Prelude GoStrings GoFmt GoJsonText.

(** [hex.EncodeToString] of the bytes read. *)
Definition randSuffix (b : list N) : string :=
  foldr (λ c s, hex_digit (c / 16) ::: hex_digit (c mod 16) ::: s) EmptyString b.

(** The counter after the call, and the id. *)
Definition seqID (nextID : Z) (b : list N) : Z * string :=
  let nextID := (nextID + 1)%Z in
  (nextID, "scan-" +:+ fmt_int nextID +:+ "-" +:+ randSuffix b).

(** The ids of successive calls; the mutex makes each of them one step. *)
Fixpoint seqIDs (nextID : Z) (bs : list (list N)) : list string :=
  match bs with
  | [] => []
  | b :: bs' => let '(nextID, id) := seqID nextID b in id :: seqIDs nextID bs'
  end.

Definition dash : ascii := "-".

(** The counter can be read off an id. *)
Definition counter_of (id : string) : option string :=
  '(_, rest) ← cut dash id; '(n, _) ← cut dash rest; Some n.

Lemma counter_of_id n b : (0 <= n)%Z → counter_of (seqID n b).2 = Some (fmt_int (n + 1)).
Proof.
  intros Hn. unfold counter_of, seqID. cbn [snd].
  assert (∀ s t, "scan-" +:+ s +:+ "-" +:+ t = "scan" +:+ dash ::: (s +:+ dash ::: t)) as -> by (intros; apply str_app_cons).
  rewrite cut_app by done. cbn [mbind option_bind]. rewrite cut_app; [done|].
  destruct (fmt_int_digits (n + 1)) as (Hd & _ & _); [lia|]. unfold lacks. revert Hd. generalize (fmt_int (n + 1)).
  induction s as [|c s IH]; [done|]. cbn [str_all]. intros [Hc Hs]%andb_true_iff. rewrite IH by done.
  destruct (Ascii.eqb_spec dash c) as [<-|]; done.
Qed.

Lemma seqIDs_later n bs id : (0 <= n)%Z → id ∈ seqIDs n bs → ∃ m, (n < m)%Z ∧ counter_of id = Some (fmt_int m).
Proof.
  revert n. induction bs as [|b bs IH]; intros n Hn; cbn [seqIDs]; [by intros ?%elem_of_nil|].
  destruct (seqID n b) as [n' id'] eqn:E. assert (n' = n + 1)%Z as -> by by injection E.
  intros [-> |H]%elem_of_cons.
  - exists (n + 1)%Z. split; [lia|]. rewrite <-(counter_of_id n b Hn). by rewrite E.
  - destruct (IH (n + 1)%Z ltac:(lia) H) as (m & ? & ?). exists m. split; [lia|done].
Qed.

Lemma fmt_int_inj m n : (0 <= m)%Z → (0 <= n)%Z → fmt_int m = fmt_int n → m = n.
Proof.
  intros Hm Hn E. destruct (fmt_int_digits m Hm) as (_ & _ & <-), (fmt_int_digits n Hn) as (_ & _ & <-). by rewrite E.
Qed.

(** Whatever the random bytes, the ids of a process are distinct. *)
Lemma seqIDs_distinct n bs : (0 <= n)%Z → NoDup (seqIDs n bs).
Proof.
  revert n. induction bs as [|b bs IH]; intros n Hn; cbn [seqIDs]; [constructor|].
  destruct (seqID n b) as [n' id] eqn:E. assert (n' = n + 1)%Z as -> by by injection E.
  constructor; [|apply IH; lia]. intros (m & Hm & H)%seqIDs_later; [|lia].
  pose proof (counter_of_id n b Hn) as Hc. rewrite E in Hc. cbn [snd] in Hc. rewrite H in Hc. injection Hc as Hc.
  apply fmt_int_inj in Hc; lia.
Qed.
