(* ===== verification/DashStore.v ===== *)
(** The [Store] interface of the dashboard (internal/dashboard/store.go), what it promises, and its
    two implementations, the in-memory store and Postgres.

    [DashStore] has the methods of the interface, [DashStoreOk] their laws: how each writing method
    changes the answer of each query.  [store_is_its_log] is proved from the laws alone; MemStore.v
    discharges them directly, PgStore.v by the simulation of PgSim.v.  [AuditLog] is the interface of
    audit.go, with the same two implementations. *)

From S2P Require Import Prelude GoStrings GoFloat GoJson Api Risk ReportJson Lifecycle MemStore Auth PgStore PgSim ScanIds.

(** * The interface: store.go

    A query of the in-memory store can panic, which is [None]; the methods that return an error
    or a record besides their effect return it second. *)

Class DashStore (S : Type) := {
  ds_new : S;
  ds_RegisterCluster : string → Cluster → S → S;
  ds_DeleteCluster : string → string → S → S * bool;
  ds_ListClusters : S → string → option (list Cluster);
  ds_GetCluster : S → string → string → option Cluster;
  ds_ListScans : S → string → string → Z → Z → option (list Scan * Z);
  ds_RecordScan : string → string → string → Report → string → S → S * Scan;
  ds_Report : S → string → string → option (option Report);
  ds_History : S → string → string → option (list HistorySnapshot);
  ds_SeedFindings : string → string → list Finding → string → S → S;
  ds_GetLifecycle : S → string → string → option FindingLifecycle;
  ds_ListLifecycle : S → string → string → list FindingLifecycle;
  ds_UpsertLifecycle : string → FindingLifecycle → S → S;
  ds_ProvisionTenant : string → string → S → S * bool;
  ds_DeleteTenant : string → S → S * bool
}.

(** The effect of a call. *)
Definition ds_write {S} `{DashStore S} (o : op) (s : S) : S :=
  match o with
  | OpRegister t c => ds_RegisterCluster t c s
  | OpDeleteCluster t id => (ds_DeleteCluster t id s).1
  | OpRecordScan t id sid rep at_ => (ds_RecordScan t id sid rep at_ s).1
  | OpProvision t n => (ds_ProvisionTenant t n s).1
  | OpDeleteTenant t => (ds_DeleteTenant t s).1
  | OpSeed t id fs now => ds_SeedFindings t id fs now s
  | OpUpsert t lc => ds_UpsertLifecycle t lc s
  end.

(** * What a call does to the answers *)

Definition open_row (key id now : string) (f : Finding) : FindingLifecycle :=
  mkLifecycle key id (f_ID f) (f_Resource f) StateOpen "" None now now "".

Definition scan_meta (id at_ : string) (rep : Report) (c : option Cluster) : Cluster :=
  mkCluster id (match c with Some c => cl_Name c | None => id end)
    (match c with Some c => cl_Environment c | None => "" end) at_
    (Z.of_nat (length (rep_Findings rep))) (ps_OverallPassRate (rep_Posture rep)).

Definition scan_snapshot (sid at_ : string) (rep : Report) : HistorySnapshot :=
  mkSnapshot sid at_ (Z.of_nat (length (rep_Findings rep))) (postureControls rep).1 (postureControls rep).2
    (ps_OverallPassRate (rep_Posture rep)) (severityMap rep).

(** Whether a call erases the data of a cluster. *)
Definition erases (t id : string) (o : op) : bool :=
  match o with
  | OpDeleteCluster t' id' => (t' =s t) && (id' =s id)
  | OpDeleteTenant t' => t' =s t
  | _ => false
  end.

(** The report of the scan of a cluster that a call records. *)
Definition records (t id : string) (o : op) : option (string * Report * string) :=
  match o with
  | OpRecordScan t' id' sid rep at_ => if (t' =s t) && (id' =s id) then Some (sid, rep, at_) else None
  | _ => None
  end.

Definition report_after (seen : Report → Report) (t id : string) (o : op) (r : option Report) : option Report :=
  if erases t id o then None
  else match records t id o with Some (_, rep, _) => Some (seen rep) | None => r end.

Definition meta_after (t id : string) (o : op) (c : option Cluster) : option Cluster :=
  if erases t id o then None
  else match records t id o, o with
       | Some (_, rep, at_), _ => Some (scan_meta id at_ rep c)
       | None, OpRegister t' c' =>
           if (t' =s t) && (cl_ID c' =s id) then Some (match c with Some c => c | None => c' end) else c
       | None, _ => c
       end.

Definition history_after (t id : string) (o : op) (hs : list HistorySnapshot) : list HistorySnapshot :=
  if erases t id o then []
  else match records t id o with Some (sid, rep, at_) => hs ++ [scan_snapshot sid at_ rep] | None => hs end.

Definition row_after (t key : string) (o : op) (r : option FindingLifecycle) : option FindingLifecycle :=
  match o with
  | OpDeleteTenant t' => if t' =s t then None else r
  | OpDeleteCluster t' id =>
      lc ← r; if (t' =s t) && (lc_ClusterID lc =s id) then None else Some lc
  | OpSeed t' id fs now =>
      if t' =s t then
        match r with
        | Some lc => Some lc
        | None => first_some (λ f, if LifecycleKey id f =s key then Some (open_row key id now f) else None) fs
        end
      else r
  | OpUpsert t' lc => if (t' =s t) && (lc_Key lc =s key) then Some lc else r
  | _ => r
  end.

(** The promise: [seen] is a report as the store gives it back, [good] the states of the store,
    and [allowed] the calls the promise covers. *)
Class DashStoreOk (S : Type) `{DashStore S} (seen : Report → Report) (good : S → Prop) (allowed : S → op → Prop)
    : Prop := {
  ds_good_new : good ds_new;
  ds_good_write s o : good s → allowed s o → good (ds_write o s);
  ds_new_empty t :
    (∀ id, id ≠ "" → ds_Report ds_new t id = Some None) ∧ (∀ id, ds_GetCluster ds_new t id = None) ∧
    (∀ id, ds_History ds_new t id = Some []) ∧ (∀ key, ds_GetLifecycle ds_new t key = None);
  ds_report_law s o t id : good s → allowed s o → id ≠ "" →
    ds_Report (ds_write o s) t id = option_map (report_after seen t id o) (ds_Report s t id);
  ds_meta_law s o t id : good s → allowed s o →
    ds_GetCluster (ds_write o s) t id = meta_after t id o (ds_GetCluster s t id);
  ds_row_law s o t key : good s → allowed s o →
    ds_GetLifecycle (ds_write o s) t key = row_after t key o (ds_GetLifecycle s t key);
  ds_history_law s o t id hs : good s → allowed s o → id ≠ "" → ds_History s t id = Some hs →
    ∃ hs', ds_History (ds_write o s) t id = Some hs' ∧ hs' ≡ₚ history_after t id o hs;
  ds_listed s t : good s → ∃ cl, ds_ListClusters s t = Some cl ∧ NoDup (map cl_ID cl) ∧
    ∀ id c, ds_GetCluster s t id = Some c ↔ c ∈ cl ∧ cl_ID c = id
}.

(** * The in-memory store *)

#[export] Instance mem_store : DashStore MemStore := {|
  ds_new := NewMemStore;
  ds_RegisterCluster := MemStore.RegisterCluster;
  ds_DeleteCluster := MemStore.DeleteCluster;
  ds_ListClusters := MemStore.ListClusters;
  ds_GetCluster := MemStore.GetCluster;
  ds_ListScans := MemStore.ListScans;
  ds_RecordScan := MemStore.RecordScan;
  ds_Report := MemStore.ReportOf;
  ds_History := MemStore.History;
  ds_SeedFindings := MemStore.SeedFindings;
  ds_GetLifecycle := MemStore.GetLifecycle;
  ds_ListLifecycle := MemStore.ListLifecycle;
  ds_UpsertLifecycle := MemStore.UpsertLifecycle;
  ds_ProvisionTenant t n m := (MemStore.ProvisionTenant t n m, true);
  ds_DeleteTenant t m := (MemStore.DeleteTenant t m, true)
|}.

Lemma mem_write o (m : MemStore) : ds_write o m = apply_op o m.
Proof. by destruct o. Qed.

(** A cluster that is deleted exists, or has no triage rows: deleting an unknown cluster leaves them
    in the in-memory store and removes them from Postgres. *)
Definition deletable {S} `{DashStore S} (s : S) (o : op) : Prop :=
  match o with
  | OpDeleteCluster t id =>
      is_Some (ds_GetCluster s t id) ∨ ∀ k lc, ds_GetLifecycle s t k = Some lc → lc_ClusterID lc ≠ id
  | _ => True
  end.

Definition cluster_after (t id : string) (o : op) (cs : option clusterState) : option clusterState :=
  if erases t id o then None
  else match records t id o, o with
       | Some (sid, rep, at_), _ =>
           Some (after_scan (match cs with Some cs => cs | None => new_cluster (mkCluster id id "" "" 0 fzero) end)
                   id sid rep at_)
       | None, OpRegister t' c =>
           if (t' =s t) && (cl_ID c =s id) then Some (match cs with Some cs => cs | None => new_cluster c end) else cs
       | None, _ => cs
       end.

Lemma clusters_put t ts m t' : clusters (put_tenant t ts m) t' = if t =s t' then ts_clusters ts else clusters m t'.
Proof. unfold clusters. rewrite tenant_put. by destruct (t =s t'). Qed.

Lemma clusters_put_rows t rows m t' : clusters (put_rows t rows m) t' = clusters m t'.
Proof. done. Qed.

#[local] Hint Rewrite clusters_put clusters_put_rows : kgrw.

Lemma clusters_other o m t : op_tenant o ≠ t → clusters (apply_op o m) t = clusters m t.
Proof.
  intros H. pose proof (op_view o m t H) as [= E _]. unfold clusters, tenant, map_get. by rewrite E.
Qed.

Lemma delete_clusters t id m : clusters (MemStore.DeleteCluster t id m).1 t = delete id (clusters m t).
Proof.
  unfold MemStore.DeleteCluster. destruct (ms_tenants m !! t) as [ts|] eqn:Et.
  - assert (clusters m t = ts_clusters ts) as -> by (unfold clusters, tenant, map_get; by rewrite Et).
    destruct (ts_clusters ts !! id) eqn:E.
    + cbn [fst]. destruct (ms_lifecycle _ !! t); autorewrite with kgrw; by rewrite String.eqb_refl.
    + cbn [fst]. rewrite delete_id by done. unfold clusters, tenant, map_get. by rewrite Et.
  - cbn [fst]. assert (clusters m t = ∅) as -> by (unfold clusters, tenant, map_get; by rewrite Et).
    by rewrite delete_empty.
Qed.

Lemma register_clusters t c m :
  clusters (MemStore.RegisterCluster t c m) t =
  match clusters m t !! cl_ID c with
  | Some _ => clusters m t
  | None => <[cl_ID c := new_cluster c]> (clusters m t)
  end.
Proof.
  unfold clusters, MemStore.RegisterCluster.
  by destruct (ts_clusters (tenant m t) !! cl_ID c) eqn:E; rewrite tenant_put, String.eqb_refl.
Qed.

Lemma cluster_after_ok o m t id : clusters (apply_op o m) t !! id = cluster_after t id o (clusters m t !! id).
Proof.
  destruct (String.eqb_spec (op_tenant o) t) as [<-|Hne].
  2: { rewrite clusters_other by done. unfold cluster_after, erases, records.
       apply String.eqb_neq in Hne. destruct o; cbn [op_tenant] in Hne; by rewrite ?Hne. }
  destruct o as [t' c|t' id'|t' id' sid rep at_|t' n|t'|t' id' fs now|t' lc]; cbn [op_tenant apply_op];
    unfold cluster_after, erases, records; rewrite ?String.eqb_refl; cbn [andb].
  - rewrite register_clusters. destruct (String.eqb_spec (cl_ID c) id) as [<-|Hid].
    + destruct (clusters m t' !! cl_ID c) eqn:E; [done|]. by rewrite lookup_insert_eq.
    + destruct (clusters m t' !! cl_ID c); [done|]. by rewrite lookup_insert_ne.
  - rewrite delete_clusters, lookup_delete. destruct (String.eqb_spec id' id); by case_decide.
  - rewrite RecordScan_eq. cbn [fst]. rewrite clusters_put, String.eqb_refl. cbn [ts_clusters].
    rewrite lookup_insert. destruct (String.eqb_spec id' id) as [<-|]; case_decide; done.
  - unfold MemStore.ProvisionTenant. rewrite clusters_put, String.eqb_refl. by destruct (n <>s "").
  - unfold MemStore.DeleteTenant, clusters, tenant, map_get. cbn [ms_tenants]. by rewrite lookup_delete_eq.
  - done.
  - done.
Qed.


Lemma delete_rows t id m :
  store_ok m → deletable m (OpDeleteCluster t id) →
  rows_of (MemStore.DeleteCluster t id m).1 t = filter (λ kv, lc_ClusterID kv.2 ≠ id) (rows_of m t).
Proof.
  intros Hm Hd. cbn in Hd. rewrite GetCluster_clusters, fmap_is_Some in Hd.
  assert (clusters m t !! id = None → filter (λ kv : string * FindingLifecycle, lc_ClusterID kv.2 ≠ id) (rows_of m t)
    = rows_of m t) as Habsent.
  { intros E. rewrite E in Hd. destruct Hd as [[? ?]|Hd]; [done|]. apply map_filter_id. intros k lc. apply Hd. }
  unfold MemStore.DeleteCluster, clusters, tenant, map_get in *.
  destruct (ms_tenants m !! t) as [ts|]; [|symmetry; apply Habsent, lookup_empty]. cbn [default from_option] in *.
  destruct (ts_clusters ts !! id) eqn:Eid; [|symmetry; by apply Habsent]. cbn [fst ms_lifecycle put_tenant].
  destruct (ms_lifecycle m !! t) as [rows|] eqn:El; unfold rows_of, map_get; cbn.
  - rewrite El, lookup_insert_eq. done.
  - by rewrite El.
Qed.

Lemma mem_row_law o m t key :
  store_ok m → deletable m o → rows_of (apply_op o m) t !! key = row_after t key o (rows_of m t !! key).
Proof.
  intros Hm Hd. destruct (String.eqb_spec (op_tenant o) t) as [<-|Hne].
  2: { pose proof (op_view o m t Hne) as [= _ ->]. apply String.eqb_neq in Hne.
       destruct o; cbn [op_tenant] in Hne; cbn; rewrite ?Hne; try done. by destruct (rows_of m t !! key). }
  destruct o as [t' c|t' id'|t' id' sid rep at_|t' n|t'|t' id' fs now|t' lc]; cbn [op_tenant apply_op row_after];
    rewrite ?String.eqb_refl; cbn [andb]; try done.
  - unfold MemStore.RegisterCluster. by destruct (ts_clusters _ !! cl_ID c).
  - rewrite delete_rows by done. rewrite map_lookup_filter. destruct (rows_of m t' !! key) as [lc|]; [|done]. cbn.
    destruct (String.eqb_spec (lc_ClusterID lc) id') as [E|E]; case_guard; by try congruence.
  - by rewrite RecordScan_eq.
  - unfold MemStore.DeleteTenant, rows_of, map_get. cbn [ms_lifecycle]. by rewrite lookup_delete_eq.
  - unfold MemStore.SeedFindings. rewrite rows_of_put_rows, String.eqb_refl. by rewrite seed_fold_lookup.
  - unfold MemStore.UpsertLifecycle. rewrite rows_of_put_rows, String.eqb_refl, lookup_insert.
    destruct (String.eqb_spec (lc_Key lc) key); by case_decide.
Qed.

Lemma mem_report s t id : id ≠ "" → ds_Report s t id =
  Some (match clusters s t !! id with
        | Some cs => if cs_hasScan cs then Some (cs_latest cs) else None
        | None => None
        end).
Proof. apply ReportOf_clusters. Qed.

Lemma mem_history m t id : store_ok m → id ≠ "" → ∃ hs, MemStore.History m t id = Some hs ∧
  hs ≡ₚ match clusters m t !! id with Some cs => cs_history cs | None => [] end.
Proof.
  intros Hm Hid. eexists. split; [by apply History_one|]. rewrite slice_stable_perm.
  unfold clusters, tenant, map_get. by destruct (ms_tenants m !! t).
Qed.

Lemma history_after_perm t id o hs hs' : hs ≡ₚ hs' → history_after t id o hs ≡ₚ history_after t id o hs'.
Proof.
  intros H. unfold history_after. destruct (erases t id o); [done|].
  destruct (records t id o) as [[[sid rep] at_]|]; [by rewrite H|done].
Qed.

#[export] Instance mem_store_ok : DashStoreOk MemStore id reachable deletable.
Proof.
  split.
  - constructor.
  - intros m o Hm _. rewrite mem_write. by constructor.
  - intros t. split_and!; intros; try done.
  - intros m o t id Hm _ Hid. rewrite !mem_report by done. rewrite mem_write, cluster_after_ok. cbn [option_map]. f_equal.
    unfold cluster_after, report_after. destruct (erases t id o); [done|].
    destruct (records t id o) as [[[sid rep] at_]|]; [done|]. destruct o; try done.
    destruct (_ && _); [|done]. by destruct (clusters m t !! id).
  - intros m o t id Hm%reachable_ok _. rewrite mem_write. cbn. rewrite !GetCluster_clusters, cluster_after_ok.
    unfold cluster_after, meta_after. destruct (erases t id o); [done|].
    destruct (records t id o) as [[[sid rep] at_]|] eqn:Er.
    + destruct (clusters m t !! id) as [cs|] eqn:E; [|done]. cbn. unfold scan_meta.
      by rewrite (co_meta _ _ (to_clusters _ (tenant_is_ok m t Hm) _ _ E)).
    + destruct o; try done. destruct (_ && _); [|done]. by destruct (clusters m t !! id).
  - intros m o t key Hm%reachable_ok Ho. rewrite mem_write. by apply mem_row_law.
  - intros m o t id hs Hm Ho Hid Hhs. rewrite mem_write.
    destruct (mem_history m t id) as (hs0 & E0 & H0); [by apply reachable_ok|done|].
    cbn in Hhs. rewrite E0 in Hhs. injection Hhs as ->.
    destruct (mem_history (apply_op o m) t id) as (hs' & E' & H'); [by apply reachable_ok; constructor|done|].
    exists hs'. split; [done|]. rewrite H', cluster_after_ok, (history_after_perm t id o _ _ H0).
    unfold cluster_after, history_after. destruct (erases t id o); [done|].
    destruct (records t id o) as [[[sid rep] at_]|]; [by destruct (clusters m t !! id)|].
    destruct o; try done. destruct (_ && _); [|done]. by destruct (clusters m t !! id).
  - intros m t Hm%reachable_ok. destruct (ListClusters_total m t Hm) as (cl & H1 & H2 & H3). exists cl. done.
Qed.

(** * Postgres, with statements that succeed *)

Section postgres.
Variable marshal : Report → option json.
Variable unmarshal : json → option Report.
Variable order_by : ∀ A, (A → A → bool) → list A → list A.
Arguments order_by {A}.
Hypothesis order_by_perm : ∀ A (less : A → A → bool) l, order_by less l ≡ₚ l.
Hypothesis order_by_sorted : ∀ A (less : A → A → bool) l, StrictWeak less → sorted_by less (order_by less l).

Definition pg_store : DashStore db := {|
  ds_new := empty_db;
  ds_RegisterCluster := PgStore.RegisterCluster ok_all;
  ds_DeleteCluster := PgStore.DeleteCluster ok_all;
  ds_ListClusters d t := Some (PgStore.ListClusters d t);
  ds_GetCluster := PgStore.GetCluster;
  ds_ListScans d t id limit offset := Some (PgStore.ListScans (@order_by) d t id limit offset);
  ds_RecordScan := PgStore.RecordScan marshal ok_all;
  ds_Report d t id := Some (PgStore.ReportOf unmarshal d t id);
  ds_History d t id := Some (PgStore.History (@order_by) d t id);
  ds_SeedFindings := PgStore.SeedFindings ok_all;
  ds_GetLifecycle := PgStore.GetLifecycle;
  ds_ListLifecycle := PgStore.ListLifecycle (@order_by);
  ds_UpsertLifecycle := PgStore.UpsertLifecycle ok_all;
  ds_ProvisionTenant := PgStore.ProvisionTenant ok_all;
  ds_DeleteTenant := PgStore.DeleteTenant ok_all
|}.
#[local] Existing Instance pg_store.

Lemma pg_write o (d : db) : ds_write o d = pg_op marshal ok_all o d.
Proof. by destruct o. Qed.

(** A cluster is registered without scan results, a scan has a new id, and its report survives the
    JSON column. *)
Definition storable (d : db) (o : op) : Prop :=
  deletable d o ∧
  match o with
  | OpRegister _ c => cl_LastScanAt c = "" ∧ cl_TotalFindings c = 0%Z ∧ cl_OverallPassRate c = fzero
  | OpRecordScan t _ sid rep _ =>
      scan_key_taken t sid d = false ∧ ∃ j, marshal rep = Some j ∧ unmarshal j = Some (as_read rep)
  | _ => True
  end.

Notation simulated d := (∃ m, both marshal unmarshal d m).

Lemma both_agree d m t :
  both marshal unmarshal d m →
  reachable m ∧ MemStore.ListClusters m t = Some (PgStore.ListClusters d t) ∧
  (∀ id, MemStore.GetCluster m t id = PgStore.GetCluster d t id) ∧
  (∀ id, id ≠ "" → ∃ o, MemStore.ReportOf m t id = Some o ∧ PgStore.ReportOf unmarshal d t id = option_map as_read o) ∧
  (∀ key, MemStore.GetLifecycle m t key = PgStore.GetLifecycle d t key) ∧
  (∀ id, ∃ hs, MemStore.History m t id = Some hs ∧ PgStore.History (@order_by) d t id ≡ₚ hs).
Proof.
  intros [Hr Hs]%both_sim. pose proof (reachable_ok _ Hr) as Hm.
  split_and!; [done|by eapply agree_clusters|intros; by eapply agree_cluster|intros; by eapply agree_report|
    intros; by eapply agree_lifecycle|].
  intros id. destruct (agree_history unmarshal (@order_by) order_by_perm order_by_sorted d m Hm Hs t id) as (hs & ? & ? & _). eauto.
Qed.

Lemma storable_fits d m o : both marshal unmarshal d m → storable d o → fits marshal unmarshal m o ∧ deletable m o.
Proof.
  intros Hb [Hd Ho]. destruct o as [t c|t id|t id sid rep at_|t n|t|t id fs now|t lc]; try done.
  - destruct (both_agree d m t Hb) as (_ & _ & Hc & _ & Hl & _).
    assert (deletable m (OpDeleteCluster t id)) as H.
    { cbn in *. rewrite Hc. destruct Hd as [|Hd]; [by left|right]. intros k lc. rewrite Hl. apply Hd. }
    split; [|done]. cbn in *. by rewrite GetCluster_clusters, fmap_is_Some in H.
  - split; [|done]. destruct Ho as [Hfree Hj]. split; [|done]. apply both_sim in Hb as [_ [Hc _]].
    intros id' cs sn Hcs Hsn <-. unfold scan_key_taken in Hfree. rewrite existsb_none in Hfree.
    pose proof (sim_scans _ _ _ Hc t id') as E. unfold clusters in Hcs. rewrite Hcs in E.
    assert (sn ∈ rev (cs_scans cs)) as Hin by (by apply list_elem_of_In, in_rev; rewrite rev_involutive; apply list_elem_of_In).
    rewrite <-E in Hin. apply list_elem_of_fmap in Hin as (r & -> & [Hr1 Hr]%elem_of_list_filter).
    specialize (Hfree r Hr1). apply is_scan_of_true in Hr as [<- _]. cbn in Hfree. by rewrite !String.eqb_refl in Hfree.
Qed.

Lemma both_write d m o : both marshal unmarshal d m → storable d o → both marshal unmarshal (ds_write o d) (ds_write o m).
Proof. intros Hb Ho. rewrite pg_write, mem_write. apply both_op; [done|]. by eapply storable_fits. Qed.

Lemma pg_store_ok : DashStoreOk db as_read (λ d, simulated d) storable.
Proof.
  split.
  - exists NewMemStore. constructor.
  - intros d o [m Hb] Ho. exists (ds_write o m). by apply both_write.
  - intros t. split_and!; [intros id Hid|done|intros id|intros key]; cbn.
    + unfold PgStore.ReportOf. by rewrite (proj2 (String.eqb_neq id "") Hid).
    + f_equal. assert (PgStore.History (@order_by) empty_db t id = map to_snapshot []) as ->; [|done].
      unfold PgStore.History. f_equal. apply Permutation_nil_r, order_by_perm.
    + unfold PgStore.GetLifecycle. cbn. by rewrite lookup_empty.
  - intros d o t id [m Hb] Ho Hid. pose proof (both_write d m o Hb Ho) as Hb'.
    destruct (both_agree d m t Hb) as (Hm & _ & _ & H & _). destruct (H id Hid) as (r & Er & Hr).
    destruct (both_agree _ _ t Hb') as (_ & _ & _ & H' & _). destruct (H' id Hid) as (r' & Er' & Hr').
    cbn [ds_Report pg_store].
    rewrite Hr, Hr'. pose proof (@ds_report_law _ _ _ _ _ mem_store_ok m o t id Hm (proj2 (storable_fits _ _ _ Hb Ho)) Hid) as E.
    cbn [ds_Report mem_store] in E. rewrite Er, Er' in E. injection E as ->. cbn. f_equal. unfold report_after.
    destruct (erases t id o); [done|]. by destruct (records t id o) as [[[sid rep] at_]|].
  - intros d o t id [m Hb] Ho. pose proof (both_write d m o Hb Ho) as Hb'.
    destruct (both_agree d m t Hb) as (Hm & _ & Hc & _), (both_agree _ _ t Hb') as (_ & _ & Hc' & _).
    cbn [ds_GetCluster pg_store]. rewrite <-Hc, <-Hc'.
    exact (@ds_meta_law _ _ _ _ _ mem_store_ok m o t id Hm (proj2 (storable_fits _ _ _ Hb Ho))).
  - intros d o t key [m Hb] Ho. pose proof (both_write d m o Hb Ho) as Hb'.
    destruct (both_agree d m t Hb) as (Hm & _ & _ & _ & Hl & _), (both_agree _ _ t Hb') as (_ & _ & _ & _ & Hl' & _).
    cbn [ds_GetLifecycle pg_store]. rewrite <-Hl, <-Hl'.
    exact (@ds_row_law _ _ _ _ _ mem_store_ok m o t key Hm (proj2 (storable_fits _ _ _ Hb Ho))).
  - intros d o t id hs [m Hb] Ho Hid [= <-]. pose proof (both_write d m o Hb Ho) as Hb'. eexists. split; [done|].
    destruct (both_agree d m t Hb) as (Hm & _ & _ & _ & _ & Hh), (both_agree _ _ t Hb') as (_ & _ & _ & _ & _ & Hh').
    destruct (Hh id) as (hs & E & ->%(history_after_perm t id o)), (Hh' id) as (hs' & E' & ->).
    destruct (@ds_history_law _ _ _ _ _ mem_store_ok m o t id hs Hm (proj2 (storable_fits _ _ _ Hb Ho)) Hid E) as (hs2 & E2 & H2).
    cbn in E2. rewrite E' in E2. by injection E2 as ->.
  - intros d t [m Hb]. destruct (both_agree d m t Hb) as (Hm & El & Hc & _).
    destruct (@ds_listed _ _ _ _ _ mem_store_ok m t Hm) as (cl & E & Hnd & Hin). cbn in E. rewrite El in E. injection E as <-.
    eexists. split; [done|]. split; [done|]. intros id c. cbn. rewrite <-Hc. apply Hin.
Qed.
End postgres.

(** * The audit log: the [AuditLog] interface of audit.go *)

Class AuditLog (A : Type) := {
  al_new : A;
  al_Write : AuditEntry → A → A;
  al_List : A → string → list AuditEntry
}.

(** Entries are kept in the order of the writes, and no tenant reads another's. *)
Class AuditLogOk (A : Type) `{AuditLog A} : Prop := {
  al_empty t : al_List al_new t = [];
  al_law e a t : al_List (al_Write e a) t = if ae_Tenant e =s t then al_List a t ++ [e] else al_List a t
}.

#[export] Instance mem_audit : AuditLog MemAuditLog := {|
  al_new := ∅; al_Write := AuditWrite; al_List := AuditList
|}.

#[export] Instance pg_audit : AuditLog db := {|
  al_new := empty_db; al_Write := AuditInsert ok_all; al_List := AuditOf
|}.

#[export] Instance mem_audit_ok : AuditLogOk MemAuditLog.
Proof. split; [done|]. intros. apply AuditList_write. Qed.

#[export] Instance pg_audit_ok : AuditLogOk db.
Proof.
  split; [done|]. intros e d t. cbn. unfold AuditOf, AuditInsert, exec, ok_all. cbn [tb_audit set_audit].
  rewrite List.filter_app, map_app. cbn [List.filter]. cbn [ar_tenant].
  destruct (ae_Tenant e =s t); [|by rewrite app_nil_r]. f_equal. destruct e. cbn. by rewrite coalesce_nullStr.
Qed.

Lemma audit_is_its_log {A} `{AuditLogOk A} es t :
  al_List (foldl (λ a e, al_Write e a) al_new es) t = List.filter (λ e, ae_Tenant e =s t) es.
Proof.
  induction es as [|e es IH] using rev_ind; [apply al_empty|].
  rewrite foldl_app, List.filter_app. cbn [foldl List.filter]. rewrite al_law, IH.
  by destruct (ae_Tenant e =s t); [|rewrite app_nil_r].
Qed.

(** * A store is its log *)

(** The last call of a log that decides a value: [act] is the value a call sets, if it sets one. *)
Definition last_act {X} (act : op → option (option X)) (tr : list op) : option X :=
  foldl (λ x o, match act o with Some y => y | None => x end) None tr.

Lemma last_act_Some {X} (act : op → option (option X)) tr y :
  last_act act tr = Some y ↔
  ∃ before o after, tr = before ++ o :: after ∧ act o = Some (Some y) ∧ ∀ o', o' ∈ after → act o' = None.
Proof.
  unfold last_act. induction tr as [|o tr IH] using rev_ind.
  - split; [done|]. by intros ([] & ? & ? & ? & _).
  - rewrite foldl_app. cbn [foldl]. destruct (act o) as [y'|] eqn:Eo.
    + split.
      * intros ->. exists tr, o, []. split_and!; [done..|]. by intros o' ?%elem_of_nil.
      * intros (before & o1 & after & E & Ho1 & Hafter).
        destruct after as [|o2 after _] using rev_ind; [by apply app_inj_tail in E as [_ ->]; congruence|].
        rewrite app_comm_cons, app_assoc in E. apply app_inj_tail in E as [_ ->].
        rewrite Hafter in Eo; [done|]. set_solver.
    + rewrite IH. split; intros (before & o1 & after & E & Ho1 & Hafter).
      * exists before, o1, (after ++ [o]). split_and!; [by rewrite E, <-app_assoc|done|].
        intros o' [?| ->%list_elem_of_singleton]%elem_of_app; auto.
      * destruct after as [|o2 after _] using rev_ind; [by apply app_inj_tail in E as [_ ->]; congruence|].
        rewrite app_comm_cons, app_assoc in E. apply app_inj_tail in E as [-> ->].
        exists before, o1, after. split_and!; [done..|]. intros o' Ho'. apply Hafter. set_solver.
Qed.

(** For a value that is there or not, what sets it again does not matter. *)
Lemma last_act_unit (act : op → option (option unit)) tr :
  last_act act tr = Some tt ↔
  ∃ before o after, tr = before ++ o :: after ∧ act o = Some (Some tt) ∧ ∀ o', o' ∈ after → act o' ≠ Some None.
Proof.
  split.
  - intros (before & o & after & E & Ho & Hafter)%last_act_Some. exists before, o, after.
    split_and!; [done..|]. intros o' Ho'. by rewrite Hafter.
  - intros (before & o & after & -> & Ho & Hafter). unfold last_act. rewrite foldl_app. cbn [foldl]. rewrite Ho.
    induction after as [|o' after IH] using rev_ind; [done|]. rewrite foldl_app. cbn [foldl].
    rewrite IH by (intros; apply Hafter; set_solver). specialize (Hafter o' ltac:(set_solver)).
    by destruct (act o') as [[[]|]|].
Qed.

(** What decides a cluster's report, and whether a cluster is registered. *)
Definition report_act (t id : string) (o : op) : option (option Report) :=
  if erases t id o then Some None
  else match records t id o with Some (_, rep, _) => Some (Some rep) | None => None end.

Definition creates (t id : string) (o : op) : bool :=
  match o with
  | OpRegister t' c => (t' =s t) && (cl_ID c =s id)
  | _ => match records t id o with Some _ => true | None => false end
  end.

Definition registered_act (t id : string) (o : op) : option (option unit) :=
  if erases t id o then Some None else if creates t id o then Some (Some tt) else None.

(** The calls since a cluster's data was last erased. *)
Definition since_erased (t id : string) (tr : list op) : list op :=
  foldl (λ l o, if erases t id o then [] else l ++ [o]) [] tr.

Definition snapshot_of (t id : string) (o : op) : option HistorySnapshot :=
  '(sid, rep, at_) ← records t id o; Some (scan_snapshot sid at_ rep).

(** Calls that replace or erase a triage row. *)
Definition drops_row (t : string) (lc : FindingLifecycle) (o : op) : bool :=
  erases t (lc_ClusterID lc) o ||
  match o with OpUpsert t' lc' => (t' =s t) && (lc_Key lc' =s lc_Key lc) | _ => false end.

Definition writes_row (t : string) (lc : FindingLifecycle) (o : op) : Prop :=
  o = OpUpsert t lc ∨
  ∃ id fs now f, o = OpSeed t id fs now ∧ f ∈ fs ∧ lc_Key lc = LifecycleKey id f ∧ lc = open_row (lc_Key lc) id now f.

Section log.
Context {S : Type} `{Hops : DashStore S} (seen : Report → Report) (good : S → Prop) (allowed : S → op → Prop).
Context `{Hok : !DashStoreOk S seen good allowed}.

(** The states that a log of calls leads to. *)
Inductive logged : list op → S → Prop :=
| logged_new : logged [] ds_new
| logged_op tr s o : logged tr s → allowed s o → logged (tr ++ [o]) (ds_write o s).

Lemma logged_good tr s : logged tr s → good s.
Proof. induction 1; [apply ds_good_new|by apply ds_good_write]. Qed.

Lemma logged_report tr s t id :
  logged tr s → id ≠ "" → ds_Report s t id = Some (seen <$> last_act (report_act t id) tr).
Proof.
  intros Hl Hid. induction Hl as [|tr s o Hl IH Ho]; [by apply (ds_new_empty t)|].
  rewrite (ds_report_law s o t id (logged_good _ _ Hl) Ho Hid), IH. cbn [option_map]. f_equal.
  unfold last_act. rewrite foldl_app. cbn [foldl]. unfold report_after, report_act.
  destruct (erases t id o); [done|]. by destruct (records t id o) as [[[sid rep] at_]|].
Qed.

Lemma logged_registered tr s t id :
  logged tr s → is_Some (ds_GetCluster s t id) ↔ last_act (registered_act t id) tr = Some tt.
Proof.
  intros Hl. induction Hl as [|tr s o Hl IH Ho].
  - destruct (ds_new_empty t) as (_ & -> & _). split; [by intros []|done].
  - rewrite (ds_meta_law s o t id (logged_good _ _ Hl) Ho). unfold last_act in *. rewrite foldl_app. cbn [foldl].
    unfold meta_after, registered_act at 1, creates. destruct (erases t id o); [split; [by intros []|done]|].
    destruct (records t id o) as [[[sid rep] at_]|] eqn:Er.
    + destruct o; try done.
    + destruct o; try done. destruct (_ && _); [|done]. split; eauto.
Qed.

Lemma logged_history tr s t id :
  logged tr s → id ≠ "" → ∃ hs, ds_History s t id = Some hs ∧ hs ≡ₚ omap (snapshot_of t id) (since_erased t id tr).
Proof.
  intros Hl Hid. induction Hl as [|tr s o Hl (hs & Ehs & Hhs) Ho].
  - destruct (ds_new_empty t) as (_ & _ & Hn & _). exists []. by rewrite Hn.
  - destruct (ds_history_law s o t id hs (logged_good _ _ Hl) Ho Hid Ehs) as (hs' & E & H). exists hs'. split; [done|].
    rewrite H, (history_after_perm t id o _ _ Hhs). unfold since_erased. rewrite foldl_app. cbn [foldl].
    unfold history_after. destruct (erases t id o); [done|]. rewrite omap_app.
    change (omap (snapshot_of t id) [o]) with (match snapshot_of t id o with Some y => [y] | None => [] end).
    destruct (snapshot_of t id o) eqn:Es; unfold snapshot_of in Es;
      destruct (records t id o) as [[[sid rep] at_]|]; try done; [by injection Es as ->|by rewrite app_nil_r].
Qed.

(** After the scan of a cluster that nothing replaced or erased, its row shows that scan. *)
Lemma logged_meta before sid rep at_ after s t id :
  logged (before ++ OpRecordScan t id sid rep at_ :: after) s → (∀ o, o ∈ after → report_act t id o = None) →
  ∃ c, ds_GetCluster s t id = Some c ∧ cl_LastScanAt c = at_ ∧ cl_TotalFindings c = Z.of_nat (length (rep_Findings rep)) ∧
    cl_OverallPassRate c = ps_OverallPassRate (rep_Posture rep).
Proof.
  remember (before ++ OpRecordScan t id sid rep at_ :: after) as tr eqn:Etr. intros Hl. revert after Etr.
  induction Hl as [|tr s o Hl IH Ho]; intros after Etr Hafter; [by destruct before|].
  rewrite (ds_meta_law s o t id (logged_good _ _ Hl) Ho).
  destruct after as [|o' after _] using rev_ind.
  - apply app_inj_tail in Etr as [_ ->]. unfold meta_after. cbn. rewrite !String.eqb_refl. eexists. split; [done|done].
  - rewrite app_comm_cons, app_assoc in Etr. apply app_inj_tail in Etr as [-> <-].
    destruct (IH after eq_refl) as (c & Ec & Hc); [intros; apply Hafter; set_solver|]. rewrite Ec.
    specialize (Hafter o ltac:(set_solver)). unfold meta_after, report_act in *. destruct (erases t id o); [done|].
    destruct (records t id o) as [[[? ?] ?]|]; [done|]. exists c. split; [|done]. destruct o; try done. by destruct (_ && _).
Qed.

Lemma row_after_keeps t lc o :
  drops_row t lc o = false → row_after t (lc_Key lc) o (Some lc) = Some lc.
Proof.
  unfold drops_row. intros [He Hu]%orb_false_iff. destruct o; cbn in *; try done.
  - rewrite (String.eqb_sym (lc_ClusterID lc)). by rewrite He.
  - by rewrite He.
  - by destruct (_ =s t).
  - by rewrite Hu.
Qed.

(** A triage row was written by the last call that did not leave it alone. *)
Lemma logged_row tr s t lc :
  logged tr s → ds_GetLifecycle s t (lc_Key lc) = Some lc →
  ∃ before o after, tr = before ++ o :: after ∧ writes_row t lc o ∧ ∀ o', o' ∈ after → drops_row t lc o' = false.
Proof.
  intros Hl. induction Hl as [|tr s o Hl IH Ho].
  - destruct (ds_new_empty t) as (_ & _ & _ & ->). done.
  - rewrite (ds_row_law s o t _ (logged_good _ _ Hl) Ho). intros H.
    assert (writes_row t lc o ∨ ds_GetLifecycle s t (lc_Key lc) = Some lc ∧ drops_row t lc o = false) as [Hw|[Hs Hd]].
    { unfold row_after in H. destruct o as [t' c|t' id'|t' id' sid rep at_|t' n|t'|t' id' fs now|t' lc']; try (right; by split).
      - destruct (ds_GetLifecycle s t (lc_Key lc)) as [lc0|]; [|done]. cbn in H. destruct (_ && _) eqn:E; [done|].
        injection H as ->. right. split; [done|]. unfold drops_row. cbn. by rewrite (String.eqb_sym id'), E.
      - destruct (String.eqb_spec t' t) as [->|Ht]; [done|]. right. split; [done|]. unfold drops_row. cbn.
        by rewrite (proj2 (String.eqb_neq _ _) Ht).
      - destruct (String.eqb_spec t' t) as [->|Ht]; [|by right].
        destruct (ds_GetLifecycle s t (lc_Key lc)) as [lc0|]; [by right|]. left. right.
        apply first_some_elem in H as (f & Hf & H). destruct (String.eqb_spec (LifecycleKey id' f) (lc_Key lc)) as [Ek|]; [|done].
        injection H as H. exists id', fs, now, f. split_and!; [done..|]. by symmetry.
      - destruct ((t' =s t) && (lc_Key lc' =s lc_Key lc)) eqn:E; [|by right].
        apply andb_true_iff in E as [->%String.eqb_eq _]. injection H as ->. by left; left. }
    + exists tr, o, []. split_and!; [done..|]. by intros o' ?%elem_of_nil.
    + destruct (IH Hs) as (before & o1 & after & -> & Hw & Hafter). exists before, o1, (after ++ [o]).
      split_and!; [by rewrite <-app_assoc|done|]. intros o' [?| ->%list_elem_of_singleton]%elem_of_app; auto.
Qed.

Lemma logged_row_kept before after s t lc :
  logged (before ++ OpUpsert t lc :: after) s → (∀ o, o ∈ after → drops_row t lc o = false) →
  ds_GetLifecycle s t (lc_Key lc) = Some lc.
Proof.
  remember (before ++ OpUpsert t lc :: after) as tr eqn:Etr. intros Hl. revert after Etr.
  induction Hl as [|tr s o Hl IH Ho]; intros after Etr Hafter; [by destruct before|].
  rewrite (ds_row_law s o t _ (logged_good _ _ Hl) Ho). destruct after as [|o' after _] using rev_ind.
  - apply app_inj_tail in Etr as [_ ->]. cbn. by rewrite !String.eqb_refl.
  - rewrite app_comm_cons, app_assoc in Etr. apply app_inj_tail in Etr as [-> <-].
    rewrite (IH after eq_refl) by (intros; apply Hafter; set_solver). apply row_after_keeps, Hafter. set_solver.
Qed.

End log.

(** * Scan ids on Postgres *)

Lemma pg_scan_keys marshal o d r :
  r ∈ tb_scans (pg_op marshal ok_all o d) →
  (∃ r', r' ∈ tb_scans d ∧ sr_tenant r' = sr_tenant r ∧ sr_id r' = sr_id r) ∨
  ∃ id rep at_, o = OpRecordScan (sr_tenant r) id (sr_id r) rep at_.
Proof.
  destruct o as [t c|t id|t id sid rep at_|t n|t|t id fs now|t lc]; cbn [pg_op]; intros Hr.
  - left. exists r. split; [|done]. unfold PgStore.RegisterCluster, exec, ok_all in Hr. rewrite insert_cluster_scans in Hr.
    by destruct (tb_tenants d !! t).
  - left. exists r. split; [|done]. by apply elem_of_list_filter in Hr as [Hr _].
  - unfold PgStore.RecordScan in Hr. cbn [fst] in Hr. unfold record_tx in Hr. cbn [forallb ok_all negb andb] in Hr.
    set (d0 := record_clear _ _ _) in Hr.
    assert (∀ r0, r0 ∈ tb_scans d0 → ∃ r', r' ∈ tb_scans d ∧ sr_tenant r' = sr_tenant r0 ∧ sr_id r' = sr_id r0) as Hd0.
    { intros r0 (r' & -> & H)%list_elem_of_fmap. rewrite insert_cluster_scans in H. exists r'. split; [done|].
      unfold clear_latest. by destruct (is_scan_of t id r'). }
    destruct (scan_key_taken t sid d0 || _); [left; by exists r|].
    destruct (marshal rep) as [j|]; cbn [mbind option_bind default from_option] in Hr; [|left; by exists r].
    assert (r ∈ tb_scans d0 ++ [mkScanRow t sid id ScanSucceeded (Some at_) (Some at_) (Z.of_nat (length (rep_Findings rep))) true j])
      as [H| ->%list_elem_of_singleton]%elem_of_app.
    { unfold record_history in Hr. by destruct (postureControls rep). }
    + left. by apply Hd0.
    + right. by exists id, rep, at_.
  - left. by exists r.
  - left. exists r. split; [|done]. by apply elem_of_list_filter in Hr as [Hr _].
  - left. exists r. split; [|done]. destruct (seed_rows_tables ok_all 0 t id now fs d) as (_ & E & _). by rewrite <-E.
  - left. by exists r.
Qed.

(** The ids of the scans of a log, tenant by tenant. *)
Definition scan_id_of (o : op) : option (string * string) :=
  match o with OpRecordScan t _ sid _ _ => Some (t, sid) | _ => None end.

(** A scan whose id no earlier scan of the log had finds its key free. *)
Lemma fresh_scan_key marshal unmarshal order_by tr d t id sid rep at_ :
  @logged _ (pg_store marshal unmarshal order_by) (storable marshal unmarshal order_by) tr d →
  NoDup (omap scan_id_of (tr ++ [OpRecordScan t id sid rep at_])) → scan_key_taken t sid d = false.
Proof.
  intros Hl Hnd. rewrite omap_app in Hnd. apply NoDup_app in Hnd as (_ & Hnew & _).
  assert ((t, sid) ∉ omap scan_id_of tr) as Hno by (intros H; apply (Hnew _ H); by left).
  apply existsb_none. intros r Hr. apply andb_false_iff. rewrite !String.eqb_neq. apply not_and_l. intros [<- <-].
  apply Hno. clear Hnew Hno. revert r Hr. induction Hl as [|tr d o Hl IH Ho]; intros r Hr; [by apply elem_of_nil in Hr|].
  rewrite omap_app. apply elem_of_app. rewrite pg_write in Hr. apply pg_scan_keys in Hr as [(r' & Hr' & <- & <-)|(id' & rep' & at' & ->)].
  - left. by apply IH.
  - right. by left.
Qed.

(** The scans of one process, with the ids of its counter, find their keys free. *)
Lemma process_scan_key marshal unmarshal order_by tr d t id sid rep at_ n bs :
  @logged _ (pg_store marshal unmarshal order_by) (storable marshal unmarshal order_by) tr d → (0 <= n)%Z →
  map snd (omap scan_id_of (tr ++ [OpRecordScan t id sid rep at_])) `sublist_of` seqIDs n bs → scan_key_taken t sid d = false.
Proof.
  intros Hl Hn Hs. eapply fresh_scan_key; [exact Hl|]. eapply (NoDup_fmap_1 snd), sublist_NoDup; [|exact Hs].
  by apply seqIDs_distinct.
Qed.

Definition demo_row : FindingLifecycle :=
  mkLifecycle "k" "prod" "KG-001" (mkResourceRef "Pod" "default" "web") StateOpen "amal" None "" "" "".

Definition demo_log : list op :=
  [OpRegister "a" prod_cluster; OpRecordScan "a" "prod" "scan-1" clean_report "2026-01-01T00:00:00Z";
   OpUpsert "a" demo_row; OpDeleteTenant "b"].

(** The log of [demo_log] on a store that allows its calls. *)
Lemma demo_logged {S} `{DashStore S} (allowed : S → op → Prop) :
  let s1 := ds_write (OpRegister "a" prod_cluster) ds_new in
  let s2 := ds_write (OpRecordScan "a" "prod" "scan-1" clean_report "2026-01-01T00:00:00Z") s1 in
  let s3 := ds_write (OpUpsert "a" demo_row) s2 in
  allowed ds_new (OpRegister "a" prod_cluster) →
  allowed s1 (OpRecordScan "a" "prod" "scan-1" clean_report "2026-01-01T00:00:00Z") →
  allowed s2 (OpUpsert "a" demo_row) → allowed s3 (OpDeleteTenant "b") →
  logged allowed demo_log (ds_write (OpDeleteTenant "b") s3).
Proof.
  intros s1 s2 s3 H1 H2 H3 H4.
  apply (logged_op allowed [_; _; _] s3); [|done]. apply (logged_op allowed [_; _] s2); [|done].
  apply (logged_op allowed [_] s1); [|done]. by apply (logged_op allowed [] ds_new); [constructor|].
Qed.

