(* ===== verification/Broker.v ===== *)
(** The event broker of the dashboard (internal/dashboard/broker.go): tenant-scoped fan-out over
    buffered channels.

    Subscribers are pointers into a heap; the broker's map is the set of the live ones.  A send on
    a closed channel and a second close panic, which is [None]; a send on a full channel takes
    the [default] branch and drops the event. *)

From S2P Require Import Prelude GoFloat.

Record Event := mkEvent {
  ev_Type : string;
  ev_ClusterID : string;
  ev_ScanID : string;
  ev_Progress : float64;
  ev_Message : string
}.

(** A subscriber with its channel: the buffered events, oldest first, and whether it is closed. *)
Record subscriber := mkSubscriber {
  sb_tenant : string;
  sb_ch : list Event;
  sb_closed : bool
}.

Record Broker := mkBroker {
  br_heap : gmap N subscriber;
  br_subs : gset N
}.

Definition NewBroker : Broker := mkBroker ∅ ∅.

Definition capacity : nat := 16.

(** [make(chan Event, 16)] and the registration; the pointer is fresh. *)
Definition Subscribe (tenant : string) (b : Broker) : Broker * N :=
  let s := fresh (dom (br_heap b)) in
  (mkBroker (<[s := mkSubscriber tenant [] false]> (br_heap b)) ({[s]} ∪ br_subs b), s).

Definition close_chan (s : subscriber) : option subscriber :=
  if sb_closed s then None else Some (mkSubscriber (sb_tenant s) (sb_ch s) true).

(** The closure that [Subscribe] returns. *)
Definition Unsubscribe (s : N) (b : Broker) : option Broker :=
  if decide (s ∈ br_subs b) then
    match br_heap b !! s with
    | Some sub => sub' ← close_chan sub; Some (mkBroker (<[s := sub']> (br_heap b)) (br_subs b ∖ {[s]}))
    | None => None
    end
  else Some b.

(** [select { case s.ch <- ev: default: }] *)
Definition try_send (ev : Event) (s : subscriber) : option subscriber :=
  if sb_closed s then None
  else Some (if Nat.ltb (length (sb_ch s)) capacity
             then mkSubscriber (sb_tenant s) (sb_ch s ++ [ev]) (sb_closed s) else s).

(** The loop body of [Publish]. *)
Definition publish_to (tenant : string) (ev : Event) (heap : option (gmap N subscriber)) (s : N)
    : option (gmap N subscriber) :=
  h ← heap;
  sub ← h !! s;
  if sb_tenant sub <>s tenant then Some h
  else sub' ← try_send ev sub; Some (<[s := sub']> h).

Definition Publish (tenant : string) (ev : Event) (b : Broker) : option Broker :=
  heap ← foldl (publish_to tenant ev) (Some (br_heap b)) (elements (br_subs b));
  Some (mkBroker heap (br_subs b)).

(** A receive of the stream handler; [None] when it would block. *)
Definition Receive (s : N) (b : Broker) : option (Event * Broker) :=
  match br_heap b !! s with
  | Some (mkSubscriber t (ev :: ch) c) => Some (ev, mkBroker (<[s := mkSubscriber t ch c]> (br_heap b)) (br_subs b))
  | _ => None
  end.

Definition subscriberCount (tenant : string) (b : Broker) : Z :=
  count (λ s, match br_heap b !! s with Some sub => sb_tenant sub =s tenant | None => false end)
    (elements (br_subs b)).

(** * Traces

    The interleavings of subscribers, publishers and consumers; the lock makes each operation
    one step.  The second component of the state is what each consumer has received, the third
    what was published to each subscriber's tenant since it subscribed. *)

Inductive bop :=
| BSubscribe (tenant : string)
| BUnsubscribe (s : N)
| BPublish (tenant : string) (ev : Event)
| BReceive (s : N).

Record trace_state := mkTrace {
  tr_broker : Broker;
  tr_received : gmap N (list Event);
  tr_published : gmap N (list Event)
}.

Definition got (m : gmap N (list Event)) (s : N) : list Event := default [] (m !! s).

Definition bstep (o : bop) (st : trace_state) : option trace_state :=
  let 'mkTrace b rcv pub := st in
  match o with
  | BSubscribe t => let '(b', s) := Subscribe t b in Some (mkTrace b' (<[s := []]> rcv) (<[s := []]> pub))
  | BUnsubscribe s => b' ← Unsubscribe s b; Some (mkTrace b' rcv pub)
  | BPublish t ev =>
      b' ← Publish t ev b;
      Some (mkTrace b' rcv
        (map_imap (λ s l, if decide (s ∈ br_subs b ∧ sb_tenant <$> br_heap b !! s = Some t)
                          then Some (l ++ [ev]) else Some l) pub))
  | BReceive s =>
      match Receive s b with
      | Some (ev, b') => Some (mkTrace b' (<[s := got rcv s ++ [ev]]> rcv) pub)
      | None => Some st
      end
  end.

Definition brun (ops : list bop) : option trace_state :=
  foldl (λ st o, st ← st; bstep o st) (Some (mkTrace NewBroker ∅ ∅)) ops.

(** * Invariant *)

Record broker_ok (b : Broker) : Prop := mkBrokerOk {
  bo_live s : s ∈ br_subs b → ∃ sub, br_heap b !! s = Some sub ∧ sb_closed sub = false;
  bo_cap s sub : br_heap b !! s = Some sub → length (sb_ch sub) ≤ capacity
}.

Record trace_ok (st : trace_state) : Prop := mkTraceOk {
  to_broker : broker_ok (tr_broker st);
  to_pub s : is_Some (br_heap (tr_broker st) !! s) → is_Some (tr_published st !! s);
  to_sublist s sub : br_heap (tr_broker st) !! s = Some sub →
    (got (tr_received st) s ++ sb_ch sub) `sublist_of` got (tr_published st) s
}.

Lemma Subscribe_fresh t b : br_heap b !! (Subscribe t b).2 = None.
Proof. simpl. apply not_elem_of_dom, is_fresh. Qed.

Lemma NewBroker_ok : broker_ok NewBroker.
Proof. split; [by intros s ?%elem_of_empty|done]. Qed.

(** What publishing does to each subscriber of the set it visits. *)
Definition delivered (tenant : string) (ev : Event) (s : subscriber) : subscriber :=
  if (sb_tenant s =s tenant) && Nat.ltb (length (sb_ch s)) capacity
  then mkSubscriber (sb_tenant s) (sb_ch s ++ [ev]) (sb_closed s) else s.

Lemma publish_fold t ev ss h :
  NoDup ss → (∀ s, s ∈ ss → ∃ sub, h !! s = Some sub ∧ sb_closed sub = false) →
  ∃ h', foldl (publish_to t ev) (Some h) ss = Some h' ∧
    ∀ s, h' !! s = if decide (s ∈ ss) then delivered t ev <$> h !! s else h !! s.
Proof.
  revert h. induction ss as [|s ss IH]; intros h Hnd Hlive.
  - exists h. split; [done|]. done.
  - apply NoDup_cons in Hnd as [Hs Hnd]. destruct (Hlive s ltac:(left)) as (sub & Hsub & Hopen).
    cbn [foldl].
    assert (∃ h1, publish_to t ev (Some h) s = Some h1 ∧
      ∀ s', h1 !! s' = if decide (s' = s) then delivered t ev <$> h !! s' else h !! s') as (h1 & Hh1 & Hl1).
    { unfold publish_to, try_send, delivered. simpl. rewrite Hsub. simpl. rewrite Hopen.
      destruct (sb_tenant sub =s t) eqn:Et; simpl.
      - eexists. split; [done|]. intros s'. rewrite lookup_insert. repeat case_decide; subst; try done.
        rewrite Hsub. simpl. by rewrite Et, Hopen.
      - exists h. split; [done|]. intros s'. case_decide; [|done]. subst. rewrite Hsub. simpl. by rewrite Et. }
    rewrite Hh1.
    destruct (IH h1) as (h' & Hf & Hl); [done| |].
    + intros s' Hs'. rewrite Hl1, decide_False by (by intros ->). apply Hlive. by right.
    + exists h'. split; [done|]. intros s'. rewrite Hl, Hl1.
      destruct (decide (s' = s)) as [->|Hne].
      * by rewrite decide_False, decide_True by (done || left).
      * destruct (decide (s' ∈ ss)); [by rewrite decide_True by (by right)|].
        rewrite decide_False; [done|]. by intros [|]%elem_of_cons.
Qed.

Lemma Publish_eq t ev b :
  broker_ok b → ∃ b', Publish t ev b = Some b' ∧ br_subs b' = br_subs b ∧
    ∀ s, br_heap b' !! s = if decide (s ∈ br_subs b) then delivered t ev <$> br_heap b !! s else br_heap b !! s.
Proof.
  intros Hb. destruct (publish_fold t ev (elements (br_subs b)) (br_heap b)) as (h' & Hf & Hl).
  - apply NoDup_elements.
  - intros s Hs%elem_of_elements. by apply bo_live.
  - unfold Publish. rewrite Hf. eexists. split; [done|]. split; [done|]. intros s. simpl. rewrite Hl.
    apply decide_ext. apply elem_of_elements.
Qed.

Lemma delivered_cap t ev s : length (sb_ch s) ≤ capacity → length (sb_ch (delivered t ev s)) ≤ capacity.
Proof.
  unfold delivered. destruct (_ && _) eqn:E; [|done]. simpl. rewrite length_app. simpl.
  apply andb_true_iff in E as [_ ?%Nat.ltb_lt]. lia.
Qed.

Lemma delivered_fields t ev s :
  sb_tenant (delivered t ev s) = sb_tenant s ∧ sb_closed (delivered t ev s) = sb_closed s.
Proof. unfold delivered. by destruct (_ && _). Qed.

Lemma Subscribe_ok t b : broker_ok b → broker_ok (Subscribe t b).1.
Proof.
  intros Hb. unfold Subscribe. set (s := fresh _). split; cbn [fst br_heap br_subs].
  - intros s'. rewrite elem_of_union, elem_of_singleton, lookup_insert.
    case_decide as Hd; [intros _; eexists; done|]. intros [|Hs']; [congruence|]. by apply bo_live.
  - intros s' sub. rewrite lookup_insert. case_decide; [intros [= <-]; simpl; unfold capacity; lia|].
    by apply (bo_cap b Hb).
Qed.

(** Unsubscribing never closes a channel twice. *)
Lemma Unsubscribe_total s b : broker_ok b → is_Some (Unsubscribe s b).
Proof.
  intros Hb. unfold Unsubscribe. case_decide as Hin; [|eauto].
  destruct (bo_live b Hb s Hin) as (sub & -> & Hopen). unfold close_chan. rewrite Hopen. simpl. eauto.
Qed.

Lemma Unsubscribe_ok s b b' : broker_ok b → Unsubscribe s b = Some b' → broker_ok b'.
Proof.
  intros Hb. unfold Unsubscribe. case_decide as Hin; [|by intros [= <-]].
  destruct (bo_live b Hb s Hin) as (sub & Hsub & Hopen). rewrite Hsub. unfold close_chan. rewrite Hopen.
  cbn. intros [= <-]. split; cbn [br_heap br_subs].
  - intros s' [Hs' Hne]%elem_of_difference. rewrite not_elem_of_singleton in Hne.
    rewrite lookup_insert_ne by done. by apply bo_live.
  - intros s' sub'. rewrite lookup_insert. case_decide; [|by apply (bo_cap b Hb)].
    intros [= <-]. simpl. by apply (bo_cap b Hb s).
Qed.

Lemma Publish_ok t ev b b' : broker_ok b → Publish t ev b = Some b' → broker_ok b'.
Proof.
  intros Hb Hpub. destruct (Publish_eq t ev b Hb) as (b0 & Hpub' & Hsubs & Hheap).
  assert (b0 = b') as -> by congruence. split.
  - intros s. rewrite Hsubs, Hheap. intros Hin. rewrite decide_True by done.
    destruct (bo_live b Hb s Hin) as (sub & Hsub & Hopen). rewrite Hsub. simpl. eexists. split; [done|].
    by rewrite (proj2 (delivered_fields t ev sub)).
  - intros s sub. rewrite Hheap. case_decide; [|by apply (bo_cap b Hb)].
    intros (sub0 & Hsub0 & ->)%fmap_Some. by apply delivered_cap, (bo_cap b Hb s).
Qed.

Lemma Receive_ok s b ev b' : broker_ok b → Receive s b = Some (ev, b') → broker_ok b'.
Proof.
  intros Hb. unfold Receive. destruct (br_heap b !! s) as [[t [|ev' ch] c]|] eqn:E; [done| |done].
  intros [= -> <-]. split; cbn [br_heap br_subs].
  - intros s' Hin. rewrite lookup_insert. case_decide; [|by apply bo_live]. subst.
    destruct (bo_live b Hb s' Hin) as (sub & Hsub & Hopen). rewrite E in Hsub. injection Hsub as <-. eauto.
  - intros s' sub. rewrite lookup_insert. case_decide; [|by apply (bo_cap b Hb)].
    intros [= <-]. pose proof (bo_cap b Hb s _ E) as Hc. simpl in *. lia.
Qed.

Lemma bstep_ok o st : trace_ok st → ∃ st', bstep o st = Some st' ∧ trace_ok st'.
Proof.
  destruct st as [b rcv pub]. intros [Hb Hp Hs]. simpl in *. destruct o as [t|s|t ev|s]; cbn [bstep].
  - pose proof (Subscribe_fresh t b) as Hfresh. destruct (Subscribe t b) as [b' s] eqn:E. simpl in Hfresh.
    injection E as <- Es. rewrite <-Es in *. clear Es s. set (s := fresh _) in *.
    eexists. split; [done|]. split; cbn [tr_broker tr_received tr_published br_heap br_subs].
    + apply (Subscribe_ok t b Hb).
    + intros s'. rewrite !lookup_insert. case_decide; [eauto|apply Hp].
    + intros s' sub. unfold got. rewrite !lookup_insert. case_decide; [by intros [= <-]|apply Hs].
  - destruct (Unsubscribe_total s b Hb) as [b' Hu]. rewrite Hu. cbn. pose proof (Unsubscribe_ok s b b' Hb Hu) as Hb'.
    eexists. split; [done|]. revert Hu. unfold Unsubscribe. case_decide as Hin; [|by intros [= <-]; split].
    destruct (bo_live b Hb s Hin) as (sub & Hsub & Hopen). rewrite Hsub. unfold close_chan. rewrite Hopen.
    cbn. intros [= <-]. split; cbn [tr_broker tr_received tr_published br_heap br_subs]; [done| |].
    + intros s'. rewrite lookup_insert_is_Some. intros [->|[_ ?]]; apply Hp; [by rewrite Hsub|done].
    + intros s' sub'. rewrite lookup_insert. case_decide; [|apply Hs]. subst. intros [= <-]. simpl. by apply Hs.
  - destruct (Publish_eq t ev b Hb) as (b' & Hpub & Hsubs & Hheap). rewrite Hpub. cbn.
    eexists. split; [done|]. split; cbn [tr_broker tr_received tr_published].
    + by apply (Publish_ok t ev b).
    + intros s. rewrite Hheap, map_lookup_imap. intros H.
      assert (is_Some (br_heap b !! s)) as Hh by (case_decide; [by apply fmap_is_Some in H|done]).
      destruct (Hp s Hh) as [l ->]. cbn. repeat case_decide; by eexists.
    + intros s sub. rewrite Hheap. unfold got at 2. rewrite map_lookup_imap.
      assert (∀ sub0, br_heap b !! s = Some sub0 →
        (got rcv s ++ sb_ch sub0) `sublist_of` got pub s ∧ ∃ l, pub !! s = Some l ∧ got pub s = l) as Hold.
      { intros sub0 H0. split; [by apply Hs|]. destruct (Hp s) as [l Hl]; [by rewrite H0|].
        exists l. unfold got. by rewrite Hl. }
      case_decide as Hin.
      * intros (sub0 & Hsub0 & ->)%fmap_Some. destruct (Hold sub0 Hsub0) as (Hsl & l & -> & Hl).
        rewrite Hl in Hsl. simpl. rewrite Hsub0. simpl.
        unfold delivered. destruct (String.eqb_spec (sb_tenant sub0) t) as [Ht|Ht]; simpl.
        -- rewrite decide_True by (split; congruence). simpl.
           destruct (Nat.ltb _ _); simpl; [rewrite app_assoc; by apply sublist_app|by apply sublist_inserts_r].
        -- rewrite decide_False; [done|]. naive_solver.
      * intros Hsub. destruct (Hold sub Hsub) as (Hsl & l & -> & Hl). rewrite Hl in Hsl. simpl.
        by rewrite decide_False by (by intros [? _]).
  - destruct (Receive s b) as [[ev b']|] eqn:Er; [|eexists; split; [done|]; by split].
    pose proof (Receive_ok s b ev b' Hb Er) as Hb'. eexists. split; [done|]. revert Er. unfold Receive.
    destruct (br_heap b !! s) as [[t [|ev' ch] c]|] eqn:E; [done| |done]. intros [= -> <-].
    split; cbn [tr_broker tr_received tr_published br_heap br_subs]; [done| |].
    + intros s'. rewrite lookup_insert_is_Some. intros [->|[_ ?]]; apply Hp; [by rewrite E|done].
    + intros s' sub. unfold got at 1. rewrite !lookup_insert. case_decide; [|apply Hs]. subst.
      intros [= <-]. simpl. rewrite <-app_assoc. simpl. by apply (Hs s' _ E).
Qed.

Lemma brun_ok ops : ∃ st, brun ops = Some st ∧ trace_ok st.
Proof.
  unfold brun. induction ops as [|o ops IH] using rev_ind.
  - eexists. split; [done|]. split; [apply NewBroker_ok|by intros s []|done].
  - destruct IH as (st & Hst & Hok). rewrite foldl_app, Hst. cbn. by apply bstep_ok.
Qed.

(** * Properties *)

(** The event stream is safe under every interleaving of subscribing, unsubscribing,
    publishing and receiving: no operation ever panics (no send on a closed channel, no double
    close), no buffer grows beyond its capacity, and what a consumer has received
    followed by what is still buffered is an ordered selection of the events published to
    its own tenant since it subscribed (events may be dropped, never reordered, duplicated or
    leaked from another tenant). *)
Theorem broker_safe ops :
  ∃ st, brun ops = Some st ∧
    ∀ s sub, br_heap (tr_broker st) !! s = Some sub →
      length (sb_ch sub) ≤ 16 ∧
      (got (tr_received st) s ++ sb_ch sub) `sublist_of` got (tr_published st) s.
Proof.
  destruct (brun_ok ops) as (st & Hst & [Hb _ Hs]). exists st. split; [done|].
  intros s sub Hsub. split; [by apply (bo_cap _ Hb s)|by apply Hs].
Qed.

(** Publishing reaches exactly the live subscribers of the tenant that have room: each of them
    finds the event at the end of its buffer, a full one loses it, and everyone else's buffer is
    unchanged. *)
Theorem Publish_delivers ops st t ev :
  brun ops = Some st →
  ∃ b', Publish t ev (tr_broker st) = Some b' ∧
    ∀ s sub, br_heap (tr_broker st) !! s = Some sub →
      br_heap b' !! s = Some (mkSubscriber (sb_tenant sub)
        (if bool_decide (s ∈ br_subs (tr_broker st)) && (sb_tenant sub =s t) && Nat.ltb (length (sb_ch sub)) 16
         then sb_ch sub ++ [ev] else sb_ch sub) (sb_closed sub)).
Proof.
  intros Hst. destruct (brun_ok ops) as (st' & Hst' & [Hb _ _]). assert (st' = st) as -> by congruence.
  destruct (Publish_eq t ev _ Hb) as (b' & Hpub & _ & Hheap). exists b'. split; [done|].
  intros s sub Hsub. rewrite Hheap, Hsub. case_decide; [rewrite bool_decide_true by done|
    rewrite bool_decide_false by done; by destruct sub].
  simpl. unfold delivered, capacity. destruct (sb_tenant sub =s t), (Nat.ltb _ _); by destruct sub.
Qed.

Lemma Publish_delivers_witness :
  ∃ st b', brun [BSubscribe "a"; BSubscribe "b"] = Some st ∧
    Publish "a" (mkEvent "scan_started" "prod" "scan-1" fzero "") (tr_broker st) = Some b' ∧
    map (λ kv, sb_ch kv.2) (map_to_list (br_heap b')) =
      [[]; [mkEvent "scan_started" "prod" "scan-1" fzero ""]].
Proof.
  destruct (Publish_delivers [BSubscribe "a"; BSubscribe "b"]
    (default (mkTrace NewBroker ∅ ∅) (brun [BSubscribe "a"; BSubscribe "b"])) "a"
    (mkEvent "scan_started" "prod" "scan-1" fzero "") eq_refl) as (b' & H & _).
  eexists _, b'. split; [reflexivity|]. split; [exact H|].
  revert H. vm_compute. intros [= <-]. reflexivity.
Defined.
