(* ===== verification/Stream.v ===== *)
(** The event stream of the dashboard (handleStream of internal/dashboard/api.go): what a client of
    /v1/stream receives, on the channels of Broker.

    The reference reader is that of the server-sent events format: lines with a field name and a
    value, and a blank line that dispatches the event. *)

From Stdlib Require Import Ascii SpecFloat.
From S2P Require Import Prelude GoStrings GoFloat GoFmt GoJson GoJsonText Broker.

(** * Events as JSON: broker.go *)

(** A member of a struct with [omitempty]. *)
Definition omit_empty (empty : bool) (k : string) (v : json) : list (string * json) := if empty then [] else [(k, v)].

Definition is_zero (x : float64) : bool := match x with S754_zero _ => true | _ => false end.

(** [json.Marshal] of an event; [None] when the progress has no JSON form. *)
Definition event_json (ev : Event) : option json :=
  p ← json_float (ev_Progress ev);
  Some (JObj ([("type", JStr (ev_Type ev))]
    ++ omit_empty (ev_ClusterID ev =s "") "clusterId" (JStr (ev_ClusterID ev))
    ++ omit_empty (ev_ScanID ev =s "") "scanId" (JStr (ev_ScanID ev))
    ++ omit_empty (is_zero (ev_Progress ev)) "progress" p
    ++ omit_empty (ev_Message ev =s "") "message" (JStr (ev_Message ev)))).

Definition zero_event : Event := mkEvent "" "" "" fzero "".

Definition event_fields : list (field Event) :=
  [fld "type" ev_Type (λ e v, mkEvent v (ev_ClusterID e) (ev_ScanID e) (ev_Progress e) (ev_Message e)) dec_string;
   fld "clusterId" ev_ClusterID (λ e v, mkEvent (ev_Type e) v (ev_ScanID e) (ev_Progress e) (ev_Message e)) dec_string;
   fld "scanId" ev_ScanID (λ e v, mkEvent (ev_Type e) (ev_ClusterID e) v (ev_Progress e) (ev_Message e)) dec_string;
   fld "progress" ev_Progress (λ e v, mkEvent (ev_Type e) (ev_ClusterID e) (ev_ScanID e) v (ev_Message e)) dec_float;
   fld "message" ev_Message (λ e v, mkEvent (ev_Type e) (ev_ClusterID e) (ev_ScanID e) (ev_Progress e) v) dec_string].

(** * The handler *)

Definition marshal_event (ev : Event) : string := match event_json ev with Some j => Marshal j | None => "" end.

(** [fmt.Fprintf(w, ...)] of one event. *)
Definition frame (ev : Event) : string :=
  "event: " +:+ ev_Type ev +:+ newline ::: "data: " +:+ marshal_event ev +:+ newline ::: newline ::: EmptyString.

(** What [select] takes: the end of the request, an event, or a closed channel. *)
Inductive arrival := Done | Received (ev : Event) | Closed.

Fixpoint stream_loop (out : string) (as_ : list arrival) : string :=
  match as_ with
  | Received ev :: as' => stream_loop (out +:+ frame ev) as'
  | _ => out
  end.

Record stream_reply := mkStreamReply { st_status : Z; st_headers : list (string * string); st_text : string }.

(** [handleStream]; [flusher] says whether the writer can flush. *)
Definition handleStream (flusher : bool) (as_ : list arrival) : stream_reply :=
  if negb flusher
  then mkStreamReply 500 [("Content-Type", "application/json")]
         (Encode true "  " (JObj [("error", JStr "streaming unsupported")]))
  else mkStreamReply 200
         [("Content-Type", "text/event-stream"); ("Cache-Control", "no-cache"); ("Connection", "keep-alive")]
         (stream_loop "" as_).

(** * The reference reader *)

Definition drop_space (s : string) : string := match s with String c s' => if is_byte 32 c then s' else s | EmptyString => s end.

(** The type and the data seen since the last blank line. *)
Fixpoint read_lines (ty data : string) (ls : list string) : list (string * string) :=
  match ls with
  | [] => []
  | l :: ls' =>
      if l =s "" then (if data =s "" then [] else [(ty, data)]) ++ read_lines "" "" ls'
      else match cut ":" l with
           | Some (name, v) =>
               if name =s "event" then read_lines (drop_space v) data ls'
               else if name =s "data"
               then read_lines ty (if data =s "" then drop_space v else data +:+ newline ::: drop_space v) ls'
               else read_lines ty data ls'
           | None => read_lines ty data ls'
           end
  end.

Definition read_stream (text : string) : list (string * string) := read_lines "" "" (split_on newline text).

(** The event in the data of a frame. *)
Definition read_event (data : string) : option Event :=
  j ← Unmarshal data;
  let '(ev, type_error) := dec_struct event_fields zero_event j in
  if type_error : bool then None else Some ev.

(** * Frames are read back *)

(** An event whose frame can be read: its type is a word, its texts are valid UTF-8, its progress a
    number. *)
Definition event_fits (ev : Event) : bool :=
  (ev_Type ev <>s "") && lacks newline (ev_Type ev)
  && utf8_valid (ev_Type ev) && utf8_valid (ev_ClusterID ev) && utf8_valid (ev_ScanID ev) && utf8_valid (ev_Message ev)
  && float_prints (ev_Progress ev) && negb (float_same (ev_Progress ev) (S754_zero true)).

Lemma fits_parts ev : event_fits ev = true →
  ev_Type ev ≠ "" ∧ lacks newline (ev_Type ev) = true ∧
  (utf8_valid (ev_Type ev) = true ∧ utf8_valid (ev_ClusterID ev) = true ∧ utf8_valid (ev_ScanID ev) = true ∧
   utf8_valid (ev_Message ev) = true) ∧
  float_prints (ev_Progress ev) = true ∧ (is_zero (ev_Progress ev) = true → ev_Progress ev = fzero).
Proof.
  unfold event_fits. rewrite !andb_true_iff. intros [[[[[[[H1 H2] H4] H5] H6] H7] H8] H9].
  split_and!; try done.
  - intros E. by rewrite E in H1.
  - destruct (ev_Progress ev) as [[]| | |]; try done.
Qed.

Lemma event_json_ok ev : event_fits ev = true → ∃ j, event_json ev = Some j ∧ json_ok j = true.
Proof.
  intros H. destruct (fits_parts ev H) as (_ & _ & (H1 & H2 & H3 & H4) & Hp & _).
  destruct (json_float_reads _ Hp) as (p & Hj & Hok & _). unfold event_json. rewrite Hj. cbn [mbind option_bind].
  eexists. split; [done|]. cbn [json_ok]. rewrite !forallb_app. unfold omit_empty.
  destruct (ev_ClusterID ev =s ""), (ev_ScanID ev =s ""), (is_zero (ev_Progress ev)), (ev_Message ev =s "");
    cbn [forallb fst snd json_ok]; rewrite ?H1, ?H2, ?H3, ?H4, ?Hok; reflexivity.
Qed.

Lemma marshal_event_line ev : event_fits ev = true → lacks newline (marshal_event ev) = true ∧ marshal_event ev ≠ "".
Proof.
  intros H. destruct (event_json_ok ev H) as (j & Hj & Hok). unfold marshal_event. rewrite Hj. split.
  - eapply str_all_weaken; [|by apply Marshal_printable]. intros d Hd. apply negb_true_iff, Ascii.eqb_neq. intros <-. done.
  - intros E. pose proof (Unmarshal_Marshal j Hok) as Hu. by rewrite E in Hu.
Qed.

Lemma read_event_line ty dat v ls : read_lines ty dat (("event: " +:+ v) :: ls) = read_lines v dat ls.
Proof. reflexivity. Qed.

Lemma read_data_line ty v ls : read_lines ty "" (("data: " +:+ v) :: ls) = read_lines ty v ls.
Proof. reflexivity. Qed.

Lemma read_blank_line ty dat ls : dat ≠ "" → read_lines ty dat ("" :: ls) = (ty, dat) :: read_lines "" "" ls.
Proof. intros H. cbn [read_lines]. by rewrite (proj2 (String.eqb_neq _ _) H). Qed.

(** One frame: three lines. *)
Lemma read_frame ev text : event_fits ev = true →
  read_stream (frame ev +:+ text) = (ev_Type ev, marshal_event ev) :: read_stream text.
Proof.
  intros H. destruct (fits_parts ev H) as (Hne & Hl & _). destruct (marshal_event_line ev H) as [Hm Hmne].
  unfold read_stream, frame.
  assert (("event: " +:+ ev_Type ev +:+ newline ::: "data: " +:+ marshal_event ev +:+ newline ::: newline ::: "") +:+ text =
    (("event: " +:+ ev_Type ev) +:+ newline ::: (("data: " +:+ marshal_event ev) +:+ newline ::: ("" +:+ newline ::: text)))) as ->
    by (repeat (rewrite <-str_app_assoc || rewrite str_app_cons); reflexivity).
  rewrite !split_on_cons by (done || by rewrite lacks_app, ?Hl, ?Hm).
  by rewrite read_event_line, read_data_line, read_blank_line.
Qed.

Lemma stream_loop_text out evs as_ :
  match as_ with Received _ :: _ => False | _ => True end →
  stream_loop out (map Received evs ++ as_) = out +:+ String.concat "" (map frame evs).
Proof.
  intros Hend. revert out. induction evs as [|ev evs IH]; intros out; cbn [map app stream_loop].
  - rewrite str_app_nil_r. by destruct as_ as [|[]].
  - rewrite IH, <-str_app_assoc. f_equal. by destruct evs; [rewrite str_app_nil_r|].
Qed.

Lemma read_frames evs : Forall (λ ev, event_fits ev = true) evs →
  read_stream (String.concat "" (map frame evs)) = map (λ ev, (ev_Type ev, marshal_event ev)) evs.
Proof.
  induction 1 as [|ev evs Hev _ IH]; [done|].
  assert (String.concat "" (map frame (ev :: evs)) = frame ev +:+ String.concat "" (map frame evs)) as ->
    by (destruct evs; cbn; by rewrite ?str_app_nil_r).
  rewrite read_frame by done. cbn [map]. by rewrite IH.
Qed.

(** Compares the names of members. *)
Ltac decide_names :=
  repeat match goal with
  | |- context [String.ltb ?a ?b] => let v := eval vm_compute in (String.ltb a b) in change (String.ltb a b) with v; cbn -[dec_float]
  end.

(** The members are decoded into the fields; an omitted one leaves the zero value. *)
Lemma dec_event ty c s pr m p :
  (∀ old, dec_float old p = (pr, false)) → (is_zero pr = true → pr = fzero) →
  dec_struct event_fields zero_event (JObj ([("type", JStr ty)] ++ omit_empty (c =s "") "clusterId" (JStr c)
    ++ omit_empty (s =s "") "scanId" (JStr s) ++ omit_empty (is_zero pr) "progress" p
    ++ omit_empty (m =s "") "message" (JStr m))) = (mkEvent ty c s pr m, false).
Proof.
  intros Hd Hz. unfold omit_empty.
  destruct (String.eqb_spec c "") as [->|_], (String.eqb_spec s "") as [->|_], (String.eqb_spec m "") as [->|_];
    (destruct (is_zero pr) eqn:Ez; [rewrite (Hz eq_refl)|]); cbn -[dec_float]; decide_names; rewrite ?Hd; reflexivity.
Qed.

(** The data of a frame is the event. *)
Lemma read_marshal_event ev : event_fits ev = true → read_event (marshal_event ev) = Some ev.
Proof.
  intros H. destruct (event_json_ok ev H) as (j & Hj & Hok). unfold read_event, marshal_event. rewrite Hj, Unmarshal_Marshal by done.
  cbn [mbind option_bind]. destruct (fits_parts ev H) as (_ & _ & _ & Hp & Hz).
  destruct (json_float_reads _ Hp) as (p & Hjp & _ & Hd).
  assert (dec_struct event_fields zero_event j = (ev, false)) as ->; [|done].
  unfold event_json in Hj. rewrite Hjp in Hj. cbn [mbind option_bind] in Hj. apply (inj Some) in Hj as <-.
  rewrite dec_event by done. by destruct ev.
Qed.

(** * The stream on the broker *)

(** Every event published to a subscriber was published by an operation of the run. *)
Lemma published_from ops st s ev :
  brun ops = Some st → ev ∈ got (tr_published st) s → ∃ t, BPublish t ev ∈ ops.
Proof.
  revert st. induction ops as [|o ops IH] using rev_ind; intros st Hst Hev.
  { injection Hst as <-. by apply not_elem_of_nil in Hev. }
  unfold brun in Hst. rewrite foldl_app in Hst. cbn in Hst.
  change (foldl _ _ ops) with (brun ops) in Hst. destruct (brun ops) as [st0|]; [|done]. cbn in Hst.
  assert (ev ∈ got (tr_published st0) s ∨ ∃ t, o = BPublish t ev) as [H|[t ->]].
  2: { destruct (IH st0 eq_refl H) as [t Ht]. exists t. apply elem_of_app. by left. }
  2: { exists t. apply elem_of_app. right. by left. }
  destruct st0 as [b rcv pub]. destruct o as [t|s'|t ev'|s']; cbn [bstep] in Hst.
  - injection Hst as <-. cbn [tr_published] in *. unfold got in Hev. rewrite lookup_insert in Hev.
    case_decide; [by apply not_elem_of_nil in Hev|by left].
  - apply bind_Some in Hst as (b' & _ & [= <-]). by left.
  - apply bind_Some in Hst as (b' & _ & [= <-]). cbn [tr_published] in *. unfold got in Hev |- *.
    rewrite map_lookup_imap in Hev. destruct (pub !! s) as [l|]; [|by left]. cbn in Hev |- *.
    case_decide; [|by left]. apply elem_of_app in Hev as [Hev|Hev%list_elem_of_singleton]; [by left|]. right. by exists t; subst.
  - destruct (Receive s' b) as [[ev' b']|]; injection Hst as <-; by left.
Qed.


Definition ex_ops : list bop :=
  [BSubscribe "a"; BPublish "a" (mkEvent "scan_started" "prod" "scan-1" fzero "");
   BPublish "b" (mkEvent "scan_started" "other" "scan-2" fzero "");
   BPublish "a" (mkEvent "scan_completed" "prod" "scan-1" fone "");
   BReceive 0; BReceive 0].

Example ex_stream :
  st_text <$> ((λ st, handleStream true (map Received (got (tr_received st) 0%N) ++ [Done])) <$> brun ex_ops)
  = Some (replace_bytes (λ c, if Ascii.eqb c "'" then Some dquote else None)
"event: scan_started
data: {'type':'scan_started','clusterId':'prod','scanId':'scan-1'}

event: scan_completed
data: {'type':'scan_completed','clusterId':'prod','scanId':'scan-1','progress':1}

").
Proof. vm_compute. reflexivity. Qed.


(** The events a scan publishes can be read when its ids are valid UTF-8. *)
Lemma scan_events_fit ty c s p m :
  ty ∈ ["scan_started"; "scan_progress"; "scan_completed"; "posture_updated"] →
  p ∈ [fzero; fdiv (float_of_int 1) (float_of_int 2); float_of_int 1] → m ∈ [""; "failed"] →
  utf8_valid c = true → utf8_valid s = true → event_fits (mkEvent ty c s p m) = true.
Proof.
  intros Ht Hp Hm Hc Hs. unfold event_fits. cbn [ev_Type ev_ClusterID ev_ScanID ev_Progress ev_Message]. rewrite Hc, Hs.
  repeat (apply elem_of_cons in Ht as [->|Ht]; [|]); try (by apply not_elem_of_nil in Ht);
    repeat (apply elem_of_cons in Hp as [->|Hp]; [|]); try (by apply not_elem_of_nil in Hp);
    repeat (apply elem_of_cons in Hm as [->|Hm]; [|]); try (by apply not_elem_of_nil in Hm); vm_compute; reflexivity.
Qed.
