(* ===== verification/FindingQuery.v ===== *)
(** The findings endpoint of the dashboard (internal/dashboard/api.go): query parameters, filter,
    sort and page.

    [r.URL.Query().Get] is a function from parameter names to values, [""] when absent. *)

From Stdlib Require Import Ascii.
From S2P Require Import Prelude GoStrings GoJson Api Policy MemStore.
Local Open Scope string_scope.

(** * Parameters *)

(** [strconv.Atoi]: an optional sign and decimal digits, within an [int]. *)
Fixpoint atoi_digits (acc : Z) (s : string) : option Z :=
  match s with
  | EmptyString => Some acc
  | String c s' => if is_digit c then atoi_digits (acc * 10 + (Z.of_N (byte_of c) - 48)) s' else None
  end.

Definition Atoi (s : string) : option Z :=
  let '(neg, digits) :=
    match s with
    | String c s' => if Ascii.eqb c "-"%char then (true, s') else if Ascii.eqb c "+"%char then (false, s') else (false, s)
    | EmptyString => (false, s)
    end in
  if digits =s "" then None
  else match atoi_digits 0 digits with
  | Some n => let n := if neg then (- n)%Z else n in if in_int64 n then Some n else None
  | None => None
  end.

Definition queryInt (get : string → string) (key : string) (def : Z) : Z :=
  if get key <>s "" then default def (Atoi (get key)) else def.

Record findingQuery := mkFindingQuery {
  q_severities : option (list string);
  q_category : string;
  q_framework : string;
  q_namespace : string;
  q_search : string;
  q_sort : string;
  q_order : string;
  q_limit : Z;
  q_offset : Z
}.

Definition parseFindingQuery (get : string → string) : findingQuery :=
  mkFindingQuery
    (if get "severity" <>s ""
     then Some (map (λ s, to_lower (trim_space s)) (split_on ","%char (get "severity"))) else None)
    (get "category") (to_lower (get "framework")) (get "namespace") (to_lower (get "search"))
    (orDefault (get "sort") "severity") (orDefault (get "order") "desc")
    (queryInt get "limit" 50) (queryInt get "offset" 0).

(** * Filter *)

Definition findingHasFramework (f : Finding) (fw : string) : bool :=
  existsb (λ ref, contains (to_lower (cr_Framework ref)) fw) (f_Refs f).

Definition findingMatches (f : Finding) (term : string) : bool :=
  contains (to_lower (join " " [f_ID f; f_Title f; f_Category f; rr_Kind (f_Resource f);
                                rr_Namespace (f_Resource f); rr_Name (f_Resource f)])) term.

(** The body of the loop of [filterFindings]: false where it continues. *)
Definition keeps (q : findingQuery) (f : Finding) : bool :=
  if (match q_severities q with Some sevs => negb (mem_str (f_Severity f) sevs) | None => false end) then false
  else if (q_category q <>s "") && negb (equal_fold (f_Category f) (q_category q)) then false
  else if (q_namespace q <>s "") && negb (equal_fold (rr_Namespace (f_Resource f)) (q_namespace q)) then false
  else if (q_framework q <>s "") && negb (findingHasFramework f (q_framework q)) then false
  else if (q_search q <>s "") && negb (findingMatches f (q_search q)) then false
  else true.

Definition filterFindings (l : list Finding) (q : findingQuery) : list Finding := List.filter (keeps q) l.

(** * Sort *)

Definition ascLess (key : string) (a b : Finding) : bool :=
  if key =s "id" then f_ID a <s f_ID b
  else if key =s "category" then
    if f_Category a <>s f_Category b then f_Category a <s f_Category b else f_ID a <s f_ID b
  else
    if negb (Rank (f_Severity a) =? Rank (f_Severity b))%Z
    then (Rank (f_Severity a) <? Rank (f_Severity b))%Z else f_ID a <s f_ID b.

Definition sortFindings (l : list Finding) (key order : string) : list Finding :=
  let l := slice_stable (ascLess key) l in
  if order <>s "asc" then rev l else l.

(** * Page *)

Definition paginate (l : list Finding) (limit offset : Z) : option (list Finding) := page l limit offset.

(** The answer of [handleFindings] for a report: the page, the total before paging, and the limit
    and offset it echoes; [None] panics. *)
Definition findings_page (rep : Report) (q : findingQuery) : option (list Finding * Z * Z * Z) :=
  let filtered := filterFindings (rep_Findings rep) q in
  let filtered := sortFindings filtered (q_sort q) (q_order q) in
  let total := Z.of_nat (length filtered) in
  p ← paginate filtered (q_limit q) (q_offset q);
  Some (p, total, q_limit q, q_offset q).

(** * Lemmas *)

#[export] Instance ascLess_strict_weak key : StrictWeak (ascLess key).
Proof.
  unfold ascLess. destruct (key =s "id"); [|destruct (key =s "category")].
  - split; intros *; [apply sw_irrefl|apply sw_trans|apply sw_negtrans].
  - chain_link f_Category String.eqb String.ltb String.eqb_eq.
    split; intros *; [apply sw_irrefl|apply sw_trans|apply sw_negtrans].
  - chain_link (λ f, Rank (f_Severity f)) Z.eqb Z.ltb Z.eqb_eq.
    split; intros *; [apply sw_irrefl|apply sw_trans|apply sw_negtrans].
Qed.

(** [strconv.Atoi] yields an [int]. *)
Lemma Atoi_range s n : Atoi s = Some n → (- 2 ^ 63 <= n < 2 ^ 63)%Z.
Proof.
  unfold Atoi. destruct (match s with EmptyString => _ | _ => _ end) as [neg digits].
  destruct (digits =s ""); [done|]. destruct (atoi_digits 0 digits) as [z|]; [|done].
  destruct (in_int64 _) eqn:E; [|done]. intros [= <-].
  unfold in_int64, int64_min, int64_max in E. boolify. lia.
Qed.

Lemma queryInt_range get key def : (- 2 ^ 63 <= def < 2 ^ 63)%Z → (- 2 ^ 63 <= queryInt get key def < 2 ^ 63)%Z.
Proof.
  intros Hd. unfold queryInt. destruct (get key <>s ""); [|done].
  destruct (Atoi (get key)) eqn:E; simpl; [by apply Atoi_range in E|done].
Qed.

Lemma sortFindings_perm l key order : sortFindings l key order ≡ₚ l.
Proof.
  unfold sortFindings. destruct (order <>s "asc"); [rewrite <-Permutation_rev|]; apply slice_stable_perm.
Qed.

(** What is sent: the filtered findings in order, before paging. *)
Definition matching (rep : Report) (q : findingQuery) : list Finding :=
  sortFindings (filterFindings (rep_Findings rep) q) (q_sort q) (q_order q).

Definition with_offset (q : findingQuery) (offset : Z) : findingQuery :=
  mkFindingQuery (q_severities q) (q_category q) (q_framework q) (q_namespace q) (q_search q)
    (q_sort q) (q_order q) (q_limit q) offset.

Lemma rev_sorted {A} (R : A → A → Prop) l : StronglySorted R l → StronglySorted (λ x y, R y x) (rev l).
Proof.
  induction 1 as [|x l Hl IH Hx]; simpl; [constructor|].
  apply StronglySorted_app_2; [|done|by repeat constructor].
  intros y z Hy ->%list_elem_of_singleton. rewrite Forall_forall in Hx. apply Hx.
  by rewrite list_elem_of_In, in_rev, <-list_elem_of_In.
Qed.

Lemma keeps_spec q f :
  keeps q f = true ↔
  (∀ sevs, q_severities q = Some sevs → f_Severity f ∈ sevs) ∧
  (q_category q = "" ∨ equal_fold (f_Category f) (q_category q) = true) ∧
  (q_namespace q = "" ∨ equal_fold (rr_Namespace (f_Resource f)) (q_namespace q) = true) ∧
  (q_framework q = "" ∨ ∃ ref, ref ∈ f_Refs f ∧ contains (to_lower (cr_Framework ref)) (q_framework q) = true) ∧
  (q_search q = "" ∨ findingMatches f (q_search q) = true).
Proof.
  unfold keeps, findingHasFramework. rewrite <-existsb_elem.
  assert (∀ s b, (s <>s "") && negb b = false ↔ s = "" ∨ b = true) as Hc.
  { intros s b. destruct (String.eqb_spec s ""), b; simpl; naive_solver. }
  rewrite <-!Hc.
  assert ((match q_severities q with Some sevs => negb (mem_str (f_Severity f) sevs) | None => false end) = false
    ↔ ∀ sevs, q_severities q = Some sevs → f_Severity f ∈ sevs) as <-.
  { destruct (q_severities q) as [sevs|]; [|naive_solver]. rewrite negb_false_iff, mem_str_spec. naive_solver. }
  repeat match goal with |- context [if ?b then false else _] => destruct b end; intuition congruence.
Qed.

Lemma concat_pages {A} (l : list A) (n k : nat) :
  0 < n → concat (map (λ i, take n (drop (i * n) l)) (seq 0 k)) = take (k * n) l.
Proof.
  intros Hn. induction k as [|k IH]; [done|].
  rewrite seq_S, map_app, concat_app, IH. simpl. rewrite app_nil_r, Nat.add_comm.
  by rewrite <-take_take_drop.
Qed.

(** * Properties *)



(** Paging loses nothing: for a positive limit the consecutive pages of a query, put
    together, are the whole answer, every matching finding exactly once. *)
Theorem pages_partition rep q pages :
  (0 < q_limit q)%Z →
  (Z.of_nat (length (rep_Findings rep)) < 2 ^ 63)%Z →
  (Z.of_nat pages * q_limit q < 2 ^ 63)%Z →
  (Z.of_nat (length (matching rep q)) <= Z.of_nat pages * q_limit q)%Z →
  ∃ ps, mapM (λ i, fst <$> (fst <$> (fst <$> findings_page rep (with_offset q (Z.of_nat i * q_limit q))))) (seq 0 pages)
        = Some ps ∧ concat ps = matching rep q.
Proof.
  intros Hlim Hn Hp Hcover. set (n := Z.to_nat (q_limit q)).
  exists (map (λ i, take n (drop (i * n) (matching rep q))) (seq 0 pages)). split.
  - apply mapM_Some_2. apply Forall2_fmap_r, Forall_Forall2_diag, Forall_forall. intros i Hi%elem_of_seq.
    assert (Z.of_nat (length (matching rep q)) < 2 ^ 63)%Z as Hm.
    { unfold matching. rewrite sortFindings_perm. unfold filterFindings.
      pose proof (count_le (keeps q) (rep_Findings rep)). unfold count in *. lia. }
    assert ((Z.of_nat i + 1) * q_limit q <= Z.of_nat pages * q_limit q)%Z as Hi'
      by (apply Z.mul_le_mono_nonneg_r; lia).
    assert (0 <= Z.of_nat i * q_limit q)%Z by lia.
    unfold findings_page, paginate.
    change (sortFindings _ _ _) with (matching rep q). cbn [q_limit q_offset with_offset].
    rewrite page_spec by nia.
    rewrite (proj2 (Z.ltb_ge _ 0)) by lia. cbn [orb].
    rewrite (proj2 (Z.leb_gt (2 ^ 63) _)) by lia. rewrite andb_false_r.
    rewrite (proj2 (Z.leb_gt (q_limit q) 0)) by lia. cbn. f_equal. fold n.
    destruct (Z.min_spec (Z.of_nat i * q_limit q) (Z.of_nat (length (matching rep q)))) as [[Hmin ->]|[Hmin ->]].
    + do 2 f_equal. unfold n. lia.
    + rewrite !drop_ge; [done|unfold n; lia|lia].
  - rewrite concat_pages by (unfold n; lia). apply take_ge. unfold n. lia.
Qed.

Lemma pages_partition_witness :
  let f := λ s, mkFinding s "a" "high" "" (mkResourceRef "Pod" "shop" "web") [] (mkRemediation "" "") [] [] in
  let rep := mkReport "" "" "" [f "KG-001"; f "KG-002"; f "KG-003"] [] zero_posture [] None None in
  let q := parseFindingQuery (λ k, if k =s "limit" then "2" else "") in
  q_limit q = 2%Z ∧ ∃ ps, concat ps = map f ["KG-003"; "KG-002"; "KG-001"].
Proof.
  intros f rep q. split; [reflexivity|].
  destruct (pages_partition rep q 2) as (ps & _ & H); [reflexivity|reflexivity|reflexivity|discriminate|].
  exists ps. etransitivity; [exact H|reflexivity].
Defined.
