(* ===== verification/Sources.v ===== *)
(** The scannable sources of the dashboard: the registry (internal/cli/clustersource.go) and the
    scanner closure of the dashboard command (internal/cli/dashboard.go).

    The file system, the kubeconfig and the two loaders are parameters: [stat] and
    [NewClientset] give the error they return, if any, and [liveLoad] and [offlineLoad] the
    resources or the error. *)

From S2P Require Import Prelude GoStrings Api Model Compliance Analyzer Live.

(** * The registry *)

Notation sourceRegistry := (gmap string string).

Definition newSourceRegistry : sourceRegistry := ∅.

Definition is_live (source : string) : bool := (source =s "live") || has_prefix source "live:".

(** [AddSource], with [stat path] the error of [os.Stat]. *)
Definition AddSource (stat : string → option string) (clusterID source : string) (s : sourceRegistry)
    : res sourceRegistry :=
  let source := trim_space source in
  if source =s "" then Err "source is empty"
  else if negb (is_live source) then
    match stat source with
    | Some e => Err ("manifest path not found: " +:+ e)
    | None => Ok (<[clusterID := source]> s)
    end
  else Ok (<[clusterID := source]> s).

Definition RemoveSource (clusterID : string) (s : sourceRegistry) : sourceRegistry := delete clusterID s.

Definition source (s : sourceRegistry) (clusterID : string) : option string := s !! clusterID.

Definition ids (s : sourceRegistry) : list string := sort_strings (map fst (map_to_list s)).

(** [strings.TrimPrefix] *)
Definition trim_prefix (s pre : string) : string :=
  if has_prefix s pre then str_from (str_len pre) s else s.

(** * The scanner *)

Record Loaders := mkLoaders {
  ld_NewClientset : string → option string;
  ld_liveLoad : string → res (list Resource);
  ld_offlineLoad : string → res (list Resource)
}.

(** The loaders on client-go and the offline loader. *)
Definition client_loaders (connect : string → res clientset) (offlineLoad : string → res (list Resource)) : Loaders := {|
  ld_NewClientset ctx := match connect ctx with Ok _ => None | Err e => Some e end;
  ld_liveLoad ctx := cs ← connect ctx; Live.Load cs;
  ld_offlineLoad := offlineLoad
|}.

Definition load_source (ld : Loaders) (clusterID path : string) : res (list Resource) :=
  if is_live path then
    let kubeContext := trim_prefix (trim_prefix path "live") ":" in
    match ld_NewClientset ld kubeContext with
    | Some e => Err ("live cluster " +:+ fmt_quote clusterID +:+ ": " +:+ e)
    | None => wrap_err ("live scan " +:+ fmt_quote clusterID +:+ ": ") (ld_liveLoad ld kubeContext)
    end
  else wrap_err ("load " +:+ fmt_quote path +:+ ": ") (ld_offlineLoad ld path).

Definition scanner (packs : res (list Pack)) (profile : string) (assumeBreach : bool) (ld : Loaders)
    (s : sourceRegistry) (clusterID : string) : res Report :=
  match source s clusterID with
  | None => Err ("unknown cluster " +:+ fmt_quote clusterID)
  | Some path =>
      rs ← load_source ld clusterID path;
      rep ← Analyze packs rs profile assumeBreach [];
      Ok (stamp_report (rep_GeneratedAt rep) clusterID rep)
  end.

(** * Lemmas *)

Lemma AddSource_Ok stat id src s s' :
  AddSource stat id src s = Ok s' ↔
  trim_space src ≠ "" ∧ (is_live (trim_space src) = true ∨ stat (trim_space src) = None) ∧
  s' = <[id := trim_space src]> s.
Proof.
  unfold AddSource. destruct (String.eqb_spec (trim_space src) ""); [naive_solver|].
  destruct (is_live (trim_space src)); simpl; [naive_solver|].
  destruct (stat (trim_space src)); naive_solver.
Qed.

Lemma elem_of_ids s id : id ∈ ids s ↔ is_Some (s !! id).
Proof.
  unfold ids. rewrite elem_of_sort_strings, list_elem_of_fmap. split.
  - intros ([k v] & -> & H%elem_of_map_to_list). simpl. eauto.
  - intros [v H]. exists (id, v). by rewrite elem_of_map_to_list.
Qed.

(** A live source on client-go: what is loaded is what the clientset of its context lists. *)
Lemma live_source_loads {Config} (ClientConfig : ConfigOverrides → res Config) NewForConfig offlineLoad id path rs :
  is_live path = true →
  load_source (client_loaders (NewClientset ClientConfig NewForConfig) offlineLoad) id path = Ok rs ↔
  ∃ cfg cs, ClientConfig (mkConfigOverrides (trim_prefix (trim_prefix path "live") ":")) = Ok cfg ∧
    NewForConfig cfg = Ok cs ∧ Live.Load cs = Ok rs.
Proof.
  intros Hl. unfold load_source. rewrite Hl. cbn [ld_NewClientset ld_liveLoad client_loaders]. unfold NewClientset.
  set (ctx := trim_prefix _ _).
  assert ((if ctx <>s "" then mkConfigOverrides ctx else mkConfigOverrides "") = mkConfigOverrides ctx) as ->
    by (by destruct (String.eqb_spec ctx "") as [->|]).
  destruct (ClientConfig (mkConfigOverrides ctx)) as [cfg|e] eqn:Ec; cbn -[Live.Load]; [|split; [done|by intros (? & ? & ? & _)]].
  destruct (NewForConfig cfg) as [cs|e] eqn:En; cbn -[Live.Load].
  - destruct (Live.Load cs) as [l|e] eqn:El; cbn -[Live.Load]; split; [intros [= <-]; by exists cfg, cs| |done|];
      intros (? & ? & [= <-] & Hcs & H); rewrite En in Hcs; injection Hcs as <-; congruence.
  - split; [done|]. intros (? & ? & [= <-] & ? & _). congruence.
Qed.

Lemma NoDup_ids s : NoDup (ids s).
Proof. unfold ids. rewrite sort_strings_perm. apply NoDup_fst_map_to_list. Qed.

(** * Properties *)

(** A scan reads the source registered for that cluster and nothing else, and its report is
    the analysis of what was loaded: an unregistered cluster fails by name; a live source is
    loaded from its context and any other one as a path; a loader's error is passed on; and a
    successful report is stamped with the cluster. *)
Theorem scanner_spec packs profile breach ld s id rep :
  scanner packs profile breach ld s id = Ok rep ↔
  ∃ path rs r, s !! id = Some path ∧
    (if is_live path
     then ld_NewClientset ld (trim_prefix (trim_prefix path "live") ":") = None ∧
          ld_liveLoad ld (trim_prefix (trim_prefix path "live") ":") = Ok rs
     else ld_offlineLoad ld path = Ok rs) ∧
    Analyze packs rs profile breach [] = Ok r ∧
    rep = mkReport (rep_GeneratedAt r) id (rep_Profile r) (rep_Findings r) (rep_Paths r)
            (rep_Posture r) (rep_Compliance r) (rep_Coverage r) (rep_TopRisks r).
Proof.
  unfold scanner, source, load_source. destruct (s !! id) as [path|];
    [|split; [done|by intros (? & ? & ? & ? & _)]].
  assert (∀ rs : res (list Resource), (∃ e, rs = Err e) ∨ ∃ l, rs = Ok l) as Hres by (intros []; eauto).
  assert (∀ l, (rep0 ← Analyze packs l profile breach []; Ok (stamp_report (rep_GeneratedAt rep0) id rep0)) = Ok rep ↔
    ∃ r, Analyze packs l profile breach [] = Ok r ∧ rep = stamp_report (rep_GeneratedAt r) id r) as Han.
  { intros l. destruct (Analyze packs l profile breach []) as [r|e]; cbn; [|split; [done|by intros (? & ? & _)]].
    split; [intros [= <-]; eauto|]. by intros (r' & [= <-] & ->). }
  destruct (is_live path) eqn:Elive.
  - destruct (ld_NewClientset ld _) eqn:Ec; [split; [done|]; intros (? & ? & ? & [= <-] & H & _);
      rewrite Elive in H; destruct H; congruence|].
    destruct (Hres (ld_liveLoad ld (trim_prefix (trim_prefix path "live") ":"))) as [[e He]|[l Hl]].
    + rewrite He. split; [done|]. intros (? & ? & ? & [= <-] & H & _). rewrite Elive in H. destruct H; congruence.
    + rewrite Hl. cbn [wrap_err mbind res_bind]. rewrite Han. split.
      * intros (r & Hr & ->). exists path, l, r. rewrite Elive. eauto.
      * intros (? & l' & r & [= <-] & H & Hr & ->). rewrite Elive in H. destruct H as [_ H].
        assert (l' = l) as -> by congruence. eauto.
  - destruct (Hres (ld_offlineLoad ld path)) as [[e He]|[l Hl]].
    + rewrite He. split; [done|]. intros (? & ? & ? & [= <-] & H & _). rewrite Elive in H. congruence.
    + rewrite Hl. cbn [wrap_err mbind res_bind]. rewrite Han. split.
      * intros (r & Hr & ->). exists path, l, r. rewrite Elive. eauto.
      * intros (? & l' & r & [= <-] & H & Hr & ->). rewrite Elive in H.
        assert (l' = l) as -> by congruence. eauto.
Qed.
