(* ===== verification/ScanCmd.v ===== *)
(** The scan command (internal/cli/scan.go), with the file side of policies and waivers, the watch
    loop, and the loader of the serve command (internal/cli/serve.go).

    A run is a function of its world: the parameters of the components it calls, the file system,
    the clock, the history backend and the SARIF library.  Its effects are collected in order: the text on standard output, the lines on
    standard error, the files created with their contents, and the history.  An encoder that
    fails leaves its destination empty. *)

From S2P Require Import Prelude GoStrings GoJson GoFloat GoTime GoFmt Api Model Graph Checks Policy Compliance.
From S2P Require Import Waiver Analyzer History Reports Html Asff ReportJson Sources.

(** * Paths *)

Definition slash : Ascii.ascii := Ascii.ascii_of_N 47.

(** [filepath.Base] *)
Definition base_name (path : string) : string :=
  if path =s "" then "."
  else
    let p := trim_right_by (Ascii.eqb slash) path in
    if p =s "" then "/"
    else match last_index p slash with Some i => str_from (i + 1) p | None => p end.

(** [filepath.Join] of a clean directory and a name. *)
Definition join_path (dir name : string) : string := dir +:+ "/" +:+ name.

(** * Effects *)

Record effects (St : Type) := mkEffects {
  ef_stdout : string;
  ef_stderr : list string;
  ef_files : list (string * string);
  ef_store : option St
}.
Arguments mkEffects {St} _ _ _ _.
Arguments ef_stdout {St} _.
Arguments ef_stderr {St} _.
Arguments ef_files {St} _.
Arguments ef_store {St} _.

(** A computation with effects that returns a value or an error. *)
Definition M (St A : Type) : Type := effects St → effects St * res A.

#[export] Instance M_ret {St} : MRet (M St) := λ A a e, (e, Ok a).
#[export] Instance M_bind {St} : MBind (M St) := λ A B k m e,
  match m e with (e', Ok a) => k a e' | (e', Err er) => (e', Err er) end.

Definition lift {St A} (r : res A) : M St A := λ e, (e, r).
Definition print {St} (text : string) : M St unit := λ e,
  (mkEffects (ef_stdout e +:+ text) (ef_stderr e) (ef_files e) (ef_store e), Ok tt).
Definition log {St} (line : string) : M St unit := λ e,
  (mkEffects (ef_stdout e) (ef_stderr e ++ [line]) (ef_files e) (ef_store e), Ok tt).
Definition create {St} (path content : string) : M St unit := λ e,
  (mkEffects (ef_stdout e) (ef_stderr e) (ef_files e ++ [(path, content)]) (ef_store e), Ok tt).
Definition put_store {St} (s : St) : M St unit := λ e,
  (mkEffects (ef_stdout e) (ef_stderr e) (ef_files e) (Some s), Ok tt).

(** * Parameters of the command *)

Record scanParams := mkScanParams {
  sp_input : string;
  sp_format : string;
  sp_profileName : string;
  sp_output : string;
  sp_assumeBreach : bool;
  sp_failOn : string;
  sp_historyPath : string;
  sp_watch : bool;
  sp_live : bool;
  sp_kubeContext : string;
  sp_waiversPath : string;
  sp_policyPath : string
}.

Section scan.
Context {ast program St IO : Type} `{HistoryStore St IO}.

(** The libraries and the environment a run uses. *)
Record world := mkWorld {
  w_loaders : Loaders;
  w_packs : res (list Pack);
  w_stat : string → res bool;
  w_readDir : string → res (list (string * bool));
  w_readFile : string → res string;
  w_unmarshal_pack : string → res (string * list (Policy program));
  w_cel_compile : list string → string → res (bool * string * ast);
  w_cel_program : ast → res program;
  w_cel_eval : program → list (string * json) → res (option bool);
  w_unmarshal_waivers : string → res (list Entry);
  w_time_error : string → string;
  w_now : string;
  w_clock : instant;
  w_openHistory : string → res St;
  w_io : IO;
  w_create : string → option string;
  w_mkdir : string → option string;
  w_color : bool;
  w_env : string → string;
  w_enc_sarif : list sarif_call → res string
}.

Variable w : world.

(** * Loading *)

Definition loadResources (p : scanParams) : res (list Resource * string) :=
  if sp_live p then
    match ld_NewClientset (w_loaders w) (sp_kubeContext p) with
    | Some e => Err e
    | None =>
        resources ← wrap_err "live scan: " (ld_liveLoad (w_loaders w) (sp_kubeContext p));
        Ok (resources, if sp_kubeContext p <>s "" then "live cluster (" +:+ sp_kubeContext p +:+ ")"
                       else "live cluster")
    end
  else if sp_input p =s "" then Err "either --input/-i or --live is required"
  else
    resources ← wrap_err ("load " +:+ fmt_quote (sp_input p) +:+ ": ") (ld_offlineLoad (w_loaders w) (sp_input p));
    Ok (resources, sp_input p).

(** [policy.Load]: the files of a pack file or of a directory, in name order. *)
Definition policy_paths (path : string) : res (list string) :=
  isDir ← wrap_err "policy path: " (w_stat w path);
  if negb isDir then Ok [path]
  else
    entries ← wrap_err "read policy dir: " (w_readDir w path);
    Ok (sort_strings (map (λ e, join_path path e.1)
          (List.filter (λ e : string * bool,
             negb e.2 && mem_str (to_lower (file_ext e.1)) [".yaml"; ".yml"]) entries))).

Fixpoint load_policy_files (files : list string) (st : gset string * list (Policy program))
    : res (gset string * list (Policy program)) :=
  match files with
  | [] => Ok st
  | f :: files' =>
      data ← wrap_err ("read " +:+ f +:+ ": ") (w_readFile w f);
      ps ← Policy.parse (w_unmarshal_pack w) (w_cel_compile w) (w_cel_program w) data (base_name f);
      st ← add_policies (base_name f) ps st;
      load_policy_files files' st
  end.

Definition policy_Load (path : string) : res (PolicySet program) :=
  files ← policy_paths path;
  st ← load_policy_files files (∅, []);
  Ok (Some st.2).

(** [waiver.Load] *)
Definition waiver_Load (path : string) : res WaiverSet :=
  data ← wrap_err "read waiver file: " (w_readFile w path);
  Waiver.Parse (w_unmarshal_waivers w) (w_time_error w) data.

(** * Rendering *)

Definition render (format : string) (rep : Report) (hist : list ScanRecord) (color : bool) : res string :=
  if format =s "json" then JSON rep
  else if format =s "sarif" then w_enc_sarif w (sarif_calls rep)
  else if format =s "asff" then ASFF (w_env w) rep
  else if format =s "html" then Ok (HTML rep hist)
  else if format =s "gitops" then Ok (GitOpsAnnotations rep)
  else if (format =s "console") || (format =s "") then Ok (Console rep color)
  else Err ("unknown format " +:+ fmt_quote format +:+ " (want console|json|sarif|asff|html|evidence|gitops)").

(** [os.Create] followed by a writer. *)
Definition create_with (path : string) (text : res string) : M St unit :=
  match w_create w path with
  | Some e => lift (Err ("create " +:+ fmt_quote path +:+ ": " +:+ e))
  | None =>
      match text with
      | Ok t => create path t
      | Err e => create path "" ≫= λ _, lift (Err e)
      end
  end.

Fixpoint write_evidence (dir : string) (evs : list EvidencePack) : M St unit :=
  match evs with
  | [] => mret tt
  | e :: evs' =>
      create_with (join_path dir (ep_ID e +:+ ".evidence.html")) (Ok (EvidenceHTML e)) ≫= λ _,
      create_with (join_path dir (ep_ID e +:+ ".evidence.json")) (EvidenceJSON e) ≫= λ _,
      write_evidence dir evs'
  end.

Definition exportEvidence (p : scanParams) (rep : Report) : M St unit :=
  if sp_output p =s "" then lift (Err "-f evidence requires -o <dir> (a directory to write evidence packs into)")
  else
    packs ← lift (wrap_err "load packs: " (w_packs w));
    prof ← lift (profile_by_name (sp_profileName p));
    let evs := BuildEvidence rep packs (RunnableIDs prof) in
    match w_mkdir w (sp_output p) with
    | Some e => lift (Err ("create " +:+ fmt_quote (sp_output p) +:+ ": " +:+ e))
    | None =>
        _ ← write_evidence (sp_output p) evs;
        log ("wrote " +:+ fmt_int (Z.of_nat (length evs)) +:+ " evidence packs (HTML + JSON) to "
             +:+ sp_output p +:+ nl)
    end.

(** * The run: up to the gate *)

Definition load_policies (p : scanParams) : M St (list ExtraChecks) :=
  if sp_policyPath p =s "" then mret []
  else
    policies ← lift (policy_Load (sp_policyPath p));
    _ ← log ("loaded " +:+ fmt_int (Len policies) +:+ " custom policies from " +:+ sp_policyPath p +:+ nl);
    mret [Some (Policy.Evaluate (w_cel_eval w) policies)].

Definition load_waivers (p : scanParams) : res WaiverSet :=
  if sp_waiversPath p =s "" then Ok None else waiver_Load (sp_waiversPath p).

(** Opening the history, appending the record and reading all of it. *)
Definition record_history (p : scanParams) (rep : Report) : M St (list ScanRecord) :=
  if sp_historyPath p =s "" then mret []
  else
    s ← lift (wrap_err "open history: " (w_openHistory w (sp_historyPath p)));
    let '(s, err) := store_Append (w_io w) (FromReport rep) s in
    _ ← put_store s;
    match err with
    | Some e => lift (Err e)
    | None => lift (store_All (w_io w) s)
    end.

Definition write_report (p : scanParams) (rep : Report) (hist : list ScanRecord) : M St unit :=
  if sp_format p =s "evidence" then exportEvidence p rep
  else if sp_output p <>s "" then create_with (sp_output p) (render (sp_format p) rep hist false)
  else
    let color := ((sp_format p =s "console") || (sp_format p =s "")) && w_color w in
    text ← lift (render (sp_format p) rep hist color);
    print text.

(** What the gate works on: the report and the waivers. *)
Definition scan_output (p : scanParams) : M St (Report * WaiverSet) :=
  '(resources, source) ← lift (loadResources p);
  extra ← load_policies p;
  rep ← lift (Analyze (w_packs w) resources (sp_profileName p) (sp_assumeBreach p) extra);
  let rep := stamp_report (w_now w) source rep in
  waiverSet ← lift (load_waivers p);
  hist ← record_history p rep;
  _ ← write_report p rep hist;
  mret (rep, waiverSet).

Definition runScan (p : scanParams) (e : effects St) : effects St * outcome :=
  match scan_output p e with
  | (e, Err er) => (e, Failed er)
  | (e, Ok (rep, waiverSet)) =>
      let '(lines, o) := gate (sp_failOn p) waiverSet (rep_Findings rep) (w_clock w) in
      (mkEffects (ef_stdout e) (ef_stderr e ++ lines) (ef_files e) (ef_store e), o)
  end.

(** * Helper lemmas: the effect monad *)

Lemma bind_Ok {A B} (m : M St A) (k : A → M St B) e e' b :
  (m ≫= k) e = (e', Ok b) ↔ ∃ e1 a, m e = (e1, Ok a) ∧ k a e1 = (e', Ok b).
Proof.
  unfold mbind, M_bind. destruct (m e) as [e1 [a|er]]; split.
  - eauto.
  - by intros (? & ? & [= <- <-] & ?).
  - done.
  - by intros (? & ? & [=] & _).
Qed.

Lemma lift_Ok {A} (r : res A) (e e' : effects St) a : lift r e = (e', Ok a) ↔ e' = e ∧ r = Ok a.
Proof. unfold lift. split; [by intros [= <- ->]|by intros [-> ->]]. Qed.

Lemma create_with_Ok path text e e' u :
  create_with path text e = (e', Ok u) →
  ∃ t, text = Ok t ∧ e' = mkEffects (ef_stdout e) (ef_stderr e) (ef_files e ++ [(path, t)]) (ef_store e).
Proof.
  unfold create_with. destruct (w_create w path); [done|]. destruct text as [t|er]; [|done].
  intros [= <- _]. by exists t.
Qed.

(** The files of an evidence export are all there, and nothing written before is lost. *)
Lemma write_evidence_Ok dir evs e e' u :
  write_evidence dir evs e = (e', Ok u) →
  ef_stdout e' = ef_stdout e ∧ (∀ f, f ∈ ef_files e → f ∈ ef_files e') ∧
  ∀ ev, ev ∈ evs → ∃ json, EvidenceJSON ev = Ok json ∧
    (join_path dir (ep_ID ev +:+ ".evidence.html"), EvidenceHTML ev) ∈ ef_files e' ∧
    (join_path dir (ep_ID ev +:+ ".evidence.json"), json) ∈ ef_files e'.
Proof.
  revert e. induction evs as [|ev evs IH]; intros e; cbn [write_evidence].
  - intros [= <- _]. split_and!; [done|done|]. by intros ? []%not_elem_of_nil.
  - intros (e1 & [] & (html & [= <-] & ->)%create_with_Ok & He1)%bind_Ok.
    apply bind_Ok in He1 as (e2 & [] & (json & Hj & ->)%create_with_Ok & He2).
    apply IH in He2 as (Hout & Hkeep & Hall). cbn [ef_stdout ef_files] in *. split_and!; [done| |].
    + intros f Hf. apply Hkeep. rewrite !elem_of_app. auto.
    + intros x [-> |Hx]%elem_of_cons; [|by apply Hall]. exists json.
      split_and!; [done| |]; apply Hkeep; rewrite !elem_of_app, !list_elem_of_singleton; auto.
Qed.

Lemma load_policies_Ok p e e' extra :
  load_policies p e = (e', Ok extra) →
  ef_stdout e' = ef_stdout e ∧ ef_files e' = ef_files e ∧
  (sp_policyPath p = "" ∧ extra = [] ∨
   ∃ ps, policy_Load (sp_policyPath p) = Ok ps ∧ extra = [Some (Policy.Evaluate (w_cel_eval w) ps)]).
Proof.
  unfold load_policies. destruct (String.eqb_spec (sp_policyPath p) "") as [Hp|_].
  - intros [= <- <-]. auto.
  - intros (e1 & ps & [-> Hps]%lift_Ok & He1)%bind_Ok. apply bind_Ok in He1 as (e2 & [] & [= <-] & [= <- <-]).
    cbn. eauto 6.
Qed.

Lemma record_history_Ok p rep e e' hist :
  record_history p rep e = (e', Ok hist) → ef_stdout e' = ef_stdout e ∧ ef_files e' = ef_files e.
Proof.
  unfold record_history. destruct (sp_historyPath p =s ""); [by intros [= <- _]|].
  intros (e1 & s & [-> _]%lift_Ok & He1)%bind_Ok. destruct (store_Append _ _ s) as [s' err].
  apply bind_Ok in He1 as (e2 & [] & [= <-] & He2). destruct err; [done|]. by apply lift_Ok in He2 as [-> _].
Qed.

(** * Specification *)

(** The report of a run and the waivers it is gated with. *)
Record reported (p : scanParams) (rep : Report) (ws : WaiverSet) : Prop := {
  rd_report : ∃ resources source extra rep0,
    loadResources p = Ok (resources, source) ∧
    (sp_policyPath p = "" ∧ extra = [] ∨
     ∃ ps, policy_Load (sp_policyPath p) = Ok ps ∧ extra = [Some (Policy.Evaluate (w_cel_eval w) ps)]) ∧
    Analyze (w_packs w) resources (sp_profileName p) (sp_assumeBreach p) extra = Ok rep0 ∧
    rep = stamp_report (w_now w) source rep0;
  rd_waivers : load_waivers p = Ok ws
}.

(** The report was written where it was asked for. *)
Definition delivered (p : scanParams) (rep : Report) (e e' : effects St) : Prop :=
  if sp_format p =s "evidence" then
    ∃ packs prof, w_packs w = Ok packs ∧ profile_by_name (sp_profileName p) = Ok prof ∧
    ∀ ev, ev ∈ BuildEvidence rep packs (RunnableIDs prof) →
    ∃ json, EvidenceJSON ev = Ok json ∧
      (join_path (sp_output p) (ep_ID ev +:+ ".evidence.html"), EvidenceHTML ev) ∈ ef_files e' ∧
      (join_path (sp_output p) (ep_ID ev +:+ ".evidence.json"), json) ∈ ef_files e'
  else ∃ hist color text, render (sp_format p) rep hist color = Ok text ∧
    if sp_output p <>s "" then color = false ∧ (sp_output p, text) ∈ ef_files e'
    else ef_stdout e' = ef_stdout e +:+ text.

(** A finding of the report at or above the threshold that no active waiver covers. *)
Definition breach (p : scanParams) (rep : Report) (ws : WaiverSet) : Prop :=
  sp_failOn p ≠ "" ∧
  ∃ f, f ∈ rep_Findings rep ∧ (Rank (sp_failOn p) <= Rank (f_Severity f))%Z ∧
       ∀ en, en ∈ entries ws → ¬ covers en f (w_clock w).

Lemma write_report_Ok p rep hist e e' u :
  write_report p rep hist e = (e', Ok u) → delivered p rep e e'.
Proof.
  unfold write_report, delivered. destruct (sp_format p =s "evidence").
  - unfold exportEvidence. destruct (sp_output p =s ""); [done|].
    intros (e1 & packs & [-> Hpk]%lift_Ok & He1)%bind_Ok.
    apply bind_Ok in He1 as (e2 & prof & [-> Hprof]%lift_Ok & He2).
    destruct (w_mkdir w (sp_output p)); [done|].
    apply bind_Ok in He2 as (e3 & [] & Hev%write_evidence_Ok & [= <- _]). cbn [ef_files].
    exists packs, prof. split_and!; [|done|apply Hev]. by destruct (w_packs w).
  - destruct (sp_output p <>s "") eqn:Eo.
    + intros (t & Ht & ->)%create_with_Ok. exists hist, false, t. cbn [ef_files]. split_and!; [done|done|].
      rewrite elem_of_app, list_elem_of_singleton. by right.
    + intros (e1 & text & [-> Ht]%lift_Ok & [= <- _])%bind_Ok. by eexists hist, _, text.
Qed.

Lemma scan_output_Ok p e e' rep ws :
  scan_output p e = (e', Ok (rep, ws)) → reported p rep ws ∧ delivered p rep e e'.
Proof.
  unfold scan_output. intros (e1 & [rs src] & [-> Hload]%lift_Ok & He1)%bind_Ok.
  apply bind_Ok in He1 as (e2 & extra & (Ho2 & Hf2 & Hpol)%load_policies_Ok & He2).
  apply bind_Ok in He2 as (e3 & rep0 & [-> Hrep]%lift_Ok & He3).
  apply bind_Ok in He3 as (e4 & ws' & [-> Hws]%lift_Ok & He4).
  apply bind_Ok in He4 as (e5 & hist & [Ho5 Hf5]%record_history_Ok & He5).
  apply bind_Ok in He5 as (e6 & [] & Hw%write_report_Ok & [= <- <- <-]).
  split; [split; [eauto 10|done]|]. unfold delivered in *.
  destruct (sp_format p =s "evidence"); [done|]. destruct Hw as (h & c & text & Hr & Hout).
  exists h, c, text. split; [done|]. destruct (sp_output p <>s ""); [done|]. by rewrite Hout, Ho5, Ho2.
Qed.

(** C5: The scan command's exit code tells what happened.  It exits 1 exactly when a step of the run
    fails or the threshold is no severity.  Otherwise the report of the loaded resources, the
    custom policies included, was written in full where it was asked for, waived findings
    included; it exits 2 exactly when some finding at or above the threshold is covered by no
    active waiver, and 0 otherwise; and every finding the waivers suppress is logged. *)
Theorem runScan_exit_codes p e e' o :
  runScan p e = (e', o) →
  exit_code o = 1%Z ∧
    ((∃ er, (scan_output p e).2 = Err er)
     ∨ sp_failOn p ∉ ["" : string; SeverityCritical; SeverityHigh; SeverityMedium; SeverityLow])
  ∨ ∃ rep ws, reported p rep ws ∧ delivered p rep e e' ∧
      (exit_code o = 2%Z ↔ breach p rep ws) ∧ (exit_code o = 0%Z ↔ ¬ breach p rep ws) ∧
      ∀ f, f ∈ rep_Findings rep → sp_failOn p ≠ "" → (∃ en, en ∈ entries ws ∧ covers en f (w_clock w)) →
        ∃ en, en ∈ entries ws ∧ covers en f (w_clock w) ∧ waived_line (mkWaivedFinding f en) ∈ ef_stderr e'.
Proof.
  unfold runScan. destruct (scan_output p e) as [e1 [[rep ws]|er]] eqn:E.
  2: { intros [= <- <-]. left. split; [done|]. left. by exists er. }
  apply scan_output_Ok in E as [Hrep Hdel].
  pose proof (gate_spec (sp_failOn p) ws (rep_Findings rep) (w_clock w)) as Hg.
  destruct (gate (sp_failOn p) ws (rep_Findings rep) (w_clock w)) as [log o'].
  intros [= <- <-]. destruct Hg as (Hempty & Hbad & Hgate).
  destruct (decide (sp_failOn p ∈ ["" : string; SeverityCritical; SeverityHigh; SeverityMedium; SeverityLow]))
    as [Hin|Hout]; [right|left; auto].
  exists rep, ws. split_and!; [done|exact Hdel|..]; apply elem_of_cons in Hin as [Hnone|Hsev];
    try (destruct (Hempty Hnone) as [-> Hexit]);
    try (destruct (Hgate Hsev) as (H2 & H02 & Hlog);
         assert (sp_failOn p ≠ "") as Hne by (intros Hne; rewrite Hne in Hsev; vm_compute in Hsev; set_solver)).
  - rewrite Hexit. unfold breach. split; [done|]. by intros [? _].
  - unfold breach. rewrite H2. tauto.
  - rewrite Hexit. unfold breach. split; [|done]. intros _ [? _]. done.
  - assert (exit_code o' = 2%Z ↔ breach p rep ws) as Hb by (unfold breach; rewrite H2; tauto).
    rewrite <-Hb. split; [intros ->; discriminate|]. intros Hn. destruct H02; [done|]. by destruct Hn.
  - intros f _ Hn. by destruct Hn.
  - intros f Hf _ Hc. destruct (Hlog f Hf Hc) as (en & ? & ? & ?). exists en. split_and!; [done|done|].
    cbn [ef_stderr]. rewrite elem_of_app. by right.
Qed.

(** The record is appended before the format and the threshold are looked at: a run that is refused
    for an unknown format has already changed the history. *)
Lemma unknown_format_after_history p e e1 e2 resources source extra rep0 ws hist :
  loadResources p = Ok (resources, source) → load_policies p e = (e1, Ok extra) →
  Analyze (w_packs w) resources (sp_profileName p) (sp_assumeBreach p) extra = Ok rep0 →
  load_waivers p = Ok ws → record_history p (stamp_report (w_now w) source rep0) e1 = (e2, Ok hist) →
  sp_format p = "bogus" → sp_output p = "" →
  ∃ er, runScan p e = (e2, Failed er).
Proof.
  intros Hl Hp Ha Hw Hh Hf Ho. unfold runScan, scan_output, mbind, M_bind, lift.
  rewrite Hl, Hp, Ha, Hw, Hh. unfold write_report. rewrite Hf, Ho. cbn. eauto.
Qed.
End scan.

(** * The watch loop

    One tick: the modification time of the input, if it can be read, and the world of the run.
    [last] is the time of the last run, [None] for the zero time.  The list ends when the context
    is cancelled. *)

Fixpoint watchLoop {ast program St IO : Type} `{HistoryStore St IO} (p : scanParams)
    (ticks : list (option instant * world (ast := ast) (program := program) (St := St) (IO := IO)))
    (last : option instant) (e : effects St) : effects St * outcome :=
  match ticks with
  | [] => (e, Done)
  | (mtime, w) :: ticks' =>
      match mtime with
      | Some m =>
          if match last with None => true | Some l => After m l end then
            match runScan w p e with
            | (e', Failed er) => (e', Failed er)
            | (e', Coded _ msg) => watchLoop p ticks' (Some m) (log (msg +:+ nl) e').1
            | (e', Done) => watchLoop p ticks' (Some m) e'
            end
          else watchLoop p ticks' last e
      | None => watchLoop p ticks' last e
      end
  end.

(** [RunE] of the scan command. *)
Definition scan_command {ast program St IO : Type} `{HistoryStore St IO} (p : scanParams)
    (ticks : list (option instant * world (ast := ast) (program := program) (St := St) (IO := IO)))
    (w : world (ast := ast) (program := program) (St := St) (IO := IO)) (e : effects St) : effects St * outcome :=
  if sp_watch p then
    if sp_live p then (e, Failed "--watch is not supported with --live")
    else watchLoop p ticks None e
  else runScan w p e.

(** Watching outlives gate breaches: it ends by cancellation, with success, unless a run that the
    loop made failed. *)
Lemma watchLoop_outcome {ast program St IO : Type} `{HistoryStore St IO} p
    (ticks : list (option instant * world (ast := ast) (program := program))) last e e' o :
  watchLoop p ticks last e = (e', o) →
  o = Done ∨ ∃ m w e0 er, (Some m, w) ∈ ticks ∧ runScan w p e0 = (e', Failed er) ∧ o = Failed er.
Proof.
  revert last e. induction ticks as [|[[m|] w] ticks IH]; intros last e; cbn [watchLoop].
  - intros [= _ <-]. by left.
  - assert (∀ last e, watchLoop p ticks last e = (e', o) → o = Done ∨ ∃ m' w' e0 er,
      (Some m', w') ∈ (Some m, w) :: ticks ∧ runScan w' p e0 = (e', Failed er) ∧ o = Failed er) as Hrest.
    { intros l e1 Hl. apply IH in Hl as [?|(m' & w' & e0 & er & ? & ? & ?)]; [by left|right].
      exists m', w', e0, er. split_and!; [by right|done|done]. }
    case_match; [|apply Hrest]. destruct (runScan w p e) as [e1 [|code msg|er]] eqn:E; [apply Hrest..|].
    intros [= <- <-]. right. exists m, w, e, er. split_and!; [by left|done|done].
  - intros [?|(m' & w' & e0 & er & ? & ? & ?)]%IH; [by left|right].
    exists m', w', e0, er. split_and!; [by right|done|done].
Qed.

(** * The serve command's loader: serve.go *)

(** [buildLoader]: the loader the service calls for every scan. *)
Definition buildLoader (ld : Loaders) (input : string) (liveMode : bool) (kubeContext : string)
    : res (unit → res (list Resource * string)) :=
  if liveMode then
    Ok (λ _, match ld_NewClientset ld kubeContext with
             | Some e => Err e
             | None => rs ← ld_liveLoad ld kubeContext; Ok (rs, "live cluster")
             end)
  else if input =s "" then Err "serve requires --input or --live"
  else Ok (λ _, rs ← wrap_err ("load " +:+ fmt_quote input +:+ ": ") (ld_offlineLoad ld input); Ok (rs, input)).

(** * A run on a privileged pod *)

Definition ex_privileged : Resource :=
  mkResource "v1" "Pod" "ns" "p" "ns/Pod/p" ∅ ∅
    [("spec", JObj [("containers", JArr [JObj [("name", JStr "c");
       ("securityContext", JObj [("privileged", JBool true)])]])])].

Definition ex_world : world (ast := unit) (program := unit) (St := list ScanRecord) (IO := unit) :=
  {| w_loaders := mkLoaders (λ _, Some "no kubeconfig") (λ _, Err "") (λ _, Ok [ex_privileged]);
     w_packs := Ok [];
     w_stat := λ _, Err "no such file"; w_readDir := λ _, Err ""; w_readFile := λ _, Ok "";
     w_unmarshal_pack := λ _, Err ""; w_cel_compile := λ _ _, Err ""; w_cel_program := λ _, Ok tt;
     w_cel_eval := λ _ _, Err "";
     w_unmarshal_waivers := λ _, Ok []; w_time_error := λ _, "";
     w_now := "2024-01-01T00:00:00Z"; w_clock := 0%Z;
     w_openHistory := λ _, Ok []; w_io := tt;
     w_create := λ _, None; w_mkdir := λ _, None; w_color := false; w_env := λ _, "";
     w_enc_sarif := λ _, Ok "{}" |}.

Definition ex_params (format failOn : string) : scanParams :=
  mkScanParams "m.yaml" format "cis" "" false failOn "h.jsonl" false false "" "" "".

Definition ex_effects : effects (list ScanRecord) := mkEffects "" [] [] None.

Lemma runScan_exit_codes_witness :
  ∃ e' o, runScan ex_world (ex_params "gitops" "critical") ex_effects = (e', o) ∧ exit_code o = 2%Z ∧
  ∃ rep ws, reported ex_world (ex_params "gitops" "critical") rep ws ∧
    breach ex_world (ex_params "gitops" "critical") rep ws.
Proof.
  destruct (runScan ex_world (ex_params "gitops" "critical") ex_effects) as [e' o] eqn:E.
  assert (exit_code o = 2%Z) as Ho.
  { apply (f_equal (λ x, exit_code x.2)) in E. cbn [snd] in E. rewrite <-E. vm_compute. reflexivity. }
  exists e', o. split_and!; [done|done|].
  destruct (runScan_exit_codes ex_world (ex_params "gitops" "critical") ex_effects e' o E)
    as [[H1 _]|(rep & ws & Hrep & _ & H2 & _)]; [congruence|].
  exists rep, ws. split; [done|]. by apply H2.
Defined.
