(* ===== verification/ServeCmd.v ===== *)
(** The service process (internal/server/server.go, [Start] and [writeJSON]; internal/cli/serve.go):
    the start-up scan, the schedule, the requests, and the text of the responses.

    Parameters: the framework packs, the history backend behind its interface, the loaders and the
    clock of each scan, the verdict of cron's parser, the listener's error, and the Prometheus
    exposition of the gauges.  Requests and scheduled scans are taken one after the other; scans
    that overlap are in Server.v. *)

From S2P Require Import Prelude GoStrings GoJson GoJsonText GoFloat GoFmt Api Model Checks Compliance Analyzer.
From S2P Require Import History Reports Html ReportJson Server Sources ScanCmd.

(** * Responses on the wire *)

Record reply := mkReply { rp_status : Z; rp_headers : list (string * string); rp_text : string }.

(** An encoding that fails is logged, and leaves the body empty. *)
Definition writeJSON (code : Z) (v : json) : reply :=
  mkReply code [("Content-Type", "application/json")]
    (match go_encode true "  " v with Ok text => text | Err _ => "" end).

(** [http.Error] *)
Definition http_error (code : Z) (msg : string) : reply :=
  mkReply code [("Content-Type", "text/plain; charset=utf-8"); ("X-Content-Type-Options", "nosniff")] (msg +:+ nl).

Section text.
Variable exposition : gauges → string.

(** The response a handler of Server.v makes, as it is written. *)
Definition write_response (r : response) : reply :=
  let '(code, b) := r in
  match b with
  | BError msg => writeJSON code (JObj [("error", JStr msg)])
  | BReport rep => writeJSON code (to_json rep)
  | BFindings fs => writeJSON code (to_json fs)
  | BPosture p c => writeJSON code (JObj [("compliance", to_json c); ("posture", to_json p)])
  | BText t => if (code =? 200)%Z then mkReply code [("Content-Type", "text/plain; charset=utf-8")] t else http_error code t
  | BMetrics g => mkReply code [] (exposition g)
  | BHtml d => mkReply code [("Content-Type", "text/html; charset=utf-8")] (Html.render (html_page d))
  end.
End text.

(** * Start *)

Section serve.
Context {St IO : Type} `{HistoryStore St IO}.
Variable packs : res (list Pack).

(** What happens while the process listens: the schedule comes round, or a request arrives. *)
Inductive serve_event : Type :=
| Tick (e : scan_env)
| Request (e : scan_env) (path : string).

Fixpoint serve_events (cfg : Config) (io : IO) (scheduled : bool) (evs : list serve_event) (s : Server (St := St))
    : Server (St := St) * list response :=
  match evs with
  | [] => (s, [])
  | Tick e :: evs' => serve_events cfg io scheduled evs' (if scheduled then (ScanOnce packs cfg io e s).1 else s)
  | Request e path :: evs' =>
      let '(s, r) := handle packs cfg io e path s in
      let '(s, rs) := serve_events cfg io scheduled evs' s in (s, r :: rs)
  end.

(** [Start] on a new server: a start-up scan that fails is only logged. [AddFunc] is the error of the cron expression,
    [listen] what [ListenAndServe] returns other than [ErrServerClosed]. *)
Definition Start (cfg : Config) (io : IO) (schedule : string) (AddFunc listen : option string) (init : scan_env)
    (evs : list serve_event) (s : Server (St := St)) : Server (St := St) * list response * option string :=
  let s := (ScanOnce packs cfg io init s).1 in
  let run := serve_events cfg io (schedule <>s "") evs s in
  let done := (run, option_map (String.append "serve: ") listen) in
  if schedule <>s "" then
    match AddFunc with
    | Some e => (s, [], Some ("invalid schedule " +:+ fmt_quote schedule +:+ ": " +:+ e))
    | None => done
    end
  else done.

(** * The command *)

Record serveParams := mkServeParams {
  sv_addr : string;
  sv_input : string;
  sv_profile : string;
  sv_schedule : string;
  sv_historyPath : string;
  sv_kubeContext : string;
  sv_assumeBreach : bool;
  sv_liveMode : bool
}.

(** What the loader of the command finds, with the loaders as they are at the time of a scan. *)
Definition serve_scan (p : serveParams) (moment : Loaders * string) : scan_env :=
  mkScanEnv
    (load ← buildLoader moment.1 (sv_input p) (sv_liveMode p) (sv_kubeContext p); load tt)
    moment.2.

Inductive moment_event : Type :=
| AtTick (m : Loaders * string)
| AtRequest (m : Loaders * string) (path : string).

Definition to_event (p : serveParams) (ev : moment_event) : serve_event :=
  match ev with
  | AtTick m => Tick (serve_scan p m)
  | AtRequest m path => Request (serve_scan p m) path
  end.

(** [RunE]: the responses, the history that is left, and the error. *)
Definition serve_command (openHistory : string → res St) (io : IO) (p : serveParams) (AddFunc listen : option string)
    (m0 : Loaders * string) (evs : list moment_event) : res (Server (St := St) * list response * option string) :=
  loader ← buildLoader m0.1 (sv_input p) (sv_liveMode p) (sv_kubeContext p);
  store ← (if sv_historyPath p =s "" then Ok None
           else s ← wrap_err "open history: " (openHistory (sv_historyPath p)); Ok (Some s));
  cfg ← Server.New true (Server.mkConfig (sv_profile p) (sv_assumeBreach p));
  Ok (Start cfg io (sv_schedule p) AddFunc listen (serve_scan p m0) (map (to_event p) evs) (start store)).

(** * Specification

    The reports of the successful scans determine every response. *)

Fixpoint spec_events (cfg : Config) (rs0 : option (list ScanRecord)) (scheduled : bool) (evs : list serve_event)
    (done : list Report) : list Report * list response :=
  match evs with
  | [] => (done, [])
  | Tick e :: evs' =>
      spec_events cfg rs0 scheduled evs' (if scheduled then (spec_step packs cfg rs0 e "/v1/scan" done).1 else done)
  | Request e path :: evs' =>
      let '(done, r) := spec_step packs cfg rs0 e path done in
      let '(done, rs) := spec_events cfg rs0 scheduled evs' done in (done, r :: rs)
  end.

Context `{!HistoryLaws St IO}.

Lemma scan_simulated cfg io rs0 e s done :
  history_works packs io → simulates rs0 s done →
  simulates rs0 (ScanOnce packs cfg io e s).1 (spec_step packs cfg rs0 e "/v1/scan" done).1.
Proof.
  intros Hw Hs. destruct (handle packs cfg io e "/v1/scan" s) as [s' r] eqn:E.
  destruct (handle_simulated packs cfg io rs0 e "/v1/scan" s done s' r Hw Hs E) as [H1 _].
  change (handle packs cfg io e "/v1/scan" s) with (handleScan packs cfg io e s) in E. unfold handleScan in E.
  by destruct (ScanOnce packs cfg io e s) as [s1 []]; injection E as <- _.
Qed.

Lemma serve_events_simulated cfg io rs0 scheduled evs s done s' rs :
  history_works packs io → simulates rs0 s done → serve_events cfg io scheduled evs s = (s', rs) →
  simulates rs0 s' (spec_events cfg rs0 scheduled evs done).1 ∧ rs = (spec_events cfg rs0 scheduled evs done).2.
Proof.
  intros Hw. revert s done s' rs. induction evs as [|[e|e path] evs IH]; intros s dn s' rs Hs; cbn [serve_events spec_events].
  - by intros [= <- <-].
  - apply IH. destruct scheduled; [by apply scan_simulated|done].
  - destruct (handle packs cfg io e path s) as [s1 r] eqn:E.
    destruct (handle_simulated _ _ _ _ _ _ _ _ _ _ Hw Hs E) as [H1 ->].
    destruct (spec_step packs cfg rs0 e path dn) as [dn1 r1]. cbn [fst snd] in *.
    destruct (serve_events cfg io scheduled evs s1) as [s2 rs2] eqn:Er. intros [= <- <-].
    destruct (IH _ _ _ _ H1 Er) as [H2 ->]. by destruct (spec_events cfg rs0 scheduled evs dn1).
Qed.

Lemma spec_events_app cfg rs0 scheduled evs1 evs2 done :
  spec_events cfg rs0 scheduled (evs1 ++ evs2) done
  = ((spec_events cfg rs0 scheduled evs2 (spec_events cfg rs0 scheduled evs1 done).1).1,
     (spec_events cfg rs0 scheduled evs1 done).2
     ++ (spec_events cfg rs0 scheduled evs2 (spec_events cfg rs0 scheduled evs1 done).1).2).
Proof.
  revert done. induction evs1 as [|[e|e path] evs1 IH]; intros dn; cbn [spec_events app fst snd].
  - by destruct (spec_events cfg rs0 scheduled evs2 dn).
  - apply IH.
  - destruct (spec_step packs cfg rs0 e path dn) as [dn1 r]. rewrite IH. by destruct (spec_events cfg rs0 scheduled evs1 dn1).
Qed.
(** The configuration the command builds, and the reports known when it starts to listen. *)
Definition serve_cfg (p : serveParams) : Config :=
  Server.mkConfig (if sv_profile p =s "" then "zeal-default" else sv_profile p) (sv_assumeBreach p).

Definition after_init (p : serveParams) (rs0 : option (list ScanRecord)) (m0 : Loaders * string) : list Report :=
  (spec_step packs (serve_cfg p) rs0 (serve_scan p m0) "/v1/scan" []).1.

(** The history that is configured holds [rs0]. *)
Definition opens (openHistory : string → res St) (p : serveParams) (rs0 : option (list ScanRecord)) : Prop :=
  match rs0 with
  | None => sv_historyPath p = ""
  | Some rs => sv_historyPath p ≠ "" ∧ ∃ st, openHistory (sv_historyPath p) = Ok st ∧ holds rs st
  end.

Definition scheduled (p : serveParams) : bool := sv_schedule p <>s "".
Definition has_source (p : serveParams) : bool := sv_liveMode p || (sv_input p <>s "").

Lemma buildLoader_source p m :
  (has_source p = true ∧ ∃ f, buildLoader m (sv_input p) (sv_liveMode p) (sv_kubeContext p) = Ok f) ∨
  (has_source p = false ∧ buildLoader m (sv_input p) (sv_liveMode p) (sv_kubeContext p) = Err "serve requires --input or --live").
Proof. unfold has_source, buildLoader. destruct (sv_liveMode p), (sv_input p =s ""); eauto. Qed.

Lemma serve_command_eq openHistory io p AddFunc listen m0 evs rs0 :
  opens openHistory p rs0 → has_source p = true →
  ∃ st, match st, rs0 with None, None => True | Some st, Some rs => holds rs st | _, _ => False end ∧
    serve_command openHistory io p AddFunc listen m0 evs
    = Ok (Start (serve_cfg p) io (sv_schedule p) AddFunc listen (serve_scan p m0) (map (to_event p) evs) (start st)).
Proof.
  intros Ho Hsrc. unfold serve_command. destruct (buildLoader_source p m0.1) as [[_ [f ->]]|[? _]]; [|congruence].
  cbn [mbind res_bind]. unfold Server.New, serve_cfg. cbn [negb cf_Profile cf_AssumeBreach]. destruct rs0 as [rs|]; cbn [opens] in Ho.
  - destruct Ho as (Hne & st & Hst & Hh). exists (Some st). split; [done|].
    apply String.eqb_neq in Hne. rewrite Hne, Hst. cbn. by destruct (sv_profile p =s "").
  - exists None. split; [done|]. rewrite Ho. cbn. by destruct (sv_profile p =s "").
Qed.

Lemma report_text exposition code rep : fits (as_read rep) = true →
  ∃ j, Unmarshal (rp_text (write_response exposition (code, BReport rep))) = Some j ∧ unmarshal_report j = Some (as_read rep).
Proof.
  intros [Hok Hr]%as_read_ok. exists (to_json rep). cbn [write_response writeJSON rp_text]. unfold go_encode, supported.
  rewrite (json_ok_supported _ Hok). split; [by apply Unmarshal_Encode|done].
Qed.

(** A request for the report, after other events. *)
Lemma asked_report cfg rs0 sch evs e done :
  let final := spec_events cfg rs0 sch (evs ++ [Request e "/v1/report"]) done in
  last final.2 = Some (match last final.1 with None => (503%Z, BError "no scan yet") | Some rep => (200%Z, BReport rep) end).
Proof.
  cbv zeta. rewrite spec_events_app. cbn [fst snd]. rewrite last_app.
  generalize (spec_events cfg rs0 sch evs done).1 as dn. intros dn. cbn [spec_events].
  change (spec_step packs cfg rs0 e "/v1/report" dn)
    with (dn, match last dn with None => (503%Z, BError "no scan yet") | Some rep => (200%Z, BReport rep) end).
  done.
Qed.

End serve.

(** * Witness: a directory that is missing when the process starts, and is there when the schedule comes round *)

Definition ex_params : serveParams := mkServeParams ":8080" "dir" "" "0 * * * *" "h.jsonl" "" false false.
Definition ex_down : Loaders * string := (mkLoaders (λ _, None) (λ _, Err "") (λ _, Err "no such file"), "2024-01-01T00:00:00Z").
Definition ex_up : Loaders * string := (mkLoaders (λ _, None) (λ _, Err "") (λ _, Ok []), "2024-01-01T01:00:00Z").
Definition ex_evs : list moment_event :=
  [AtRequest ex_down "/readyz"; AtTick ex_up; AtRequest ex_down "/v1/scan"; AtRequest ex_down "/v1/report"].

