(* ===== verification/Handlers.v ===== *)
(** The request handlers of the dashboard (internal/dashboard/api.go, lifecycle_api.go,
    tenants_api.go, workers.go, and the middleware of auth.go and security.go).

    [API] is what [New] fixes, [state] what requests change, [env] what a request reads from
    outside: the clock (one value per reading), ids, the scanner's attempts, the rate limiter, the
    file system, the SARIF and PDF libraries.  A handler returns the new state and the response; [None] is a panic, which the
    recoverer middleware answers with status 500.  Routes and JSON encoding of responses are the
    framework's; a response is its status and the value it encodes.

    Of the concurrency, a handler is one step here; each of its store calls is an [op] of
    MemStore.v, whose theorems hold for any interleaving of them. *)

From Stdlib Require Import Ascii.
From S2P Require Import Prelude GoStrings GoJson GoFloat GoTime Api Lifecycle MemStore Auth Broker.
From S2P Require Import Reports FindingQuery Sources.

(** * Configuration: lifecycle_api.go, security.go, api.go *)

Record LifecycleConfig := mkLifecycleConfig {
  WaiverApproverRole : string;
  MaxWaiverDuration : Z
}.

Definition withDefaults (c : LifecycleConfig) : LifecycleConfig :=
  mkLifecycleConfig (if WaiverApproverRole c =s "" then RoleAdmin else WaiverApproverRole c)
    (if (MaxWaiverDuration c <=? 0)%Z then (90 * 24 * hour)%Z else MaxWaiverDuration c).

Definition defaultMaxBody : Z := 1048576.

(** The nil-able fields are booleans; [a_queue] is the capacity of the worker pool's queue. *)
Record API := mkAPI {
  a_auth : Authenticator;
  a_registrar : bool;
  a_scanner : bool;
  a_queue : option nat;
  a_rateLimited : bool;
  a_allowedOrigins : list string;
  a_maxBody : Z;
  a_life : LifecycleConfig;
  a_brand : string
}.

(** The part of [New] that fills in defaults; a worker pool is started for a positive count. *)
Definition New (auth : Authenticator) (registrar scanner : bool) (workers queueSize : Z)
    (ratePerSecond : bool) (origins : list string) (maxBody : Z) (life : LifecycleConfig) (brand : string) : API :=
  mkAPI auth registrar scanner
    (if (workers >? 0)%Z then Some (Z.to_nat (if (queueSize <=? 0)%Z then 256 else queueSize)) else None)
    ratePerSecond origins (if (maxBody <=? 0)%Z then defaultMaxBody else maxBody) (withDefaults life)
    brand.

Record scanJob := mkScanJob {
  j_tenant : string;
  j_clusterID : string;
  j_subject : string;
  j_scanID : string
}.

Record state := mkState {
  s_store : MemStore;
  s_audit : MemAuditLog;
  s_broker : Broker;
  s_sources : sourceRegistry;
  s_jobs : list scanJob
}.

Record env := mkEnv {
  e_clock : nat → instant;
  e_newID : string;
  e_scan : sourceRegistry → nat → string → res Report;
  e_ctxErr : nat → option string;
  e_allow : string → bool;
  e_stat : string → option string;
  e_sarif : list sarif_call → res string;
  e_pdf : list pdf_call → res string
}.

Definition now (e : env) (i : nat) : string := format_rfc3339 (e_clock e i).

Definition set_store (m : MemStore) (st : state) : state :=
  mkState m (s_audit st) (s_broker st) (s_sources st) (s_jobs st).
Definition audit (ae : AuditEntry) (st : state) : state :=
  mkState (s_store st) (AuditWrite ae (s_audit st)) (s_broker st) (s_sources st) (s_jobs st).
Definition set_sources (src : sourceRegistry) (st : state) : state :=
  mkState (s_store st) (s_audit st) (s_broker st) src (s_jobs st).
Definition publish (tenant : string) (ev : Event) (st : state) : option state :=
  b ← Publish tenant ev (s_broker st);
  Some (mkState (s_store st) (s_audit st) b (s_sources st) (s_jobs st)).

(** * Responses *)

Inductive body :=
| BError (msg : string)
| BClusters (cs : list Cluster)
| BCluster (c : Cluster)
| BScans (scans : list MemStore.Scan) (total : Z)
| BScan (s : MemStore.Scan)
| BFindings (page : list Finding) (total limit offset : Z)
| BPosture (p : PostureSummary) (compliance : list FrameworkResult) (cov : option CoverageBreakdown)
    (risks : option (list RiskScore))
| BPaths (paths : list AttackPath)
| BSnapshots (hs : list HistorySnapshot)
| BAudit (entries : list AuditEntry)
| BLifecycles (items : list FindingLifecycle) (mttr : MTTRSummary)
| BLifecycle (lc : FindingLifecycle)
| BTenant (tenant displayName : string)
| BExport (contentType disposition content : string)
| BNone.

Record response := mkResponse { rs_code : Z; rs_body : body }.

Definition error (code : Z) (msg : string) : response := mkResponse code (BError msg).

(** * Input validation *)

Definition cluster_char (c : ascii) : bool :=
  is_lower c || is_upper c || is_digit c || Ascii.eqb c "."%char || Ascii.eqb c "_"%char || Ascii.eqb c "-"%char.

(** A byte of a multi-byte rune is none of the allowed characters, as the rune is none. *)
Definition validClusterID (id : string) : bool :=
  if Nat.eqb (str_len id) 0 || Nat.ltb 253 (str_len id) then false else str_all cluster_char id.

(** [json.NewDecoder(r.Body).Decode(&body)]: [None] is a body that is not a JSON value. *)
Definition decode_body {A} (zero : A) (fields : list (field A)) (b : option json) : option A :=
  match b with
  | None => None
  | Some j => let '(v, failed) := dec_struct fields zero j in if failed then None else Some v
  end.

(** * Clusters: api.go *)

Definition handleClusters (p : Principal) (st : state) : option (state * response) :=
  cs ← ListClusters (s_store st) (p_Tenant p);
  Some (st, mkResponse 200 (BClusters cs)).

Record register_body := mkRegisterBody { rb_ID : string; rb_Name : string; rb_Source : string }.

Definition register_fields : list (field register_body) :=
  [fld "id" rb_ID (λ s v, mkRegisterBody v (rb_Name s) (rb_Source s)) dec_string;
   fld "name" rb_Name (λ s v, mkRegisterBody (rb_ID s) v (rb_Source s)) dec_string;
   fld "source" rb_Source (λ s v, mkRegisterBody (rb_ID s) (rb_Name s) v) dec_string].

Definition zero_cluster : Cluster := mkCluster "" "" "" "" 0 fzero.

Definition handleRegisterCluster (a : API) (e : env) (p : Principal) (b : option json) (st : state)
    : option (state * response) :=
  if negb (a_registrar a) then Some (st, error 501 "dynamic cluster registration is not enabled") else
  match decode_body (mkRegisterBody "" "" "") register_fields b with
  | None => Some (st, error 400 "invalid JSON body")
  | Some body =>
      if (rb_ID body =s "") || (rb_Source body =s "") then Some (st, error 400 "id and source are required") else
      if negb (validClusterID (rb_ID body)) then Some (st, error 400 "invalid cluster id") else
      match AddSource (e_stat e) (rb_ID body) (rb_Source body) (s_sources st) with
      | Err m => Some (st, error 400 ("invalid source: " +:+ m))
      | Ok src =>
          let st := set_sources src st in
          let name := if rb_Name body =s "" then rb_ID body else rb_Name body in
          let st := set_store (RegisterCluster (p_Tenant p) (mkCluster (rb_ID body) name "" "" 0 fzero)
                                 (s_store st)) st in
          let st := audit (mkAuditEntry (now e 0) (p_Subject p) (p_Tenant p) "cluster.write" (rb_ID body)
                             "allowed") st in
          Some (st, mkResponse 201 (BCluster (default zero_cluster
                                      (GetCluster (s_store st) (p_Tenant p) (rb_ID body)))))
      end
  end.

Definition handleDeleteCluster (a : API) (e : env) (p : Principal) (id : string) (st : state)
    : option (state * response) :=
  if negb (a_registrar a) then Some (st, error 501 "dynamic cluster registration is not enabled") else
  if negb (validClusterID id) then Some (st, error 400 "invalid cluster id") else
  let '(m, ok) := DeleteCluster (p_Tenant p) id (s_store st) in
  if negb ok then Some (st, error 404 "unknown cluster") else
  let st := set_store m st in
  let st := set_sources (RemoveSource id (s_sources st)) st in
  let st := audit (mkAuditEntry (now e 0) (p_Subject p) (p_Tenant p) "cluster.delete" id "allowed") st in
  Some (st, mkResponse 204 BNone).

(** * Scans: api.go, workers.go *)

Definition handleListScans (p : Principal) (get : string → string) (st : state) : option (state * response) :=
  r ← ListScans (s_store st) (p_Tenant p) (get "cluster") (queryInt get "limit" 50) (queryInt get "offset" 0);
  Some (st, mkResponse 200 (BScans r.1 r.2)).

(** The loop of [runScanner]: [n] attempts left, the [i]-th one next, [err] the last error. *)
Fixpoint run_attempts (scan : nat → res Report) (ctxErr : nat → option string) (n i : nat) (err : string)
    : res Report :=
  match n with
  | O => Err err
  | S n => match scan i with
           | Ok rep => Ok rep
           | Err er => match ctxErr i with Some ce => Err ce | None => run_attempts scan ctxErr n (S i) er end
           end
  end.

Definition attempts : nat := 3.

Definition runScanner (e : env) (st : state) (clusterID : string) : res Report :=
  run_attempts (λ i, e_scan e (s_sources st) i clusterID) (e_ctxErr e) attempts 0 "".

Definition half : float64 := fdiv (float_of_int 1) (float_of_int 2).

Definition runScanWithID (e : env) (tenant clusterID subject scanID : string) (st : state)
    : option (state * MemStore.Scan) :=
  st ← publish tenant (mkEvent "scan_started" clusterID scanID fzero "") st;
  st ← publish tenant (mkEvent "scan_progress" clusterID scanID half "") st;
  match runScanner e st clusterID with
  | Err _ =>
      st ← publish tenant (mkEvent "scan_completed" clusterID scanID fzero "failed") st;
      let st := audit (mkAuditEntry (now e 1) subject tenant "scan.trigger" clusterID "failed") st in
      Some (st, mkScan scanID clusterID ScanFailed "" "" 0)
  | Ok rep =>
      let '(m, scan) := RecordScan tenant clusterID scanID rep (now e 1) (s_store st) in
      let st := set_store m st in
      let st := set_store (SeedFindings tenant clusterID (rep_Findings rep) (now e 2) (s_store st)) st in
      let st := audit (mkAuditEntry (now e 4) subject tenant "scan.trigger" clusterID "allowed") st in
      st ← publish tenant (mkEvent "scan_completed" clusterID scanID (float_of_int 1) "") st;
      st ← publish tenant (mkEvent "posture_updated" clusterID "" fzero "") st;
      Some (st, scan)
  end.

Definition RunScan (e : env) (tenant clusterID subject : string) (st : state) : option (state * MemStore.Scan) :=
  runScanWithID e tenant clusterID subject (e_newID e) st.

(** A worker takes the oldest queued job. *)
Definition runScanJob (e : env) (st : state) : option (state * option MemStore.Scan) :=
  match s_jobs st with
  | [] => Some (st, None)
  | j :: jobs =>
      let st := mkState (s_store st) (s_audit st) (s_broker st) (s_sources st) jobs in
      r ← runScanWithID e (j_tenant j) (j_clusterID j) (j_subject j) (j_scanID j) st;
      Some (r.1, Some r.2)
  end.

(** A non-blocking send on the queue of capacity [q]. *)
Definition enqueue (q : nat) (j : scanJob) (st : state) : state * bool :=
  if Nat.ltb (length (s_jobs st)) q
  then (mkState (s_store st) (s_audit st) (s_broker st) (s_sources st) (s_jobs st ++ [j]), true)
  else (st, false).

Definition trigger_fields : list (field string) := [fld "clusterId" id (λ _ v, v) dec_string].

Definition handleTriggerScan (a : API) (e : env) (p : Principal) (b : option json) (st : state)
    : option (state * response) :=
  match decode_body "" trigger_fields b with
  | None => Some (st, error 400 "clusterId is required")
  | Some clusterID =>
      if clusterID =s "" then Some (st, error 400 "clusterId is required") else
      if negb (validClusterID clusterID) then Some (st, error 400 "invalid clusterId") else
      match GetCluster (s_store st) (p_Tenant p) clusterID with
      | None => Some (st, error 404 "unknown cluster")
      | Some _ =>
          if negb (a_scanner a) then Some (st, error 503 "no scanner configured") else
          match a_queue a with
          | Some q =>
              let '(st, ok) := enqueue q (mkScanJob (p_Tenant p) clusterID (p_Subject p) (e_newID e)) st in
              if negb ok then Some (st, error 503 "scan queue full, retry shortly")
              else Some (st, mkResponse 202 (BScan (mkScan (e_newID e) clusterID ScanQueued "" "" 0)))
          | None =>
              r ← RunScan e (p_Tenant p) clusterID (p_Subject p) st;
              Some (r.1, mkResponse 202 (BScan r.2))
          end
      end
  end.

(** * Reading: api.go *)

Definition handleAudit (p : Principal) (st : state) : option (state * response) :=
  Some (st, mkResponse 200 (BAudit (AuditList (s_audit st) (p_Tenant p)))).

Definition handleFindings (p : Principal) (get : string → string) (st : state) : option (state * response) :=
  rep ← ReportOf (s_store st) (p_Tenant p) (get "cluster");
  match rep with
  | None => Some (st, mkResponse 200 (BFindings [] 0 0 0))
  | Some rep =>
      r ← findings_page rep (parseFindingQuery get);
      let '(page, total, limit, offset) := r in
      Some (st, mkResponse 200 (BFindings page total limit offset))
  end.

Definition handlePosture (p : Principal) (get : string → string) (st : state) : option (state * response) :=
  rep ← ReportOf (s_store st) (p_Tenant p) (get "cluster");
  Some (st, mkResponse 200
    (match rep with
     | None => BPosture zero_posture [] None None
     | Some rep => BPosture (rep_Posture rep) (rep_Compliance rep) (rep_Coverage rep) (rep_TopRisks rep)
     end)).

Definition handleAttackPaths (p : Principal) (get : string → string) (st : state) : option (state * response) :=
  rep ← ReportOf (s_store st) (p_Tenant p) (get "cluster");
  Some (st, mkResponse 200 (BPaths (match rep with Some rep => rep_Paths rep | None => [] end))).

Definition handleHistory (p : Principal) (get : string → string) (st : state) : option (state * response) :=
  hs ← History (s_store st) (p_Tenant p) (get "cluster");
  Some (st, mkResponse 200 (BSnapshots hs)).

(** [handleReport]: the content type, the file name and the text of an export. *)
Definition export (a : API) (e : env) (p : Principal) (format name : string) (rep : Report)
    : option (string * string * res string) :=
  if format =s "sarif" then Some ("application/sarif+json", name +:+ ".sarif", e_sarif e (sarif_calls rep))
  else if format =s "csv" then Some ("text/csv", name +:+ "-findings.csv", Ok (ExportCSV rep))
  else if format =s "pdf"
       then Some ("application/pdf", name +:+ "-report.pdf", e_pdf e (ExportPDF rep (mkBrand (a_brand a) (p_Tenant p))))
       else None.

Definition handleReport (a : API) (e : env) (p : Principal) (get : string → string) (st : state)
    : option (state * response) :=
  let cluster := get "cluster" in
  rep ← ReportOf (s_store st) (p_Tenant p) cluster;
  match rep with
  | None => Some (st, error 404 "no scan for this scope yet")
  | Some rep =>
      let format := if get "format" =s "" then "sarif" else get "format" in
      let name := if cluster =s "" then "all-clusters" else cluster in
      match export a e p format name rep with
      | None => Some (st, error 400 "format must be sarif, csv, or pdf")
      | Some (contentType, filename, content) =>
          match content with
          | Err m => Some (st, error 500 m)
          | Ok text =>
              Some (st, mkResponse 200 (BExport contentType ("attachment; filename=" +:+ fmt_quote filename) text))
          end
      end
  end.

(** * Findings lifecycle: lifecycle_api.go *)

Definition set_state (lc : FindingLifecycle) (state : string) : FindingLifecycle :=
  mkLifecycle (lc_Key lc) (lc_ClusterID lc) (lc_FindingID lc) (lc_Resource lc) state (lc_Assignee lc)
    (lc_Waiver lc) (lc_FirstSeen lc) (lc_LastUpdated lc) (lc_ResolvedAt lc).

(** A finding that has no stored row. *)
Definition untracked (key cid : string) (f : Finding) (firstSeen : string) : FindingLifecycle :=
  mkLifecycle key cid (f_ID f) (f_Resource f) StateOpen "" None firstSeen "" "".

(** The inner loop of [handleListLifecycle] over a cluster's findings: items and seen keys. *)
Definition overlay (stored : gmap string FindingLifecycle) (t : instant) (cid : string)
    (acc : list FindingLifecycle * gset string) (f : Finding) : list FindingLifecycle * gset string :=
  let '(items, seen) := acc in
  let key := LifecycleKey cid f in
  if decide (key ∈ seen) then acc
  else
    let lc := default (untracked key cid f "") (stored !! key) in
    (items ++ [set_state lc (EffectiveState lc t)], {[key]} ∪ seen).

(** The loop over the clusters; a cluster without a report is skipped. *)
Fixpoint overlay_clusters (m : MemStore) (tenant : string) (stored : gmap string FindingLifecycle)
    (t : instant) (cids : list string) (acc : list FindingLifecycle * gset string)
    : option (list FindingLifecycle * gset string) :=
  match cids with
  | [] => Some acc
  | cid :: cids =>
      rep ← ReportOf m tenant cid;
      overlay_clusters m tenant stored t cids
        (match rep with None => acc | Some rep => foldl (overlay stored t cid) acc (rep_Findings rep) end)
  end.

(** The map [stored]. *)
Definition indexed (rows : list FindingLifecycle) : gmap string FindingLifecycle :=
  foldl (λ s lc, <[lc_Key lc := lc]> s) ∅ rows.

Definition lifecycle_items (m : MemStore) (tenant cluster : string) (t : instant)
    : option (list FindingLifecycle) :=
  let stored := indexed (ListLifecycle m tenant cluster) in
  cids ← (if cluster <>s "" then Some [cluster] else fmap (map cl_ID) (ListClusters m tenant));
  r ← overlay_clusters m tenant stored t cids ([], ∅);
  let '(items, seen) := r in
  let rest := List.filter (λ kv, bool_decide (kv.1 ∉ seen)) (map_to_list stored) in
  Some (sortLifecycle (items ++ map (λ kv, set_state kv.2 (EffectiveState kv.2 t)) rest)).

Definition handleListLifecycle (e : env) (p : Principal) (get : string → string) (st : state)
    : option (state * response) :=
  let t := e_clock e 0 in
  items ← lifecycle_items (s_store st) (p_Tenant p) (get "cluster") t;
  Some (st, mkResponse 200 (BLifecycles items (ComputeMTTR items t))).

(** The search of [loadOrInitLifecycle] through the current reports. *)
Fixpoint find_untracked (m : MemStore) (tenant key firstSeen : string) (cids : list string)
    : option (option FindingLifecycle) :=
  match cids with
  | [] => Some None
  | cid :: cids =>
      rep ← ReportOf m tenant cid;
      match (match rep with
             | None => None
             | Some rep => List.find (λ f, LifecycleKey cid f =s key) (rep_Findings rep)
             end) with
      | Some f => Some (Some (untracked key cid f firstSeen))
      | None => find_untracked m tenant key firstSeen cids
      end
  end.

(** The row and whether there is one; the outer [None] panics. *)
Definition loadOrInitLifecycle (m : MemStore) (tenant key firstSeen : string)
    : option (option FindingLifecycle) :=
  match GetLifecycle m tenant key with
  | Some lc => Some (Some lc)
  | None =>
      cs ← ListClusters m tenant;
      find_untracked m tenant key firstSeen (map cl_ID cs)
  end.

Definition state_fields : list (field (string * string)) :=
  [fld "state" fst (λ s v, (v, s.2)) dec_string; fld "assignee" snd (λ s v, (s.1, v)) dec_string].

Definition bad_state : string :=
  "state must be one of open, acknowledged, in-progress, resolved (risk-accepted is set via a waiver)".

Definition handleSetState (e : env) (p : Principal) (key : string) (b : option json) (st : state)
    : option (state * response) :=
  match decode_body ("", "") state_fields b with
  | None => Some (st, error 400 "invalid JSON body")
  | Some (newState, assignee) =>
      if negb (mem_str newState triageStates) then Some (st, error 400 bad_state) else
      lc ← loadOrInitLifecycle (s_store st) (p_Tenant p) key (now e 0);
      match lc with
      | None => Some (st, error 404 "unknown finding")
      | Some lc =>
          let t := now e 1 in
          let prev := lc_State lc in
          let lc := mkLifecycle (lc_Key lc) (lc_ClusterID lc) (lc_FindingID lc) (lc_Resource lc) newState
            (if assignee <>s "" then assignee else lc_Assignee lc) None (lc_FirstSeen lc) t
            (if newState =s StateResolved then t else "") in
          let st := set_store (UpsertLifecycle (p_Tenant p) lc (s_store st)) st in
          let st := audit (mkAuditEntry t (p_Subject p) (p_Tenant p) "finding.triage"
            (lc_FindingID lc +:+ " " +:+ prev +:+ "→" +:+ newState) "allowed") st in
          Some (st, mkResponse 200 (BLifecycle lc))
      end
  end.

Definition waiver_fields : list (field (string * string)) :=
  [fld "justification" fst (λ s v, (v, s.2)) dec_string; fld "expiresAt" snd (λ s v, (s.1, v)) dec_string].

Definition handleCreateWaiver (a : API) (e : env) (p : Principal) (key : string) (b : option json) (st : state)
    : option (state * response) :=
  match decode_body ("", "") waiver_fields b with
  | None => Some (st, error 400 "invalid JSON body")
  | Some (justification, expiresAt) =>
      if justification =s "" then Some (st, error 400 "justification is required to accept risk") else
      match parse_rfc3339 expiresAt with
      | None => Some (st, error 400 "expiresAt must be an RFC3339 timestamp")
      | Some exp =>
          let t := e_clock e 0 in
          if negb (After exp t) then Some (st, error 400 "expiresAt must be in the future") else
          if After exp (t + MaxWaiverDuration (a_life a))%Z
          then Some (st, error 400 "waiver exceeds the maximum allowed duration") else
          lc ← loadOrInitLifecycle (s_store st) (p_Tenant p) key (now e 1);
          match lc with
          | None => Some (st, error 404 "unknown finding")
          | Some lc =>
              let nowStr := now e 2 in
              let w := mkLWaiver justification (p_Subject p) nowStr (format_rfc3339 exp) in
              let lc := mkLifecycle (lc_Key lc) (lc_ClusterID lc) (lc_FindingID lc) (lc_Resource lc)
                StateRiskAccepted (lc_Assignee lc) (Some w) (lc_FirstSeen lc) nowStr "" in
              let st := set_store (UpsertLifecycle (p_Tenant p) lc (s_store st)) st in
              let st := audit (mkAuditEntry nowStr (p_Subject p) (p_Tenant p) "finding.waiver"
                (lc_FindingID lc +:+ " until " +:+ lw_ExpiresAt w) "allowed") st in
              Some (st, mkResponse 200 (BLifecycle lc))
          end
      end
  end.

Definition handleDeleteWaiver (e : env) (p : Principal) (key : string) (st : state)
    : option (state * response) :=
  match GetLifecycle (s_store st) (p_Tenant p) key with
  | None => Some (st, error 404 "no active waiver for this finding")
  | Some lc =>
      match lc_Waiver lc with
      | None => Some (st, error 404 "no active waiver for this finding")
      | Some _ =>
          let t := now e 0 in
          let lc := mkLifecycle (lc_Key lc) (lc_ClusterID lc) (lc_FindingID lc) (lc_Resource lc)
            StateOpen (lc_Assignee lc) None (lc_FirstSeen lc) t (lc_ResolvedAt lc) in
          let st := set_store (UpsertLifecycle (p_Tenant p) lc (s_store st)) st in
          let st := audit (mkAuditEntry t (p_Subject p) (p_Tenant p) "finding.waiver.revoke"
            (lc_FindingID lc) "allowed") st in
          Some (st, mkResponse 200 (BLifecycle lc))
      end
  end.

Definition WaivedKeys (m : MemStore) (tenant clusterID : string) (t : instant) : gset string :=
  foldl (λ out lc, if IsActivelyWaived lc t then {[lc_Key lc]} ∪ out else out) ∅
    (ListLifecycle m tenant clusterID).

(** The two slices of [BlockingFindings]: blocking, waived out. *)
Definition BlockingFindings (clusterID : string) (findings : list Finding) (waived : gset string)
    : list Finding * list Finding :=
  foldl (λ '(blocking, waivedOut) f,
    if decide (LifecycleKey clusterID f ∈ waived) then (blocking, waivedOut ++ [f])
    else (blocking ++ [f], waivedOut)) ([], []) findings.

(** * Tenants: tenants_api.go *)

Definition tenant_fields : list (field (string * string)) :=
  [fld "tenant" fst (λ s v, (v, s.2)) dec_string; fld "displayName" snd (λ s v, (s.1, v)) dec_string].

Definition handleProvisionTenant (e : env) (p : Principal) (b : option json) (st : state)
    : option (state * response) :=
  match decode_body ("", "") tenant_fields b with
  | None => Some (st, error 400 "invalid JSON body")
  | Some (tenant, displayName) =>
      if (tenant =s "") || negb (validClusterID tenant)
      then Some (st, error 400 "valid tenant id is required") else
      let st := set_store (ProvisionTenant tenant displayName (s_store st)) st in
      let st := audit (mkAuditEntry (now e 0) (p_Subject p) (p_Tenant p) "tenant.provision" tenant "allowed") st in
      Some (st, mkResponse 201 (BTenant tenant displayName))
  end.

Definition handleDeleteTenant (e : env) (p : Principal) (target : string) (st : state)
    : option (state * response) :=
  if (target =s "") || negb (validClusterID target) then Some (st, error 400 "invalid tenant id") else
  if (target <>s p_Tenant p) && negb (p_SuperAdmin p) then
    Some (audit (mkAuditEntry (now e 0) (p_Subject p) (p_Tenant p) "tenant.delete" target "denied") st,
          error 403 "cross-tenant erasure requires super-admin")
  else
    let st := audit (mkAuditEntry (now e 0) (p_Subject p) (p_Tenant p) "tenant.delete" target "allowed") st in
    let st := set_store (DeleteTenant target (s_store st)) st in
    let st := mkState (s_store st) (PurgeTenant target (s_audit st)) (s_broker st) (s_sources st) (s_jobs st) in
    Some (st, mkResponse 204 BNone).

(** * Routes and middleware: api.go, auth.go, security.go *)

Inductive route :=
| GetClusters
| PostClusters (b : option json)
| DeleteClusters (id : string)
| GetScans (get : string → string)
| PostScans (b : option json)
| GetFindings (get : string → string)
| GetPosture (get : string → string)
| GetAttackPaths (get : string → string)
| GetHistory (get : string → string)
| GetReport (get : string → string)
| GetAudit
| GetLifecycles (get : string → string)
| PostState (key : string) (b : option json)
| PostWaiver (key : string) (b : option json)
| DeleteWaiver (key : string)
| PostTenants (b : option json)
| DeleteTenants (tenant : string).

Record request := mkRequest {
  rq_authorization : string;
  rq_origin : string;
  rq_length : Z;
  rq_route : route
}.

(** Whether the method is one of POST, PUT, PATCH and DELETE. *)
Definition unsafe (r : route) : bool :=
  match r with
  | PostClusters _ | DeleteClusters _ | PostScans _ | PostState _ _ | PostWaiver _ _ | DeleteWaiver _
  | PostTenants _ | DeleteTenants _ => true
  | _ => false
  end.

(** What the [r.With(...)] of a route demands. *)
Inductive guard := Anyone | MinRole (role action : string) | SuperAdmin (action : string).

Definition route_guard (a : API) (r : route) : guard :=
  match r with
  | PostClusters _ | DeleteClusters _ => MinRole RoleAdmin "cluster.write"
  | PostScans _ => MinRole RoleAnalyst "scan.trigger"
  | GetAudit => MinRole RoleAdmin "audit.read"
  | PostState _ _ => MinRole RoleAnalyst "finding.triage"
  | PostWaiver _ _ | DeleteWaiver _ => MinRole (WaiverApproverRole (a_life a)) "finding.waiver"
  | PostTenants _ => SuperAdmin "tenant.provision"
  | DeleteTenants _ => MinRole RoleAdmin "tenant.delete"
  | _ => Anyone
  end.

(** [requireRole] and [requireSuperAdmin]: [Some] is the denial. *)
Definition require (e : env) (p : Principal) (g : guard) (st : state) : option (state * response) :=
  match g with
  | Anyone => None
  | MinRole minRole action =>
      if (roleRank (p_Role p) <? roleRank minRole)%Z
      then Some (audit (mkAuditEntry (now e 0) (p_Subject p) (p_Tenant p) action "" "denied") st,
                 error 403 "insufficient role")
      else None
  | SuperAdmin action =>
      if negb (p_SuperAdmin p)
      then Some (audit (mkAuditEntry (now e 0) (p_Subject p) (p_Tenant p) action "" "denied") st,
                 error 403 "super-admin required")
      else None
  end.

Definition handle (a : API) (e : env) (p : Principal) (r : route) (st : state) : option (state * response) :=
  match r with
  | GetClusters => handleClusters p st
  | PostClusters b => handleRegisterCluster a e p b st
  | DeleteClusters id => handleDeleteCluster a e p id st
  | GetScans get => handleListScans p get st
  | PostScans b => handleTriggerScan a e p b st
  | GetFindings get => handleFindings p get st
  | GetPosture get => handlePosture p get st
  | GetAttackPaths get => handleAttackPaths p get st
  | GetHistory get => handleHistory p get st
  | GetReport get => handleReport a e p get st
  | GetAudit => handleAudit p st
  | GetLifecycles get => handleListLifecycle e p get st
  | PostState key b => handleSetState e p key b st
  | PostWaiver key b => handleCreateWaiver a e p key b st
  | DeleteWaiver key => handleDeleteWaiver e p key st
  | PostTenants b => handleProvisionTenant e p b st
  | DeleteTenants t => handleDeleteTenant e p t st
  end.

(** [strings.TrimRight(s, slash)] *)
Definition trim_slash (s : string) : string := trim_right_by (λ c, Ascii.eqb c "/"%char) s.

(** [csrfOrigin]: whether the request is rejected. *)
Definition csrf_rejects (a : API) (rq : request) : bool :=
  let allow := map trim_slash (a_allowedOrigins a) in
  if Nat.ltb 0 (length allow) && unsafe (rq_route rq) then
    let origin := trim_slash (rq_origin rq) in
    (origin <>s "") && negb (mem_str origin allow)
  else false.

(** A request through the middleware: body cap, authentication, origin, rate, role, handler. *)
Definition serve (a : API) (e : env) (rq : request) (st : state) : option (state * response) :=
  if (a_maxBody a <? rq_length rq)%Z then Some (st, error 413 "request body too large") else
  match a_auth a (rq_authorization rq) with
  | None => Some (st, error 401 "unauthenticated")
  | Some p =>
      if csrf_rejects a rq then Some (st, error 403 "cross-origin request rejected") else
      if a_rateLimited a && negb (e_allow e (p_Tenant p)) then Some (st, error 429 "rate limit exceeded") else
      match require e p (route_guard a (rq_route rq)) st with
      | Some denied => Some denied
      | None => handle a e p (rq_route rq) st
      end
  end.

(** * What a request does to the store *)

(** A row as the handlers leave it: a state of the lifecycle, accepted exactly under a justified
    waiver, resolved when it has a resolution time, and its key the identity of its finding. *)
Record row_ok (lc : FindingLifecycle) : Prop := mkRowOk {
  ro_state : lc_State lc ∈ StateRiskAccepted :: triageStates;
  ro_waiver : lc_State lc = StateRiskAccepted ↔ is_Some (lc_Waiver lc);
  ro_justified w : lc_Waiver lc = Some w → lw_Justification w ≠ "";
  ro_resolved : lc_ResolvedAt lc ≠ "" → lc_State lc = StateResolved;
  ro_key f : f_ID f = lc_FindingID lc → f_Resource f = lc_Resource lc → LifecycleKey (lc_ClusterID lc) f = lc_Key lc
}.

Definition op_row_ok (o : op) : Prop := match o with OpUpsert _ lc => row_ok lc | _ => True end.

Definition rows_ok (m : MemStore) : Prop := ∀ t k lc, rows_of m t !! k = Some lc → row_ok lc.

Definition run_ops (ops : list op) (m : MemStore) : MemStore := foldl (λ m o, apply_op o m) m ops.

(** The step from [st] to [st'] is a sequence of store operations, with well-formed rows, on the
    tenants [ts], and leaves the audit log of every other tenant as it is. *)
Definition acts (ts : string → Prop) (st st' : state) : Prop :=
  (∃ ops, s_store st' = run_ops ops (s_store st) ∧ Forall (λ o, ts (op_tenant o) ∧ op_row_ok o) ops) ∧
  (∀ t, ¬ ts t → AuditList (s_audit st') t = AuditList (s_audit st) t).

Lemma LifecycleKey_fields cid f1 f2 :
  f_ID f1 = f_ID f2 → f_Resource f1 = f_Resource f2 → LifecycleKey cid f1 = LifecycleKey cid f2.
Proof. unfold LifecycleKey, key_preimage. by intros -> ->. Qed.

Lemma untracked_ok cid f t u : row_ok (mkLifecycle (LifecycleKey cid f) cid (f_ID f) (f_Resource f) StateOpen "" None t u "").
Proof.
  split; simpl; [set_solver|split; [done|by intros []]|done|done|].
  intros f' H1 H2. by apply LifecycleKey_fields.
Qed.

Lemma apply_op_rows o m : op_row_ok o → rows_ok m → rows_ok (apply_op o m).
Proof.
  intros Ho Hm t k lc. destruct o as [t' c|t' id|t' id sid rep at_|t' n|t'|t' id fs u|t' lc']; cbn [apply_op].
  - unfold RegisterCluster. destruct (_ !! cl_ID c); apply Hm.
  - unfold DeleteCluster. destruct (ms_tenants m !! t') as [ts|]; [|apply Hm].
    destruct (ts_clusters ts !! id); [|apply Hm]. cbn [fst].
    destruct (ms_lifecycle _ !! t') as [rows|] eqn:E; [|apply Hm].
    rewrite rows_of_put_rows. case_str; [|apply Hm]. subst.
    intros [H _]%map_lookup_filter_Some. apply (Hm t k). unfold rows_of, map_get. simpl in E. by rewrite E.
  - rewrite RecordScan_eq. apply Hm.
  - unfold ProvisionTenant. apply Hm.
  - unfold DeleteTenant, rows_of, map_get. simpl. rewrite lookup_delete. case_decide; simpl; [|apply Hm].
    by rewrite lookup_empty.
  - unfold SeedFindings. rewrite rows_of_put_rows. case_str; [|apply Hm]. subst.
    rewrite seed_fold_lookup. destruct (rows_of m t !! k) eqn:E; [intros [= <-]; by apply (Hm t k)|].
    intros (f & _ & Hf)%first_some_elem. destruct (String.eqb_spec (LifecycleKey id f) k); [|done].
    subst k. injection Hf as <-. apply untracked_ok.
  - unfold UpsertLifecycle. rewrite rows_of_put_rows. case_str; [|apply Hm]. subst.
    rewrite lookup_insert. case_decide; [by intros [= <-]|apply Hm].
Qed.

Lemma run_ops_preserve ops m :
  Forall op_row_ok ops → reachable m ∧ rows_ok m → reachable (run_ops ops m) ∧ rows_ok (run_ops ops m).
Proof.
  unfold run_ops. revert m. induction ops as [|o ops IH]; intros m Hops [Hr Hm]; simpl; [done|].
  apply Forall_cons in Hops as [Ho Hops]. apply IH; [done|]. split; [by constructor|by apply apply_op_rows].
Qed.

Lemma run_ops_view ops m t : Forall (λ o, op_tenant o ≠ t) ops → view t (run_ops ops m) = view t m.
Proof.
  unfold run_ops. revert m. induction ops as [|o ops IH]; intros m Hops; simpl; [done|].
  apply Forall_cons in Hops as [Ho Hops]. rewrite IH by done. by apply op_view.
Qed.

Lemma acts_refl ts st st' : s_store st' = s_store st → s_audit st' = s_audit st → acts ts st st'.
Proof. intros H1 H2. split; [exists []; split; [done|constructor]|]. intros. by rewrite H2. Qed.

(** One entry in the audit log of an affected tenant. *)
Lemma acts_audit (ts : string → Prop) ops ae st st' :
  s_store st' = run_ops ops (s_store st) → Forall (λ o, ts (op_tenant o) ∧ op_row_ok o) ops →
  s_audit st' = AuditWrite ae (s_audit st) → ts (ae_Tenant ae) → acts ts st st'.
Proof.
  intros H1 H2 H3 Hts. split; [eauto|]. intros t Ht. rewrite H3, AuditList_write. case_str; [|done]. by subst.
Qed.

Lemma publish_fields t ev st st' :
  publish t ev st = Some st' →
  s_store st' = s_store st ∧ s_audit st' = s_audit st ∧ s_sources st' = s_sources st ∧ s_jobs st' = s_jobs st.
Proof. unfold publish. destruct (Publish t ev (s_broker st)); simpl; [|done]. by intros [= <-]. Qed.

(** The effect of a scan: nothing is stored unless the scanner produced a report. *)
Lemma runScanWithID_fields e t c subj sid st st' scan :
  runScanWithID e t c subj sid st = Some (st', scan) →
  s_sources st' = s_sources st ∧ s_jobs st' = s_jobs st ∧
  match runScanner e st c with
  | Err _ =>
      s_store st' = s_store st ∧ scan = mkScan sid c ScanFailed "" "" 0 ∧
      s_audit st' = AuditWrite (mkAuditEntry (now e 1) subj t "scan.trigger" c "failed") (s_audit st)
  | Ok rep =>
      s_store st' = run_ops [OpRecordScan t c sid rep (now e 1); OpSeed t c (rep_Findings rep) (now e 2)] (s_store st) ∧
      scan = mkScan sid c ScanSucceeded (now e 1) (now e 1) (Z.of_nat (length (rep_Findings rep))) ∧
      s_audit st' = AuditWrite (mkAuditEntry (now e 4) subj t "scan.trigger" c "allowed") (s_audit st)
  end.
Proof.
  unfold runScanWithID. destruct (publish t _ st) as [st1|] eqn:E1; [|done]. cbn [mbind option_bind].
  destruct (publish t _ st1) as [st2|] eqn:E2; [|done]. cbn [mbind option_bind].
  apply publish_fields in E1 as (Hs1 & Ha1 & Hr1 & Hj1). apply publish_fields in E2 as (Hs2 & Ha2 & Hr2 & Hj2).
  assert (runScanner e st2 c = runScanner e st c) as -> by (unfold runScanner; by rewrite Hr2, Hr1).
  destruct (runScanner e st c) as [rep|er].
  - destruct (RecordScan t c sid rep (now e 1) (s_store st2)) as [m sc] eqn:Er.
    assert (sc = mkScan sid c ScanSucceeded (now e 1) (now e 1) (Z.of_nat (length (rep_Findings rep)))) as ->
      by (rewrite RecordScan_eq in Er; by injection Er).
    destruct (publish t _ _) as [st3|] eqn:E3; [|done]. cbn [mbind option_bind].
    destruct (publish t _ st3) as [st4|] eqn:E4; [|done]. cbn [mbind option_bind]. intros [= <- <-].
    apply publish_fields in E3 as (Hs3 & Ha3 & Hr3 & Hj3). apply publish_fields in E4 as (Hs4 & Ha4 & Hr4 & Hj4).
    cbn [s_store s_audit s_sources s_jobs audit set_store] in Hs3, Ha3, Hr3, Hj3.
    split; [congruence|]. split; [congruence|]. split; [|split; [done|congruence]].
    rewrite Hs4, Hs3. unfold run_ops. cbn [foldl apply_op]. by rewrite <-Hs1, <-Hs2, Er.
  - destruct (publish t _ st2) as [st3|] eqn:E3; [|done]. cbn [mbind option_bind]. intros [= <- <-].
    apply publish_fields in E3 as (Hs3 & Ha3 & Hr3 & Hj3). cbn. rewrite Ha3, Ha2, Ha1. repeat split; congruence.
Qed.

Lemma runScanWithID_acts e t c subj sid st st' scan :
  runScanWithID e t c subj sid st = Some (st', scan) → acts (eq t) st st'.
Proof.
  intros (_ & _ & H)%runScanWithID_fields. destruct (runScanner e st c).
  - destruct H as (H1 & _ & H2). eapply acts_audit; [exact H1| |exact H2|done]. by repeat constructor.
  - destruct H as (H1 & _ & H2). by apply (acts_audit _ [] _ _ _ H1 ltac:(constructor) H2).
Qed.

Lemma acts_weaken (ts ts' : string → Prop) st st' : (∀ t, ts t → ts' t) → acts ts st st' → acts ts' st st'.
Proof.
  intros Hts [(ops & H1 & H2) H3]. split; [exists ops; split; [done|]|].
  - eapply Forall_impl; [exact H2|]. naive_solver.
  - intros t Ht. apply H3. naive_solver.
Qed.

(** The row a handler starts from. *)
Lemma find_untracked_ok m t key fs cids lc :
  find_untracked m t key fs cids = Some (Some lc) →
  row_ok lc ∧ lc_Key lc = key ∧ lc_State lc = StateOpen ∧ lc_Waiver lc = None ∧ lc_FirstSeen lc = fs ∧
  ∃ rep f, lc_ClusterID lc ∈ cids ∧ ReportOf m t (lc_ClusterID lc) = Some (Some rep) ∧
    f ∈ rep_Findings rep ∧ lc_FindingID lc = f_ID f ∧ lc_Resource lc = f_Resource f.
Proof.
  induction cids as [|cid cids IH]; simpl; [done|].
  destruct (ReportOf m t cid) as [rep|] eqn:E; [|done]. cbn [mbind option_bind].
  assert (∀ P Q R S T : Prop, P ∧ Q ∧ R ∧ S ∧ T ∧ (∃ (rep : Report) f, lc_ClusterID lc ∈ cids ∧
      ReportOf m t (lc_ClusterID lc) = Some (Some rep) ∧ f ∈ rep_Findings rep ∧
      lc_FindingID lc = f_ID f ∧ lc_Resource lc = f_Resource f) →
    P ∧ Q ∧ R ∧ S ∧ T ∧ (∃ (rep : Report) f, lc_ClusterID lc ∈ cid :: cids ∧
      ReportOf m t (lc_ClusterID lc) = Some (Some rep) ∧ f ∈ rep_Findings rep ∧
      lc_FindingID lc = f_ID f ∧ lc_Resource lc = f_Resource f)) as Hmore.
  { intros P Q R S T (? & ? & ? & ? & ? & rep' & f & ? & ?). do 5 (split; [done|]).
    exists rep', f. split; [by right|done]. }
  destruct rep as [rep|]; [|intros H; by apply Hmore, IH].
  destruct (List.find _ (rep_Findings rep)) as [f|] eqn:Ef; [|intros H; by apply Hmore, IH].
  apply find_elem in Ef as [Hf Hk%String.eqb_eq]. intros [= <-]. subst key.
  split; [apply untracked_ok|]. simpl. repeat (split; [done|]). exists rep, f. split; [left|done].
Qed.

Lemma loadOrInit_ok m t key fs lc :
  rows_ok m → reachable m → loadOrInitLifecycle m t key fs = Some (Some lc) → row_ok lc ∧ lc_Key lc = key.
Proof.
  intros Hm Hr. unfold loadOrInitLifecycle. destruct (GetLifecycle m t key) as [lc'|] eqn:E.
  - intros [= <-]. split; [by apply (Hm t key)|]. by apply (so_rows m (reachable_ok m Hr) t).
  - destruct (ListClusters m t); [|done]. cbn [mbind option_bind].
    by intros (H1 & H2 & _)%find_untracked_ok.
Qed.

(** The tenants a request may act on: the caller's own, and for an operator's route its target. *)
Definition scope (p : Principal) (r : route) (t : string) : Prop :=
  t = p_Tenant p ∨
  match r with
  | PostTenants _ => True
  | DeleteTenants t' => p_SuperAdmin p = true ∧ t = t'
  | _ => False
  end.

Lemma Some_pair_inj {A B} (a c : A) (b d : B) : Some (a, b) = Some (c, d) → a = c ∧ b = d.
Proof. intros H. by injection H. Qed.

(** Splits a handler's result into its branches; the terms are only compared syntactically, as
    whole states are large. *)
Ltac handler_cases H :=
  repeat lazymatch type of H with
    | None = Some _ => discriminate H
    | Some (_, _) = Some (?s, ?r) => apply Some_pair_inj in H; destruct H as [H <-]; subst s
    | (_ ≫= _) = Some _ => let x := fresh "x" in let Hx := fresh "Hx" in apply bind_Some in H as (x & Hx & H)
    | match ?x with _ => _ end = _ => destruct x eqn:?
    end.

Ltac acts_same := match goal with |- acts _ ?s ?s => by apply acts_refl end.

Lemma handleRegisterCluster_acts a e p b st st' resp :
  handleRegisterCluster a e p b st = Some (st', resp) → acts (eq (p_Tenant p)) st st'.
Proof.
  unfold handleRegisterCluster. intros H. handler_cases H; try acts_same.
  eapply (acts_audit _ [OpRegister _ _]); [reflexivity|by repeat constructor|reflexivity|done].
Qed.

Lemma handleDeleteCluster_acts a e p id st st' resp :
  handleDeleteCluster a e p id st = Some (st', resp) → acts (eq (p_Tenant p)) st st'.
Proof.
  unfold handleDeleteCluster. intros H. handler_cases H; try acts_same.
  eapply (acts_audit _ [OpDeleteCluster (p_Tenant p) id]); [|by repeat constructor|reflexivity|done].
  unfold run_ops. cbn [foldl apply_op s_store audit set_sources set_store].
  by match goal with E : DeleteCluster _ _ _ = _ |- _ => rewrite E end.
Qed.

Lemma handleTriggerScan_acts a e p b st st' resp :
  handleTriggerScan a e p b st = Some (st', resp) → acts (eq (p_Tenant p)) st st'.
Proof.
  unfold handleTriggerScan. intros H. handler_cases H; try acts_same.
  - unfold enqueue in *. repeat case_match; simplify_eq. by apply acts_refl.
  - unfold enqueue in *. repeat case_match; simplify_eq. by apply acts_refl.
  - destruct x as [st1 scan]. by eapply runScanWithID_acts.
Qed.

Lemma triage_states s : mem_str s triageStates = true → s ∈ triageStates ∧ s ≠ StateRiskAccepted.
Proof.
  intros H%mem_str_spec. split; [done|]. unfold triageStates in H. intros ->.
  repeat (apply elem_of_cons in H as [H|H]; [discriminate|]). by apply elem_of_nil in H.
Qed.

Lemma handleSetState_acts e p key b st st' resp :
  reachable (s_store st) → rows_ok (s_store st) →
  handleSetState e p key b st = Some (st', resp) → acts (eq (p_Tenant p)) st st'.
Proof.
  intros Hr Hrows. unfold handleSetState. intros H. handler_cases H; try acts_same.
  match goal with E : negb (mem_str _ _) = false |- _ => apply negb_false_iff, triage_states in E as [Hin Hne] end.
  match goal with E : loadOrInitLifecycle _ _ _ _ = _ |- _ => apply loadOrInit_ok in E as [[H1 H2 H3 H4 H5] _]; [|done..] end.
  eapply (acts_audit _ [OpUpsert _ _]); [reflexivity| |reflexivity|done].
  constructor; [|constructor]. split; [done|]. split; simpl; [set_solver|split; [done|by intros []]|done| |exact H5].
  case_str; done.
Qed.

Lemma handleCreateWaiver_acts a e p key b st st' resp :
  reachable (s_store st) → rows_ok (s_store st) →
  handleCreateWaiver a e p key b st = Some (st', resp) → acts (eq (p_Tenant p)) st st'.
Proof.
  intros Hr Hrows. unfold handleCreateWaiver. intros H. handler_cases H; try acts_same.
  match goal with E : loadOrInitLifecycle _ _ _ _ = _ |- _ => apply loadOrInit_ok in E as [[H1 H2 H3 H4 H5] _]; [|done..] end.
  eapply (acts_audit _ [OpUpsert _ _]); [reflexivity| |reflexivity|done].
  constructor; [|constructor]. split; [done|]. split; simpl; [left|by eauto| |done|exact H5].
  intros w [= <-]. simpl. by apply String.eqb_neq.
Qed.

Lemma handleDeleteWaiver_acts e p key st st' resp :
  rows_ok (s_store st) →
  handleDeleteWaiver e p key st = Some (st', resp) → acts (eq (p_Tenant p)) st st'.
Proof.
  intros Hrows. unfold handleDeleteWaiver. intros H. handler_cases H; try acts_same.
  match goal with E : GetLifecycle _ _ _ = _, E' : lc_Waiver _ = _ |- _ =>
    apply Hrows in E as [H1 H2 H3 H4 H5]; rewrite E' in * end.
  eapply (acts_audit _ [OpUpsert _ _]); [reflexivity| |reflexivity|done].
  constructor; [|constructor]. split; [done|]. split; simpl; [set_solver|split; [done|by intros []]|done| |exact H5].
  intros Hres%H4. rewrite Hres in H2. destruct H2 as [_ H2]. by specialize (H2 ltac:(eauto)).
Qed.

Lemma handle_acts a e p r st st' resp :
  reachable (s_store st) → rows_ok (s_store st) →
  handle a e p r st = Some (st', resp) → acts (scope p r) st st'.
Proof.
  intros Hr Hrows H.
  assert (∀ t, eq (p_Tenant p) t → scope p r t) as Hself by (intros t <-; by left).
  destruct r; cbn [handle] in H;
    try (unfold handleClusters, handleListScans, handleFindings, handlePosture, handleAttackPaths,
           handleHistory, handleReport, handleAudit, handleListLifecycle in H; handler_cases H; acts_same).
  - eapply acts_weaken; [exact Hself|]. by eapply handleRegisterCluster_acts.
  - eapply acts_weaken; [exact Hself|]. by eapply handleDeleteCluster_acts.
  - eapply acts_weaken; [exact Hself|]. by eapply handleTriggerScan_acts.
  - eapply acts_weaken; [exact Hself|]. by eapply handleSetState_acts.
  - eapply acts_weaken; [exact Hself|]. by eapply handleCreateWaiver_acts.
  - eapply acts_weaken; [exact Hself|]. by eapply handleDeleteWaiver_acts.
  - unfold handleProvisionTenant in H. handler_cases H; try acts_same.
    eapply (acts_audit _ [OpProvision _ _]); [reflexivity| |reflexivity|by left].
    constructor; [|constructor]. split; [by right|done].
  - unfold handleDeleteTenant in H. handler_cases H; try acts_same.
    + eapply (acts_audit _ []); [reflexivity|constructor|reflexivity|by left].
    + assert (scope p (DeleteTenants tenant) tenant) as Hs.
      { destruct (String.eqb_spec tenant (p_Tenant p)) as [->|]; [by left|].
        right. destruct (p_SuperAdmin p); [done|discriminate]. }
      split; [exists [OpDeleteTenant tenant]; split; [done|by constructor; [split|]]|].
      intros t Ht. cbn [s_audit audit set_store]. rewrite AuditList_purge, AuditList_write. cbn [ae_Tenant].
      case_str; [by subst|]. case_str; [|done]. subst. destruct Ht. by left.
Qed.
