(* ===== verification/Service.v ===== *)
(** The dashboard as a service: the states it reaches by serving requests, running queued and
    scheduled scans and streaming events (internal/dashboard/api.go, auth.go, lifecycle_api.go,
    tenants_api.go, scheduler.go, workers.go), and what holds in all of them. *)

From S2P Require Import Prelude GoStrings GoJson GoFloat GoTime Api Lifecycle MemStore Auth Broker.
From S2P Require Import FindingQuery Sources Handlers.

(** * Reachable service states *)

Definition initial : state := mkState NewMemStore ∅ NewBroker newSourceRegistry [].

(** [Scheduler.RunOnce] and the ticks of [Start]. *)
Definition scheduled (e : env) (t clusterID : string) (st : state) : option (state * MemStore.Scan) :=
  RunScan e t clusterID "scheduler" st.

Definition set_broker (b : Broker) (st : state) : state :=
  mkState (s_store st) (s_audit st) b (s_sources st) (s_jobs st).

Inductive served (a : API) : state → Prop :=
| served_initial : served a initial
| served_startup st t src c : served a st →
    served a (set_sources src (set_store (RegisterCluster t c (s_store st)) st))
| served_request e rq st st' resp : served a st → serve a e rq st = Some (st', resp) → served a st'
| served_worker e st st' r : served a st → runScanJob e st = Some (st', r) → served a st'
| served_scan e t c subj st st' scan : served a st → RunScan e t c subj st = Some (st', scan) → served a st'
| served_subscribe t st : served a st → served a (set_broker (Subscribe t (s_broker st)).1 st)
| served_unsubscribe s b st : served a st → Unsubscribe s (s_broker st) = Some b → served a (set_broker b st)
| served_receive s ev b st : served a st → Receive s (s_broker st) = Some (ev, b) → served a (set_broker b st).

(** * The invariant *)

Record state_ok (a : API) (st : state) : Prop := mkStateOk {
  st_store : reachable (s_store st);
  st_rows : rows_ok (s_store st);
  st_broker : broker_ok (s_broker st);
  st_queue q : a_queue a = Some q → length (s_jobs st) ≤ q
}.

Lemma initial_ok a : state_ok a initial.
Proof.
  split; simpl; [constructor| |apply NewBroker_ok|lia].
  intros t k lc. unfold rows_of, map_get. simpl. by rewrite !lookup_empty.
Qed.

Lemma publish_ok t ev st : broker_ok (s_broker st) → ∃ st', publish t ev st = Some st' ∧ broker_ok (s_broker st').
Proof.
  intros Hb. destruct (Publish_eq t ev _ Hb) as (b' & Hp & _). unfold publish. rewrite Hp. simpl.
  eexists. split; [done|]. by apply (Publish_ok t ev (s_broker st)).
Qed.

(** A scan always ends with a result. *)
Lemma runScanWithID_total e t c subj sid st :
  broker_ok (s_broker st) →
  ∃ st' scan, runScanWithID e t c subj sid st = Some (st', scan) ∧ broker_ok (s_broker st').
Proof.
  intros Hb. unfold runScanWithID.
  destruct (publish_ok t (mkEvent "scan_started" c sid fzero "") st Hb) as (st1 & -> & Hb1). cbn [mbind option_bind].
  destruct (publish_ok t (mkEvent "scan_progress" c sid half "") st1 Hb1) as (st2 & -> & Hb2). cbn [mbind option_bind].
  destruct (runScanner e st2 c) as [rep|er].
  - destruct (RecordScan t c sid rep (now e 1) (s_store st2)) as [m scan].
    match goal with |- context [publish t ?ev ?s] =>
      destruct (publish_ok t ev s Hb2) as (st3 & -> & Hb3) end. cbn [mbind option_bind].
    match goal with |- context [publish t ?ev ?s] =>
      destruct (publish_ok t ev s Hb3) as (st4 & -> & Hb4) end. cbn [mbind option_bind]. eauto.
  - destruct (publish_ok t (mkEvent "scan_completed" c sid fzero "failed") st2 Hb2) as (st3 & -> & Hb3).
    cbn [mbind option_bind]. eauto.
Qed.

Lemma acts_ok ts st st' :
  acts ts st st' → reachable (s_store st) → rows_ok (s_store st) → reachable (s_store st') ∧ rows_ok (s_store st').
Proof.
  intros [(ops & -> & Hops) _] Hr Hm. apply run_ops_preserve; [|done].
  eapply Forall_impl; [exact Hops|]. by intros o [_ ?].
Qed.

Lemma runScanWithID_ok a e t c subj sid st st' scan :
  state_ok a st → runScanWithID e t c subj sid st = Some (st', scan) → state_ok a st'.
Proof.
  intros [H1 H2 H3 H4] H. pose proof (runScanWithID_acts _ _ _ _ _ _ _ _ H) as Hacts.
  destruct (acts_ok _ _ _ Hacts H1 H2) as [H1' H2'].
  destruct (runScanWithID_total e t c subj sid st H3) as (st0 & scan0 & H0 & Hb).
  assert (st0 = st') as -> by congruence.
  apply runScanWithID_fields in H as (_ & Hj & _). split; [done..|]. by rewrite Hj.
Qed.

(** The broker and the queue: only scans publish, only the trigger queues. *)
Lemma handle_other a e p r st st' resp :
  (∀ b, r ≠ PostScans b) → handle a e p r st = Some (st', resp) →
  s_broker st' = s_broker st ∧ s_jobs st' = s_jobs st.
Proof.
  intros Hr H. destruct r; try (by destruct (Hr b)); cbn [handle] in H;
    unfold handleClusters, handleRegisterCluster, handleDeleteCluster, handleListScans, handleFindings,
      handlePosture, handleAttackPaths, handleHistory, handleReport, handleAudit, handleListLifecycle, handleSetState,
      handleCreateWaiver, handleDeleteWaiver, handleProvisionTenant, handleDeleteTenant in H;
    handler_cases H; split; reflexivity.
Qed.

Lemma handle_ok a e p r st st' resp :
  state_ok a st → handle a e p r st = Some (st', resp) → state_ok a st'.
Proof.
  intros Hok H. pose proof Hok as [H1 H2 H3 H4].
  destruct (acts_ok _ _ _ (handle_acts a e p r st st' resp H1 H2 H) H1 H2) as [H1' H2'].
  assert ((∀ b, r ≠ PostScans b) ∨ ∃ b, r = PostScans b) as [Hr|[b ->]] by (destruct r; eauto; by left).
  - destruct (handle_other _ _ _ _ _ _ _ Hr H) as [Hb Hj]. split; [done..|by rewrite Hb|by rewrite Hj].
  - cbn [handle] in H. unfold handleTriggerScan in H. handler_cases H; try done.
    + unfold enqueue in *. case_match; simplify_eq. done.
    + unfold enqueue in *. case_match; simplify_eq. split; [done..|]. cbn [s_jobs].
      match goal with E : a_queue a = _ |- _ => rewrite E end. intros q [= <-]. rewrite length_app. simpl. match goal with E : Nat.ltb _ _ = true |- _ => apply Nat.ltb_lt in E end. lia.
    + match goal with Hx : RunScan _ _ _ _ _ = Some ?x |- _ => destruct x; by eapply runScanWithID_ok end.
Qed.

Lemma require_fields e p g st st' resp :
  require e p g st = Some (st', resp) →
  rs_code resp = 403%Z ∧ ∃ action, g ≠ Anyone ∧
    st' = audit (mkAuditEntry (now e 0) (p_Subject p) (p_Tenant p) action "" "denied") st.
Proof.
  destruct g as [|role action|action]; simpl; [done| |].
  - destruct (_ <? _)%Z; [|done]. intros [= <- <-]. eauto.
  - destruct (negb _); [|done]. intros [= <- <-]. eauto.
Qed.

(** The stages of a request. *)
Lemma serve_cases a e rq st st' resp :
  serve a e rq st = Some (st', resp) →
  (st' = st ∧ (rs_code resp = 413 ∨ rs_code resp = 401 ∧ a_auth a (rq_authorization rq) = None ∨
               rs_code resp = 403 ∨ rs_code resp = 429)%Z) ∨
  ∃ p, a_auth a (rq_authorization rq) = Some p ∧
    (require e p (route_guard a (rq_route rq)) st = Some (st', resp) ∨
     require e p (route_guard a (rq_route rq)) st = None ∧ handle a e p (rq_route rq) st = Some (st', resp)).
Proof.
  unfold serve. destruct (_ <? _)%Z; [intros [= <- <-]; left; simpl; by auto|].
  destruct (a_auth a _) as [p|] eqn:Ea; [|intros [= <- <-]; left; simpl; by auto].
  destruct (csrf_rejects a rq); [intros [= <- <-]; left; simpl; by auto 6|].
  destruct (a_rateLimited a && negb (e_allow e (p_Tenant p))); [intros [= <- <-]; left; simpl; by auto 6|].
  destruct (require _ _ _ _) as [[st1 r1]|] eqn:E; [intros [= <- <-]|intros H]; right; exists p; by auto.
Qed.

Lemma audit_ok a ae st : state_ok a st → state_ok a (audit ae st).
Proof. by intros [H1 H2 H3 H4]. Qed.

Lemma served_ok a st : served a st → state_ok a st.
Proof.
  induction 1 as [|st t src c H IH|e rq st st' resp H IH Hs|e st st' r H IH Hs|e t c subj st st' scan H IH Hs
    |t st H IH|s b st H IH Hs|s ev b st H IH Hs].
  - apply initial_ok.
  - destruct IH as [H1 H2 H3 H4]. split; [|by apply (apply_op_rows (OpRegister t c))|done|done].
    by apply (reachable_op (OpRegister t c)).
  - apply serve_cases in Hs as [[-> _]|(p & _ & [Hs|[_ Hs]])]; [done| |by eapply handle_ok].
    apply require_fields in Hs as (_ & action & _ & ->). by apply audit_ok.
  - unfold runScanJob in Hs. destruct (s_jobs st) as [|j jobs] eqn:Ej; [by simplify_eq|].
    apply bind_Some in Hs as ([st1 sc] & Hrun & Hs). simplify_eq/=.
    eapply runScanWithID_ok; [|exact Hrun]. destruct IH as [H1 H2 H3 H4]. split; try done. simpl.
    intros q Hq. specialize (H4 q Hq). rewrite Ej in H4. simpl in H4. lia.
  - by eapply runScanWithID_ok.
  - destruct IH as [H1 H2 H3 H4]. split; try done. by apply Subscribe_ok.
  - destruct IH as [H1 H2 H3 H4]. split; try done. by eapply Unsubscribe_ok.
  - destruct IH as [H1 H2 H3 H4]. split; try done. by eapply Receive_ok.
Qed.

(** * Totality of the handlers *)

Lemma overlay_clusters_total m t stored u cids acc :
  store_ok m → is_Some (overlay_clusters m t stored u cids acc).
Proof.
  intros Hm. revert acc. induction cids as [|cid cids IH]; intros acc; simpl; [eauto|].
  destruct (ReportOf_total m t cid Hm) as [rep ->]. cbn [mbind option_bind]. apply IH.
Qed.

Lemma lifecycle_items_total m t cluster u : store_ok m → is_Some (lifecycle_items m t cluster u).
Proof.
  intros Hm. unfold lifecycle_items. destruct (ListClusters_total m t Hm) as (cs & Hcs & _).
  assert (∃ cids, (if cluster <>s "" then Some [cluster] else fmap (map cl_ID) (ListClusters m t)) = Some cids)
    as [cids ->] by (rewrite Hcs; destruct (cluster <>s ""); eauto).
  cbn [mbind option_bind].
  destruct (overlay_clusters_total m t (indexed (ListLifecycle m t cluster)) u cids
    ([], ∅) Hm) as [[items seen] ->]. cbn [mbind option_bind]. eauto.
Qed.

Lemma loadOrInit_total m t key fs : store_ok m → is_Some (loadOrInitLifecycle m t key fs).
Proof.
  intros Hm. unfold loadOrInitLifecycle. destruct (GetLifecycle m t key); [eauto|].
  destruct (ListClusters_total m t Hm) as (cs & -> & _). cbn [mbind option_bind].
  induction (map cl_ID cs) as [|cid cids IH]; simpl; [eauto|].
  destruct (ReportOf_total m t cid Hm) as [rep ->]. cbn [mbind option_bind].
  by destruct (match rep with None => None | Some rep => _ end); eauto.
Qed.

(** Follows a handler to its result, discharging the partial calls. *)
Ltac total_cases :=
  repeat lazymatch goal with
    | |- is_Some (Some _) => eexists; reflexivity
    | |- is_Some (match ?x with _ => _ end) => destruct x
    end.

Lemma handle_total a e p r st :
  state_ok a st →
  is_Some (handle a e p r st) ∨
  ∃ get, (r = GetScans get ∨ r = GetFindings get) ∧
    (queryInt get "offset" 0 < 0 ∨ 0 < queryInt get "limit" 50 ∧
     2 ^ 63 <= queryInt get "offset" 0 + queryInt get "limit" 50)%Z.
Proof.
  intros [H1 H2 H3 H4]. pose proof (reachable_ok _ H1) as Hm.
  destruct r as [|b|id|get|b|get|get|get|get|get| |get|key b|key b|key|b|t]; cbn [handle].
  - left. unfold handleClusters. destruct (ListClusters_total _ (p_Tenant p) Hm) as (cs & -> & _).
    cbn [mbind option_bind]. eauto.
  - left. unfold handleRegisterCluster. total_cases.
  - left. unfold handleDeleteCluster. total_cases.
  - unfold handleListScans.
    destruct (ListScans_total (s_store st) (p_Tenant p) (get "cluster") (queryInt get "limit" 50)
                (queryInt get "offset" 0) Hm) as [all [-> | ->]]; [|left; cbn [mbind option_bind]; eauto].
    destruct (page all _ _) as [pg|] eqn:E; [left; cbn [mbind option_bind]; eauto|]. right. exists get. split; [auto|].
    apply page_None in E; [|by apply queryInt_range..]. lia.
  - left. unfold handleTriggerScan. total_cases.
    destruct (runScanWithID_total e (p_Tenant p) s (p_Subject p) (e_newID e) st H3) as (st' & scan & H & _).
    unfold RunScan. rewrite H. cbn [mbind option_bind]. eauto.
  - unfold handleFindings. destruct (ReportOf_total (s_store st) (p_Tenant p) (get "cluster") Hm) as [rep ->].
    cbn [mbind option_bind]. destruct rep as [rep|]; [|left; eauto].
    unfold findings_page, paginate. set (q := parseFindingQuery get).
    destruct (page _ (q_limit q) (q_offset q)) as [pg|] eqn:E; [left; cbn [mbind option_bind]; eauto|].
    right. exists get. split; [auto|].
    apply page_None in E; [|by apply queryInt_range..]. unfold q in E. cbn [q_limit q_offset parseFindingQuery] in E. lia.
  - left. unfold handlePosture. destruct (ReportOf_total (s_store st) (p_Tenant p) (get "cluster") Hm) as [rep ->].
    cbn [mbind option_bind]. eauto.
  - left. unfold handleAttackPaths. destruct (ReportOf_total (s_store st) (p_Tenant p) (get "cluster") Hm) as [rep ->].
    cbn [mbind option_bind]. eauto.
  - left. unfold handleHistory. destruct (History_total (s_store st) (p_Tenant p) (get "cluster") Hm) as [rep ->].
    cbn [mbind option_bind]. eauto.
  - left. unfold handleReport. destruct (ReportOf_total (s_store st) (p_Tenant p) (get "cluster") Hm) as [rep ->].
    cbn [mbind option_bind]. total_cases.
  - left. unfold handleAudit. eauto.
  - left. unfold handleListLifecycle.
    destruct (lifecycle_items_total (s_store st) (p_Tenant p) (get "cluster") (e_clock e 0) Hm) as [items ->].
    cbn [mbind option_bind]. eauto.
  - left. unfold handleSetState. total_cases.
    destruct (loadOrInit_total (s_store st) (p_Tenant p) key (now e 0) Hm) as [lc ->]. cbn [mbind option_bind].
    destruct lc; total_cases.
  - left. unfold handleCreateWaiver. total_cases.
    destruct (loadOrInit_total (s_store st) (p_Tenant p) key (now e 1) Hm) as [lc ->]. cbn [mbind option_bind].
    destruct lc; total_cases.
  - left. unfold handleDeleteWaiver. total_cases.
  - left. unfold handleProvisionTenant. total_cases.
  - left. unfold handleDeleteTenant. total_cases.
Qed.

(** * A concrete deployment, for the witnesses *)

Definition demo_finding : Finding :=
  mkFinding "KG-001" "Privileged container" "critical" "Workload" (mkResourceRef "Deployment" "shop" "web") []
    (mkRemediation "" "") [] [].
Definition demo_report : Report := mkReport "" "" "" [demo_finding] [] zero_posture [] None None.

(** The clock starts at 2026-02-28T20:00:00Z and advances a second per reading; the scanner finds
    [demo_finding] in every registered cluster. *)
Definition demo_env : env :=
  mkEnv (λ i, ((1772308800 + Z.of_nat i) * second)%Z) "scan-1"
    (λ src i cid, match source src cid with Some _ => Ok demo_report | None => Err "unknown cluster" end)
    (λ _, None) (λ _, true) (λ _, None) (λ _, Ok "sarif") (λ _, Ok "pdf").

Definition demo_admin : Principal := mkPrincipal "ann" "a" RoleAdmin false.
Definition demo_auth : Authenticator :=
  StaticAuth (<["tok-a" := demo_admin]> (<["tok-b" := mkPrincipal "bob" "b" RoleAdmin false]> ∅)).
Definition demo_api : API := New demo_auth true true 0 0 false [] 0 (mkLifecycleConfig "" 0) "".

Definition demo_request (tok : string) (r : route) : request := mkRequest ("Bearer " +:+ tok) "" 0 r.

(** Serving a list of requests; a panic is answered and leaves the state as it was. *)
Definition serve_all (a : API) (e : env) (rqs : list request) (st : state) : state :=
  foldl (λ st rq, match serve a e rq st with Some (st', _) => st' | None => st end) st rqs.

Lemma serve_all_served a e rqs st : served a st → served a (serve_all a e rqs st).
Proof.
  unfold serve_all. revert st. induction rqs as [|rq rqs IH]; intros st H; simpl; [done|].
  apply IH. destruct (serve a e rq st) as [[st' resp]|] eqn:E; [|done]. by eapply served_request.
Qed.

Definition register_json : json :=
  JObj [("id", JStr "prod"); ("name", JStr "Prod"); ("source", JStr "live:prod")].
Definition scan_json : json := JObj [("clusterId", JStr "prod")].
Definition demo_key : string := LifecycleKey "prod" demo_finding.

(** Tenant a registers a live cluster and scans it. *)
Definition demo_state : state :=
  serve_all demo_api demo_env
    [demo_request "tok-a" (PostClusters (Some register_json)); demo_request "tok-a" (PostScans (Some scan_json))]
    initial.

Lemma demo_served : served demo_api demo_state.
Proof. apply serve_all_served, served_initial. Qed.

(** * Properties *)

(** C8: The service fails closed: a request can change clusters, scans, triage, sources or the scan
    queue only if its caller authenticated and holds the route's authority (analyst to scan and
    triage, admin for clusters and erasure, the approver role for waivers, operator for
    provisioning); reading routes change none of them, for any caller. *)
Theorem serve_authorised a e rq st st' resp :
  serve a e rq st = Some (st', resp) →
  s_store st' ≠ s_store st ∨ s_sources st' ≠ s_sources st ∨ s_jobs st' ≠ s_jobs st →
  ∃ p, a_auth a (rq_authorization rq) = Some p ∧
    match rq_route rq with
    | PostClusters _ | DeleteClusters _ | DeleteTenants _ => p_Role p = RoleAdmin
    | PostScans _ | PostState _ _ => p_Role p = RoleAnalyst ∨ p_Role p = RoleAdmin
    | PostWaiver _ _ | DeleteWaiver _ => (roleRank (WaiverApproverRole (a_life a)) <= roleRank (p_Role p))%Z
    | PostTenants _ => p_SuperAdmin p = true
    | _ => False
    end.
Proof.
  assert (∀ r, (roleRank r <? 3)%Z = false → r = RoleAdmin) as Hadmin.
  { intros r. unfold roleRank. repeat case_str; done. }
  assert (∀ r, (roleRank r <? 2)%Z = false → r = RoleAnalyst ∨ r = RoleAdmin) as Hanalyst.
  { intros r. unfold roleRank. repeat case_str; subst; auto; done. }
  assert (∀ s : state, ¬ (s_store s ≠ s_store s ∨ s_sources s ≠ s_sources s ∨ s_jobs s ≠ s_jobs s)) as Hno
    by (intros s [[]|[[]|[]]]; reflexivity).
  intros [[-> _]|(p & Hp & [Hreq|[Hreq H]])]%serve_cases Hch; [destruct (Hno _ Hch)| |].
  - apply require_fields in Hreq as (_ & action & _ & ->). destruct (Hno st Hch).
  - exists p. split; [done|].
    destruct (rq_route rq); cbn [route_guard require handle] in Hreq, H;
      try (unfold handleClusters, handleListScans, handleFindings, handlePosture, handleAttackPaths,
           handleHistory, handleReport, handleAudit, handleListLifecycle in H; handler_cases H; destruct (Hno _ Hch));
      match type of Hreq with context [if ?b then _ else _] => destruct b eqn:Hb; [discriminate|] end.
    + by apply Hadmin.
    + by apply Hadmin.
    + by apply Hanalyst.
    + by apply Hanalyst.
    + by apply Z.ltb_ge.
    + by apply Z.ltb_ge.
    + by apply negb_false_iff.
    + by apply Hadmin.
Qed.

Lemma serve_authorised_witness :
  let rq := demo_request "tok-a" (PostClusters (Some register_json)) in
  ∃ st' resp, serve demo_api demo_env rq initial = Some (st', resp) ∧ rs_code resp = 201%Z ∧
    ∃ p, demo_auth (rq_authorization rq) = Some p ∧ p_Role p = RoleAdmin.
Proof.
  intros rq. eexists _, _. split; [reflexivity|]. split; [reflexivity|].
  eapply (serve_authorised demo_api demo_env rq initial); [reflexivity|].
  right. left. intros H. apply (f_equal (λ m, m !! "prod")) in H. vm_compute in H. discriminate H.
Defined.

(** C7: One tenant's requests cannot reach another's data: whatever a caller sends, every query and
    the audit log of any other tenant answer as before, unless the caller is an operator acting on
    that tenant through the provisioning or erasure route. *)
Theorem serve_isolation a e rq st st' resp t :
  served a st →
  serve a e rq st = Some (st', resp) →
  (∀ p, a_auth a (rq_authorization rq) = Some p → t ≠ p_Tenant p ∧
     (p_SuperAdmin p = true →
        (∀ b, rq_route rq ≠ PostTenants b) ∧ rq_route rq ≠ DeleteTenants t)) →
  ListClusters (s_store st') t = ListClusters (s_store st) t ∧
  (∀ id, GetCluster (s_store st') t id = GetCluster (s_store st) t id) ∧
  (∀ id l o, ListScans (s_store st') t id l o = ListScans (s_store st) t id l o) ∧
  (∀ id, ReportOf (s_store st') t id = ReportOf (s_store st) t id) ∧
  (∀ id, History (s_store st') t id = History (s_store st) t id) ∧
  (∀ key, GetLifecycle (s_store st') t key = GetLifecycle (s_store st) t key) ∧
  (∀ id, ListLifecycle (s_store st') t id = ListLifecycle (s_store st) t id) ∧
  AuditList (s_audit st') t = AuditList (s_audit st) t.
Proof.
  intros Hst Hs Hp. apply served_ok in Hst as [H1 H2 _ _].
  assert (view t (s_store st') = view t (s_store st) ∧ AuditList (s_audit st') t = AuditList (s_audit st) t)
    as [Hv Ha].
  2: { apply queries_of_view in Hv as (? & ? & ? & ? & ? & ? & ?). done. }
  apply serve_cases in Hs as [[-> _]|(p & Hauth & [Hreq|[Hreq H]])]; [done| |];
    destruct (Hp p Hauth) as [Hne Hsup].
  - apply require_fields in Hreq as (_ & action & _ & ->). split; [done|].
    cbn [s_audit audit]. rewrite AuditList_write. cbn [ae_Tenant]. by case_str.
  - destruct (handle_acts a e p _ _ _ _ H1 H2 H) as [(ops & Hops & Hall) Haud].
    assert (¬ scope p (rq_route rq) t) as Hno.
    { intros [->|Hr]; [done|]. destruct (rq_route rq) eqn:Er; try done.
      - cbn in Hreq. destruct (p_SuperAdmin p); [|done]. by destruct (proj1 (Hsup eq_refl) b).
      - destruct Hr as [Hr ->]. by destruct (proj2 (Hsup Hr)). }
    split; [|by apply Haud]. rewrite Hops. apply run_ops_view.
    eapply Forall_impl; [exact Hall|]. intros o [Ho _] <-. done.
Qed.

Lemma serve_isolation_witness :
  let rq := demo_request "tok-b" (DeleteTenants "a") in
  ∃ st' resp, serve demo_api demo_env rq demo_state = Some (st', resp) ∧ rs_code resp = 403%Z ∧
    ReportOf (s_store st') "a" "prod" = Some (Some demo_report).
Proof.
  intros rq. destruct (serve demo_api demo_env rq demo_state) as [[st' resp]|] eqn:E; [|vm_compute in E; discriminate E].
  assert (rs_code resp = 403%Z) as Hc.
  { apply (f_equal (fmap (M := option) (λ r, rs_code r.2))) in E. vm_compute in E. injection E as E. exact (eq_sym E). }
  destruct (serve_isolation demo_api demo_env rq demo_state st' resp "a" demo_served E) as (_ & _ & _ & H & _).
  - intros p Hp. vm_compute in Hp. injection Hp as <-. split; [discriminate|intros H; discriminate H].
  - exists st', resp. split; [reflexivity|]. split; [exact Hc|]. rewrite H. vm_compute. reflexivity.
Defined.

(** C9: In every state the service reaches, a request is answered: no handler follows a nil pointer
    or sends on a closed channel.  The one exception is a page of scans or findings whose offset is
    negative, or whose offset plus limit overflows, which panics in the slice expression. *)
Theorem serve_total a e rq st :
  served a st →
  serve a e rq st = None →
  ∃ get, (rq_route rq = GetScans get ∨ rq_route rq = GetFindings get) ∧
    (queryInt get "offset" 0 < 0 ∨ 0 < queryInt get "limit" 50 ∧
     2 ^ 63 <= queryInt get "offset" 0 + queryInt get "limit" 50)%Z.
Proof.
  intros Hst%served_ok. unfold serve. destruct (_ <? _)%Z; [done|].
  destruct (a_auth a _) as [p|]; [|done]. destruct (csrf_rejects a rq); [done|].
  destruct (a_rateLimited a && negb (e_allow e (p_Tenant p))); [done|].
  destruct (require _ _ _ _); [done|]. intros H.
  destruct (handle_total a e p (rq_route rq) st Hst) as [[x Hx]|Hex]; [congruence|done].
Qed.

Lemma serve_total_witness :
  ∃ get, serve demo_api demo_env (demo_request "tok-a" (GetScans get)) demo_state = None ∧
    (queryInt get "offset" 0 < 0 ∨ 0 < queryInt get "limit" 50 ∧
     2 ^ 63 <= queryInt get "offset" 0 + queryInt get "limit" 50)%Z.
Proof.
  set (get := λ k, if k =s "offset" then "-1" else ""). exists get.
  assert (serve demo_api demo_env (demo_request "tok-a" (GetScans get)) demo_state = None) as H
    by (vm_compute; reflexivity).
  split; [exact H|].
  destruct (serve_total demo_api demo_env (demo_request "tok-a" (GetScans get)) demo_state demo_served H)
    as (get' & [Hg|Hg] & Hp); [|discriminate Hg].
  injection Hg as <-. exact Hp.
Defined.

(** C10: The triage state is consistent in every state the service reaches: each row is stored under
    the identity of its finding, is in one of the five states, is risk-accepted exactly while it
    carries a waiver, which has a justification, and has a resolution time only when resolved. *)
Theorem lifecycle_rows_consistent a st t key lc :
  served a st →
  GetLifecycle (s_store st) t key = Some lc →
  lc_Key lc = key ∧
  (∀ f, f_ID f = lc_FindingID lc → f_Resource f = lc_Resource lc → LifecycleKey (lc_ClusterID lc) f = key) ∧
  lc_State lc ∈ [StateOpen; StateAcknowledged; StateInProgress; StateResolved; StateRiskAccepted] ∧
  (lc_State lc = StateRiskAccepted ↔ is_Some (lc_Waiver lc)) ∧
  (∀ w, lc_Waiver lc = Some w → lw_Justification w ≠ "") ∧
  (lc_ResolvedAt lc ≠ "" → lc_State lc = StateResolved).
Proof.
  intros Hst%served_ok Hlc. pose proof (st_rows a st Hst t key lc Hlc) as [H1 H2 H3 H4 H5].
  pose proof (so_rows _ (reachable_ok _ (st_store a st Hst)) t key lc Hlc) as Hk.
  rewrite Hk in H5. repeat (split; [done|]). split; [|done].
  unfold triageStates in H1. set_solver.
Qed.

Lemma lifecycle_rows_consistent_witness :
  ∃ lc, GetLifecycle (s_store demo_state) "a" demo_key = Some lc ∧ lc_Key lc = demo_key.
Proof.
  destruct (GetLifecycle (s_store demo_state) "a" demo_key) as [lc|] eqn:E; [|vm_compute in E; discriminate E].
  exists lc. split; [reflexivity|].
  apply (lifecycle_rows_consistent demo_api demo_state "a" demo_key lc demo_served E).
Defined.

(** C11: A waiver is granted only as policy allows, and holds exactly as long as it says: the request
    succeeds only with a justification and an expiry in the future within the configured maximum,
    the row is then risk-accepted under a waiver that records the approver, and the finding counts as
    waived until the expiry (to the second) and never after; any other outcome changes nothing. *)
Theorem waiver_granted a e p key b st st' resp :
  served a st →
  handleCreateWaiver a e p key b st = Some (st', resp) →
  if (rs_code resp =? 200)%Z then
    ∃ justification expiresAt exp lc,
      decode_body ("", "") waiver_fields b = Some (justification, expiresAt) ∧
      justification ≠ "" ∧ parse_rfc3339 expiresAt = Some exp ∧
      (e_clock e 0 < exp <= e_clock e 0 + MaxWaiverDuration (a_life a))%Z ∧
      rs_body resp = BLifecycle lc ∧ GetLifecycle (s_store st') (p_Tenant p) key = Some lc ∧
      lc_State lc = StateRiskAccepted ∧
      lc_Waiver lc = Some (mkLWaiver justification (p_Subject p) (now e 2) (format_rfc3339 exp)) ∧
      ((0 <= year_of exp <= 9999)%Z →
       ∀ u, IsActivelyWaived lc u = true ↔ (u < exp / second * second)%Z)
  else st' = st ∧ (rs_code resp = 400 ∨ rs_code resp = 404)%Z.
Proof.
  intros Hst%served_ok H. unfold handleCreateWaiver in H. handler_cases H; cbn [rs_code error];
    try (split; [done|]; by auto).
  change (200 =? 200)%Z with true. cbn iota.
  match goal with E : loadOrInitLifecycle _ _ _ _ = _ |- _ =>
    apply loadOrInit_ok in E as [_ Hkey]; [|apply Hst..] end.
  match goal with E : ?x = (_, _) |- _ => is_var x; subst x end.
  match goal with E : parse_rfc3339 ?s = Some ?z, Ej : (?j =s "") = false |- _ =>
    exists j, s, z; eexists; split; [reflexivity|]; split; [by apply String.eqb_neq|]; split; [exact E|] end.
  unfold After in *. split; [boolify; lia|]. split; [reflexivity|]. split.
  { unfold GetLifecycle, UpsertLifecycle. cbn [s_store audit set_store]. rewrite rows_of_put_rows, String.eqb_refl.
    cbn [lc_Key]. rewrite Hkey. apply lookup_insert_eq. }
  split; [done|]. split; [done|]. intros Hyear u. unfold IsActivelyWaived. cbn [lc_State lc_Waiver].
  rewrite String.eqb_refl. cbn [andb]. rewrite Active_spec. cbn [lw_ExpiresAt]. split.
  - intros (lw & exp & [= <-] & He & Hlt). cbn [lw_ExpiresAt] in He. rewrite parse_format in He by done.
    injection He as <-. done.
  - intros Hlt. eexists _, _. split; [done|]. cbn [lw_ExpiresAt]. rewrite parse_format by done. done.
Qed.

Definition waiver_json : json :=
  JObj [("justification", JStr "legacy node agent"); ("expiresAt", JStr "2026-03-31T00:00:00Z")].

Lemma waiver_granted_witness :
  ∃ st' resp lc,
    handleCreateWaiver demo_api demo_env demo_admin demo_key (Some waiver_json) demo_state = Some (st', resp) ∧
    rs_code resp = 200%Z ∧ GetLifecycle (s_store st') "a" demo_key = Some lc ∧ lc_State lc = StateRiskAccepted.
Proof.
  destruct (handleCreateWaiver demo_api demo_env demo_admin demo_key (Some waiver_json) demo_state)
    as [[st' resp]|] eqn:E; [|vm_compute in E; discriminate E].
  assert (rs_code resp = 200%Z) as Hc.
  { apply (f_equal (fmap (M := option) (λ r, rs_code r.2))) in E. vm_compute in E. injection E as E. exact (eq_sym E). }
  pose proof (waiver_granted _ _ _ _ _ _ _ _ demo_served E) as H. rewrite Hc in H.
  destruct H as (_ & _ & _ & lc & _ & _ & _ & _ & _ & Hg & Hs & _).
  exists st', resp, lc. split; [reflexivity|]. split; [exact Hc|]. split; [exact Hg|exact Hs].
Defined.

(** An analyst can lift what an approver granted: setting a triage state replaces the row's state,
    drops its waiver whoever approved it, and dates the resolution exactly for the resolved state; so a
    finding under an active waiver blocks again after an analyst's request, although creating and
    deleting a waiver are reserved to the approver role. *)
Theorem triage_drops_waiver a e p key b st st' resp :
  served a st →
  handleSetState e p key b st = Some (st', resp) →
  if (rs_code resp =? 200)%Z then
    ∃ newState assignee lc,
      decode_body ("", "") state_fields b = Some (newState, assignee) ∧
      newState ∈ [StateOpen; StateAcknowledged; StateInProgress; StateResolved] ∧
      rs_body resp = BLifecycle lc ∧ GetLifecycle (s_store st') (p_Tenant p) key = Some lc ∧
      lc_State lc = newState ∧ lc_Waiver lc = None ∧
      lc_ResolvedAt lc = (if newState =s StateResolved then now e 1 else "") ∧
      (∀ u, IsActivelyWaived lc u = false)
  else st' = st ∧ (rs_code resp = 400 ∨ rs_code resp = 404)%Z.
Proof.
  intros Hst%served_ok H. unfold handleSetState in H. handler_cases H; cbn [rs_code error];
    try (split; [done|]; by auto).
  change (200 =? 200)%Z with true. cbn iota.
  match goal with E : ?x = (_, _) |- _ => is_var x; subst x end.
  match goal with E : loadOrInitLifecycle _ _ _ _ = _ |- _ =>
    apply loadOrInit_ok in E as [_ Hkey]; [|apply Hst..] end.
  match goal with E : negb (mem_str ?s _) = false |- _ =>
    apply negb_false_iff, triage_states in E as [Hin Hne]; exists s end.
  eexists _, _. split; [reflexivity|]. split; [exact Hin|]. split; [reflexivity|]. split.
  { unfold GetLifecycle, UpsertLifecycle. cbn [s_store audit set_store]. rewrite rows_of_put_rows, String.eqb_refl.
    cbn [lc_Key]. rewrite Hkey. apply lookup_insert_eq. }
  cbn [lc_State lc_Waiver lc_ResolvedAt]. repeat (split; [done|]). intros u. unfold IsActivelyWaived.
  cbn [lc_State lc_Waiver Active]. apply andb_false_r.
Qed.

(** The row of the demo deployment after an approver's waiver. *)
Definition waived_state : state :=
  serve_all demo_api demo_env [demo_request "tok-a" (PostWaiver demo_key (Some waiver_json))] demo_state.

Definition demo_analyst : Principal := mkPrincipal "eve" "a" RoleAnalyst false.

Lemma triage_drops_waiver_witness :
  (λ lc, IsActivelyWaived lc (1772308800 * second)%Z) <$> GetLifecycle (s_store waived_state) "a" demo_key = Some true ∧
  ∃ st' resp lc,
    handleSetState demo_env demo_analyst demo_key (Some (JObj [("state", JStr "open")])) waived_state = Some (st', resp) ∧
    GetLifecycle (s_store st') "a" demo_key = Some lc ∧ ∀ u, IsActivelyWaived lc u = false.
Proof.
  split; [vm_compute; reflexivity|].
  assert (served demo_api waived_state) as Hs by (apply serve_all_served, demo_served).
  destruct (handleSetState demo_env demo_analyst demo_key (Some (JObj [("state", JStr "open")])) waived_state)
    as [[st' resp]|] eqn:E; [|vm_compute in E; discriminate E].
  assert (rs_code resp = 200%Z) as Hc.
  { apply (f_equal (fmap (M := option) (λ r, rs_code r.2))) in E. vm_compute in E. injection E as E. exact (eq_sym E). }
  pose proof (triage_drops_waiver _ _ _ _ _ _ _ _ Hs E) as H. rewrite Hc in H.
  destruct H as (_ & _ & lc & _ & _ & _ & Hg & _ & _ & _ & Hw).
  exists st', resp, lc. split; [reflexivity|]. split; [exact Hg|exact Hw].
Defined.

(** C16: Privileged actions leave a trace: a successful write is recorded in the caller's tenant, in one
    appended entry with the caller's name; a queued scan is carried out under the caller's name; and
    only the erasure of the caller's own tenant leaves no record there, since it purges the log it
    has just written to. *)
Theorem serve_audited a e rq st st' resp p :
  a_auth a (rq_authorization rq) = Some p →
  serve a e rq st = Some (st', resp) →
  unsafe (rq_route rq) = true → (rs_code resp < 300)%Z →
  (∃ ae, AuditList (s_audit st') (p_Tenant p) = AuditList (s_audit st) (p_Tenant p) ++ [ae] ∧
     ae_Subject ae = p_Subject p ∧ ae_Tenant ae = p_Tenant p ∧
     (ae_Result ae = "allowed" ∨ ae_Result ae = "failed" ∧ ae_Action ae = "scan.trigger")) ∨
  (∃ b j, rq_route rq = PostScans b ∧ s_jobs st' = s_jobs st ++ [j] ∧
     j_tenant j = p_Tenant p ∧ j_subject j = p_Subject p ∧ s_audit st' = s_audit st) ∨
  (rq_route rq = DeleteTenants (p_Tenant p) ∧ AuditList (s_audit st') (p_Tenant p) = []).
Proof.
  intros Hp Hs Hu Hcode. apply serve_cases in Hs as [[_ H]|(p' & Hp' & [Hreq|[_ H]])]; [lia| |].
  { apply require_fields in Hreq as [H _]. lia. }
  assert (p' = p) as -> by congruence. clear Hp'.
  assert (∀ ae st0, s_audit st0 = AuditWrite ae (s_audit st) → ae_Tenant ae = p_Tenant p →
    AuditList (s_audit st0) (p_Tenant p) = AuditList (s_audit st) (p_Tenant p) ++ [ae]) as Happ.
  { intros ae st0 -> Ht. by rewrite AuditList_write, Ht, String.eqb_refl. }
  destruct (rq_route rq) as [|b|id|get|b|get|get|get|get|get| |get|key b|key b|key|b|t] eqn:Er; try discriminate Hu;
    cbn [handle] in H.
  - left. unfold handleRegisterCluster in H. handler_cases H; cbn [rs_code error] in Hcode; try lia.
    eexists. split; [by apply Happ|]. cbn. auto.
  - left. unfold handleDeleteCluster in H. handler_cases H; cbn [rs_code error] in Hcode; try lia.
    eexists. split; [by apply Happ|]. cbn. auto.
  - unfold handleTriggerScan in H. handler_cases H; cbn [rs_code error] in Hcode; try lia.
    + right; left. unfold enqueue in *. case_match; simplify_eq. eexists b, _. split; [done|].
      split; [reflexivity|]. done.
    + left. destruct x as [st1 scan]. apply runScanWithID_fields in Hx as (_ & _ & Hx).
      destruct (runScanner e st s) as [rep|er]; destruct Hx as (_ & _ & Hx).
      * eexists. split; [by apply Happ|]. cbn. auto.
      * eexists. split; [by apply Happ|]. cbn. auto.
  - left. unfold handleSetState in H. handler_cases H; cbn [rs_code error] in Hcode; try lia.
    eexists. split; [by apply Happ|]. cbn. auto.
  - left. unfold handleCreateWaiver in H. handler_cases H; cbn [rs_code error] in Hcode; try lia.
    eexists. split; [by apply Happ|]. cbn. auto.
  - left. unfold handleDeleteWaiver in H. handler_cases H; cbn [rs_code error] in Hcode; try lia.
    eexists. split; [by apply Happ|]. cbn. auto.
  - left. unfold handleProvisionTenant in H. handler_cases H; cbn [rs_code error] in Hcode; try lia.
    eexists. split; [by apply Happ|]. cbn. auto.
  - unfold handleDeleteTenant in H. handler_cases H; cbn [rs_code error] in Hcode; try lia.
    cbn [s_audit audit set_store]. rewrite AuditList_purge.
    destruct (String.eqb_spec t (p_Tenant p)) as [->|]; [by right; right|]. left.
    eexists. split; [by rewrite AuditList_write; cbn [ae_Tenant]; rewrite String.eqb_refl|]. cbn. auto.
Qed.

Lemma serve_audited_witness :
  let rq := demo_request "tok-a" (DeleteTenants "a") in
  ∃ st' resp, serve demo_api demo_env rq demo_state = Some (st', resp) ∧ rs_code resp = 204%Z ∧
    (AuditList (s_audit st') "a" = [] ∨ ∃ ae, AuditList (s_audit st') "a" = AuditList (s_audit demo_state) "a" ++ [ae]).
Proof.
  intros rq. destruct (serve demo_api demo_env rq demo_state) as [[st' resp]|] eqn:E; [|vm_compute in E; discriminate E].
  assert (rs_code resp = 204%Z) as Hc.
  { apply (f_equal (fmap (M := option) (λ r, rs_code r.2))) in E. vm_compute in E. injection E as E. exact (eq_sym E). }
  exists st', resp. split; [reflexivity|]. split; [exact Hc|].
  destruct (serve_audited demo_api demo_env rq demo_state st' resp demo_admin) as [(ae & H & _)|[(b & j & H & _)|[_ H]]];
    [vm_compute; reflexivity|exact E|reflexivity|rewrite Hc; reflexivity|right; exists ae; exact H|discriminate H|left; exact H].
Defined.

(** The result of the retry loop. *)
Lemma run_attempts_spec scan ctxErr n i err :
  match run_attempts scan ctxErr n i err with
  | Ok rep => ∃ k, i ≤ k < i + n ∧ scan k = Ok rep ∧ ∀ j, i ≤ j < k → (∃ m, scan j = Err m) ∧ ctxErr j = None
  | Err m => ∃ k, i ≤ k ≤ i + n ∧ (∀ j, i ≤ j < k → ∃ m', scan j = Err m') ∧
      (k = i + n ∨ k < i + n ∧ (∃ m', scan k = Err m') ∧ ctxErr k = Some m)
  end.
Proof.
  revert i err. induction n as [|n IH]; intros i err; simpl.
  - exists i. split; [lia|]. split; [lia|]. left. lia.
  - destruct (scan i) as [rep|m] eqn:E.
    + exists i. split; [lia|]. split; [done|]. lia.
    + destruct (ctxErr i) as [ce|] eqn:Ec.
      * exists i. split; [lia|]. split; [lia|]. right. split; [lia|]. eauto.
      * specialize (IH (S i) m). destruct (run_attempts scan ctxErr n (S i) m) as [rep|m'].
        -- destruct IH as (k & Hk & Hs & Hj). exists k. split; [lia|]. split; [done|]. intros j Hij.
           destruct (decide (j = i)) as [->|]; [eauto|apply Hj; lia].
        -- destruct IH as (k & Hk & Hj & Hend). exists k. split; [lia|]. split.
           ++ intros j Hij. destruct (decide (j = i)) as [->|]; [eauto|apply Hj; lia].
           ++ destruct Hend as [->|(? & ? & ?)]; [left; lia|right; split; [lia|done]].
Qed.

(** C15: A scan is all or nothing and always ends: after at most three attempts (fewer when the context
    is done) it returns; on success exactly the first report obtained is recorded and its findings
    tracked, and on failure nothing is stored; either way the outcome is audited under the
    subject. *)
Theorem scan_atomic a e t c subj st :
  served a st →
  ∃ st' scan, RunScan e t c subj st = Some (st', scan) ∧
    s_sources st' = s_sources st ∧ s_jobs st' = s_jobs st ∧
    ((∃ k rep, k < 3 ∧ e_scan e (s_sources st) k c = Ok rep ∧
        (∀ j, j < k → (∃ m, e_scan e (s_sources st) j c = Err m) ∧ e_ctxErr e j = None) ∧
        s_store st' = SeedFindings t c (rep_Findings rep) (now e 2)
                        (fst (RecordScan t c (e_newID e) rep (now e 1) (s_store st))) ∧
        scan = mkScan (e_newID e) c ScanSucceeded (now e 1) (now e 1) (Z.of_nat (length (rep_Findings rep))) ∧
        AuditList (s_audit st') t =
          AuditList (s_audit st) t ++ [mkAuditEntry (now e 4) subj t "scan.trigger" c "allowed"]) ∨
     (∃ k, k ≤ 3 ∧ (∀ j, j < k → ∃ m, e_scan e (s_sources st) j c = Err m) ∧
        (k = 3 ∨ (∃ m, e_scan e (s_sources st) k c = Err m) ∧ is_Some (e_ctxErr e k)) ∧
        s_store st' = s_store st ∧
        scan = mkScan (e_newID e) c ScanFailed "" "" 0 ∧
        AuditList (s_audit st') t =
          AuditList (s_audit st) t ++ [mkAuditEntry (now e 1) subj t "scan.trigger" c "failed"])).
Proof.
  intros Hst%served_ok.
  destruct (runScanWithID_total e t c subj (e_newID e) st (st_broker a st Hst)) as (st' & scan & H & _).
  exists st', scan. split; [exact H|]. apply runScanWithID_fields in H as (Hsrc & Hj & H).
  split; [done|]. split; [done|].
  pose proof (run_attempts_spec (λ i, e_scan e (s_sources st) i c) (e_ctxErr e) attempts 0 "") as Hr.
  fold (runScanner e st c) in Hr. unfold attempts in Hr.
  destruct (runScanner e st c) as [rep|m]; destruct H as (Hs & -> & Ha); rewrite Ha, AuditList_write;
    cbn [ae_Tenant]; rewrite String.eqb_refl.
  - left. destruct Hr as (k & Hk & Hok & Hbefore). exists k, rep. split; [lia|]. split; [done|].
    split; [intros j Hjk; apply Hbefore; lia|]. split; [exact Hs|done].
  - right. destruct Hr as (k & Hk & Hbefore & Hend). exists k. split; [lia|].
    split; [intros j Hjk; apply Hbefore; lia|]. split; [|done].
    destruct Hend as [->|(_ & He & Hc)]; [by left|]. right. by rewrite Hc.
Qed.

Lemma scan_atomic_witness :
  ∃ st' scan, RunScan demo_env "a" "unregistered" "ann" demo_state = Some (st', scan) ∧ sn_Status scan = ScanFailed.
Proof.
  destruct (scan_atomic demo_api demo_env "a" "unregistered" "ann" demo_state demo_served)
    as (st' & scan & H & _ & _ & [(k & rep & _ & Hk & _)|(k & _ & _ & _ & _ & Hs & _)]).
  - vm_compute in Hk. discriminate Hk.
  - exists st', scan. split; [exact H|]. rewrite Hs. reflexivity.
Defined.

(** Sources are shared across tenants: an admin's registration of a cluster id replaces the source
    of every other tenant's cluster of that id, so the next scan of that cluster reads what the admin
    named; and deleting a cluster removes the other tenants' source too, so that their scans
    fail although their cluster is still registered. *)
Theorem sources_shared packs profile breach ld a e p t2 id c2 b st st' resp :
  p_Tenant p ≠ t2 → served a st → GetCluster (s_store st) t2 id = Some c2 →
  (handleRegisterCluster a e p b st = Some (st', resp) → rs_code resp = 201%Z →
   ∀ body, decode_body (mkRegisterBody "" "" "") register_fields b = Some body → rb_ID body = id →
   GetCluster (s_store st') t2 id = Some c2 ∧
   source (s_sources st') id = Some (trim_space (rb_Source body))) ∧
  (handleDeleteCluster a e p id st = Some (st', resp) → rs_code resp = 204%Z →
   GetCluster (s_store st') t2 id = Some c2 ∧
   scanner packs profile breach ld (s_sources st') id = Err ("unknown cluster " +:+ fmt_quote id)).
Proof.
  intros Hne Hst%served_ok Hc2.
  assert (∀ st0, acts (eq (p_Tenant p)) st st0 → GetCluster (s_store st0) t2 id = Some c2) as Hkeep.
  { intros st0 [(ops & Hops & Hall) _].
    assert (view t2 (s_store st0) = view t2 (s_store st)) as Hv.
    { rewrite Hops. apply run_ops_view. eapply Forall_impl; [exact Hall|]. by intros o [<- _]. }
    apply queries_of_view in Hv as (_ & -> & _). done. }
  split.
  - intros H Hcode body Hb Hid. split; [by eapply Hkeep, handleRegisterCluster_acts|].
    unfold handleRegisterCluster in H. rewrite Hb in H. handler_cases H; try discriminate Hcode.
    cbn [s_sources audit set_store set_sources].
    match goal with E : AddSource _ _ _ _ = Ok _ |- _ => apply AddSource_Ok in E as (_ & _ & ->) end.
    unfold source. rewrite Hid. apply lookup_insert_eq.
  - intros H Hcode. split; [by eapply Hkeep, handleDeleteCluster_acts|].
    unfold handleDeleteCluster in H. handler_cases H; try discriminate Hcode.
    cbn [s_sources audit set_store set_sources]. unfold scanner, source, RemoveSource.
    by rewrite lookup_delete_eq.
Qed.

Lemma sources_shared_witness :
  let p := mkPrincipal "bob" "b" RoleAdmin false in
  let b := Some (JObj [("id", JStr "prod"); ("source", JStr "live:other")]) in
  ∃ st' resp, handleRegisterCluster demo_api demo_env p b demo_state = Some (st', resp) ∧
    source (s_sources st') "prod" = Some "live:other".
Proof.
  intros p b. destruct (handleRegisterCluster demo_api demo_env p b demo_state) as [[st' resp]|] eqn:E;
    [|vm_compute in E; discriminate E].
  assert (rs_code resp = 201%Z) as Hc.
  { apply (f_equal (fmap (M := option) (λ r, rs_code r.2))) in E. vm_compute in E. injection E as E. exact (eq_sym E). }
  exists st', resp. split; [reflexivity|].
  destruct (sources_shared (Err "") "" false (mkLoaders (λ _, None) (λ _, Err "") (λ _, Err ""))
    demo_api demo_env p "a" "prod" (default zero_cluster (GetCluster (s_store demo_state) "a" "prod")) b
    demo_state st' resp) as [H _]; [discriminate|exact demo_served|vm_compute; reflexivity|].
  apply (H E Hc (mkRegisterBody "prod" "" "live:other")); reflexivity.
Defined.
