(* ===== verification/Triage.v ===== *)
(** The triage lane (internal/dashboard/lifecycle_api.go): what the merged listing shows and what
    waiver-aware enforcement suppresses. *)

From S2P Require Import Prelude GoStrings GoTime Api Lifecycle MemStore Handlers.

(** * The stored rows, indexed by key *)

Lemma index_rows l (s : gmap string FindingLifecycle) k :
  NoDup (map lc_Key l) →
  foldl (λ s lc, <[lc_Key lc := lc]> s) s l !! k =
  match List.find (λ lc, lc_Key lc =s k) l with Some lc => Some lc | None => s !! k end.
Proof.
  revert s. induction l as [|lc l IH]; intros s Hnd; [done|]. simpl in *.
  apply NoDup_cons in Hnd as [Hlc Hnd]. rewrite IH by done. rewrite lookup_insert.
  destruct (String.eqb_spec (lc_Key lc) k) as [<-|Hne]; case_decide; try congruence.
  destruct (List.find _ l) as [lc'|] eqn:E; [|done]. apply find_elem in E as [Hin Hk%String.eqb_eq].
  destruct Hlc. rewrite <-Hk. apply list_elem_of_fmap. eauto.
Qed.

(** The listing has the rows of its scope, one per key. *)
Lemma ListLifecycle_rows m t cluster :
  store_ok m →
  NoDup (map lc_Key (ListLifecycle m t cluster)) ∧
  ∀ lc, lc ∈ ListLifecycle m t cluster ↔
    GetLifecycle m t (lc_Key lc) = Some lc ∧ (cluster = "" ∨ lc_ClusterID lc = cluster).
Proof.
  intros Hm.
  assert (∀ lc, lc ∈ map snd (map_to_list (rows_of m t)) ↔ rows_of m t !! lc_Key lc = Some lc) as Hin.
  { intros lc. rewrite list_elem_of_fmap. split.
    - intros ([k lc'] & -> & H%elem_of_map_to_list). simpl. by rewrite (so_rows m Hm t k lc' H).
    - intros H. exists (lc_Key lc, lc). by rewrite elem_of_map_to_list. }
  assert (NoDup (map lc_Key (map snd (map_to_list (rows_of m t))))) as Hnd.
  { rewrite map_map. rewrite (list_fmap_ext _ fst).
    - apply NoDup_fst_map_to_list.
    - intros i [k lc] H%list_elem_of_lookup_2%elem_of_map_to_list. simpl. by apply (so_rows m Hm t). }
  unfold ListLifecycle, list_rows, sortLifecycle. split.
  - rewrite slice_stable_perm. revert Hnd. generalize (map snd (map_to_list (rows_of m t))). clear.
    intros l. induction l as [|lc l IH]; simpl; [done|]. intros [Hlc Hnd]%NoDup_cons.
    destruct (_ || _); [|by apply IH]. simpl. apply NoDup_cons. split; [|by apply IH].
    intros (lc' & He & [Hin _]%elem_of_list_filter)%list_elem_of_fmap. apply Hlc. rewrite He.
    apply list_elem_of_fmap. eauto.
  - intros lc. rewrite elem_of_slice_stable, elem_of_list_filter, Hin, orb_true_iff, !String.eqb_eq. done.
Qed.

Lemma stored_lookup m t cluster k :
  store_ok m →
  let stored := indexed (ListLifecycle m t cluster) in
  ∀ lc, stored !! k = Some lc ↔
    GetLifecycle m t k = Some lc ∧ lc_Key lc = k ∧ (cluster = "" ∨ lc_ClusterID lc = cluster).
Proof.
  intros Hm stored lc. destruct (ListLifecycle_rows m t cluster Hm) as [Hnd Hin].
  unfold stored, indexed. rewrite index_rows by done. split.
  - destruct (List.find _ _) as [lc'|] eqn:E; [|by rewrite lookup_empty].
    intros [= ->]. apply find_elem in E as [H%Hin Hk%String.eqb_eq]. rewrite Hk in H. destruct H; auto.
  - intros (Hg & Hk & Hc). destruct (List.find _ _) as [lc'|] eqn:E.
    + apply find_elem in E as [[H _]%Hin Hk'%String.eqb_eq]. congruence.
    + eapply List.find_none in E; [|apply list_elem_of_In, Hin; rewrite Hk; split; [exact Hg|exact Hc]].
      by rewrite (proj2 (String.eqb_eq _ _) Hk) in E.
Qed.

(** * The overlay of the current findings *)

Section overlay.
Context (stored : gmap string FindingLifecycle) (u : instant).
Context (Hstored : ∀ k lc, stored !! k = Some lc → lc_Key lc = k).

(** The row shown for a finding. *)
Definition lane_row (cid : string) (f : Finding) : FindingLifecycle :=
  default (untracked (LifecycleKey cid f) cid f "") (stored !! LifecycleKey cid f).

Lemma lane_row_key cid f : lc_Key (lane_row cid f) = LifecycleKey cid f.
Proof. unfold lane_row. destruct (stored !! _) eqn:E; simpl; [by apply Hstored|done]. Qed.

(** The items so far show findings of [current], one per key, and the seen keys are theirs. *)
Record overlay_ok (current : list (string * Finding)) (acc : list FindingLifecycle * gset string) : Prop := {
  ov_nodup : NoDup (map lc_Key acc.1);
  ov_seen k : k ∈ acc.2 ↔ k ∈ map lc_Key acc.1;
  ov_sound lc : lc ∈ acc.1 → ∃ cid f, (cid, f) ∈ current ∧
    lc = set_state (lane_row cid f) (EffectiveState (lane_row cid f) u);
  ov_complete cid f : (cid, f) ∈ current → LifecycleKey cid f ∈ map lc_Key acc.1
}.

Lemma overlay_step current acc cid f :
  overlay_ok current acc → overlay_ok (current ++ [(cid, f)]) (overlay stored u cid acc f).
Proof.
  destruct acc as [items seen]. intros [H1 H2 H3 H4]. unfold overlay. fold (lane_row cid f). simpl in *.
  destruct (decide (LifecycleKey cid f ∈ seen)) as [Hin|Hno].
  - split; simpl; [done|done| |].
    + intros lc Hlc. destruct (H3 lc Hlc) as (cid' & f' & ? & ?). exists cid', f'. split; [set_solver|done].
    + intros cid' f' [?|Heq]%elem_of_app; [by apply H4|].
      apply list_elem_of_singleton in Heq as [= -> ->]. by apply H2.
  - assert (lc_Key (set_state (lane_row cid f) (EffectiveState (lane_row cid f) u)) = LifecycleKey cid f) as Hk
      by apply lane_row_key.
    split; cbn [fst snd].
    + rewrite map_app. apply NoDup_app. split; [done|]. cbn [map]. rewrite Hk. split; [|apply NoDup_singleton].
      intros k Hin ->%list_elem_of_singleton. by apply Hno, H2.
    + intros k. rewrite map_app, elem_of_app, elem_of_union, elem_of_singleton, H2. cbn [map].
      rewrite Hk, list_elem_of_singleton. tauto.
    + intros lc [Hlc|Hlc]%elem_of_app.
      * destruct (H3 lc Hlc) as (cid' & f' & ? & ?). exists cid', f'. split; [set_solver|done].
      * apply list_elem_of_singleton in Hlc as ->. exists cid, f. split; [set_solver|done].
    + intros cid' f' Hcur. rewrite map_app, elem_of_app. cbn [map]. rewrite Hk, list_elem_of_singleton.
      apply elem_of_app in Hcur as [?|Heq]; [left; by apply H4|right].
      by apply list_elem_of_singleton in Heq as [= -> ->].
Qed.

Lemma overlay_fold current acc cid fs :
  overlay_ok current acc →
  overlay_ok (current ++ map (λ f, (cid, f)) fs) (foldl (overlay stored u cid) acc fs).
Proof.
  revert current acc. induction fs as [|f fs IH]; intros current acc H; simpl; [by rewrite app_nil_r|].
  specialize (IH _ _ (overlay_step current acc cid f H)). by rewrite <-app_assoc in IH.
Qed.

(** The findings of the clusters' latest reports. *)
Definition current_findings (m : MemStore) (t : string) (cids : list string) : list (string * Finding) :=
  flat_map (λ cid, match ReportOf m t cid with
                   | Some (Some rep) => map (λ f, (cid, f)) (rep_Findings rep)
                   | _ => []
                   end) cids.

Lemma overlay_clusters_ok m t cids current acc r :
  overlay_ok current acc → overlay_clusters m t stored u cids acc = Some r →
  overlay_ok (current ++ current_findings m t cids) r.
Proof.
  revert current acc. induction cids as [|cid cids IH]; intros current acc H; simpl.
  - intros [= <-]. by rewrite app_nil_r.
  - destruct (ReportOf m t cid) as [[rep|]|]; cbn [mbind option_bind]; [|by apply IH|done].
    intros Hr. eapply IH in Hr; [|by apply overlay_fold]. by rewrite <-app_assoc in Hr.
Qed.
End overlay.

(** * Properties *)

(** C17: The triage lane shows everything once, and shows it as it stands now: in a reachable store the
    listing has at most one item per finding identity; each item is a stored row of the requested
    scope or a current finding without one (shown open), in its effective state; every current
    finding of the clusters in scope and every stored row of the scope, also of findings that have
    gone, has its item. *)
Theorem lifecycle_listing m t cluster u cs :
  reachable m → ListClusters m t = Some cs →
  let cids := if cluster =s "" then map cl_ID cs else [cluster] in
  let stored_in_scope lc := GetLifecycle m t (lc_Key lc) = Some lc ∧ (cluster = "" ∨ lc_ClusterID lc = cluster) in
  ∃ items, lifecycle_items m t cluster u = Some items ∧
    NoDup (map lc_Key items) ∧
    (∀ lc, lc ∈ items → ∃ lc0, lc = set_state lc0 (EffectiveState lc0 u) ∧
       (stored_in_scope lc0 ∨
        ∃ cid f, (cid, f) ∈ current_findings m t cids ∧ lc0 = untracked (LifecycleKey cid f) cid f "")) ∧
    (∀ cid f, (cid, f) ∈ current_findings m t cids → LifecycleKey cid f ∈ map lc_Key items) ∧
    (∀ lc, stored_in_scope lc → set_state lc (EffectiveState lc u) ∈ items).
Proof.
  intros Hm%reachable_ok Hcs cids in_scope. unfold lifecycle_items. rewrite Hcs.
  set (stored := indexed (ListLifecycle m t cluster)).
  assert (∀ k lc, stored !! k = Some lc ↔ GetLifecycle m t k = Some lc ∧ lc_Key lc = k ∧
    (cluster = "" ∨ lc_ClusterID lc = cluster)) as Hst by (intros; by apply stored_lookup).
  assert ((if cluster <>s "" then Some [cluster] else fmap (map cl_ID) (Some cs)) = Some cids) as ->
    by (unfold cids; by destruct (cluster =s "")).
  cbn [mbind option_bind].
  assert (is_Some (overlay_clusters m t stored u cids ([], ∅))) as [[items seen] Hov].
  { generalize ([] : list FindingLifecycle, ∅ : gset string). induction cids as [|cid l IH]; intros acc; simpl; [eauto|].
    destruct (ReportOf_total m t cid Hm) as [rep ->]. apply IH. }
  rewrite Hov. cbn [mbind option_bind].
  eapply (overlay_clusters_ok stored u (λ k lc H, proj1 (proj2 (proj1 (Hst k lc) H))) m t cids [])
    in Hov as [H1 H2 H3 H4]; [|split; simpl; [constructor|set_solver|by intros lc ?%elem_of_nil|by intros ?? ?%elem_of_nil]].
  cbn [app fst snd] in *.
  set (rest := List.filter (λ kv, bool_decide (kv.1 ∉ seen)) (map_to_list stored)).
  set (eff := λ kv : string * FindingLifecycle, set_state kv.2 (EffectiveState kv.2 u)).
  assert (∀ k lc, (k, lc) ∈ rest ↔ stored !! k = Some lc ∧ k ∉ seen) as Hrest.
  { intros k lc. unfold rest. rewrite elem_of_list_filter, elem_of_map_to_list, bool_decide_eq_true. done. }
  assert (map lc_Key (map eff rest) = map fst rest) as Hrk.
  { rewrite map_map. apply list_fmap_ext. intros i [k lc] [Hk _]%list_elem_of_lookup_2%Hrest.
    apply Hst in Hk as (_ & Hk & _). done. }
  eexists. split; [done|]. unfold sortLifecycle. split; [|split; [|split]].
  - rewrite slice_stable_perm, map_app, Hrk. apply NoDup_app. split; [done|]. split.
    + intros k Hk%H2 ([k' lc] & -> & [_ Hno]%Hrest)%list_elem_of_fmap. done.
    + unfold rest. pose proof (NoDup_fst_map_to_list stored) as Hnd. revert Hnd. generalize (map_to_list stored). clear.
      intros l. induction l as [|kv l IH]; simpl; [done|]. intros [Hkv Hnd]%NoDup_cons.
      destruct (bool_decide _); [|by apply IH]. simpl. apply NoDup_cons. split; [|by apply IH].
      intros (kv' & He & [Hin _]%elem_of_list_filter)%list_elem_of_fmap. apply Hkv. rewrite He.
      apply list_elem_of_fmap. eauto.
  - intros lc. rewrite elem_of_slice_stable, elem_of_app. intros [Hlc|Hlc].
    + destruct (H3 lc Hlc) as (cid & f & Hcur & ->). exists (lane_row stored cid f). split; [done|].
      unfold lane_row. destruct (stored !! LifecycleKey cid f) as [lc'|] eqn:E; simpl; [left|by right; eauto].
      apply Hst in E as (Hg & Hk & Hc). split; [by rewrite Hk|done].
    + apply list_elem_of_fmap in Hlc as ([k lc'] & -> & [E _]%Hrest). exists lc'. split; [done|]. left.
      apply Hst in E as (Hg & Hk & Hc). split; [by rewrite Hk|done].
  - intros cid f Hcur. rewrite slice_stable_perm, map_app, elem_of_app. left. by apply H4.
  - intros lc [Hg Hc]. rewrite elem_of_slice_stable, elem_of_app.
    assert (stored !! lc_Key lc = Some lc) as Hs by by apply Hst.
    destruct (decide (lc_Key lc ∈ seen)) as [Hin|Hno].
    + left. apply H2 in Hin. apply list_elem_of_fmap in Hin as (lc' & Hk & Hlc').
      destruct (H3 lc' Hlc') as (cid & f & _ & ->). cbn [lc_Key set_state] in Hk.
      rewrite (lane_row_key stored (λ k lc H, proj1 (proj2 (proj1 (Hst k lc) H)))) in Hk.
      assert (lane_row stored cid f = lc) as <-; [|done]. unfold lane_row. by rewrite <-Hk, Hs.
    + right. apply list_elem_of_fmap. exists (lc_Key lc, lc). split; [done|]. by apply Hrest.
Qed.

Lemma lifecycle_listing_witness :
  let f := mkFinding "KG-001" "" "critical" "" (mkResourceRef "Pod" "shop" "web") [] (mkRemediation "" "") [] [] in
  let m := apply_op (OpRecordScan "a" "prod" "s" (mkReport "" "" "" [f] [] zero_posture [] None None) "") NewMemStore in
  ∃ items, lifecycle_items m "a" "" 0%Z = Some items ∧ LifecycleKey "prod" f ∈ map lc_Key items.
Proof.
  intros f m.
  destruct (lifecycle_listing m "a" "" 0%Z (default [] (ListClusters m "a"))) as (items & Hi & _ & _ & Hc & _).
  - exact (reachable_op _ _ reachable_new).
  - vm_compute. reflexivity.
  - exists items. split; [exact Hi|]. apply (Hc "prod" f). vm_compute. left.
Defined.

Lemma WaivedKeys_spec m t cid u k :
  store_ok m →
  k ∈ WaivedKeys m t cid u ↔
  ∃ lc, GetLifecycle m t k = Some lc ∧ (cid = "" ∨ lc_ClusterID lc = cid) ∧ IsActivelyWaived lc u = true.
Proof.
  intros Hm. destruct (ListLifecycle_rows m t cid Hm) as [_ Hin]. unfold WaivedKeys.
  assert (∀ l (s : gset string), k ∈ foldl (λ out lc, if IsActivelyWaived lc u then {[lc_Key lc]} ∪ out else out) s l ↔
    k ∈ s ∨ ∃ lc, lc ∈ l ∧ lc_Key lc = k ∧ IsActivelyWaived lc u = true) as Hfold.
  { clear. intros l. induction l as [|lc l IH]; intros s; simpl.
    - split; [by left|]. by intros [?|(lc & ?%elem_of_nil & _)].
    - rewrite IH. setoid_rewrite elem_of_cons.
      assert (k ∈ (if IsActivelyWaived lc u then {[lc_Key lc]} ∪ s else s) ↔
        k ∈ s ∨ lc_Key lc = k ∧ IsActivelyWaived lc u = true) as ->.
      { destruct (IsActivelyWaived lc u); [rewrite elem_of_union, elem_of_singleton|]; intuition congruence. }
      split.
      + intros [[?|[? ?]]|(lc' & ? & ?)]; [by left|right; exists lc; auto|right; exists lc'; auto].
      + intros [?|(lc' & [->|?] & ? & ?)]; [by left; left|by left; right|right; eauto]. }
  rewrite Hfold. split.
  - intros [?%elem_of_empty|(lc & [Hg Hc]%Hin & <- & Hw)]; [done|eauto].
  - intros (lc & Hg & Hc & Hw). right. exists lc.
    pose proof (so_rows m Hm t k lc Hg) as Hk. rewrite Hin, Hk. done.
Qed.

Lemma BlockingFindings_eq cid fs waived :
  BlockingFindings cid fs waived =
  (List.filter (λ f, negb (bool_decide (LifecycleKey cid f ∈ waived))) fs,
   List.filter (λ f, bool_decide (LifecycleKey cid f ∈ waived)) fs).
Proof.
  unfold BlockingFindings.
  assert (∀ b w, foldl (λ '(blocking, waivedOut) f,
      if decide (LifecycleKey cid f ∈ waived) then (blocking, waivedOut ++ [f]) else (blocking ++ [f], waivedOut)) (b, w) fs =
    (b ++ List.filter (λ f, negb (bool_decide (LifecycleKey cid f ∈ waived))) fs,
     w ++ List.filter (λ f, bool_decide (LifecycleKey cid f ∈ waived)) fs)) as H; [|apply H].
  induction fs as [|f fs IH]; intros b w; simpl; [by rewrite !app_nil_r|].
  destruct (decide (LifecycleKey cid f ∈ waived)) as [Hin|Hno].
  - rewrite bool_decide_true by done. simpl. by rewrite IH, <-app_assoc.
  - rewrite bool_decide_false by done. simpl. by rewrite IH, <-app_assoc.
Qed.

(** Enforcement suppresses exactly the findings under an active waiver: with the waived keys of a
    cluster, every finding is either blocking or waived out, in order, and it is waived out just when
    the stored row of its identity in that cluster is risk-accepted under an unexpired waiver; a
    lapsed waiver therefore blocks again. *)
Theorem blocking_iff_unwaived m t cid fs u :
  reachable m →
  let r := BlockingFindings cid fs (WaivedKeys m t cid u) in
  r.1 ++ r.2 ≡ₚ fs ∧
  r.1 `sublist_of` fs ∧ r.2 `sublist_of` fs ∧
  (∀ f, f ∈ r.2 ↔ f ∈ fs ∧ ∃ lc, GetLifecycle m t (LifecycleKey cid f) = Some lc ∧
     (cid = "" ∨ lc_ClusterID lc = cid) ∧ lc_State lc = StateRiskAccepted ∧
     ∃ w exp, lc_Waiver lc = Some w ∧ parse_rfc3339 (lw_ExpiresAt w) = Some exp ∧ (u < exp)%Z).
Proof.
  intros Hm%reachable_ok r. unfold r. rewrite BlockingFindings_eq. cbn [fst snd].
  assert (∀ (q : Finding → bool) l, List.filter q l `sublist_of` l) as Hsub.
  { intros q l. induction l as [|x l IH]; simpl; [done|]. destruct (q x); by constructor. }
  split; [|split; [apply Hsub|split; [apply Hsub|]]].
  - generalize (WaivedKeys m t cid u). intros waived. clear. induction fs as [|f fs IH]; simpl; [done|].
    destruct (bool_decide _); simpl; [|by rewrite IH]. by rewrite <-Permutation_middle, IH.
  - intros f. rewrite elem_of_list_filter, bool_decide_eq_true, (WaivedKeys_spec m t cid u _ Hm).
    unfold IsActivelyWaived. setoid_rewrite andb_true_iff. setoid_rewrite String.eqb_eq.
    by setoid_rewrite Active_spec.
Qed.

Lemma blocking_iff_unwaived_witness :
  let f := mkFinding "KG-001" "" "critical" "" (mkResourceRef "Pod" "shop" "web") [] (mkRemediation "" "") [] [] in
  let w := Some (mkLWaiver "legacy" "ann" "" "2026-03-31T00:00:00Z") in
  let lc := mkLifecycle (LifecycleKey "prod" f) "prod" "KG-001" (f_Resource f) StateRiskAccepted "" w "" "" "" in
  let m := apply_op (OpUpsert "a" lc) NewMemStore in
  f ∈ (BlockingFindings "prod" [f] (WaivedKeys m "a" "prod" (1772308800 * second)%Z)).2.
Proof.
  intros f w lc m.
  apply (proj2 (proj2 (proj2 (blocking_iff_unwaived m "a" "prod" [f] (1772308800 * second)%Z
    (reachable_op (OpUpsert "a" lc) _ reachable_new))))).
  split; [left|]. exists lc. split; [vm_compute; reflexivity|]. split; [right; reflexivity|].
  split; [reflexivity|]. eexists _, _. split; [reflexivity|]. split; [vm_compute; reflexivity|reflexivity].
Defined.
