(* ===== verification/Workers.v ===== *)
(** The worker pool and the scheduler of the dashboard (internal/dashboard/workers.go, scheduler.go).

    The pool is a transition system: the buffered channel is a queue, a worker is idle, running a
    job or has left its loop, and a step is what one goroutine does.  The lists [pl_accepted],
    [pl_started] and [pl_finished] record the past; no step reads them.  The cron library is a
    parameter: a parser of expressions, and an entry's function that runs when its time comes. *)

From S2P Require Import Prelude GoStrings GoJson GoFloat GoTime Api Lifecycle MemStore Auth Broker.
From S2P Require Import FindingQuery Sources Handlers.

(** * The pool: workers.go *)

Inductive worker := Idle | Running (j : scanJob) | Exited.

Record pool := mkPool {
  pl_cap : nat;
  pl_queue : list scanJob;
  pl_closed : bool;
  pl_workers : list worker;
  pl_accepted : list scanJob;
  pl_started : list scanJob;
  pl_finished : list scanJob
}.

Definition queue_capacity (queueSize : Z) : nat := Z.to_nat (if (queueSize <=? 0)%Z then 256 else queueSize).

Definition startWorkers (n : nat) (queueSize : Z) : pool :=
  mkPool (queue_capacity queueSize) [] false (replicate n Idle) [] [] [].

(** The non-blocking send: [None] is the panic of a send on a closed channel. *)
Definition pool_enqueue (j : scanJob) (p : pool) : option (pool * bool) :=
  if pl_closed p then None
  else if Nat.ltb (length (pl_queue p)) (pl_cap p)
       then Some (mkPool (pl_cap p) (pl_queue p ++ [j]) (pl_closed p) (pl_workers p) (pl_accepted p ++ [j])
                    (pl_started p) (pl_finished p), true)
       else Some (p, false).

(** [for j := range jobs]: a worker receives, runs, and leaves when the channel is closed and empty. *)
Definition take_job (i : nat) (p : pool) : option pool :=
  match pl_workers p !! i, pl_queue p with
  | Some Idle, j :: q =>
      Some (mkPool (pl_cap p) q (pl_closed p) (<[i := Running j]> (pl_workers p)) (pl_accepted p)
              (pl_started p ++ [j]) (pl_finished p))
  | _, _ => None
  end.

Definition finish_job (i : nat) (p : pool) : option pool :=
  match pl_workers p !! i with
  | Some (Running j) =>
      Some (mkPool (pl_cap p) (pl_queue p) (pl_closed p) (<[i := Idle]> (pl_workers p)) (pl_accepted p)
              (pl_started p) (pl_finished p ++ [j]))
  | _ => None
  end.

Definition leave_loop (i : nat) (p : pool) : option pool :=
  match pl_workers p !! i, pl_queue p with
  | Some Idle, [] =>
      if pl_closed p
      then Some (mkPool (pl_cap p) [] true (<[i := Exited]> (pl_workers p)) (pl_accepted p) (pl_started p) (pl_finished p))
      else None
  | _, _ => None
  end.

(** [Close]: the channel is closed; [wg.Wait] returns once every worker has left. *)
Definition close_jobs (p : pool) : option pool :=
  if pl_closed p then None
  else Some (mkPool (pl_cap p) (pl_queue p) true (pl_workers p) (pl_accepted p) (pl_started p) (pl_finished p)).

Definition waited (p : pool) : bool := forallb (λ w, match w with Exited => true | _ => false end) (pl_workers p).

(** * Runs *)

(** A step of a worker. *)
Inductive work : pool → pool → Prop :=
| work_take i p p' : take_job i p = Some p' → work p p'
| work_finish i p p' : finish_job i p = Some p' → work p p'
| work_leave i p p' : leave_loop i p = Some p' → work p p'.

Inductive pool_run (n : nat) (queueSize : Z) : pool → Prop :=
| run_start : pool_run n queueSize (startWorkers n queueSize)
| run_enqueue j p p' ok : pool_run n queueSize p → pool_enqueue j p = Some (p', ok) → pool_run n queueSize p'
| run_work p p' : pool_run n queueSize p → work p p' → pool_run n queueSize p'
| run_close p p' : pool_run n queueSize p → close_jobs p = Some p' → pool_run n queueSize p'.

(** The jobs that are running. *)
Definition jobs_of (w : worker) : list scanJob := match w with Running j => [j] | _ => [] end.
Definition running (p : pool) : list scanJob := flat_map jobs_of (pl_workers p).

Record pool_ok (n : nat) (queueSize : Z) (p : pool) : Prop := {
  po_cap : pl_cap p = queue_capacity queueSize;
  po_bound : length (pl_queue p) ≤ pl_cap p;
  po_workers : length (pl_workers p) = n;
  po_fifo : pl_accepted p = pl_started p ++ pl_queue p;
  po_once : pl_started p ≡ₚ pl_finished p ++ running p;
  po_exited : Exited ∈ pl_workers p → pl_closed p = true ∧ pl_queue p = []
}.

Lemma jobs_insert ws i w w' :
  ws !! i = Some w →
  flat_map jobs_of (<[i := w']> ws) ++ jobs_of w ≡ₚ flat_map jobs_of ws ++ jobs_of w'.
Proof.
  revert i. induction ws as [|x ws IH]; intros [|i] H; simplify_eq/=.
  - rewrite Permutation_app_comm, <-app_assoc. apply Permutation_app_head, Permutation_app_comm.
  - rewrite <-!app_assoc. apply Permutation_app_head. by apply IH.
Qed.

Lemma start_ok n queueSize : pool_ok n queueSize (startWorkers n queueSize).
Proof.
  split; cbn; [done|lia|apply length_replicate|done| |].
  - unfold running. cbn. induction n as [|n IH]; [done|exact IH].
  - intros [[=] _]%elem_of_replicate.
Qed.

Lemma enqueue_ok n qs j p p' ok : pool_ok n qs p → pool_enqueue j p = Some (p', ok) → pool_ok n qs p'.
Proof.
  intros Hok H. unfold pool_enqueue in H. destruct (pl_closed p) eqn:Ec; [done|].
  destruct (Nat.ltb_spec (length (pl_queue p)) (pl_cap p)); simplify_eq; [|done].
  destruct Hok as [H1 H2 H3 H4 H5 H6]. split; cbn; try done.
  - rewrite length_app. cbn. lia.
  - by rewrite H4, app_assoc.
  - intros Hx. destruct (H6 Hx). congruence.
Qed.

Lemma elem_exited (i : nat) w (ws : list worker) : Exited ∈ <[i := w]> ws → w = Exited ∨ Exited ∈ ws.
Proof. intros [k Hk]%list_elem_of_lookup. apply list_lookup_insert_Some in Hk as [(_ & -> & _)|[_ Hk]]; [by left|right]. by eapply list_elem_of_lookup_2. Qed.

Lemma work_ok n qs p p' : pool_ok n qs p → work p p' → pool_ok n qs p'.
Proof.
  intros [H1 H2 H3 H4 H5 H6] H. inversion H as [i q q' E|i q q' E|i q q' E]; subst q q'; clear H.
  - unfold take_job in E. destruct (pl_workers p !! i) as [[|j|]|] eqn:Ei; try done.
    destruct (pl_queue p) as [|j q] eqn:Eq; simplify_eq. split; cbn; rewrite ?length_insert; try done.
    + cbn in H2. lia.
    + by rewrite H4, <-app_assoc.
    + unfold running. cbn. pose proof (jobs_insert _ _ _ (Running j) Ei) as Hj. cbn in Hj. rewrite app_nil_r in Hj.
      rewrite Hj, H5. by rewrite app_assoc.
    + intros [|Hx]%elem_exited; [done|]. by destruct (H6 Hx).
  - unfold finish_job in E. destruct (pl_workers p !! i) as [[|j|]|] eqn:Ei; simplify_eq.
    split; cbn; rewrite ?length_insert; try done.
    + unfold running. cbn. pose proof (jobs_insert _ _ _ Idle Ei) as Hj. cbn in Hj. rewrite app_nil_r in Hj.
      rewrite H5. unfold running. rewrite <-Hj, <-app_assoc. apply Permutation_app_head, Permutation_app_comm.
    + intros [|Hx]%elem_exited; [done|]. by apply H6.
  - unfold leave_loop in E. destruct (pl_workers p !! i) as [[|j|]|] eqn:Ei; try done.
    destruct (pl_queue p) as [|j q] eqn:Eq; [|done]. destruct (pl_closed p) eqn:Ec; simplify_eq.
    split; cbn; rewrite ?length_insert; try done. unfold running. cbn.
    pose proof (jobs_insert _ _ _ Exited Ei) as Hj. cbn in Hj. rewrite !app_nil_r in Hj. by rewrite Hj.
Qed.

Lemma run_ok n qs p : pool_run n qs p → pool_ok n qs p.
Proof.
  induction 1 as [|j p p' ok _ IH H|p p' _ IH H|p p' _ IH H].
  - apply start_ok.
  - by eapply enqueue_ok.
  - by eapply work_ok.
  - unfold close_jobs in H. destruct (pl_closed p) eqn:Ec; simplify_eq. destruct IH as [H1 H2 H3 H4 H5 H6].
    split; cbn; try done. intros Hx. by destruct (H6 Hx).
Qed.

(** * Closing drains the queue *)

Inductive work_steps : nat → pool → pool → Prop :=
| steps_none p : work_steps 0 p p
| steps_more k p p' p'' : work p p' → work_steps k p' p'' → work_steps (S k) p p''.

Definition weight (w : worker) : nat := match w with Idle => 1 | Running _ => 2 | Exited => 0 end.

(** What is left to do: it bounds the number of steps. *)
Definition left_to_do (p : pool) : nat := 3 * length (pl_queue p) + sum_list_with weight (pl_workers p).

Lemma weight_insert (i : nat) w w' (ws : list worker) :
  ws !! i = Some w → sum_list_with weight (<[i := w']> ws) + weight w = sum_list_with weight ws + weight w'.
Proof.
  revert i. induction ws as [|x ws IH]; intros [|i] H; simplify_eq/=; [lia|]. specialize (IH i H). lia.
Qed.

Lemma work_decreases p p' : work p p' →
  left_to_do p' < left_to_do p ∧ pl_closed p' = pl_closed p ∧ pl_accepted p' = pl_accepted p.
Proof.
  intros H. inversion H as [i q q' E|i q q' E|i q q' E]; subst q q'; clear H; unfold left_to_do.
  - unfold take_job in E. destruct (pl_workers p !! i) as [[|j|]|] eqn:Ei; try done.
    destruct (pl_queue p) as [|j q]; simplify_eq. cbn [pl_queue pl_workers pl_closed pl_accepted].
    pose proof (weight_insert _ _ (Running j) _ Ei) as Hw. cbn [weight] in Hw. split_and!; [cbn [length]; lia|done..].
  - unfold finish_job in E. destruct (pl_workers p !! i) as [[|j|]|] eqn:Ei; simplify_eq.
    cbn [pl_queue pl_workers pl_closed pl_accepted].
    pose proof (weight_insert _ _ Idle _ Ei) as Hw. cbn [weight] in Hw. split_and!; [lia|done..].
  - unfold leave_loop in E. destruct (pl_workers p !! i) as [[|j|]|] eqn:Ei; try done.
    destruct (pl_queue p) as [|j q]; [|done]. destruct (pl_closed p) eqn:Ec; simplify_eq.
    cbn [pl_queue pl_workers pl_closed pl_accepted].
    pose proof (weight_insert _ _ Exited _ Ei) as Hw. cbn [weight] in Hw. split_and!; [cbn [length]; lia|done..].
Qed.

(** Until all workers have left a closed pool, one of them can go on. *)
Lemma work_progress p : pl_closed p = true → waited p = false → ∃ p', work p p'.
Proof.
  intros Hc Hw. unfold waited in Hw.
  assert (∃ i w, pl_workers p !! i = Some w ∧ w ≠ Exited) as (i & w & Hi & Hne).
  { revert Hw. clear Hc. generalize (pl_workers p). intros ws. induction ws as [|w ws IH]; [done|]. cbn.
    destruct w as [|j|]; [by exists 0, Idle|by exists 0, (Running j)|]. intros Hw. destruct (IH Hw) as (i & w & ? & ?).
    by exists (S i), w. }
  destruct w as [|j|]; [|eexists; eapply (work_finish i); unfold finish_job; by rewrite Hi|done].
  destruct (pl_queue p) as [|j q] eqn:Eq.
  - eexists. eapply (work_leave i). unfold leave_loop. by rewrite Hi, Eq, Hc.
  - eexists. eapply (work_take i). unfold take_job. by rewrite Hi, Eq.
Qed.

Lemma all_exited p : waited p = true → running p = [] ∧ (pl_workers p ≠ [] → Exited ∈ pl_workers p).
Proof.
  unfold waited, running. generalize (pl_workers p). intros ws. induction ws as [|w ws IH]; [done|].
  cbn. destruct w; try done. intros H. destruct (IH H) as [Hr _]. split; [exact Hr|]. intros _. by left.
Qed.

(** C14: The pool loses nothing and Close returns.  At any moment the queue is within its capacity,
    jobs start in the order in which they were accepted, and each accepted job is queued, running
    or finished, once.  After Close, every sequence of worker steps is bounded by the work left,
    accepts nothing more, and one that cannot be continued has every worker out of its loop (so
    the wait returns) and every accepted job finished exactly once. *)
Theorem pool_drains n queueSize p :
  0 < n → pool_run n queueSize p →
  length (pl_queue p) ≤ queue_capacity queueSize ∧
  pl_accepted p = pl_started p ++ pl_queue p ∧ pl_started p ≡ₚ pl_finished p ++ running p ∧
  (pl_closed p = true → ∀ k p', work_steps k p p' →
     k + left_to_do p' ≤ left_to_do p ∧ pl_accepted p' = pl_accepted p ∧
     ((∀ p'', ¬ work p' p'') → waited p' = true ∧ pl_finished p' ≡ₚ pl_accepted p)).
Proof.
  intros Hn Hrun. pose proof (run_ok _ _ _ Hrun) as Hok.
  split; [rewrite <-(po_cap _ _ _ Hok); apply Hok|]. split; [apply Hok|]. split; [apply Hok|].
  intros Hc k p' Hs. clear Hrun. induction Hs as [p|k p p' p'' Hw Hs IH].
  - split_and!; [lia|done|]. intros Hstuck. destruct (waited p) eqn:Ew.
    2: { destruct (work_progress p Hc Ew) as [p' Hp']. by destruct (Hstuck p'). }
    split; [done|]. destruct (all_exited p Ew) as [Hr He].
    assert (pl_workers p ≠ []) as Hne by (intros E; pose proof (po_workers _ _ _ Hok) as Hl; rewrite E in Hl; cbn in Hl; lia).
    destruct (po_exited _ _ _ Hok (He Hne)) as [_ Hq].
    rewrite (po_fifo _ _ _ Hok), Hq, app_nil_r, (po_once _ _ _ Hok), Hr. by rewrite app_nil_r.
  - destruct (work_decreases p p' Hw) as (Hlt & Hc' & Ha).
    destruct (IH (work_ok _ _ _ _ Hok Hw)) as (H1 & H2 & H3); [by rewrite Hc'|].
    split_and!; [lia|by rewrite H2|]. rewrite <-Ha. exact H3.
Qed.

(** A request that finds the pool while it is being closed panics. *)
Lemma enqueue_after_close p p' j : close_jobs p = Some p' → pool_enqueue j p' = None.
Proof. unfold close_jobs. destruct (pl_closed p); [done|]. by intros [= <-]. Qed.

(** The queue of Handlers.v is the pool's. *)
Lemma enqueue_agrees j p p' ok st :
  s_jobs st = pl_queue p → pool_enqueue j p = Some (p', ok) →
  s_jobs (Handlers.enqueue (pl_cap p) j st).1 = pl_queue p' ∧ (Handlers.enqueue (pl_cap p) j st).2 = ok.
Proof.
  intros Hq H. unfold pool_enqueue in H. destruct (pl_closed p); [done|]. unfold enqueue. rewrite Hq.
  destruct (Nat.ltb _ _); by simplify_eq.
Qed.

(** * The scheduler: scheduler.go *)

Record ScheduleSpec := mkScheduleSpec { sp_Tenant : string; sp_ClusterID : string; sp_Cron : string }.

Section cron.
Variable Schedule : Type.
Variable parse : string → res Schedule.

(** The cron's entries, in the order added, and whether it ticks. *)
Record Scheduler := mkScheduler {
  sc_specs : list ScheduleSpec;
  sc_entries : list (Schedule * ScheduleSpec);
  sc_ticking : bool
}.

Definition NewScheduler (specs : list ScheduleSpec) : Scheduler := mkScheduler specs [] false.

Definition RunOnce (e : env) (spec : ScheduleSpec) (st : state) : option (state * MemStore.Scan) :=
  RunScan e (sp_Tenant spec) (sp_ClusterID spec) "scheduler" st.

(** The loop of [Start]: the entries so far, and the first error of [AddFunc]. *)
Fixpoint add_entries (specs : list ScheduleSpec) (entries : list (Schedule * ScheduleSpec))
    : list (Schedule * ScheduleSpec) * option string :=
  match specs with
  | [] => (entries, None)
  | spec :: specs' =>
      match parse (sp_Cron spec) with
      | Err e => (entries, Some e)
      | Ok s => add_entries specs' (entries ++ [(s, spec)])
      end
  end.

Definition Start (s : Scheduler) : Scheduler * option string :=
  match add_entries (sc_specs s) (sc_entries s) with
  | (entries, Some e) => (mkScheduler (sc_specs s) entries (sc_ticking s), Some e)
  | (entries, None) => (mkScheduler (sc_specs s) entries true, None)
  end.

Definition Stop (s : Scheduler) : Scheduler := mkScheduler (sc_specs s) (sc_entries s) false.

(** An entry's function, when its time comes. *)
Definition tick (e : env) (i : nat) (s : Scheduler) (st : state) : option (state * option MemStore.Scan) :=
  if sc_ticking s then
    match sc_entries s !! i with
    | Some (_, spec) => r ← RunScan e (sp_Tenant spec) (sp_ClusterID spec) "scheduler" st; Some (r.1, Some r.2)
    | None => Some (st, None)
    end
  else Some (st, None).

Lemma add_entries_spec specs entries :
  (∃ ss, Forall2 (λ sp s, parse (sp_Cron sp) = Ok s) specs ss ∧
     add_entries specs entries = (entries ++ zip ss specs, None)) ∨
  (∃ sp e es, sp ∈ specs ∧ parse (sp_Cron sp) = Err e ∧ add_entries specs entries = (es, Some e)).
Proof.
  revert entries. induction specs as [|sp specs IH]; intros entries; cbn [add_entries].
  - left. exists []. cbn. by rewrite app_nil_r.
  - destruct (parse (sp_Cron sp)) as [s|e] eqn:E.
    + destruct (IH (entries ++ [(s, sp)])) as [(ss & Hss & ->)|(sp' & e & es & Hin & He & ->)].
      * left. exists (s :: ss). split; [by constructor|]. by rewrite <-app_assoc.
      * right. exists sp', e, es. split; [by right|done].
    + right. exists sp, e, entries. split; [by left|done].
Qed.

(** Start is all or nothing: it starts ticking exactly when every expression is valid, and then
    there is one entry per spec, in order; otherwise it reports an error and nothing ticks. *)
Lemma Start_spec specs :
  let '(s, err) := Start (NewScheduler specs) in
  (err = None ↔ ∀ sp, sp ∈ specs → ∃ s, parse (sp_Cron sp) = Ok s) ∧
  (sc_ticking s = true ↔ err = None) ∧ (err = None → map snd (sc_entries s) = specs).
Proof.
  unfold Start, NewScheduler. cbn [sc_specs sc_entries sc_ticking].
  destruct (add_entries_spec specs []) as [(ss & Hss & ->)|(sp & e & es & Hin & He & ->)].
  - cbn [sc_ticking sc_entries app]. split_and!; [|done|].
    + split; [|done]. intros _ sp Hsp. apply list_elem_of_lookup in Hsp as [i Hi].
      destruct (Forall2_lookup_l _ _ _ _ _ Hss Hi) as (s & _ & ?). eauto.
    + intros _. apply snd_zip. rewrite (Forall2_length _ _ _ Hss). done.
  - cbn [sc_ticking]. split_and!; [|done|done]. split; [done|]. intros H. destruct (H sp Hin) as [s Hs]. congruence.
Qed.
End cron.

(** * Witness: one worker, one job, then Close *)

Definition demo_job : scanJob := mkScanJob "a" "prod" "ann" "scan-1".
Definition closing_pool : pool := mkPool 256 [demo_job] true [Idle] [demo_job] [] [].
Definition drained_pool : pool := mkPool 256 [] true [Exited] [demo_job] [demo_job] [demo_job].

Lemma pool_drains_witness :
  pool_run 1 0 closing_pool ∧ work_steps 3 closing_pool drained_pool ∧ waited drained_pool = true ∧
  pl_finished drained_pool ≡ₚ pl_accepted closing_pool.
Proof.
  assert (pool_run 1 0 closing_pool) as Hr.
  { eapply run_close; [eapply (run_enqueue _ _ demo_job); [apply run_start|reflexivity]|reflexivity]. }
  assert (work_steps 3 closing_pool drained_pool) as Hs.
  { eapply steps_more; [by apply (work_take 0)|]. eapply steps_more; [by apply (work_finish 0)|].
    eapply steps_more; [by apply (work_leave 0)|]. apply steps_none. }
  split; [exact Hr|]. split; [exact Hs|].
  destruct (pool_drains 1 0 closing_pool ltac:(lia) Hr) as (_ & _ & _ & H).
  apply (H eq_refl 3 drained_pool Hs). intros p'' Hw. apply work_decreases in Hw as [Hlt _]. cbn in Hlt. lia.
Defined.
