(* ===== verification/Metrics.v ===== *)
(** The Prometheus collectors of the dashboard (internal/dashboard/metrics.go) and what scans do to
    them.

    A collector is a finite map from the values of its labels: a histogram holds the observations
    in order, a counter and a gauge a number.  Sorting observations into buckets and printing the
    exposition are the client library's. *)

From S2P Require Import Prelude GoStrings GoJson GoFloat GoTime Api Lifecycle MemStore Auth Broker.
From S2P Require Import FindingQuery Sources Handlers.

(** * The collectors: newMetrics *)

Inductive collector := Histogram (buckets : list float64) | Counter | Gauge.

Record family := mkFamily { fam_name : string; fam_collector : collector; fam_labels : list string }.

(** A decimal literal. *)
Definition lit (n d : Z) : float64 := fdiv (float_of_int n) (float_of_int d).

Definition families : list family :=
  [mkFamily "kubeguard_dashboard_http_request_duration_seconds"
     (Histogram [lit 5 1000; lit 1 100; lit 25 1000; lit 5 100; lit 1 10; lit 25 100; lit 5 10; lit 1 1; lit 25 10])
     ["route"; "method"; "status"];
   mkFamily "kubeguard_dashboard_scan_duration_seconds"
     (Histogram [lit 5 100; lit 1 10; lit 25 100; lit 5 10; lit 1 1; lit 25 10; lit 5 1; lit 10 1])
     ["cluster"; "result"];
   mkFamily "kubeguard_dashboard_scans_total" Counter ["cluster"; "result"];
   mkFamily "kubeguard_dashboard_findings" Gauge ["cluster"; "severity"];
   mkFamily "kubeguard_dashboard_compliance_pass_rate" Gauge ["cluster"; "framework"]].

Record Metrics := mkMetrics {
  m_httpDuration : gmap (string * string * string) (list float64);
  m_scanDuration : gmap (string * string) (list float64);
  m_scansTotal : gmap (string * string) Z;
  m_findings : gmap (string * string) float64;
  m_passRate : gmap (string * string) float64
}.

Definition newMetrics : Metrics := mkMetrics ∅ ∅ ∅ ∅ ∅.

(** The value under a key, or the zero value. *)
Definition value_of {K A} `{Countable K} (d : A) (m : gmap K A) (k : K) : A := default d (m !! k).

(** [Observe] on a histogram and [Inc] on a counter. *)
Definition observe {K} `{Countable K} (k : K) (v : float64) (h : gmap K (list float64)) : gmap K (list float64) :=
  <[k := value_of [] h k ++ [v]]> h.
Definition inc {K} `{Countable K} (k : K) (c : gmap K Z) : gmap K Z := <[k := (value_of 0%Z c k + 1)%Z]> c.

(** [Duration.Seconds] of a duration in nanoseconds. *)
Definition Seconds (d : Z) : float64 :=
  fadd (float_of_int (Z.quot d 1000000000)) (fdiv (float_of_int (Z.rem d 1000000000)) (float_of_int 1000000000)).

(** * Recording a scan *)

Definition gauged_severities : list string :=
  [SeverityCritical; SeverityHigh; SeverityMedium; SeverityLow; SeverityInfo].

Definition recordScan (cluster result : string) (dur : Z) (rep : Report) (m : Metrics) : Metrics :=
  let scanDuration := observe (cluster, result) (Seconds dur) (m_scanDuration m) in
  let scansTotal := inc (cluster, result) (m_scansTotal m) in
  if result <>s "success" then mkMetrics (m_httpDuration m) scanDuration scansTotal (m_findings m) (m_passRate m)
  else mkMetrics (m_httpDuration m) scanDuration scansTotal
    (foldl (λ g sev, <[(cluster, sev) := float_of_int (map_get 0%Z (ps_BySeverity (rep_Posture rep)) sev)]> g)
       (m_findings m) gauged_severities)
    (foldl (λ g fw, <[(cluster, fr_Framework fw) := fr_PassRate fw]> g) (m_passRate m) (rep_Compliance rep)).

(** [Metrics.middleware] once the handler has written its response. *)
Definition observe_http (route method : string) (status : Z) (dur : Z) (m : Metrics) : Metrics :=
  mkMetrics (observe (route, method, fmt_int status) (Seconds dur) (m_httpDuration m)) (m_scanDuration m)
    (m_scansTotal m) (m_findings m) (m_passRate m).

(** The two calls of [recordScan] in [runScanWithID]; [dur] is the difference of its clock readings. *)
Definition scan_metrics (e : env) (clusterID : string) (dur : Z) (st : state) (m : Metrics) : Metrics :=
  match runScanner e st clusterID with
  | Err _ => recordScan clusterID "failure" dur zero_report m
  | Ok rep => recordScan clusterID "success" dur rep m
  end.

(** * What the collectors say after a sequence of scans *)

Record scan_event := mkScanEvent { se_cluster : string; se_result : string; se_dur : Z; se_rep : Report }.

Definition replay (evs : list scan_event) : Metrics :=
  foldl (λ m ev, recordScan (se_cluster ev) (se_result ev) (se_dur ev) (se_rep ev) m) newMetrics evs.

Definition is_result (cluster result : string) (ev : scan_event) : bool :=
  (se_cluster ev =s cluster) && (se_result ev =s result).

(** The pass rates a scan reports for a framework. *)
Definition rates (cluster framework : string) (ev : scan_event) : list float64 :=
  if is_result cluster "success" ev
  then map fr_PassRate (List.filter (λ fw, fr_Framework fw =s framework) (rep_Compliance (se_rep ev))) else [].

Lemma value_of_insert {K A} `{Countable K} (d : A) (m : gmap K A) k v k' :
  value_of d (<[k := v]> m) k' = if decide (k = k') then v else value_of d m k'.
Proof. unfold value_of. rewrite lookup_insert. by case_decide. Qed.

Lemma foldl_gauges {A} (key : A → string) (val : A → float64) (c : string) (l : list A)
    (g : gmap (string * string) float64) (c' k : string) :
  foldl (λ g x, <[(c, key x) := val x]> g) g l !! (c', k) =
  if c =s c' then match last (map val (List.filter (λ x, key x =s k) l)) with Some v => Some v | None => g !! (c', k) end
  else g !! (c', k).
Proof.
  revert g. induction l as [|x l IH] using rev_ind; intros g; [by destruct (c =s c')|].
  rewrite foldl_app, List.filter_app, map_app. cbn [foldl List.filter]. rewrite lookup_insert, IH.
  destruct (String.eqb_spec c c') as [->|Hc]; [|by rewrite decide_False by congruence].
  destruct (String.eqb_spec (key x) k) as [->|Hk]; cbn [map].
  - by rewrite decide_True, last_snoc by done.
  - by rewrite decide_False, app_nil_r by congruence.
Qed.

Lemma filter_snoc {A} (p : A → bool) l x : List.filter p (l ++ [x]) = List.filter p l ++ (if p x then [x] else []).
Proof. by rewrite List.filter_app. Qed.

Lemma replay_snoc evs ev : replay (evs ++ [ev]) = recordScan (se_cluster ev) (se_result ev) (se_dur ev) (se_rep ev) (replay evs).
Proof. unfold replay. by rewrite foldl_app. Qed.

Lemma gauged_once sev : sev ∈ gauged_severities → List.filter (λ x, x =s sev) gauged_severities = [sev].
Proof.
  intros H. repeat (apply elem_of_cons in H as [->|H]; [reflexivity|]). by apply elem_of_nil in H.
Qed.

Lemma counters_spec evs c r :
  value_of 0%Z (m_scansTotal (replay evs)) (c, r) = count (is_result c r) evs ∧
  value_of [] (m_scanDuration (replay evs)) (c, r) = map (λ ev, Seconds (se_dur ev)) (List.filter (is_result c r) evs).
Proof.
  induction evs as [|ev evs [IH1 IH2]] using rev_ind; [done|].
  rewrite replay_snoc, count_app, count_cons, count_nil, filter_snoc, map_app, <-IH1, <-IH2.
  assert (m_scansTotal (recordScan (se_cluster ev) (se_result ev) (se_dur ev) (se_rep ev) (replay evs)) =
    inc (se_cluster ev, se_result ev) (m_scansTotal (replay evs)) ∧
    m_scanDuration (recordScan (se_cluster ev) (se_result ev) (se_dur ev) (se_rep ev) (replay evs)) =
    observe (se_cluster ev, se_result ev) (Seconds (se_dur ev)) (m_scanDuration (replay evs))) as [-> ->]
    by (unfold recordScan; by destruct (_ <>s _)).
  unfold inc, observe. rewrite !value_of_insert. unfold is_result.
  destruct (String.eqb_spec (se_cluster ev) c) as [<-|]; cbn [andb].
  - destruct (String.eqb_spec (se_result ev) r) as [<-|].
    + by rewrite !decide_True by done.
    + rewrite !decide_False by congruence. cbn. by rewrite app_nil_r, Z.add_0_r.
  - rewrite !decide_False by congruence. cbn. by rewrite app_nil_r, Z.add_0_r.
Qed.

Lemma findings_gauge evs c sev :
  sev ∈ gauged_severities →
  m_findings (replay evs) !! (c, sev) =
  (λ ev, float_of_int (map_get 0%Z (ps_BySeverity (rep_Posture (se_rep ev))) sev)) <$>
    last (List.filter (is_result c "success") evs).
Proof.
  intros Hsev. induction evs as [|ev evs IH] using rev_ind; [apply lookup_empty|].
  rewrite replay_snoc, filter_snoc. unfold recordScan, is_result in *.
  destruct (String.eqb_spec (se_result ev) "success"); cbn [negb m_findings].
  - rewrite (foldl_gauges (λ x, x)), gauged_once by done. cbn [map last].
    destruct (se_cluster ev =s c); cbn [andb]; [by rewrite last_snoc|]. by rewrite app_nil_r, <-IH.
  - by rewrite andb_false_r, app_nil_r, <-IH.
Qed.

Lemma pass_rate_gauge evs c fw :
  m_passRate (replay evs) !! (c, fw) = last (flat_map (rates c fw) evs).
Proof.
  induction evs as [|ev evs IH] using rev_ind; [apply lookup_empty|].
  rewrite replay_snoc, flat_map_app. cbn [flat_map]. rewrite app_nil_r. unfold recordScan, rates at 2, is_result.
  destruct (String.eqb_spec (se_result ev) "success"); cbn [negb m_passRate].
  - rewrite (foldl_gauges fr_Framework), IH. destruct (se_cluster ev =s c); cbn [andb]; [|by rewrite app_nil_r].
    by rewrite last_app.
  - by rewrite IH, andb_false_r, app_nil_r.
Qed.

(** * The recorded scans are the scans that ran *)

Lemma publish_sources t ev st st' : publish t ev st = Some st' → s_sources st' = s_sources st.
Proof. unfold publish. intros (b & _ & [= <-])%bind_Some. done. Qed.

(** What is recorded is the outcome of the scan. *)
Lemma scan_metrics_outcome e t c subj sid dur st st' scan m :
  runScanWithID e t c subj sid st = Some (st', scan) →
  ∃ rep, scan_metrics e c dur st m =
    recordScan c (if sn_Status scan =s ScanSucceeded then "success" else "failure") dur rep m ∧
    (sn_Status scan = ScanSucceeded → runScanner e st c = Ok rep).
Proof.
  intros (st1 & H1 & H)%bind_Some. apply bind_Some in H as (st2 & H2 & H).
  assert (runScanner e st2 c = runScanner e st c) as E.
  { unfold runScanner. by rewrite (publish_sources _ _ _ _ H2), (publish_sources _ _ _ _ H1). }
  rewrite E in H. unfold scan_metrics. destruct (runScanner e st c) as [rep|er].
  - exists rep. destruct (RecordScan t c sid rep (now e 1) (s_store st2)) as [m' scan'] eqn:Er.
    apply bind_Some in H as (st3 & _ & H). apply bind_Some in H as (st4 & _ & [= _ <-]).
    rewrite RecordScan_eq in Er. by injection Er as _ <-.
  - exists zero_report. apply bind_Some in H as (st3 & _ & [= _ <-]). done.
Qed.

(** C37: After any scans, in any order, the collectors describe them: each counter and histogram
    of a cluster and an outcome has one entry per such scan, in order; the findings gauges of a
    cluster are the counts of its last successful scan, and a framework's pass rate is the last one
    that a successful scan of the cluster reported, kept through failed scans and through scans that
    do not report the framework. *)
Theorem metrics_describe evs c :
  let m := replay evs in
  (∀ r, value_of 0%Z (m_scansTotal m) (c, r) = count (is_result c r) evs ∧
        value_of [] (m_scanDuration m) (c, r) = map (λ ev, Seconds (se_dur ev)) (List.filter (is_result c r) evs)) ∧
  (∀ sev, sev ∈ gauged_severities →
     m_findings m !! (c, sev) =
     (λ ev, float_of_int (map_get 0%Z (ps_BySeverity (rep_Posture (se_rep ev))) sev)) <$>
       last (List.filter (is_result c "success") evs)) ∧
  (∀ fw, m_passRate m !! (c, fw) = last (flat_map (rates c fw) evs)).
Proof.
  split; [intros r; apply counters_spec|]. split; [intros sev; apply findings_gauge|intros fw; apply pass_rate_gauge].
Qed.

(** The labels name the cluster and not its tenant: when two tenants have a cluster of the same
    id, the gauges show whichever was scanned last. *)
Lemma gauges_shared evs ev sev :
  se_result ev = "success" → sev ∈ gauged_severities →
  m_findings (replay (evs ++ [ev])) !! (se_cluster ev, sev) =
  Some (float_of_int (map_get 0%Z (ps_BySeverity (rep_Posture (se_rep ev))) sev)).
Proof.
  intros Hr Hsev. rewrite findings_gauge, filter_snoc by done. unfold is_result. rewrite Hr, !String.eqb_refl. cbn [andb].
  by rewrite last_snoc.
Qed.
