(* ===== verification/Http.v ===== *)
(** The HTTP layers around the dashboard's handlers: the middleware of security.go, logging.go,
    metrics.go and auth.go in the order in which routes() of api.go stacks them.

    A layer takes a handler to a handler, as in the code.  A handler gets the service, the response
    headers set so far and the request; it replies, or panics, which keeps the headers and what the
    outer layers have changed.  [Limiter] is the token bucket of golang.org/x/time/rate, [expose]
    the text of the exposition, [Recoverer] chi's middleware; they are parameters. *)

From S2P Require Import Prelude GoStrings GoJson GoFloat GoTime Api Lifecycle MemStore Auth Broker.
From S2P Require Import FindingQuery Sources Handlers Service Metrics.

(** * Requests and replies *)

Inductive target := Healthz | Readyz | MetricsPage | V1 (r : route).

(** A request as the router sees it: [q_pattern] is the pattern that chi reports once it has
    routed, [q_principal] what the context carries, [q_now] the limiter's clock, [q_took] and
    [q_observed] the durations that the logger and the metrics layer measure. *)
Record hreq := mkHreq {
  q_method : string;
  q_path : string;
  q_pattern : string;
  q_id : string;
  q_length : Z;
  q_authorization : string;
  q_origin : string;
  q_principal : option Principal;
  q_now : instant;
  q_took : Z;
  q_observed : Z;
  q_target : target
}.

(** [r.WithContext(withPrincipal(ctx, p))]: a copy of the request. *)
Definition withPrincipal (p : Principal) (q : hreq) : hreq :=
  mkHreq (q_method q) (q_path q) (q_pattern q) (q_id q) (q_length q) (q_authorization q) (q_origin q) (Some p)
    (q_now q) (q_took q) (q_observed q) (q_target q).

Inductive text := Plain (s : string) | Encoded (b : body).

Record reply := mkReply {
  rp_status : Z;
  rp_headers : list (string * string);
  rp_body : text
}.

(** [h.Set(k, v)] *)
Definition set_header (k v : string) (hs : list (string * string)) : list (string * string) :=
  List.filter (λ h, h.1 <>s k) hs ++ [(k, v)].

Definition header (k : string) (hs : list (string * string)) : option string :=
  snd <$> List.find (λ h, h.1 =s k) hs.

Record log_line := mkLogLine {
  ll_request_id : string;
  ll_method : string;
  ll_path : string;
  ll_status : Z;
  ll_duration_ms : Z;
  ll_tenant : string
}.

(** The method each route is registered under. *)
Definition route_method (r : route) : string :=
  match r with
  | PostClusters _ | PostScans _ | PostState _ _ | PostWaiver _ _ | PostTenants _ => "POST"
  | DeleteClusters _ | DeleteWaiver _ | DeleteTenants _ => "DELETE"
  | _ => "GET"
  end.

Section http.
Variable Limiter : Type.
Variable NewLimiter : float64 → Z → Limiter.
Variable Allow : instant → Limiter → Limiter * bool.
Variable expose : Metrics → string.

(** * The rate limiter: security.go *)

Record tenantRateLimiter := mkRateLimiter {
  rl_rps : float64;
  rl_burst : Z;
  rl_limit : gmap string Limiter
}.

Definition newTenantRateLimiter (rps : float64) (burst : Z) : tenantRateLimiter := mkRateLimiter rps burst ∅.

(** The part of [New] that sets the limiter up. *)
Definition configured_limiter (rps : float64) (burst : Z) : option tenantRateLimiter :=
  if flt fzero rps then Some (newTenantRateLimiter rps (if (burst <=? 0)%Z then 1 else burst)) else None.

Definition limiterFor (tenant : string) (rl : tenantRateLimiter) : tenantRateLimiter * Limiter :=
  match rl_limit rl !! tenant with
  | Some l => (rl, l)
  | None => let l := NewLimiter (rl_rps rl) (rl_burst rl) in
            (mkRateLimiter (rl_rps rl) (rl_burst rl) (<[tenant := l]> (rl_limit rl)), l)
  end.

(** [t.limiterFor(tenant).Allow()] *)
Definition allow (tenant : string) (at_ : instant) (rl : tenantRateLimiter) : tenantRateLimiter * bool :=
  let '(rl, l) := limiterFor tenant rl in
  let '(l, ok) := Allow at_ l in
  (mkRateLimiter (rl_rps rl) (rl_burst rl) (<[tenant := l]> (rl_limit rl)), ok).

(** * The service *)

Record service := mkService {
  sv_state : state;
  sv_metrics : Metrics;
  sv_rl : option tenantRateLimiter;
  sv_log : list log_line
}.

Definition set_state (st : state) (sv : service) : service := mkService st (sv_metrics sv) (sv_rl sv) (sv_log sv).
Definition set_metrics (m : Metrics) (sv : service) : service := mkService (sv_state sv) m (sv_rl sv) (sv_log sv).
Definition set_rl (rl : tenantRateLimiter) (sv : service) : service :=
  mkService (sv_state sv) (sv_metrics sv) (Some rl) (sv_log sv).
Definition log (l : log_line) (sv : service) : service :=
  mkService (sv_state sv) (sv_metrics sv) (sv_rl sv) (sv_log sv ++ [l]).

Inductive outcome :=
| Replied (sv : service) (rp : reply)
| Panicked (sv : service) (hs : list (string * string)).

Definition handler : Type := service → list (string * string) → hreq → outcome.
Definition middleware : Type := handler → handler.

(** [writeJSON], a file download, or no content. *)
Definition write (resp : response) (sv : service) (hs : list (string * string)) : outcome :=
  Replied sv (mkReply (rs_code resp)
    (match rs_body resp with
     | BNone => hs
     | BExport contentType disposition _ =>
         set_header "Content-Disposition" disposition (set_header "Content-Type" contentType hs)
     | _ => set_header "Content-Type" "application/json" hs
     end) (Encoded (rs_body resp))).

Definition writeError (code : Z) (msg : string) (sv : service) (hs : list (string * string)) : outcome :=
  write (error code msg) sv hs.

(** * Layers *)

(** chi's Recoverer: a reply passes, a panic becomes a 500 with the headers set so far. *)
Variable Recoverer : middleware.

Definition recovers : Prop := ∀ next sv hs q,
  Recoverer next sv hs q =
  match next sv hs q with
  | Panicked sv hs => Replied sv (mkReply 500 hs (Plain ""))
  | o => o
  end.

Definition requestLogger : middleware := λ next sv hs q,
  match next sv hs q with
  | Replied sv rp =>
      let tenant := match q_principal q with Some p => p_Tenant p | None => "" end in
      Replied (log (mkLogLine (q_id q) (q_method q) (q_path q) (rp_status rp) (Z.quot (q_took q) 1000000) tenant) sv) rp
  | o => o
  end.

Definition metricsMiddleware : middleware := λ next sv hs q,
  match next sv hs q with
  | Replied sv rp =>
      let route := if q_pattern q <>s "" then q_pattern q else q_path q in
      Replied (set_metrics (observe_http route (q_method q) (rp_status rp) (q_observed q) (sv_metrics sv)) sv) rp
  | o => o
  end.

Definition security_headers (hsts : bool) : list (string * string) :=
  [("Content-Security-Policy", "default-src 'none'; frame-ancestors 'none'; base-uri 'none'");
   ("X-Content-Type-Options", "nosniff");
   ("X-Frame-Options", "DENY");
   ("Referrer-Policy", "no-referrer");
   ("Cross-Origin-Resource-Policy", "same-origin")] ++
  (if hsts then [("Strict-Transport-Security", "max-age=63072000; includeSubDomains")] else []).

Definition securityHeaders (hsts : bool) : middleware := λ next sv hs q,
  next sv (foldl (λ hs h, set_header h.1 h.2 hs) hs (security_headers hsts)) q.

(** Reading past the cap is an error of reading the body, which a handler sees as no JSON. *)
Definition limitBody (maxBytes : Z) : middleware := λ next sv hs q,
  if (maxBytes <? q_length q)%Z then writeError 413 "request body too large" sv hs else next sv hs q.

Definition authMiddleware (a : API) : middleware := λ next sv hs q,
  match a_auth a (q_authorization q) with
  | None => writeError 401 "unauthenticated" sv hs
  | Some p => next sv hs (withPrincipal p q)
  end.

Definition unsafe_method (m : string) : bool := mem_str m ["POST"; "PUT"; "PATCH"; "DELETE"].

Definition csrfOrigin (allowed : list string) : middleware := λ next sv hs q,
  let allow := map trim_slash allowed in
  if Nat.ltb 0 (length allow) && unsafe_method (q_method q) then
    let origin := trim_slash (q_origin q) in
    if (origin <>s "") && negb (mem_str origin allow)
    then writeError 403 "cross-origin request rejected" sv hs else next sv hs q
  else next sv hs q.

Definition rateLimit : middleware := λ next sv hs q,
  match sv_rl sv with
  | None => next sv hs q
  | Some rl =>
      let tenant := match q_principal q with Some p => p_Tenant p | None => "anon" end in
      let '(rl, ok) := allow tenant (q_now q) rl in
      let sv := set_rl rl sv in
      if negb ok then writeError 429 "rate limit exceeded" sv (set_header "Retry-After" "1" hs) else next sv hs q
  end.

(** [requireRole] or [requireSuperAdmin] of the route, then its handler; a handler without a
    principal has the zero one. *)
Definition v1_handler (a : API) (e : env) (r : route) : handler := λ sv hs q,
  match q_principal q, route_guard a r with
  | None, (MinRole _ _ | SuperAdmin _) => writeError 401 "unauthenticated" sv hs
  | po, g =>
      let p := default (mkPrincipal "" "" "" false) po in
      match require e p g (sv_state sv) with
      | Some (st, resp) => write resp (set_state st sv) hs
      | None => match handle a e p r (sv_state sv) with
                | Some (st, resp) => write resp (set_state st sv) hs
                | None => Panicked sv hs
                end
      end
  end.

Definition router (a : API) (e : env) : handler := λ sv hs q,
  match q_target q with
  | Healthz => Replied sv (mkReply 200 hs (Plain "ok"))
  | Readyz => Replied sv (mkReply 200 hs (Plain "ready"))
  | MetricsPage => Replied sv (mkReply 200 hs (Plain (expose (sv_metrics sv))))
  | V1 r => authMiddleware a (csrfOrigin (a_allowedOrigins a) (rateLimit (v1_handler a e r))) sv hs q
  end.

Definition routes (a : API) (e : env) (hsts : bool) : handler :=
  Recoverer (requestLogger (metricsMiddleware (securityHeaders hsts (limitBody (a_maxBody a) (router a e))))).

(** * The stack refines the flat request of Handlers.v *)

Definition as_request (q : hreq) (r : route) : request := mkRequest (q_authorization q) (q_origin q) (q_length q) r.

(** The limiter's answer to a request of tenant [t] at [at_]. *)
Definition allowed_by (rl : option tenantRateLimiter) (at_ : instant) (t : string) : bool :=
  match rl with None => true | Some rl => (allow t at_ rl).2 end.

Definition with_limiter (e : env) (rl : option tenantRateLimiter) (at_ : instant) : env :=
  mkEnv (e_clock e) (e_newID e) (e_scan e) (e_ctxErr e) (allowed_by rl at_) (e_stat e) (e_sarif e) (e_pdf e).

Lemma unsafe_of_route r : unsafe_method (route_method r) = unsafe r.
Proof. by destruct r. Qed.

Lemma csrf_agrees a q r :
  q_method q = route_method r →
  csrf_rejects a (as_request q r) =
  (let allow := map trim_slash (a_allowedOrigins a) in
   (Nat.ltb 0 (length allow) && unsafe_method (q_method q)) &&
   ((trim_slash (q_origin q) <>s "") && negb (mem_str (trim_slash (q_origin q)) allow))).
Proof. intros ->. rewrite unsafe_of_route. unfold csrf_rejects. cbn. by destruct (_ && unsafe r). Qed.

Lemma handle_limiter a e rl at_ p r st : handle a (with_limiter e rl at_) p r st = handle a e p r st.
Proof.
  destruct r; cbn [handle]; unfold handleRegisterCluster, handleDeleteCluster, handleTriggerScan, handleReport,
    handleListLifecycle, handleSetState, handleCreateWaiver, handleDeleteWaiver, handleProvisionTenant,
    handleDeleteTenant, export, RunScan, runScanWithID, runScanner, now;
    cbn [with_limiter e_clock e_newID e_scan e_ctxErr e_stat e_sarif e_pdf]; reflexivity.
Qed.

Lemma require_limiter e rl at_ p g st : require (with_limiter e rl at_) p g st = require e p g st.
Proof. destruct g; cbn [require]; unfold now; cbn [with_limiter e_clock]; reflexivity. Qed.

(** The reply of a layer carries the flat result, and the headers it was given. *)
Definition own_headers : list string := ["Content-Type"; "Content-Disposition"; "Retry-After"].

Definition keeps (hs hs' : list (string * string)) : Prop := ∀ k, k ∉ own_headers → header k hs' = header k hs.

Definition agrees (flat : option (state * response)) (st : state) (hs : list (string * string)) (o : outcome) : Prop :=
  match flat, o with
  | Some (st', resp), Replied sv rp =>
      sv_state sv = st' ∧ rp_status rp = rs_code resp ∧ rp_body rp = Encoded (rs_body resp) ∧ keeps hs (rp_headers rp)
  | None, Panicked sv hs' => sv_state sv = st ∧ keeps hs hs'
  | _, _ => False
  end.

Lemma header_set k k' v hs : header k (set_header k' v hs) = if k' =s k then Some v else header k hs.
Proof.
  unfold header, set_header. induction hs as [|h hs IH].
  - cbn. by destruct (k' =s k).
  - cbn [List.filter]. destruct (String.eqb_spec h.1 k') as [E|Hne]; cbn [negb app List.find].
    + rewrite IH. destruct (String.eqb_spec k' k) as [->|]; [done|].
      by rewrite (proj2 (String.eqb_neq _ _)) by congruence.
    + destruct (String.eqb_spec h.1 k) as [<-|]; [|exact IH].
      by rewrite (proj2 (String.eqb_neq _ _)) by congruence.
Qed.

Lemma keeps_refl hs : keeps hs hs.
Proof. done. Qed.

Lemma keeps_set k v hs hs' : k ∈ own_headers → keeps hs hs' → keeps hs (set_header k v hs').
Proof.
  intros Hk H k' Hk'. rewrite header_set. destruct (String.eqb_spec k k') as [->|]; [done|by apply H].
Qed.

Lemma write_agrees resp sv hs hs' st st0 :
  sv_state sv = st → keeps hs hs' → agrees (Some (st, resp)) st0 hs (write resp sv hs').
Proof.
  intros Hst Hk. cbn. split_and!; [done..|]. cbn [rp_headers].
  destruct (rs_body resp); try done; repeat (apply keeps_set; [by apply mem_str_spec|]); done.
Qed.

(** What the layers around the handlers do, before headers, metrics and the log. *)
Lemma router_serves a e sv hs q r :
  q_target q = V1 r → q_method q = route_method r → a_rateLimited a = (if sv_rl sv then true else false) →
  agrees (serve a (with_limiter e (sv_rl sv) (q_now q)) (as_request q r) (sv_state sv)) (sv_state sv) hs
    (limitBody (a_maxBody a) (router a e) sv hs q).
Proof.
  intros Ht Hm Hrl. unfold limitBody, serve. rewrite (csrf_agrees a q r Hm).
  cbn [as_request rq_length rq_authorization rq_route].
  destruct (a_maxBody a <? q_length q)%Z; [by apply write_agrees|].
  unfold router, authMiddleware. rewrite Ht. destruct (a_auth a (q_authorization q)) as [p|]; [|by apply write_agrees].
  unfold csrfOrigin. cbn [q_method q_origin withPrincipal].
  match goal with |- context [if ?b then (if ?c then writeError _ _ _ _ else ?k) else _] =>
    set (X := k); replace (if b then (if c then writeError 403 "cross-origin request rejected" sv hs else X) else X)
      with (if b && c then writeError 403 "cross-origin request rejected" sv hs else X) by (by destruct b, c);
    destruct (b && c); [by apply write_agrees|] end.
  subst X. unfold rateLimit. cbn [e_allow with_limiter].
  assert (∀ sv' hs', sv_state sv' = sv_state sv → keeps hs hs' →
    agrees (match require e p (route_guard a r) (sv_state sv) with
            | Some denied => Some denied | None => handle a e p r (sv_state sv) end) (sv_state sv) hs
      (v1_handler a e r sv' hs' (withPrincipal p q))) as Hv.
  { intros sv' hs' Hst Hk. unfold v1_handler. cbn [q_principal withPrincipal default from_option]. rewrite Hst.
    change (id p) with p. destruct (require e p (route_guard a r) (sv_state sv)) as [[st1 r1]|]; [by apply write_agrees|].
    destruct (handle a e p r (sv_state sv)) as [[st1 r1]|]; [by apply write_agrees|done]. }
  rewrite Hrl, require_limiter, handle_limiter. destruct (sv_rl sv) as [rl|]; [|by apply Hv].
  cbn [q_principal withPrincipal q_now allowed_by andb]. destruct (allow (p_Tenant p) (q_now q) rl) as [rl' ok].
  cbn [snd]. destruct ok; cbn [negb]; [by apply Hv|].
  apply write_agrees; [done|]. by apply keeps_set; [apply mem_str_spec|].
Qed.

(** * What the outer layers add *)

Definition out_service (o : outcome) : service := match o with Replied sv _ | Panicked sv _ => sv end.

(** The bucket of a tenant. *)
Definition bucket (sv : service) (t : string) : option Limiter := rl ← sv_rl sv; rl_limit rl !! t.

(** The inner layers write no log line and no metric, and touch only the caller's bucket. *)
Lemma inner_frame a e sv hs q :
  let sv' := out_service (limitBody (a_maxBody a) (router a e) sv hs q) in
  sv_log sv' = sv_log sv ∧ sv_metrics sv' = sv_metrics sv ∧
  (∀ t, (∀ p, a_auth a (q_authorization q) = Some p → p_Tenant p ≠ t) → bucket sv' t = bucket sv t).
Proof.
  cbn zeta. unfold limitBody. destruct (_ <? _)%Z; [done|]. unfold router. destruct (q_target q) as [| | |r]; try done.
  unfold authMiddleware. destruct (a_auth a (q_authorization q)) as [p|]; [|done].
  assert (∀ sv, let sv' := out_service (v1_handler a e r sv hs (withPrincipal p q)) in
    sv_log sv' = sv_log sv ∧ sv_metrics sv' = sv_metrics sv ∧ sv_rl sv' = sv_rl sv) as Hv.
  { intros sv0. cbn zeta. unfold v1_handler. cbn [q_principal withPrincipal].
    destruct (require _ _ _ _) as [[st1 r1]|]; [done|]. by destruct (handle _ _ _ _ _) as [[st1 r1]|]. }
  assert (let sv' := out_service (rateLimit (v1_handler a e r) sv hs (withPrincipal p q)) in
    sv_log sv' = sv_log sv ∧ sv_metrics sv' = sv_metrics sv ∧ ∀ t, p_Tenant p ≠ t → bucket sv' t = bucket sv t) as Hl.
  { cbn zeta. unfold rateLimit. destruct (sv_rl sv) as [rl|] eqn:Erl.
    2: { destruct (Hv sv) as (-> & -> & H). split_and!; [done..|]. intros t _. unfold bucket. by rewrite H. }
    cbn [q_principal withPrincipal q_now].
    destruct (allow (p_Tenant p) (q_now q) rl) as [rl' ok] eqn:Ea.
    assert (∀ t, p_Tenant p ≠ t → rl_limit rl' !! t = rl_limit rl !! t) as Hother.
    { intros t Ht. unfold allow, limiterFor in Ea.
      destruct (rl_limit rl !! p_Tenant p) as [l|]; [|set (l := NewLimiter _ _) in Ea];
        destruct (Allow (q_now q) l) as [l' ok']; injection Ea as <- _; cbn [rl_limit];
        by rewrite !lookup_insert_ne by done. }
    destruct ok; cbn [negb].
    - destruct (Hv (set_rl rl' sv)) as (-> & -> & H). split_and!; [done..|]. intros t Ht. unfold bucket. rewrite H, Erl.
      by apply Hother.
    - split_and!; [done..|]. intros t Ht. unfold bucket. cbn. rewrite Erl. by apply Hother. }
  destruct Hl as (H1 & H2 & H3).
  assert (∀ t, (∀ p', Some p = Some p' → p_Tenant p' ≠ t) → p_Tenant p ≠ t) as Ht by (intros t Ht; by apply Ht).
  unfold csrfOrigin. cbn [q_method q_origin withPrincipal].
  destruct (_ && _); [destruct (_ && _); [done|]|]; split_and!; auto.
Qed.

Lemma security_headers_set hsts :
  ∀ k v, (k, v) ∈ security_headers hsts → header k (foldl (λ hs h, set_header h.1 h.2 hs) [] (security_headers hsts)) = Some v.
Proof.
  intros k v H. destruct hsts; cbn [security_headers app] in H;
    repeat (apply elem_of_cons in H as [[= -> ->]|H]; [reflexivity|]); by apply elem_of_nil in H.
Qed.

Lemma own_not_security hsts k v : (k, v) ∈ security_headers hsts → k ∉ own_headers.
Proof.
  intros H Hk%mem_str_spec. destruct hsts; cbn [security_headers app] in H;
    repeat (apply elem_of_cons in H as [[= -> ->]|H]; [discriminate|]); by apply elem_of_nil in H.
Qed.


(** Every request that does not panic leaves exactly one access-log line and one latency
    observation, under the pattern the router matched, with the status of its reply; the line's
    tenant is always empty, also for authenticated requests: the logger reads the request it was
    given, and the principal is put on a copy of it further in.  A request that panics leaves
    neither line nor observation. *)
Theorem access_log a e hsts sv q :
  recovers → q_principal q = None →
  ∃ sv' rp, routes a e hsts sv [] q = Replied sv' rp ∧
    ((sv_log sv' = sv_log sv ++
        [mkLogLine (q_id q) (q_method q) (q_path q) (rp_status rp) (Z.quot (q_took q) 1000000) ""] ∧
      sv_metrics sv' = observe_http (if q_pattern q <>s "" then q_pattern q else q_path q) (q_method q) (rp_status rp)
                         (q_observed q) (sv_metrics sv)) ∨
     (rp_status rp = 500%Z ∧ rp_body rp = Plain "" ∧ sv_log sv' = sv_log sv ∧ sv_metrics sv' = sv_metrics sv)).
Proof.
  intros HR Hp. unfold routes. rewrite HR. unfold requestLogger, metricsMiddleware, securityHeaders. rewrite Hp.
  set (hs := foldl _ [] _). destruct (inner_frame a e sv hs q) as (H1 & H2 & _).
  destruct (limitBody _ _ _ _ _) as [sv' rp|sv' hs']; cbn [out_service] in *;
    (eexists _, _; split; [reflexivity|]); [left|by right].
  cbn [log set_metrics sv_log sv_metrics]. by rewrite H1, H2.
Qed.

Lemma allow_bucket t at_ rl1 rl2 :
  rl_rps rl1 = rl_rps rl2 → rl_burst rl1 = rl_burst rl2 → rl_limit rl1 !! t = rl_limit rl2 !! t →
  (allow t at_ rl1).2 = (allow t at_ rl2).2 ∧
  rl_limit (allow t at_ rl1).1 !! t = rl_limit (allow t at_ rl2).1 !! t.
Proof.
  intros Hr Hb Hl. unfold allow, limiterFor. rewrite Hr, Hb, Hl.
  destruct (rl_limit rl2 !! t) as [l|]; [|set (l := NewLimiter _ _)]; destruct (Allow at_ l) as [l' ok]; cbn;
    by rewrite !lookup_insert_eq.
Qed.

(** Two outcomes that differ only in what the service keeps about other tenants. *)
Definition alike (t : string) (o1 o2 : outcome) : Prop :=
  match o1, o2 with
  | Replied s1 r1, Replied s2 r2 => r1 = r2 ∧ sv_state s1 = sv_state s2 ∧ bucket s1 t = bucket s2 t
  | Panicked s1 h1, Panicked s2 h2 => h1 = h2 ∧ sv_state s1 = sv_state s2 ∧ bucket s1 t = bucket s2 t
  | _, _ => False
  end.

Lemma v1_alike a e r s1 s2 hs q t :
  sv_state s1 = sv_state s2 → bucket s1 t = bucket s2 t →
  alike t (v1_handler a e r s1 hs q) (v1_handler a e r s2 hs q).
Proof.
  intros E1 E2. unfold v1_handler. rewrite E1.
  destruct (q_principal q); [|destruct (route_guard a r); try by split_and!];
    (destruct (require _ _ _ _) as [[st1 r1]|]; [by split_and!|]; by destruct (handle _ _ _ _ _) as [[st1 r1]|]).
Qed.

Section two_services.
Variable (a : API) (e : env) (q : hreq) (p : Principal) (sv1 sv2 : service) (rl1 rl2 : tenantRateLimiter).
Hypothesis Ha : a_auth a (q_authorization q) = Some p.
Hypothesis H1 : sv_rl sv1 = Some rl1.
Hypothesis H2 : sv_rl sv2 = Some rl2.
Hypothesis Hrps : rl_rps rl1 = rl_rps rl2.
Hypothesis Hburst : rl_burst rl1 = rl_burst rl2.
Hypothesis Hbucket : rl_limit rl1 !! p_Tenant p = rl_limit rl2 !! p_Tenant p.
Hypothesis Hst : sv_state sv1 = sv_state sv2.
Hypothesis Hm : sv_metrics sv1 = sv_metrics sv2.

Lemma rateLimit_alike r hs :
  alike (p_Tenant p) (rateLimit (v1_handler a e r) sv1 hs (withPrincipal p q))
    (rateLimit (v1_handler a e r) sv2 hs (withPrincipal p q)).
Proof.
  unfold rateLimit. rewrite H1, H2. cbn [q_principal withPrincipal q_now].
  destruct (allow_bucket (p_Tenant p) (q_now q) rl1 rl2 Hrps Hburst Hbucket) as [Hok Hbk].
  destruct (allow (p_Tenant p) (q_now q) rl1) as [r1 ok1], (allow (p_Tenant p) (q_now q) rl2) as [r2 ok2].
  cbn [fst snd] in *. rewrite <-Hok. destruct ok1; cbn [negb]; [by apply v1_alike|by split_and!].
Qed.

Lemma inner_alike hs :
  alike (p_Tenant p) (limitBody (a_maxBody a) (router a e) sv1 hs q) (limitBody (a_maxBody a) (router a e) sv2 hs q).
Proof.
  assert (bucket sv1 (p_Tenant p) = bucket sv2 (p_Tenant p)) as Hbk by (unfold bucket; by rewrite H1, H2).
  unfold limitBody. destruct (_ <? _)%Z; [by split_and!|]. unfold router.
  destruct (q_target q) as [| | |r]; [by split_and!|by split_and!|rewrite Hm; by split_and!|].
  unfold authMiddleware. rewrite Ha. unfold csrfOrigin. cbn [q_method q_origin withPrincipal].
  destruct (_ && _); [destruct (_ && _); [by split_and!|]|]; apply rateLimit_alike.
Qed.
End two_services.

(** C13: Rate limiting is per tenant: the reply to a request, and what it does to the state, depend
    on no bucket but its own tenant's, and it leaves every other tenant's bucket as it was; so the
    traffic of one tenant never gets another tenant's request refused. *)
Theorem rate_limit_isolated a e hsts sv1 sv2 rl1 rl2 q p :
  recovers →
  a_auth a (q_authorization q) = Some p → sv_rl sv1 = Some rl1 → sv_rl sv2 = Some rl2 →
  rl_rps rl1 = rl_rps rl2 → rl_burst rl1 = rl_burst rl2 → rl_limit rl1 !! p_Tenant p = rl_limit rl2 !! p_Tenant p →
  sv_state sv1 = sv_state sv2 → sv_metrics sv1 = sv_metrics sv2 →
  ∃ sv1' sv2' rp, routes a e hsts sv1 [] q = Replied sv1' rp ∧ routes a e hsts sv2 [] q = Replied sv2' rp ∧
    sv_state sv1' = sv_state sv2' ∧ bucket sv1' (p_Tenant p) = bucket sv2' (p_Tenant p) ∧
    (∀ t, p_Tenant p ≠ t → bucket sv1' t = bucket sv1 t).
Proof.
  intros HR Ha H1 H2 Hr Hb Hl Hst Hm. unfold routes. rewrite !HR. unfold requestLogger, metricsMiddleware, securityHeaders.
  set (hs := foldl _ [] _).
  assert (∀ t, p_Tenant p ≠ t → bucket (out_service (limitBody (a_maxBody a) (router a e) sv1 hs q)) t = bucket sv1 t) as Hframe.
  { intros t Ht. apply inner_frame. rewrite Ha. by intros p' [= <-]. }
  pose proof (inner_alike a e q p sv1 sv2 rl1 rl2 Ha H1 H2 Hr Hb Hl Hst Hm hs) as H.
  destruct (limitBody _ _ sv1 _ _) as [s1 r1|s1 h1], (limitBody _ _ sv2 _ _) as [s2 r2|s2 h2]; try done;
    destruct H as (-> & E2 & E3); eexists _, _, _; (split; [reflexivity|]); (split; [reflexivity|]); by split_and!.
Qed.
End http.

(** * Witnesses: a bucket of ten tokens that never refills *)

Definition demo_new (rps : float64) (burst : Z) : nat := Z.to_nat burst.
Definition demo_allow (at_ : instant) (l : nat) : nat * bool := match l with O => (O, false) | S l => (l, true) end.
Definition demo_expose (m : Metrics) : string := "".

Definition demo_recoverer : middleware nat := λ next sv hs q,
  match next sv hs q with
  | Replied _ sv rp => Replied nat sv rp
  | Panicked _ sv hs => Replied nat sv (mkReply 500 hs (Plain ""))
  end.

Lemma demo_recovers : recovers nat demo_recoverer.
Proof. intros next sv hs q. unfold demo_recoverer. by destruct (next sv hs q). Qed.

Definition demo_hreq (tok : string) (r : route) : hreq :=
  mkHreq (route_method r) "/v1/x" "/v1/x" "id-1" 0 ("Bearer " +:+ tok) "" None 0%Z 1500000 1500000 (V1 r).

Definition limited_api : API := New demo_auth true true 0 0 true [] 0 (mkLifecycleConfig "" 0) "".

Definition b_exhausted : gmap string nat := {["b" := O]}.
Definition no_buckets : gmap string nat := ∅.
Definition fresh_buckets (buckets : gmap string nat) : tenantRateLimiter nat := mkRateLimiter nat fone 10 buckets.

Definition demo_service (buckets : gmap string nat) : service nat :=
  mkService nat demo_state newMetrics (Some (fresh_buckets buckets)) [].


Lemma access_log_witness :
  ∃ sv' rp, routes nat demo_new demo_allow demo_expose demo_recoverer limited_api demo_env true (demo_service no_buckets) []
    (demo_hreq "tok-a" GetClusters) = Replied nat sv' rp ∧ rp_status rp = 200%Z ∧
    map ll_tenant (sv_log nat sv') = [""].
Proof.
  destruct (access_log nat demo_new demo_allow demo_expose demo_recoverer limited_api demo_env true (demo_service no_buckets)
    (demo_hreq "tok-a" GetClusters) demo_recovers eq_refl) as (sv' & rp & H & Hl).
  exists sv', rp. split; [exact H|]. assert (rp_status rp = 200%Z) as Hs.
  { assert (match routes nat demo_new demo_allow demo_expose demo_recoverer limited_api demo_env true (demo_service no_buckets) []
      (demo_hreq "tok-a" GetClusters) with Replied _ _ rp => rp_status rp | _ => 0%Z end = 200%Z) as E
      by (vm_compute; reflexivity). by rewrite H in E. }
  split; [exact Hs|]. destruct Hl as [[-> _]|[Hbad _]]; [reflexivity|congruence].
Defined.

Lemma rate_limit_isolated_witness :
  let q := demo_hreq "tok-a" GetClusters in
  ∃ sv1' sv2' rp, routes nat demo_new demo_allow demo_expose demo_recoverer limited_api demo_env true (demo_service no_buckets) [] q = Replied nat sv1' rp ∧
    routes nat demo_new demo_allow demo_expose demo_recoverer limited_api demo_env true (demo_service b_exhausted) [] q = Replied nat sv2' rp.
Proof.
  intros q.
  destruct (rate_limit_isolated nat demo_new demo_allow demo_expose demo_recoverer limited_api demo_env true (demo_service no_buckets)
    (demo_service b_exhausted) (fresh_buckets no_buckets) (fresh_buckets b_exhausted) q demo_admin
    demo_recovers eq_refl eq_refl eq_refl eq_refl eq_refl ltac:(vm_compute; reflexivity) eq_refl eq_refl)
    as (sv1' & sv2' & rp & H1 & H2 & _).
  exists sv1', sv2', rp. split; [exact H1|exact H2].
Defined.
