(* ===== verification/DashboardCmd.v ===== *)
(** The dashboard command (internal/cli/dashboard.go): from flags to a service whose clusters are
    registered and scanned.

    Parameters: the environment variables, the file system, the loaders, the framework packs, the
    verification of JSON web tokens, and for each initial scan what it reads from outside.  The
    store is the in-memory one.  The schedule, tracing, retention and the listener are in
    DashboardRun.v. *)

From Stdlib Require Import Ascii.
From S2P Require Import Prelude GoStrings GoJson GoFloat GoFmt GoTime Api Model Compliance Analyzer Lifecycle MemStore.
From S2P Require Import Auth Broker FindingQuery Sources Handlers Service.

(** * Start-up *)

Record dashboardFlags := mkDashboardFlags {
  df_clusterSpecs : list string;
  df_profile : string;
  df_assumeBreach : bool;
  df_adminToken : string;
  df_tenant : string;
  df_brand : string;
  df_allowedOrig : list string;
  df_rateLimit : bool;
  df_asyncWorkers : Z;
  df_oidc : JWTConfig;
  df_oidcJWKSURL : string;
  df_addr : string;
  df_schedule : string;
  df_postgresDSN : string;
  df_retention : Z;
  df_tlsCert : string;
  df_tlsKey : string;
  df_otelEndpoint : string
}.

(** The loop over the [--cluster] flags. *)
Fixpoint add_specs (stat : string → option string) (specs : list string) (s : sourceRegistry) : res sourceRegistry :=
  match specs with
  | [] => Ok s
  | spec :: specs' =>
      match cut "="%char spec with
      | Some (cid, path) =>
          if (cid =s "") || (path =s "")
          then Err ("invalid --cluster " +:+ fmt_quote spec +:+ ", want id=<manifest-path|live[:context]>")
          else s ← wrap_err ("invalid --cluster " +:+ fmt_quote spec +:+ ": ") (AddSource stat cid path s);
               add_specs stat specs' s
      | None => Err ("invalid --cluster " +:+ fmt_quote spec +:+ ", want id=<manifest-path|live[:context]>")
      end
  end.

Section dashboard.
Variable packs : res (list Pack).
Variable ld : Loaders.
Variable stat : string → option string.
Variable getenv : string → string.
Variable ParseWithClaims : ParserOptions → string → option json_members.

Definition admin_token (f : dashboardFlags) : string :=
  let t := if df_adminToken f =s "" then getenv "KUBEGUARD_ADMIN_TOKEN" else df_adminToken f in
  if t =s "" then "local-admin" else t.

Definition local_admin (f : dashboardFlags) : Principal := mkPrincipal "local-admin" (df_tenant f) RoleAdmin false.

Definition local_auth (f : dashboardFlags) : Authenticator := StaticAuth {[admin_token f := local_admin f]}.

Definition command_auth (f : dashboardFlags) : Authenticator :=
  if (jc_Issuer (df_oidc f) <>s "") && (df_oidcJWKSURL f <>s "")
  then ChainAuth [JWTAuth ParseWithClaims (NewJWTAuth (df_oidc f)); local_auth f]
  else local_auth f.

Definition command_api (f : dashboardFlags) : API :=
  New (command_auth f) true true (df_asyncWorkers f) 0 (df_rateLimit f) (df_allowedOrig f) 0
    (mkLifecycleConfig "" 0) (df_brand f).

(** What a scan reads, with the command's scanner. *)
Definition scan_env (f : dashboardFlags) (e : env) : env :=
  mkEnv (e_clock e) (e_newID e) (λ src _ cid, scanner packs (df_profile f) (df_assumeBreach f) ld src cid)
    (e_ctxErr e) (e_allow e) (e_stat e) (e_sarif e) (e_pdf e).

Definition register_clusters (tenant : string) (cids : list string) (m : MemStore) : MemStore :=
  foldl (λ m cid, RegisterCluster tenant (mkCluster cid cid "" "" 0 fzero) m) m cids.

Fixpoint initial_scans (f : dashboardFlags) (base : nat → env) (i : nat) (cids : list string) (st : state)
    : option state :=
  match cids with
  | [] => Some st
  | cid :: cids' =>
      r ← RunScan (scan_env f (base i)) (df_tenant f) cid "init" st;
      initial_scans f base (S i) cids' r.1
  end.

(** The command up to the schedule, with the in-memory store; the inner [None] would be a panic. *)
Definition dashboard (f : dashboardFlags) (base : nat → env) : res (API * option state) :=
  if Nat.eqb (length (df_clusterSpecs f)) 0
  then Err "dashboard requires at least one --cluster id=<manifest-path>"
  else
    sources ← add_specs stat (df_clusterSpecs f) newSourceRegistry;
    let store := register_clusters (df_tenant f) (ids sources) NewMemStore in
    let st := mkState store ∅ NewBroker sources [] in
    Ok (command_api f, initial_scans f base 0 (ids sources) st).

(** * Lemmas *)

Lemma add_specs_Ok specs s s' :
  add_specs stat specs s = Ok s' →
  (∀ spec, spec ∈ specs → ∃ cid path, cut "="%char spec = Some (cid, path) ∧ cid ≠ "") ∧
  ∀ cid, is_Some (s' !! cid) ↔
    is_Some (s !! cid) ∨ ∃ spec path, spec ∈ specs ∧ cut "="%char spec = Some (cid, path).
Proof.
  revert s. induction specs as [|spec specs IH]; intros s; cbn [add_specs].
  - intros [= <-]. split; [by intros ? []%not_elem_of_nil|]. intros cid.
    split; [auto|]. by intros [?|(? & ? & []%not_elem_of_nil & _)].
  - destruct (cut "="%char spec) as [[cid0 path0]|] eqn:Ec; [|done].
    destruct (String.eqb_spec cid0 "") as [|Hne]; [done|]. destruct (path0 =s ""); [done|]. cbn [orb].
    destruct (AddSource stat cid0 path0 s) as [s1|] eqn:Ea; [|done]. cbn [wrap_err mbind res_bind].
    apply AddSource_Ok in Ea as (_ & _ & ->). intros [Hall H]%IH. setoid_rewrite elem_of_cons.
    split; [naive_solver|]. intros cid. rewrite (H cid), lookup_insert_is_Some.
    destruct (decide (cid0 = cid)) as [<-|]; naive_solver.
Qed.

Lemma clusters_register t c m cid :
  clusters (RegisterCluster t c m) t !! cid =
  if decide (cid = cl_ID c) then Some (default (new_cluster c) (clusters m t !! cid)) else clusters m t !! cid.
Proof.
  unfold RegisterCluster, clusters. destruct (ts_clusters (tenant m t) !! cl_ID c) eqn:E;
    rewrite tenant_put, String.eqb_refl; cbn [ts_clusters].
  - case_decide as Hc; [|done]. subst. by rewrite E.
  - destruct (decide (cid = cl_ID c)) as [->|Hne].
    + by rewrite lookup_insert_eq, E.
    + by rewrite lookup_insert_ne.
Qed.

Lemma register_clusters_spec t cids m cid :
  clusters (register_clusters t cids m) t !! cid =
  match clusters m t !! cid with
  | Some cs => Some cs
  | None => if decide (cid ∈ cids) then Some (new_cluster (mkCluster cid cid "" "" 0 fzero)) else None
  end.
Proof.
  unfold register_clusters. revert m. induction cids as [|c cids IH]; intros m; simpl; [by destruct (_ !! _)|].
  rewrite IH, clusters_register. cbn [cl_ID]. destruct (decide (cid = c)) as [->|Hne].
  - rewrite (decide_True (P := c ∈ c :: cids)) by left. by destruct (clusters m t !! c).
  - destruct (clusters m t !! cid); [done|]. repeat case_decide; set_solver.
Qed.

(** The clusters after a recorded scan. *)
Lemma clusters_scan t cid sid rep at_ fs u m cid' :
  clusters (run_ops [OpRecordScan t cid sid rep at_; OpSeed t cid fs u] m) t !! cid' =
  if decide (cid' = cid) then Some (after_scan (scanned m t cid) cid sid rep at_) else clusters m t !! cid'.
Proof.
  unfold run_ops, clusters. cbn [foldl apply_op].
  assert (∀ m', tenant (SeedFindings t cid fs u m') t = tenant m' t) as -> by done.
  rewrite RecordScan_eq. cbn [fst]. rewrite tenant_put, String.eqb_refl. cbn [ts_clusters]. rewrite lookup_insert.
  by destruct (decide (cid = cid')) as [->|]; case_decide.
Qed.

(** The scanner gives the same answer at every attempt. *)
Lemma runScanner_scanner f e st cid :
  match scanner packs (df_profile f) (df_assumeBreach f) ld (s_sources st) cid with
  | Ok rep => runScanner (scan_env f e) st cid = Ok rep
  | Err _ => ∃ er, runScanner (scan_env f e) st cid = Err er
  end.
Proof.
  unfold runScanner, attempts. cbn [run_attempts scan_env e_scan e_ctxErr].
  destruct (scanner _ _ _ _ _ _); [done|]. repeat destruct (e_ctxErr e _); eauto.
Qed.

(** What the initial scans leave of a cluster. *)
Definition scanned_once (f : dashboardFlags) (cids : list string) (st st' : state) (cid : string) : Prop :=
  let old := clusters (s_store st) (df_tenant f) !! cid in
  let new := clusters (s_store st') (df_tenant f) !! cid in
  if decide (cid ∈ cids)
  then match scanner packs (df_profile f) (df_assumeBreach f) ld (s_sources st) cid with
       | Ok rep => ∃ sid at_, new = Some (after_scan (scanned (s_store st) (df_tenant f) cid) cid sid rep at_)
       | Err _ => new = old
       end
  else new = old.

Lemma RunScan_once f e cid subj st :
  state_ok (command_api f) st →
  ∃ st' scan, RunScan (scan_env f e) (df_tenant f) cid subj st = Some (st', scan) ∧
    s_sources st' = s_sources st ∧ s_jobs st' = s_jobs st ∧ ∀ cid', scanned_once f [cid] st st' cid'.
Proof.
  intros Hok. destruct (runScanWithID_total (scan_env f e) (df_tenant f) cid subj (e_newID (scan_env f e)) st)
    as (st' & scan & H & _); [apply Hok|]. exists st', scan. split; [exact H|].
  apply runScanWithID_fields in H as (Hs & Hj & H). split; [done|]. split; [done|].
  pose proof (runScanner_scanner f e st cid) as Hsc. intros cid'. unfold scanned_once.
  destruct (scanner packs _ _ _ _ cid) as [rep|er] eqn:Esc.
  - rewrite Hsc in H. destruct H as (-> & _ & _). rewrite clusters_scan.
    destruct (decide (cid' = cid)) as [->|Hne].
    + rewrite decide_True by left. rewrite Esc. eauto.
    + by rewrite decide_False by set_solver.
  - destruct Hsc as [m Hm]. rewrite Hm in H. destruct H as (-> & _ & _).
    destruct (decide (cid' ∈ [cid])) as [->%list_elem_of_singleton|]; [by rewrite Esc|done].
Qed.

Lemma initial_scans_spec f base i cids st :
  served (command_api f) st → NoDup cids →
  ∃ st', initial_scans f base i cids st = Some st' ∧ served (command_api f) st' ∧
    s_sources st' = s_sources st ∧ s_jobs st' = s_jobs st ∧ ∀ cid, scanned_once f cids st st' cid.
Proof.
  revert i st. induction cids as [|c cids IH]; intros i st Hst Hnd; cbn [initial_scans].
  { by exists st. }
  apply NoDup_cons in Hnd as [Hc Hnd].
  destruct (RunScan_once f (base i) c "init" st (served_ok _ _ Hst)) as (st1 & scan & Hrun & Hs1 & Hj1 & Hsc1).
  rewrite Hrun. cbn [mbind option_bind fst].
  destruct (IH (S i) st1 (served_scan _ _ _ _ _ _ _ _ Hst Hrun) Hnd) as (st2 & -> & Hst2 & Hs2 & Hj2 & Hsc2).
  exists st2. split_and!; [done..|congruence|congruence|]. intros cid. specialize (Hsc1 cid). specialize (Hsc2 cid).
  unfold scanned_once in *. rewrite Hs1 in Hsc2.
  destruct (decide (cid = c)) as [->|Hne].
  - rewrite decide_False in Hsc2 by done. rewrite !decide_True in * by set_solver. by rewrite Hsc2.
  - rewrite (decide_False (P := cid ∈ [c])) in Hsc1 by set_solver.
    destruct (decide (cid ∈ cids)); [rewrite decide_True by set_solver|rewrite decide_False by set_solver].
    + assert (scanned (s_store st1) (df_tenant f) cid = scanned (s_store st) (df_tenant f) cid) as <-.
      { unfold scanned. unfold clusters in Hsc1. by rewrite Hsc1. }
      by rewrite <-Hsc1.
    + congruence.
Qed.

(** The state before the scans is one the service reaches. *)
Lemma served_registered a t src cids st :
  served a st → cids ≠ [] → served a (set_sources src (set_store (register_clusters t cids (s_store st)) st)).
Proof.
  revert st. induction cids as [|c cids IH]; intros st H Hne; [done|].
  pose proof (served_startup a st t src (mkCluster c c "" "" 0 fzero) H) as Hs.
  destruct cids as [|c' cids]; [exact Hs|]. exact (IH _ Hs ltac:(done)).
Qed.

(** The state when the scans begin. *)
Definition registered (f : dashboardFlags) (src : sourceRegistry) : state :=
  set_sources src (set_store (register_clusters (df_tenant f) (ids src) NewMemStore) initial).

Lemma dashboard_Ok f base a o :
  dashboard f base = Ok (a, o) →
  a = command_api f ∧ ∃ src st, o = Some st ∧ served a st ∧ s_sources st = src ∧ s_jobs st = [] ∧ ids src ≠ [] ∧
    (∀ cid, is_Some (src !! cid) ↔ ∃ spec path, spec ∈ df_clusterSpecs f ∧ cut "="%char spec = Some (cid, path)) ∧
    (∀ cid, is_Some (src !! cid) → cid ≠ "") ∧
    ∀ cid, scanned_once f (ids src) (registered f src) st cid.
Proof.
  unfold dashboard. destruct (Nat.eqb_spec (length (df_clusterSpecs f)) 0) as [|Hlen]; [done|].
  destruct (add_specs stat (df_clusterSpecs f) newSourceRegistry) as [src|] eqn:Esrc; [|done].
  cbn [mbind res_bind]. intros [= <- <-]. split; [done|]. apply add_specs_Ok in Esrc as [Hall Hsrc].
  assert (∀ cid, is_Some (src !! cid) ↔ ∃ spec path, spec ∈ df_clusterSpecs f ∧ cut "="%char spec = Some (cid, path))
    as Hids by (intros cid; rewrite Hsrc; unfold newSourceRegistry; rewrite lookup_empty, is_Some_alt; naive_solver).
  assert (ids src ≠ []) as Hnil.
  { destruct (df_clusterSpecs f) as [|spec specs]; [done|]. destruct (Hall spec) as (cid & path & Hcut & _); [left|].
    assert (cid ∈ ids src) as Hin by (apply elem_of_ids, Hids; exists spec, path; split; [left|done]).
    intros E. rewrite E in Hin. by apply elem_of_nil in Hin. }
  pose proof (served_registered (command_api f) (df_tenant f) src (ids src) initial (served_initial _) Hnil) as Hst0.
  destruct (initial_scans_spec f base 0 (ids src) _ Hst0 (NoDup_ids src)) as (st & Hst & Hserved & Hs & Hj & Hsc).
  exists src, st. split_and!; [exact Hst|done|done|done|done|done| |exact Hsc].
  intros cid (spec & path & Hin & Hcut)%Hids. destruct (Hall spec Hin) as (? & ? & ? & ?). congruence.
Qed.

End dashboard.

(** A live cluster whose kubeconfig is missing: it is registered, and its first scan fails. *)
Definition ex_flags (specs : list string) : dashboardFlags :=
  mkDashboardFlags specs "zeal-default" false "" "acme" "" [] false 0 (mkJWTConfig "" "" "" "") "" ":8080" "" "" 0 "" "" "".
Definition ex_loaders : Loaders := mkLoaders (λ _, Some "no kubeconfig") (λ _, Err "") (λ _, Err "no such file").
Definition ex_dashboard (specs : list string) : res (API * option state) :=
  dashboard (Ok []) ex_loaders (λ _, Some "no such file") (λ _, "") (λ _ _, None) (ex_flags specs) (λ _, demo_env).


(** A cluster id given on the command line is not validated: the API that triggers scans rejects
    the id of the cluster it lists. *)
Lemma flag_id_not_validated :
  match ex_dashboard ["a/b=live"] with
  | Ok (a, Some st) =>
      is_Some (GetCluster (s_store st) "acme" "a/b") ∧
      ∃ st', handleTriggerScan a demo_env (local_admin (ex_flags [])) (Some (JObj [("clusterId", JStr "a/b")])) st
             = Some (st', error 400 "invalid clusterId")
  | _ => False
  end.
Proof.
  assert (match ex_dashboard ["a/b=live"] with
    | Ok (_, Some st) => bool_decide (is_Some (GetCluster (s_store st) "acme" "a/b")) | _ => false end = true) as H
    by (vm_compute; reflexivity).
  destruct (ex_dashboard ["a/b=live"]) as [[a [st|]]|]; [|discriminate H..].
  split; [by apply bool_decide_eq_true in H|eexists; reflexivity].
Qed.
