(* ===== verification/DashboardRun.v ===== *)
(** The dashboard process (internal/cli/dashboard.go after the initial scans): the schedule, tracing,
    what is printed, the requests and scheduled scans, and the retention loop of the Postgres store.

    Parameters: those of DashboardCmd.v, cron's parser, the start of the trace exporter, and what
    opening the database, [ListenAndServe] and the statements of the database return. *)

From S2P Require Import Prelude GoStrings GoJson GoFloat GoFmt GoTime Api Model Checks Compliance Analyzer Lifecycle.
From S2P Require Import MemStore Auth PgStore Broker FindingQuery Sources ScanCmd Handlers Service Workers DashboardCmd.

(** * Start-up after the initial scans *)

Section run.
Variable packs : res (list Pack).
Variable ld : Loaders.
Variable stat : string → option string.
Variable getenv : string → string.
Variable ParseWithClaims : ParserOptions → string → option json_members.
Variable Schedule : Type.
Variable parse : string → res Schedule.
Variable otlp_New : string → option string.
Variable resource_New : option string.

Definition flag_or_env (v name : string) : string := if v =s "" then getenv name else v.

Definition postgres_dsn (f : dashboardFlags) : string := flag_or_env (df_postgresDSN f) "KUBEGUARD_POSTGRES_DSN".
Definition otel_endpoint (f : dashboardFlags) : string := flag_or_env (df_otelEndpoint f) "OTEL_EXPORTER_OTLP_ENDPOINT".

(** pg.go: what the database driver, goose and the pool return for a DSN, [None] without an error. *)
Record pg_world := mkPgWorld {
  sql_Open : string → option string;
  goose_SetDialect : string → option string;
  goose_Up : string → option string;
  goose_DownTo : string → Z → option string;
  pgxpool_New : string → option string
}.

Definition Migrate (w : pg_world) (dsn : string) : option string :=
  match sql_Open w dsn with
  | Some e => Some e
  | None => match goose_SetDialect w "postgres" with Some e => Some e | None => goose_Up w dsn end
  end.

Definition MigrateDown (w : pg_world) (dsn : string) : option string :=
  match sql_Open w dsn with
  | Some e => Some e
  | None => match goose_SetDialect w "postgres" with Some e => Some e | None => goose_DownTo w dsn 0 end
  end.

(** [pg.Open] *)
Definition pg_Open (w : pg_world) (dsn : string) : option string :=
  match Migrate w dsn with
  | Some e => Some ("migrate: " +:+ e)
  | None => option_map (String.append "pool: ") (pgxpool_New w dsn)
  end.

(** tracing.go: the exporter, then the resource. *)
Definition InitTracing (endpoint : string) : option string :=
  match otlp_New endpoint with Some e => Some e | None => resource_New end.

Definition schedule_specs (f : dashboardFlags) (cids : list string) : list ScheduleSpec :=
  map (λ cid, mkScheduleSpec (df_tenant f) cid (df_schedule f)) cids.

(** Without a schedule nothing ever ticks. *)
Definition start_schedule (f : dashboardFlags) (cids : list string) : res (Scheduler Schedule) :=
  if df_schedule f <>s "" then
    match Workers.Start Schedule parse (NewScheduler Schedule (schedule_specs f cids)) with
    | (sched, None) => Ok sched
    | (_, Some e) => Err ("invalid --schedule " +:+ fmt_quote (df_schedule f) +:+ ": " +:+ e)
    end
  else Ok (NewScheduler Schedule []).

Definition start_tracing {St} (f : dashboardFlags) : M St unit :=
  let endpoint := otel_endpoint f in
  if endpoint <>s "" then
    match InitTracing endpoint with
    | Some e => lift (Err ("otel: " +:+ e))
    | None => print ("tracing: OTLP → " +:+ endpoint +:+ nl)
    end
  else mret tt.

Definition print_oidc {St} (f : dashboardFlags) : M St unit :=
  if (jc_Issuer (df_oidc f) <>s "") && (df_oidcJWKSURL f <>s "")
  then print ("OIDC enabled: issuer=" +:+ jc_Issuer (df_oidc f) +:+ " jwks=" +:+ df_oidcJWKSURL f +:+ nl)
  else mret tt.

Definition https (f : dashboardFlags) : bool := (df_tlsCert f <>s "") && (df_tlsKey f <>s "").
Definition hsts (f : dashboardFlags) : bool := df_tlsCert f <>s "".

Definition listen_line (f : dashboardFlags) : string :=
  "kubeguard dashboard on " +:+ (if https f then "https" else "http") +:+ "://" +:+ df_addr f
  +:+ " — tenant=" +:+ fmt_quote (df_tenant f) +:+ nl.

(** The process when it starts to listen: the API, the state and the schedule. *)
Record listening := mkListening {
  ln_api : API;
  ln_state : state;
  ln_sched : Scheduler Schedule
}.

(** The command up to [serve()], with the in-memory store; the inner [None] would be a panic. *)
Definition boot {St} (f : dashboardFlags) (base : nat → env) : M St (option listening) :=
  ao ← lift (dashboard packs ld stat getenv ParseWithClaims f base);
  match ao.2 with
  | None => mret None
  | Some st =>
      print_oidc f ≫= λ _,
      sched ← lift (start_schedule f (ids (s_sources st)));
      start_tracing f ≫= λ _,
      print (listen_line f) ≫= λ _,
      mret (Some (mkListening ao.1 st sched))
  end.

(** * While it listens *)

(** A request; the time of the schedule's entry [i]; a worker taking a job. *)
Inductive dash_event : Type :=
| OnRequest (e : env) (rq : request)
| OnTick (e : env) (i : nat)
| OnWorker (e : env).

(** A handler that panics is recovered, and its request leaves the state as it was; [None] is a
    panic outside of a handler, which ends the process. *)
Definition dash_step (f : dashboardFlags) (l : listening) (ev : dash_event) (st : state) : option state :=
  match ev with
  | OnRequest e rq =>
      Some (match serve (ln_api l) (scan_env packs ld f e) rq st with Some (st', _) => st' | None => st end)
  | OnTick e i => r ← tick Schedule (scan_env packs ld f e) i (ln_sched l) st; Some r.1
  | OnWorker e => r ← runScanJob (scan_env packs ld f e) st; Some r.1
  end.

Fixpoint dash_run (f : dashboardFlags) (l : listening) (evs : list dash_event) (st : state) : option state :=
  match evs with
  | [] => Some st
  | ev :: evs' => st ← dash_step f l ev st; dash_run f l evs' st
  end.

(** * Retention, with the Postgres store

    One tick: the clock, and which statements succeed. *)

Definition retention_cutoff (f : dashboardFlags) (now : instant) : string := format_rfc3339 (now - df_retention f)%Z.

Definition retention_tick (f : dashboardFlags) (t : instant * (nat → bool)) (d : db) : db * list string :=
  let cutoff := retention_cutoff f t.1 in
  match Retention t.2 cutoff d with
  | (d', None) => (d', ["retention failed"])
  | (d', Some n) => (d', if (0 <? n)%Z then ["retention pruned rows=" +:+ fmt_int n +:+ " cutoff=" +:+ cutoff] else [])
  end.

(** The goroutine, started for a positive window. *)
Definition retention_loop (f : dashboardFlags) (ticks : list (instant * (nat → bool))) (d : db) : db * list string :=
  if (0 <? df_retention f)%Z
  then foldl (λ acc t, let '(d', lines) := retention_tick f t acc.1 in (d', acc.2 ++ lines)) (d, []) ticks
  else (d, []).

(** * Properties *)

Notation api := (command_api getenv ParseWithClaims).

Lemma start_schedule_Ok f cids sched :
  start_schedule f cids = Ok sched →
  if df_schedule f =s "" then sched = NewScheduler Schedule []
  else cids ≠ [] → ∃ s, parse (df_schedule f) = Ok s ∧ sc_ticking Schedule sched = true ∧
       sc_entries Schedule sched = map (λ cid, (s, mkScheduleSpec (df_tenant f) cid (df_schedule f))) cids.
Proof.
  unfold start_schedule. destruct (df_schedule f =s ""); cbn [negb]; [by intros [= <-]|].
  unfold Workers.Start, NewScheduler. cbn [sc_specs sc_entries sc_ticking].
  destruct (parse (df_schedule f)) as [s|e] eqn:Ep.
  - assert (∀ cids entries, add_entries Schedule parse (schedule_specs f cids) entries
      = (entries ++ map (λ cid, (s, mkScheduleSpec (df_tenant f) cid (df_schedule f))) cids, None)) as Hadd.
    { clear cids sched. intros cids. induction cids as [|c cids IH]; intros entries; cbn [schedule_specs map add_entries];
        [by rewrite app_nil_r|]. cbn [sp_Cron]. rewrite Ep. unfold schedule_specs in IH. by rewrite IH, <-app_assoc. }
    rewrite Hadd. intros [= <-] _. by exists s.
  - destruct cids as [|c cids]; [by intros _ []|]. cbn [schedule_specs map add_entries sp_Cron]. by rewrite Ep.
Qed.

Lemma runScanJob_total a e st : state_ok a st → ∃ r, runScanJob e st = Some r.
Proof.
  intros Hok. unfold runScanJob. destruct (s_jobs st) as [|j jobs]; [by eexists|].
  edestruct (runScanWithID_total e) as (st' & scan & -> & _); [|by eexists]. apply Hok.
Qed.

Lemma boot_Ok {St} f base (e e' : effects St) o :
  boot f base e = (e', Ok o) → ∃ l, o = Some l ∧
  ln_api l = api f ∧ served (ln_api l) (ln_state l) ∧
  if df_schedule f =s "" then ln_sched l = NewScheduler Schedule []
  else ∃ s, parse (df_schedule f) = Ok s ∧ sc_ticking Schedule (ln_sched l) = true ∧
       sc_entries Schedule (ln_sched l)
       = map (λ cid, (s, mkScheduleSpec (df_tenant f) cid (df_schedule f))) (ids (s_sources (ln_state l))).
Proof.
  unfold boot. intros (e1 & [a o'] & [-> E]%lift_Ok & H1)%bind_Ok.
  apply dashboard_Ok in E as (-> & src & st & -> & Hst & Hsrc & _ & Hne & _). cbn [fst snd] in H1.
  apply bind_Ok in H1 as (e2 & [] & _ & (e3 & sched & [-> Es]%lift_Ok & H3)%bind_Ok).
  apply bind_Ok in H3 as (e4 & [] & _ & (e5 & [] & _ & [= _ <-])%bind_Ok).
  eexists. split; [reflexivity|]. cbn [ln_api ln_state ln_sched]. split_and!; [done|done|].
  apply start_schedule_Ok in Es. destruct (df_schedule f =s ""); [done|]. apply Es. by rewrite Hsrc.
Qed.

Lemma dash_step_served f l ev st :
  ln_api l = api f → served (ln_api l) st → ∃ st', dash_step f l ev st = Some st' ∧ served (ln_api l) st'.
Proof.
  intros Ha Hst. destruct ev as [e rq|e i|e]; cbn [dash_step].
  - eexists. split; [reflexivity|]. destruct (serve (ln_api l) (scan_env packs ld f e) rq st) as [[st' resp]|] eqn:E; [|done].
    by eapply served_request.
  - unfold tick. destruct (sc_ticking Schedule (ln_sched l)); [|by exists st].
    destruct (sc_entries Schedule (ln_sched l) !! i) as [[s spec]|]; [|by exists st].
    destruct (runScanWithID_total (scan_env packs ld f e) (sp_Tenant spec) (sp_ClusterID spec) "scheduler"
      (e_newID (scan_env packs ld f e)) st) as (st' & scan & H & _); [by apply (served_ok (ln_api l))|].
    unfold RunScan. rewrite H. exists st'. split; [done|]. by eapply served_scan.
  - destruct (runScanJob_total (ln_api l) (scan_env packs ld f e) st) as [[st' r] H]; [by apply served_ok|].
    rewrite H. exists st'. split; [done|]. by eapply served_worker.
Qed.

Lemma dash_run_served f l evs st :
  ln_api l = api f → served (ln_api l) st → ∃ st', dash_run f l evs st = Some st' ∧ served (ln_api l) st'.
Proof.
  intros Ha. revert st. induction evs as [|ev evs IH]; intros st Hst; [by exists st|].
  destruct (dash_step_served f l ev st Ha Hst) as (st1 & E & H1). cbn [dash_run]. rewrite E. by apply IH.
Qed.

(** C25: The dashboard process runs.  Once the command has started to listen, no sequence of requests,
    scheduled scans and queued scans ends the process, and every state in between is one the
    service's theorems speak of.  With a schedule there is one entry per registered cluster, in the
    order of the ids, and each time an entry comes round its cluster is scanned again: it shows the
    analysis of what its source then holds, or what it showed before when the scan fails, and every
    other cluster of the tenant is as it was.  Without a schedule nothing is scanned unasked. *)
Theorem dashboard_runs {St} f base (e0 e1 : effects St) o evs :
  boot f base e0 = (e1, Ok o) →
  ∃ l st, o = Some l ∧ dash_run f l evs (ln_state l) = Some st ∧ served (ln_api l) st ∧
    ∀ e i, ∃ st', dash_step f l (OnTick e i) st = Some st' ∧
      if df_schedule f =s "" then st' = st
      else is_ok (parse (df_schedule f)) = true ∧
        match ids (s_sources (ln_state l)) !! i with
        | Some cid => ∀ c, scanned_once packs ld f [cid] st st' c
        | None => st' = st
        end.
Proof.
  intros (l & -> & Ha & Hserved & Hsched)%boot_Ok. destruct (dash_run_served f l evs (ln_state l) Ha Hserved) as (st & Hrun & Hst).
  exists l, st. split_and!; [done..|]. intros e i. cbn [dash_step]. destruct (df_schedule f =s "").
  - rewrite Hsched. exists st. by cbn.
  - destruct Hsched as (s & Hp & Htick & Hent). unfold tick. rewrite Htick, Hent, list_lookup_fmap.
    destruct (ids (s_sources (ln_state l)) !! i) as [cid|]; cbn [fmap option_fmap option_map mbind option_bind].
    + rewrite Ha in Hst. destruct (RunScan_once packs ld stat getenv ParseWithClaims f e cid "scheduler" st (served_ok _ _ Hst))
        as (st' & scan & Hs & _ & _ & Hsc). cbn [sp_Tenant sp_ClusterID]. rewrite Hs. exists st'. by rewrite Hp.
    + exists st. by rewrite Hp.
Qed.

(** Whatever the clock and the database do, retention takes no cluster and no report away. *)
Lemma retention_loop_keeps f unmarshal ticks d t :
  ListClusters (retention_loop f ticks d).1 t = ListClusters d t ∧
  ∀ id, ReportOf unmarshal (retention_loop f ticks d).1 t id = ReportOf unmarshal d t id.
Proof.
  unfold retention_loop. destruct (0 <? df_retention f)%Z; [|done]. generalize (@nil string) as lines.
  revert d. induction ticks as [|tk ticks IH]; intros d lines; cbn [foldl]; [done|].
  destruct (retention_keeps unmarshal tk.2 (retention_cutoff f tk.1) d t) as (Hc & Hr & _).
  rewrite <-Hc. setoid_rewrite <-Hr. unfold retention_tick at 2 4. cbn [fst snd].
  by destruct (Retention tk.2 (retention_cutoff f tk.1) d) as [d' [n|]].
Qed.
End run.

(** * Findings on the flags *)

(** With a certificate and no key the process serves plain HTTP, and tells browsers to insist on HTTPS. *)
Lemma certificate_without_key f : df_tlsCert f ≠ "" → df_tlsKey f = "" → https f = false ∧ hsts f = true.
Proof. intros Hc Hk. unfold https, hsts. rewrite Hk. apply String.eqb_neq in Hc. by rewrite Hc. Qed.

(** * Witness: a live cluster without a kubeconfig, scanned again on schedule *)

Definition scheduled_flags : dashboardFlags :=
  mkDashboardFlags ["prod=live:prod"; "dev=live"] "zeal-default" false "" "acme" "" [] false 0 (mkJWTConfig "" "" "" "") ""
    ":8080" "0 * * * *" "" 0 "" "" "".

Definition ex_boot : effects unit * res (option (listening string)) :=
  boot (Ok []) ex_loaders (λ _, Some "no such file") (λ _, "") (λ _ _, None) string Ok (λ _, None) None scheduled_flags (λ _, demo_env)
    (mkEffects "" [] [] None).

Lemma dashboard_runs_witness :
  ∃ e l st st', ex_boot = (e, Ok (Some l)) ∧
    ef_stdout e = "kubeguard dashboard on http://:8080 — tenant=" +:+ fmt_quote "acme" +:+ nl ∧
    dash_run (Ok []) ex_loaders string scheduled_flags l [OnTick demo_env 0; OnWorker demo_env; OnTick demo_env 7] (ln_state string l) = Some st ∧
    served (ln_api string l) st ∧ ids (s_sources (ln_state string l)) = ["dev"; "prod"] ∧
    dash_step (Ok []) ex_loaders string scheduled_flags l (OnTick demo_env 0) st = Some st' ∧
    scanned_once (Ok []) ex_loaders scheduled_flags ["dev"] st st' "prod".
Proof.
  destruct ex_boot as [e [o|er]] eqn:E; [|apply (f_equal (λ r, is_ok r.2)) in E; vm_compute in E; discriminate E].
  pose proof E as Eb. unfold ex_boot in Eb. destruct (dashboard_runs (Ok []) ex_loaders (λ _, Some "no such file") (λ _, "") (λ _ _, None) string Ok (λ _, None) None
    scheduled_flags (λ _, demo_env) (mkEffects (St := unit) "" [] [] None) e o [OnTick demo_env 0; OnWorker demo_env; OnTick demo_env 7] Eb)
    as (l & st & -> & Hrun & Hst & Hask).
  destruct (Hask demo_env 0) as (st' & Hstep & _ & Hsc).
  assert (ids (s_sources (ln_state string l)) = ["dev"; "prod"]) as Hids.
  { apply (f_equal (λ r, match r.2 with Ok (Some l) => ids (s_sources (ln_state string l)) | _ => [] end)) in E as E'. cbn [snd] in E'.
    rewrite <-E'. vm_compute. reflexivity. }
  apply (f_equal (λ r, ef_stdout r.1)) in E as Hout. cbn [fst] in Hout. rewrite Hids in Hsc. exists e, l, st, st'.
  split_and!; [done|rewrite <-Hout; vm_compute; reflexivity|exact Hrun|exact Hst|exact Hids|exact Hstep|exact (Hsc "prod")].
Defined.
