(* ===== verification/Commands.v ===== *)
(** The command tree (internal/cli/root.go, version.go, harden.go, webhook.go, dashboard_admin.go, and
    the flags of scan.go, serve.go and dashboard.go): flags with their defaults, the root's logger
    set-up, and the exit code of the process.

    Parameters: cobra's parser, which turns the arguments into a command and the values of the flags
    that were given (of the kind each flag is declared with), and the worlds of the commands.  The
    usage texts of the flags are not modelled, and the scan command of a process runs on one world
    per tick of its watch loop. *)

From S2P Require Import Prelude GoStrings GoJson GoFloat GoFmt GoTime Api Model Checks Waiver Compliance Analyzer History.
From S2P Require Import Harden Webhook Lifecycle MemStore Auth PgStore PgSim FindingQuery Sources ScanCmd Handlers Service DashboardCmd.
From S2P Require Import Server ServeCmd DashboardRun.

(** * Flags *)

Inductive flag_value : Type :=
| VString (s : string)
| VStrings (l : list string)
| VBool (b : bool)
| VInt (z : Z)
| VFloat (x : float64)
| VDuration (d : Z).

Record flag := mkFlag { fl_name : string; fl_short : string; fl_default : flag_value }.

Definition rootFlags : list flag := [mkFlag "log-level" "" (VString "info")].

Definition scanFlags : list flag :=
  [mkFlag "input" "i" (VString ""); mkFlag "format" "f" (VString "console"); mkFlag "profile" "p" (VString "zeal-default");
   mkFlag "output" "o" (VString ""); mkFlag "assume-breach" "" (VBool false); mkFlag "fail-on" "" (VString "");
   mkFlag "waivers" "" (VString ""); mkFlag "policy" "" (VString ""); mkFlag "history" "" (VString "");
   mkFlag "watch" "" (VBool false); mkFlag "live" "" (VBool false); mkFlag "context" "" (VString "")].

Definition hardenFlags : list flag :=
  [mkFlag "output" "o" (VString "kubeguard-baseline"); mkFlag "namespace" "" (VString ""); mkFlag "app" "" (VString "");
   mkFlag "image" "" (VString ""); mkFlag "service-account" "" (VString "")].

Definition serveFlags : list flag :=
  [mkFlag "addr" "" (VString ":8080"); mkFlag "input" "i" (VString ""); mkFlag "profile" "p" (VString "zeal-default");
   mkFlag "schedule" "" (VString ""); mkFlag "history" "" (VString ""); mkFlag "assume-breach" "" (VBool false);
   mkFlag "live" "" (VBool false); mkFlag "context" "" (VString "")].

Definition dashboardCmdFlags : list flag :=
  [mkFlag "addr" "" (VString ":8080"); mkFlag "profile" "p" (VString "zeal-default"); mkFlag "assume-breach" "" (VBool false);
   mkFlag "cluster" "" (VStrings []); mkFlag "admin-token" "" (VString ""); mkFlag "tenant" "" (VString "default");
   mkFlag "schedule" "" (VString ""); mkFlag "brand" "" (VString ""); mkFlag "postgres" "" (VString "");
   mkFlag "retention" "" (VDuration 0); mkFlag "tls-cert" "" (VString ""); mkFlag "tls-key" "" (VString "");
   mkFlag "allowed-origin" "" (VStrings []); mkFlag "rate-limit" "" (VFloat fzero); mkFlag "rate-burst" "" (VInt 20);
   mkFlag "otel-endpoint" "" (VString ""); mkFlag "async-workers" "" (VInt 0); mkFlag "oidc-issuer" "" (VString "");
   mkFlag "oidc-audience" "" (VString ""); mkFlag "oidc-jwks-url" "" (VString "");
   mkFlag "oidc-tenant-claim" "" (VString "tenant"); mkFlag "oidc-role-claim" "" (VString "role")].

Definition deleteTenantFlags : list flag := [mkFlag "tenant" "" (VString ""); mkFlag "postgres" "" (VString "")].

Definition webhookFlags : list flag :=
  [mkFlag "host" "" (VString ""); mkFlag "port" "" (VInt 9443);
   mkFlag "cert-dir" "" (VString "/tmp/k8s-webhook-server/serving-certs"); mkFlag "path" "" (VString "/validate-pods");
   mkFlag "fail-open" "" (VBool false); mkFlag "waivers" "" (VString "")].

(** The values given on the command line. *)
Definition given_flags : Type := string → option flag_value.

Definition flag_of (fs : list flag) (g : given_flags) (name : string) : option flag_value :=
  match g name with
  | Some v => Some v
  | None => option_map fl_default (List.find (λ f, fl_name f =s name) fs)
  end.

Definition str_flag (fs : list flag) (g : given_flags) (name : string) : string :=
  match flag_of fs g name with Some (VString s) => s | _ => "" end.
Definition strs_flag (fs : list flag) (g : given_flags) (name : string) : list string :=
  match flag_of fs g name with Some (VStrings l) => l | _ => [] end.
Definition bool_flag (fs : list flag) (g : given_flags) (name : string) : bool :=
  match flag_of fs g name with Some (VBool b) => b | _ => false end.
Definition int_flag (fs : list flag) (g : given_flags) (name : string) : Z :=
  match flag_of fs g name with Some (VInt z) => z | _ => 0%Z end.
Definition duration_flag (fs : list flag) (g : given_flags) (name : string) : Z :=
  match flag_of fs g name with Some (VDuration d) => d | _ => 0%Z end.
Definition positive_flag (fs : list flag) (g : given_flags) (name : string) : bool :=
  match flag_of fs g name with Some (VFloat x) => flt fzero x | _ => false end.

Definition scan_params (g : given_flags) : scanParams :=
  let s := str_flag scanFlags g in let b := bool_flag scanFlags g in
  {| sp_input := s "input"; sp_format := s "format"; sp_profileName := s "profile"; sp_output := s "output";
     sp_assumeBreach := b "assume-breach"; sp_failOn := s "fail-on"; sp_historyPath := s "history"; sp_watch := b "watch";
     sp_live := b "live"; sp_kubeContext := s "context"; sp_waiversPath := s "waivers"; sp_policyPath := s "policy" |}.

Definition harden_options (g : given_flags) : Options :=
  let s := str_flag hardenFlags g in mkOptions (s "namespace") (s "app") (s "image") (s "service-account").

Definition serve_params (g : given_flags) : serveParams :=
  let s := str_flag serveFlags g in let b := bool_flag serveFlags g in
  {| sv_addr := s "addr"; sv_input := s "input"; sv_profile := s "profile"; sv_schedule := s "schedule";
     sv_historyPath := s "history"; sv_kubeContext := s "context"; sv_assumeBreach := b "assume-breach";
     sv_liveMode := b "live" |}.

Definition dashboard_flags (g : given_flags) : dashboardFlags :=
  let s := str_flag dashboardCmdFlags g in let l := strs_flag dashboardCmdFlags g in
  {| df_clusterSpecs := l "cluster"; df_profile := s "profile"; df_assumeBreach := bool_flag dashboardCmdFlags g "assume-breach";
     df_adminToken := s "admin-token"; df_tenant := s "tenant"; df_brand := s "brand"; df_allowedOrig := l "allowed-origin";
     df_rateLimit := positive_flag dashboardCmdFlags g "rate-limit"; df_asyncWorkers := int_flag dashboardCmdFlags g "async-workers";
     df_oidc := mkJWTConfig (s "oidc-issuer") (s "oidc-audience") (s "oidc-tenant-claim") (s "oidc-role-claim");
     df_oidcJWKSURL := s "oidc-jwks-url"; df_addr := s "addr"; df_schedule := s "schedule"; df_postgresDSN := s "postgres";
     df_retention := duration_flag dashboardCmdFlags g "retention"; df_tlsCert := s "tls-cert"; df_tlsKey := s "tls-key";
     df_otelEndpoint := s "otel-endpoint" |}.

(** * The tree *)

Inductive command := Version | Scan | Harden | Serve | Dashboard | DeleteTenant | Webhook.

Definition command_path (c : command) : list string :=
  match c with
  | Version => ["version"] | Scan => ["scan"] | Harden => ["harden"] | Serve => ["serve"] | Dashboard => ["dashboard"]
  | DeleteTenant => ["dashboard-admin"; "delete-tenant"] | Webhook => ["webhook"]
  end.

Definition command_flags (c : command) : list flag :=
  match c with
  | Version => [] | Scan => scanFlags | Harden => hardenFlags | Serve => serveFlags | Dashboard => dashboardCmdFlags
  | DeleteTenant => deleteTenantFlags | Webhook => webhookFlags
  end.

Definition commands : list command := [Version; Scan; Harden; Serve; Dashboard; DeleteTenant; Webhook].

(** pflag panics when a flag is declared twice, under its name or its shorthand; the root's flags are
    every command's, and so is --help. *)
Definition flags_declared (fs : list flag) : bool :=
  let names := "help" :: map fl_name (rootFlags ++ fs) in
  let shorts := "h" :: List.filter (λ s, s <>s "") (map fl_short (rootFlags ++ fs)) in
  bool_decide (NoDup names) && bool_decide (NoDup shorts).

Example tree_declared :
  forallb (λ c, flags_declared (command_flags c)) commands = true ∧ NoDup (map command_path commands).
Proof. split; [vm_compute; reflexivity|]. apply (bool_decide_unpack _). vm_compute. exact I. Qed.

(** What [kubeguard scan] does without flags, and the lookup of a given one. *)
Example default_scan :
  scan_params (λ _, None) = mkScanParams "" "console" "zeal-default" "" false "" "" false false "" "" "" ∧
  sp_failOn (scan_params (λ n, if n =s "fail-on" then Some (VString "high") else None)) = "high".
Proof. split; reflexivity. Qed.

(** * The logger *)

Definition level_name (name : string) : option Z :=
  let n := to_upper name in
  if n =s "DEBUG" then Some (-4)%Z else if n =s "INFO" then Some 0%Z
  else if n =s "WARN" then Some 4%Z else if n =s "ERROR" then Some 8%Z else None.

Definition sign_byte (c : Ascii.ascii) : bool := GoJsonText.is_byte 43 c || GoJsonText.is_byte 45 c.

(** Why [strconv.Atoi] refuses a text that starts with a sign. *)
Definition atoi_error (offset : string) : string :=
  let digits := str_from 1 offset in
  if (digits <>s "") && str_all is_digit digits then "value out of range" else "invalid syntax".

(** [slog.Level.UnmarshalText]: a name in any case, and an optional offset. *)
Definition parse_level (s : string) : res Z :=
  let bad why := Err ("slog: level string " +:+ fmt_quote s +:+ ": " +:+ why) in
  let '(name, offset) := GoJsonText.span (λ c, negb (sign_byte c)) s in
  match (if offset =s "" then Some 0%Z else Atoi offset) with
  | None => bad ("strconv.Atoi: parsing " +:+ fmt_quote offset +:+ ": " +:+ atoi_error offset)
  | Some off => match level_name name with Some l => Ok (wrap64 (l + off)) | None => bad "unknown name" end
  end.

Definition setupLogger (logLevel : string) : res Z :=
  wrap_err ("invalid --log-level " +:+ fmt_quote logLevel +:+ ": ") (parse_level logLevel).

Example parse_level_ex :
  map parse_level ["info"; "Warn"; "error+2"; "DEBUG-1"] = [Ok 0; Ok 4; Ok 10; Ok (-5)]%Z ∧ is_ok (parse_level "verbose") = false.
Proof. split; vm_compute; reflexivity. Qed.

(** * What the commands do *)

(** What a process changes: its output, files and history, and the Postgres databases, by their DSN. *)
Record process (St : Type) := mkProcess { pr_effects : effects St; pr_db : string → db }.
Arguments mkProcess {St} _ _.
Arguments pr_effects {St} _.
Arguments pr_db {St} _.

Definition set_db (dsn : string) (d : db) (dbs : string → db) : string → db := λ x, if x =s dsn then d else dbs x.

Definition say {St} (text : string) (e : effects St) : effects St :=
  mkEffects (ef_stdout e +:+ text) (ef_stderr e) (ef_files e) (ef_store e).

Definition of_error {St} (e : effects St) (err : option string) : effects St * outcome :=
  (e, match err with Some er => Failed er | None => Done end).

Section process.
Context {ast program St IO : Type} `{HistoryStore St IO}.

(** What the commands meet: the build, the environment, and per command what is outside of it. *)
Record machine := mkMachine {
  mc_version : string; mc_commit : string; mc_date : string; mc_runtime : string;
  mc_getenv : string → string;
  mc_world : world (ast := ast) (program := program) (St := St) (IO := IO);
  mc_ticks : list (option instant * world (ast := ast) (program := program) (St := St) (IO := IO));
  mc_write : write_env;
  mc_packs : res (list Pack);
  mc_io : IO;
  mc_cron : string → res string;
  mc_listen : option string;
  mc_moment : Loaders * string;
  mc_serve : list moment_event;
  mc_stat : string → option string;
  mc_jwt : ParserOptions → string → option json_members;
  mc_otlp : string → option string;
  mc_resource : option string;
  mc_env : nat → env;
  mc_dashboard : list dash_event;
  mc_pg_dashboard : dashboardFlags → effects St → effects St * option string;
  mc_pg : pg_world;
  mc_stmt : nat → bool;
  mc_stmt_error : string;
  mc_reviews : list (res (Pod * res json_members) * instant);
  mc_webhook : option string
}.

Variable m : machine.

(** version.go; [mc_runtime] is the Go version with the platform. *)
Definition version_text : string :=
  "kubeguard " +:+ mc_version m +:+ nl +:+ "  commit: " +:+ mc_commit m +:+ nl +:+ "  built:  " +:+ mc_date m +:+ nl
  +:+ "  go:     " +:+ mc_runtime m +:+ nl.

Definition run_version (e : effects St) : effects St * outcome := (say version_text e, Done).

Definition run_harden (g : given_flags) (e : effects St) : effects St * outcome :=
  let '(files, r) := harden_command (mc_write m) (str_flag hardenFlags g "output") (harden_options g) in
  let e := mkEffects (ef_stdout e) (ef_stderr e) (ef_files e ++ files) (ef_store e) in
  match r with Ok text => (say text e, Done) | Err er => (e, Failed er) end.

(** The responses of the service are in ServeCmd.v; what stays is the history. *)
Definition run_serve (g : given_flags) (e : effects St) : effects St * outcome :=
  let p := serve_params g in
  let cron_err := match mc_cron m (sv_schedule p) with Ok _ => None | Err er => Some er end in
  match serve_command (mc_packs m) (w_openHistory (mc_world m)) (mc_io m) p cron_err (mc_listen m) (mc_moment m) (mc_serve m) with
  | Err er => (e, Failed er)
  | Ok (s, _, err) => of_error (mkEffects (ef_stdout e) (ef_stderr e) (ef_files e) (s_store s)) err
  end.

(** With a DSN the store is Postgres, and the rest of the run is [mc_pg_dashboard]. *)
Definition run_dashboard (g : given_flags) (e : effects St) : effects St * outcome :=
  let f := dashboard_flags g in
  if postgres_dsn (mc_getenv m) f <>s "" then let '(e, err) := mc_pg_dashboard m f e in of_error e err
  else
    match boot (mc_packs m) (mc_moment m).1 (mc_stat m) (mc_getenv m) (mc_jwt m) string (mc_cron m) (mc_otlp m)
            (mc_resource m) f (mc_env m) e with
    | (e, Err er) => (e, Failed er)
    | (e, Ok _) => of_error e (option_map (String.append "serve: ") (mc_listen m))
    end.

(** dashboard_admin.go *)
Definition run_delete_tenant (g : given_flags) (pr : process St) : process St * outcome :=
  let tenant := str_flag deleteTenantFlags g "tenant" in
  let dsn := flag_or_env (mc_getenv m) (str_flag deleteTenantFlags g "postgres") "KUBEGUARD_POSTGRES_DSN" in
  if tenant =s "" then (pr, Failed "--tenant is required")
  else if dsn =s "" then (pr, Failed "--postgres (or KUBEGUARD_POSTGRES_DSN) is required")
  else match pg_Open (mc_pg m) dsn with
  | Some er => (pr, Failed ("postgres: " +:+ er))
  | None =>
      let '(d, ok) := PgStore.DeleteTenant (mc_stmt m) tenant (pr_db pr dsn) in
      let dbs := set_db dsn d (pr_db pr) in
      if ok
      then (mkProcess (say ("erased all data for tenant " +:+ fmt_quote tenant +:+ nl) (pr_effects pr)) dbs, Done)
      else (mkProcess (pr_effects pr) dbs, Failed ("delete tenant " +:+ fmt_quote tenant +:+ ": " +:+ mc_stmt_error m))
  end.

(** webhook.go; the responses do not outlive the process. *)
Definition webhook_config (g : given_flags) : res Webhook.Config :=
  let path := str_flag webhookFlags g "waivers" in
  waivers ← (if path <>s "" then waiver_Load (mc_world m) path else Ok None);
  Ok (Webhook.mkConfig (bool_flag webhookFlags g "fail-open") waivers).

Definition webhook_responses (g : given_flags) : res (list Webhook.response) :=
  cfg ← webhook_config g;
  Ok (map (λ rv, Webhook.Handle cfg rv.1 rv.2) (mc_reviews m)).

Definition run_webhook (g : given_flags) (e : effects St) : effects St * outcome :=
  match webhook_responses g with Err er => (e, Failed er) | Ok _ => of_error e (mc_webhook m) end.

Definition on_effects (run : effects St → effects St * outcome) (pr : process St) : process St * outcome :=
  let '(e, o) := run (pr_effects pr) in (mkProcess e (pr_db pr), o).

(** [RunE] of the command. *)
Definition run_command (c : command) (g : given_flags) : process St → process St * outcome :=
  match c with
  | Version => on_effects run_version
  | Scan => on_effects (scan_command (scan_params g) (mc_ticks m) (mc_world m))
  | Harden => on_effects (run_harden g)
  | Serve => on_effects (run_serve g)
  | Dashboard => on_effects (run_dashboard g)
  | DeleteTenant => run_delete_tenant g
  | Webhook => on_effects (run_webhook g)
  end.

(** A line on standard error, without the time; the level of [slog.Error] is 8. *)
Definition complain (lvl : Z) (line : string) (pr : process St) : process St :=
  if (lvl <=? 8)%Z
  then mkProcess (mkEffects (ef_stdout (pr_effects pr)) (ef_stderr (pr_effects pr) ++ [line]) (ef_files (pr_effects pr))
                    (ef_store (pr_effects pr))) (pr_db pr)
  else pr.

Definition command_failed (err : string) : string := "command failed err=" +:+ err.

(** cobra's part: an error in the arguments, a help text (without a command), or the command with the
    values of its flags and of the root's. *)
Variable cobra : list string → res (option (command * given_flags)).

Definition Execute (args : list string) (pr : process St) : process St * Z :=
  match cobra args with
  | Err er => (complain 0 (command_failed er) pr, exitError)
  | Ok None => (pr, exitOK)
  | Ok (Some (c, g)) =>
      match setupLogger (str_flag rootFlags g "log-level") with
      | Err er => (complain 0 (command_failed er) pr, exitError)
      | Ok lvl =>
          let '(pr, o) := run_command c g pr in
          (match o with
           | Done => pr
           | Coded _ msg => complain 8 msg pr
           | Failed er => complain lvl (command_failed er) pr
           end, exit_code o)
      end
  end.
End process.

(** * Exit codes *)

Section exit.
Context {ast program St IO : Type} `{HistoryStore St IO}.
Variable m : machine (ast := ast) (program := program) (St := St) (IO := IO).
Variable cobra : list string → res (option (command * given_flags)).

(** The same but for lines added to standard error. *)
Definition same_but_stderr (pr pr' : process St) : Prop :=
  pr_db pr' = pr_db pr ∧ ef_stdout (pr_effects pr') = ef_stdout (pr_effects pr) ∧
  ef_files (pr_effects pr') = ef_files (pr_effects pr) ∧ ef_store (pr_effects pr') = ef_store (pr_effects pr) ∧
  ∃ lines, ef_stderr (pr_effects pr') = ef_stderr (pr_effects pr) ++ lines.

Lemma same_refl pr : same_but_stderr pr pr.
Proof. split_and!; try done. exists []. by rewrite app_nil_r. Qed.

Lemma complain_same lvl line pr : same_but_stderr pr (complain lvl line pr).
Proof. unfold complain. destruct (lvl <=? 8)%Z; [|apply same_refl]. split_and!; try done. by exists [line]. Qed.

Lemma gate_code fo ws fs now lines c msg : gate fo ws fs now = (lines, Coded c msg) → c = exitGateHit.
Proof.
  unfold gate. destruct (fo =s ""); [done|]. destruct (parseSeverity fo); [|done].
  destruct (if negb (Empty ws) then _ else _) as [blocking waived]. destruct (_ >? 0)%Z; [|done]. by intros [= _ <- _].
Qed.

(** A breach of the gate, and nothing else, is a coded error. *)
Definition breached (p : scanParams) (w : world (ast := ast) (program := program) (St := St) (IO := IO)) (e : effects St)
    : Prop :=
  ∃ e1 rep ws, scan_output w p e = (e1, Ok (rep, ws)) ∧
    exit_code (gate (sp_failOn p) ws (rep_Findings rep) (w_clock w)).2 = exitGateHit.

Definition hit (o : outcome) : bool := match o with Coded _ _ => true | _ => false end.

Lemma runScan_hit w p (e : effects St) :
  let o := (runScan (ast := ast) (program := program) w p e).2 in
  (hit o = true ↔ breached p w e) ∧ (hit o = true → exit_code o = exitGateHit).
Proof.
  cbv zeta. unfold runScan, breached. destruct (scan_output w p e) as [e1 [[rep ws]|er]].
  2: { split; [|done]. split; [done|]. by intros (? & ? & ? & [=] & _). }
  destruct (gate _ _ _ _) as [lines o] eqn:E. cbn [snd].
  assert (hit o = true → exit_code o = exitGateHit) as Ho.
  { destruct o as [|c msg|]; [done| |done]. intros _. by apply gate_code in E. }
  split; [|done]. split.
  - intros H1. exists e1, rep, ws. rewrite E. split; [done|]. by apply Ho.
  - intros (e2 & rep' & ws' & [= <- <- <-] & H1). rewrite E in H1. by destruct o.
Qed.

Lemma scan_hit g (e : effects St) :
  let o := (scan_command (scan_params g) (mc_ticks m) (mc_world m) e).2 in
  (hit o = true ↔ sp_watch (scan_params g) = false ∧ breached (scan_params g) (mc_world m) e) ∧
  (hit o = true → exit_code o = exitGateHit).
Proof.
  cbv zeta. unfold scan_command. destruct (sp_watch (scan_params g)).
  - assert (hit (if sp_live (scan_params g) then (e, Failed "--watch is not supported with --live")
                 else watchLoop (scan_params g) (mc_ticks m) None e).2 = false) as Hn.
    { destruct (sp_live (scan_params g)); [done|]. destruct (watchLoop _ _ _ _) as [e' o] eqn:E.
      apply watchLoop_outcome in E as [->|(? & ? & ? & ? & _ & _ & ->)]; done. }
    rewrite Hn. split; [|done]. split; [done|]. by intros [? _].
  - destruct (runScan_hit (mc_world m) (scan_params g) e) as [H1 H2]. split; [|done]. rewrite H1. tauto.
Qed.

Lemma of_error_hit (e : effects St) err : hit (of_error e err).2 = false.
Proof. by destruct err. Qed.

Lemma on_effects_snd (run : effects St → effects St * outcome) pr : (on_effects run pr).2 = (run (pr_effects pr)).2.
Proof. unfold on_effects. by destruct (run (pr_effects pr)). Qed.

Lemma command_hit c g (pr : process St) :
  let o := (run_command m c g pr).2 in
  (hit o = true ↔ c = Scan ∧ sp_watch (scan_params g) = false ∧ breached (scan_params g) (mc_world m) (pr_effects pr)) ∧
  (hit o = true → exit_code o = exitGateHit).
Proof.
  assert (∀ o : outcome, hit o = false → c ≠ Scan →
    (hit o = true ↔ c = Scan ∧ sp_watch (scan_params g) = false ∧ breached (scan_params g) (mc_world m) (pr_effects pr)) ∧
    (hit o = true → exit_code o = exitGateHit)) as Hno by (intros o -> Hc; split; [split|]; [done|by intros [? _]|done]).
  cbv zeta. destruct c; cbn [run_command]; rewrite ?on_effects_snd;
    [by apply Hno| |apply Hno; [|done]..].
  - destruct (scan_hit g (pr_effects pr)) as [H1 H2]. split; [|done]. rewrite H1. tauto.
  - unfold run_harden. destruct (harden_command _ _ _) as [files [|]]; done.
  - unfold run_serve. destruct (serve_command _ _ _ _ _ _ _ _) as [[[s rs] err]|]; [apply of_error_hit|done].
  - unfold run_dashboard. destruct (postgres_dsn _ _ <>s ""); [destruct (mc_pg_dashboard _ _ _); apply of_error_hit|].
    destruct (boot _ _ _ _ _ _ _ _ _ _ _ _) as [e [|]]; [apply of_error_hit|done].
  - unfold run_delete_tenant. destruct (_ =s ""); [done|]. destruct (_ =s ""); [done|].
    destruct (pg_Open _ _); [done|]. destruct (PgStore.DeleteTenant _ _ _) as [d []]; done.
  - unfold run_webhook. destruct (webhook_responses _ _); [apply of_error_hit|done].
Qed.

(** C23: The process tells its caller the truth.  It exits with 0, 1 or 2: with 2 exactly when the command
    is a scan that does not watch and whose report, delivered, breaches the threshold of --fail-on;
    with 1 for every other error, also of the arguments and of --log-level, in which case no
    command runs and nothing but standard error changes; with 0 when the command succeeds or only a
    help text was asked for.  Reporting the error changes nothing but standard error either. *)
Theorem execute_exit args (pr pr' : process St) code :
  Execute m cobra args pr = (pr', code) →
  match cobra args with
  | Err _ => code = 1%Z ∧ same_but_stderr pr pr'
  | Ok None => code = 0%Z ∧ pr' = pr
  | Ok (Some (c, g)) =>
      if is_ok (setupLogger (str_flag rootFlags g "log-level")) then
        let '(pr1, o) := run_command m c g pr in
        same_but_stderr pr1 pr' ∧
        (code = 2%Z ↔ c = Scan ∧ sp_watch (scan_params g) = false ∧ breached (scan_params g) (mc_world m) (pr_effects pr)) ∧
        (code = 1%Z ↔ ∃ er, o = Failed er) ∧ (code = 0%Z ↔ o = Done)
      else code = 1%Z ∧ same_but_stderr pr pr'
  end.
Proof.
  unfold Execute. destruct (cobra args) as [[[c g]|]|er].
  - destruct (setupLogger _) as [lvl|er]; cbn [is_ok].
    + pose proof (command_hit c g pr) as [H1 H2]. destruct (run_command m c g pr) as [pr1 o]. cbn [snd] in *.
      intros [= <- <-]. split; [destruct o; [apply same_refl|apply complain_same..]|]. rewrite <-H1.
      destruct o as [|cd msg|er]; cbn in *; [| |].
      * split_and!; split; try done. by intros [? ?].
      * rewrite H2 by done. split_and!; split; try done. by intros [? ?].
      * split_and!; split; try done. intros _. by eexists.
    + intros [= <- <-]. split; [done|apply complain_same].
  - by intros [= <- <-].
  - intros [= <- <-]. split; [done|apply complain_same].
Qed.
End exit.

(** * Erasure from the command line *)

(** What a database holds of a tenant. *)
Definition tenant_data (t : string) (d : db) :=
  (tb_tenants d !! t, List.filter (λ r, cr_tenant r =s t) (tb_clusters d), List.filter (λ r, sr_tenant r =s t) (tb_scans d),
   List.filter (λ r, hr_tenant r =s t) (tb_history d), List.filter (λ r, ar_tenant r =s t) (tb_audit d),
   filter (λ kv : (string * string) * lifecycle_row, kv.1.1 = t) (tb_lifecycle d)).

Definition no_data (t : string) (d : db) : Prop := tenant_data t d = (None, [], [], [], [], ∅).

Lemma filter_other {A} (f : A → string) t t' l : t' ≠ t →
  List.filter (λ r, f r =s t') (List.filter (λ r, f r <>s t) l) = List.filter (λ r, f r =s t') l.
Proof.
  intros Hne. rewrite list_filter_filter. apply list_filter_ext. intros r _.
  destruct (String.eqb_spec (f r) t') as [->|]; [|by rewrite andb_false_r]. by apply String.eqb_neq in Hne as ->.
Qed.

Lemma filter_gone {A} (f : A → string) t l : List.filter (λ r, f r =s t) (List.filter (λ r, f r <>s t) l) = [].
Proof. rewrite list_filter_filter. apply list_filter_none. intros r _. by destruct (f r =s t). Qed.

Lemma delete_statement_other t t' stmt d : t' ≠ t → stmt ∈ delete_tables t → tenant_data t' (stmt d) = tenant_data t' d.
Proof.
  intros Hne Hin. unfold delete_tables in Hin. rewrite !elem_of_cons in Hin. unfold tenant_data.
  destruct Hin as [->|[->|[->|[->|[->|[->|[->|[]%not_elem_of_nil]]]]]]];
    cbn [tb_tenants tb_clusters tb_scans tb_history tb_audit tb_lifecycle set_tenants set_clusters set_scans set_history
         set_audit set_lifecycle]; rewrite ?(filter_other _ t t' _ Hne); try done.
  - f_equal. apply map_eq. intros k. rewrite !map_lookup_filter. destruct (tb_lifecycle d !! k); [|done]. cbn.
    by repeat case_guard; try congruence.
  - by rewrite lookup_delete_ne.
Qed.

Lemma run_tables_other ok i stmts t t' d : t' ≠ t → (∀ s, s ∈ stmts → s ∈ delete_tables t) →
  tenant_data t' (run_tables ok i stmts d).1 = tenant_data t' d.
Proof.
  intros Hne. revert i d. induction stmts as [|s stmts IH]; intros i d Hs; cbn [run_tables]; [done|].
  destruct (ok i); [|done]. rewrite IH by (intros; apply Hs; by right). apply (delete_statement_other t); [done|]. apply Hs. by left.
Qed.

Lemma delete_tenant_gone ok t d : (PgStore.DeleteTenant ok t d).2 = true → no_data t (PgStore.DeleteTenant ok t d).1.
Proof.
  unfold PgStore.DeleteTenant, delete_tables. cbn [run_tables]. repeat (destruct (ok _); [|done]). intros _.
  unfold no_data, tenant_data.
  cbn [fst tb_tenants tb_clusters tb_scans tb_history tb_audit tb_lifecycle set_tenants set_clusters set_scans set_history
       set_audit set_lifecycle].
  rewrite !filter_gone, lookup_delete_eq. f_equal. apply map_eq. intros k. rewrite map_lookup_filter, map_lookup_filter, lookup_empty.
  destruct (tb_lifecycle d !! k); [|done]. cbn. by repeat case_guard; try congruence.
Qed.

Definition erased_tenant (g : given_flags) : string := str_flag deleteTenantFlags g "tenant".
Definition erased_dsn (getenv : string → string) (g : given_flags) : string :=
  flag_or_env getenv (str_flag deleteTenantFlags g "postgres") "KUBEGUARD_POSTGRES_DSN".


(** * Witnesses *)

Definition ex_machine : machine (ast := unit) (program := unit) (St := list ScanRecord) (IO := unit) :=
  {| mc_version := "dev"; mc_commit := "none"; mc_date := "unknown"; mc_runtime := "go1.26 linux/amd64";
     mc_getenv := λ n, if n =s "KUBEGUARD_POSTGRES_DSN" then "postgres://db" else "";
     mc_world := ex_world; mc_ticks := []; mc_write := mkWriteEnv None (λ _, None); mc_packs := Ok []; mc_io := tt;
     mc_cron := Ok; mc_listen := None; mc_moment := ex_up; mc_serve := []; mc_stat := λ _, None; mc_jwt := λ _ _, None;
     mc_otlp := λ _, None; mc_resource := None; mc_env := λ _, demo_env; mc_dashboard := []; mc_pg_dashboard := λ _ e, (e, None);
     mc_pg := mkPgWorld (λ _, None) (λ _, None) (λ _, None) (λ _ _, None) (λ _, None); mc_stmt := λ _, true; mc_stmt_error := ""; mc_reviews := [];
     mc_webhook := None |}.

Definition ex_given (l : list (string * flag_value)) : given_flags :=
  λ n, option_map snd (List.find (λ kv, kv.1 =s n) l).

(** cobra on two command lines. *)
Definition ex_cobra (args : list string) : res (option (command * given_flags)) :=
  match args with
  | ["scan"; "-i"; path; "--fail-on"; sev] =>
      Ok (Some (Scan, ex_given [("input", VString path); ("fail-on", VString sev)]))
  | ["version"] => Ok (Some (Version, ex_given []))
  | [] => Ok None
  | _ => Err "unknown command"
  end.

Definition ex_process : process (list ScanRecord) := mkProcess (mkEffects "" [] [] None) (λ _, empty_db).

Lemma execute_exit_witness :
  ∃ pr, Execute ex_machine ex_cobra ["scan"; "-i"; "m.yaml"; "--fail-on"; "critical"] ex_process = (pr, 2%Z) ∧
    let g := ex_given [("input", VString "m.yaml"); ("fail-on", VString "critical")] in
    sp_format (scan_params g) = "console" ∧ breached (scan_params g) ex_world (pr_effects ex_process).
Proof.
  destruct (Execute ex_machine ex_cobra ["scan"; "-i"; "m.yaml"; "--fail-on"; "critical"] ex_process) as [pr code] eqn:E.
  assert (code = 2%Z) as -> by (apply (f_equal snd) in E; cbn [snd] in E; rewrite <-E; vm_compute; reflexivity).
  pose proof (execute_exit ex_machine ex_cobra _ ex_process pr 2%Z E) as H. exists pr. split; [done|]. split; [reflexivity|].
  cbn [ex_cobra] in H. change (is_ok (setupLogger _)) with true in H. cbn [negb] in H.
  destruct (run_command ex_machine Scan _ ex_process) as [pr1 o]. by apply H.
Defined.

Definition two_tenants : db :=
  (pg_op (λ _, None) ok_all (OpRegister "b" prod_cluster) (pg_op (λ _, None) ok_all (OpRegister "a" prod_cluster) empty_db)).

Definition two_tenants_process : process (list ScanRecord) := mkProcess (mkEffects "" [] [] None) (λ _, two_tenants).

